(* ===== verification/_CoqProject ===== *)
-Q . S2P
Prelude.v
Config.v
MainMemory.v
Registers.v
ErrorState.v
IOPorts.v
SimCPU.v
SimCPUProps.v
VerilogDriver.v
RTLCPU.v
DriverProps.v
RTLProps.v
Machine.v
ModRM.v
Core.v
Safety.v
Decoder.v
CoreSafe.v
Stack.v
Bench.v
RTLBench.v
DecoderProps.v
Alu.v
AluProps.v
InsnAlu.v
InsnData.v
InsnBcd.v
InsnMulDiv.v
InsnShift.v
ShiftProps.v
InsnControl.v
InsnString.v
Emulate.v
StepSafe.v
AluTable.v
ControlProps.v
JumpProps.v
ShiftTable.v
StringProps.v
StackProps.v
StepProps.v
SoftwareCPU.v
CPUProps.v
Backends.v
MulDivProps.v
StorageProps.v
BcdProps.v
PIC.v
PICProps.v
Fifo.v
PS2.v
PS2Props.v
Timer.v
TimerProps.v
UART.v
SPI.v
SPIProps.v
Display.v
CGA.v
CGAProps.v
Simulator.v
SimulatorProps.v
SimArchive.v
Bios.v
BiosDisplay.v
BiosPrintk.v
BiosKeyboard.v
BiosMouse.v
BiosSD.v
BiosMain.v
BiosSim.v
BiosTame.v
BiosCard.v
BiosDisk.v
BiosSector.v
BiosInt13.v
BiosWrite.v
BiosBoot.v
BiosRoot.v
BiosRing.v
