(* ===== verification/Prelude.v ===== *)
(** * s80x86: the software CPU and its simulator

    The repository holds an 8086-compatible core in SystemVerilog and a C++
    program that runs the same machine in software: a reference model of the CPU
    ([sim/cppmodel], [sim/common]), a simulator that puts it on a bus with models
    of the board's devices ([sim]), and a BIOS in C that runs on either
    ([bios]). This library models the C++ program and the C of the BIOS, and
    proves what makes them correct, apart and together.

    ** Conventions

    Paths are below [src/]. An integer of C++ is the [Z] it denotes; [cast T]
    (here) is the conversion to a type, and the models write every conversion
    that the code makes, explicit or implicit. The bit operators have their own
    notations ([.&], [.|], [.^], [.<<], [.>>]). A member function is a
    computation of the monad [M] of ErrorState: it takes the state of the object
    and returns a value and the new state, or stops with an error (a failed
    assertion, an exception, an undefined operation). [wp] is its weakest
    precondition. Config holds what the build fixes: the models and theorems
    hold for every configuration, and for any value of the shifts that C++
    leaves undefined. Definitions are executable.

    ** The CPU

    - MainMemory: [common/Memory.{h,cpp}], the 1 MB of RAM, and [get_phys_addr]
      of [common/CPU.h].
    - Registers: [common/RegisterFile.{h,cpp}].
    - ModRM: [cppmodel/ModRM.{h,cpp}], the operand decoder.
    - IOPorts: the bus interface of [common/CPU.h], a class of which every set of
      devices is an instance; a device returns the interrupts that it raises.
    - Machine: the members of [EmulatorPimpl] ([cppmodel/Emulate.cpp]) and what it
      points to, as one record; Core: fetch, operands, stack, ports, interrupt
      entries, repetition.
    - Alu, InsnAlu, InsnData, InsnBcd, InsnMulDiv, InsnShift, InsnControl,
      InsnString: [cppmodel/instructions/*.cpp], a definition for each handler
      under its own name, and [do_alu] with its users.
    - Emulate: the opcode switch, the prefix loop, [emulate_insn], [step],
      [reset].
    - SimCPU: what every CPU of the simulator offers, [CPU] and [SimCPU] of
      [common/CPU.h], as a class, and the bodies of the base classes: arrays,
      archives. SimCPUProps states what a client may rely on.
    - SoftwareCPU: the object that the rest of the program sees
      ([cppmodel/SoftwareCPU.h], [class Emulator]): accessors, ports,
      [step_with_io]; an instance of SimCPU.

    ** The CPU that the RTL makes

    - VerilogDriver: [tests/rtl/VerilogDriver.h], the clock of a circuit that
      Verilator generates, and the ring of functions that are called back in a
      later cycle. A function is a name, and the derived class says what it does.
    - RTLCPU: [sim/RTLCPU/RTLCPU.h], [sim/RTLCPU/Core.cpp]: memory, ports and the
      interrupt controller as the circuit sees them at its pins, and the accessors,
      which run procedures of the debug microcode; the other instance of SimCPU. The
      generated model itself is not in the repository: it is the parameter [RTLModel].
      RTLBench is the smallest circuit that can take its place.

    ** The devices and the simulator

    - PIC ([sim/PIC.h]), Fifo ([sim/Fifo.h]), PS2 with Keyboard and Mouse
      ([sim/PS2.h], [sim/Keyboard.h], [sim/Mouse.h]), Timer ([sim/Timer.h]), UART
      ([sim/UART.{h,cpp}]), SPI ([sim/SPI.{h,cpp}]), Display ([sim/display/*]),
      CGA ([sim/CGA.h]).
    - Simulator: [sim/Simulator.cpp], the devices on the bus as an instance of
      [IOPorts], the constructor, the loading of the BIOS, the callback of each
      step, the loop of [run]. SimArchive: the [serialize] functions, [run_sim].

    ** The BIOS

    A function of the BIOS is a computation on a [board]: the machine, whose ports
    and memory the inline assembly of [bios/io.h] reaches, and the static variables
    of the C files, which are kept apart from the RAM (the stack and the code of
    the BIOS are not in the model's RAM either). The C is for a 16-bit [int].

    - Bios: [io.h], [bios.h], [bda.h], [leds.c], [serial.c]; BiosDisplay:
      [display.c]; BiosPrintk: [printk.c]; BiosKeyboard: [keyboard.c],
      [scancodes.h]; BiosMouse: [mouse.c]; BiosSD: [sd.c] and [disk.c]; BiosMain:
      [bios.c], [timer.c], the interrupt table and [root].
    - BiosSim puts it on the devices of the simulator: [frame] says what a call
      leaves as it is, [tame] that it always returns within its frame. BiosTame and
      BiosBoot go through the display, the messages, the controllers and the mouse,
      BiosCard, BiosDisk and BiosSector through the driver of the card.

    ** What is proved

    - Safety and invariants. StepSafe: a step from any well-formed state, whatever
      the opcode, ends well formed or stops for one of three stated reasons; it is
      proved with a small logic (Safety, CoreSafe) of operations that keep the
      invariant and of which registers they may write. CPUProps extends it to every
      history of calls of the CPU object, and SimulatorProps to every run of the
      simulator with its devices, from its constructor, under any input.
    - Decoding. DecoderProps: the addressing table of the 8086 is what the decoder
      computes (Decoder is the calculation).
    - Arithmetic. AluProps: results and flags of addition, subtraction and logic are
      those of integer arithmetic at 8 and 16 bits; AluTable: the 48 handlers of the
      ALU opcodes and the immediate group are one table. ShiftProps and ShiftTable:
      the same for shifts and rotates, which are shown equal to integer and cyclic
      operations and to undo each other. MulDivProps, BcdProps: products, quotients,
      traps, decimal adjustments.
    - Control. ControlProps: all interrupt entries are one sequence, which IRET
      undoes. JumpProps: jumps and loops. StackProps: the stack refines a list, so
      that calls return, frames are left as entered, and PUSHA and POPA cancel.
      StringProps: REP fills, copies and searches a block. StepProps: when the
      prefix loop ends, and which interrupt a step takes, and which
      instructions hold one back.
    - Storage. StorageProps: the laws of the register file and of memory. CPUProps:
      which device a port reaches; an archive restores what it saved.
    - Devices. PICProps: priority, acknowledge and end of interrupt. PS2Props: the
      queues and their packets. TimerProps: the timer interrupts every period, for
      ever. SPIProps: a block written to the card is the block read. CGAProps: the
      screen shows the memory. SimulatorProps: the state after booting.
    - The two CPUs. DriverProps: the ring is a calendar, and what is appointed is
      called on time. RTLProps: under the contract that the guide and [debug.us] give
      the debug unit (the class [DebugUnit]), reading and writing a register through the
      circuit is reading and writing the register file, whatever the circuit reads
      ahead meanwhile. Backends: so an archive of either CPU restores the other.
      SimArchive: what the archive of a whole simulation brings back, and what it does
      not.
    - The BIOS on the simulator. BiosRoot: the start-up reaches the boot sector.
      BiosInt13 and BiosWrite: INT 13h reads and writes the sectors of the image.
      BiosRing: the ring of keys is a queue, and a key pressed on the host is what
      INT 16h returns.

    ** Bounds and fuel

    Two loops of the program have no bound in their text. The prefix loop of
    [emulate_insn] gets a number of turns: [Memory.MEMORY_SIZE] is enough whenever
    some byte of the 1 MB is not a prefix, and otherwise the C++ loop does
    not end either (StepProps). A repeated string instruction gets the value of CX,
    which is exact (Core.do_rep). [load_bios] gets any number above the length of the
    image. The doubles of the timer are computed with 53-bit mantissas, rounded to
    nearest even, which is what the host does. The loops of the BIOS that poll a
    device get [poll_bound] turns; the theorems ask for a bound of a few turns, or
    of as many as a block has bytes (2048), and are about any bound above it. The loops
    of RTLCPU that wait for the circuit get [patience] turns: three more than the longest
    procedure takes are enough. The counter of cycles has 64 bits; the theorems ask that
    it does not wrap in the course of the call.

    ** Not modelled

    The RTL, its microcode, the Python binding and the tests are in other languages
    or only forward; the traces and the coverage of the RTL CPU are files. The
    [Simulator] is the one on SoftwareCPU. [bios/entry.S] and [bios/mouse_asm.S] are
    assembly: they save the registers around the C handlers and serve IRQ 0, 1 and 7.
    SDL, the terminal, the file system and the command line are outside: their results
    are arguments (the events, the characters, the files). What C++ leaves uninitialised
    is an argument of the constructors. *)

From stdpp Require Export base gmap list numbers.
From Stdlib Require Export ZArith Lia Bool.

#[export] Set Default Proof Using "Type".
Global Open Scope Z_scope.

(** ** Notations for the C++ bit operators *)

Declare Scope cpp_scope.
Delimit Scope cpp_scope with cpp.
Notation "x .& y" := (Z.land x y) (at level 40, left associativity) : cpp_scope.
Notation "x .| y" := (Z.lor x y) (at level 50, left associativity) : cpp_scope.
Notation "x .^ y" := (Z.lxor x y) (at level 45, left associativity) : cpp_scope.
Notation "~. x" := (Z.lnot x) (at level 35, right associativity) : cpp_scope.
Notation "x .<< y" := (Z.shiftl x y) (at level 38, left associativity) : cpp_scope.
Notation "x .>> y" := (Z.shiftr x y) (at level 38, left associativity) : cpp_scope.
Global Open Scope cpp_scope.

(** [!!x] of the source: an integer used as a truth value. *)
Definition nz (x : Z) : bool := negb (x =? 0).

(** ** The C++ integer types

    A value of an integer type is the [Z] it denotes; a conversion to the
    type keeps the value modulo [2 ^ width], in the signed or the unsigned
    window. *)

Inductive ctype := uint8_t | uint16_t | uint32_t | uint64_t | int8_t | int16_t | int32_t.

#[export] Instance ctype_eq_dec : EqDecision ctype.
Proof. solve_decision. Defined.

Definition sizeof (T : ctype) : Z :=
  match T with
  | uint8_t | int8_t => 1
  | uint16_t | int16_t => 2
  | uint32_t | int32_t => 4
  | uint64_t => 8
  end.

Definition is_signed (T : ctype) : bool :=
  match T with int8_t | int16_t | int32_t => true | _ => false end.

Definition width (T : ctype) : Z := 8 * sizeof T.

Definition wrap_u (w x : Z) : Z := x mod 2 ^ w.
Definition wrap_s (w x : Z) : Z := (x + 2 ^ (w - 1)) mod 2 ^ w - 2 ^ (w - 1).

(** [static_cast<T>(x)], and every implicit conversion to [T]. *)
Definition cast (T : ctype) (x : Z) : Z :=
  if is_signed T then wrap_s (width T) x else wrap_u (width T) x.

Abbreviation u8 := (cast uint8_t).
Abbreviation u16 := (cast uint16_t).
Abbreviation u32 := (cast uint32_t).
Abbreviation u64 := (cast uint64_t).
Abbreviation s8 := (cast int8_t).
Abbreviation s16 := (cast int16_t).
Abbreviation s32 := (cast int32_t).

(** The values of a type. *)
Definition in_range (T : ctype) (x : Z) : Prop :=
  if is_signed T
  then - 2 ^ (width T - 1) <= x < 2 ^ (width T - 1)
  else 0 <= x < 2 ^ width T.

Arguments cast : simpl never.
Arguments in_range : simpl never.

#[export] Instance in_range_dec T x : Decision (in_range T x).
Proof. unfold in_range. destruct (is_signed T); apply _. Defined.

(** ** Arithmetic automation *)

(** [zlia]: linear arithmetic with [/] and [mod] by constants. *)
Ltac zlia := Z.div_mod_to_equations; lia.

(** Decide every comparison of the goal by cases, dropping the absurd ones. *)
Ltac zcmp :=
  repeat match goal with
  | |- context [?a <? ?b] => destruct (Z.ltb_spec a b); try (exfalso; lia)
  | |- context [?a <=? ?b] => destruct (Z.leb_spec a b); try (exfalso; lia)
  | |- context [?a =? ?b] => destruct (Z.eqb_spec a b); try (exfalso; lia)
  end.

(** Decide an equation between comparisons of linear terms with [/] and [mod]. *)
Ltac zdecide := zcmp; try reflexivity; exfalso; zlia.

(** Split on the values [lo .. lo + n - 1] of an index known to be in that range. *)
Ltac enum_from i lo n :=
  lazymatch n with
  | O => exfalso; lia
  | S ?m => let k := eval vm_compute in (lo + Z.of_nat m) in
            destruct (Z.eq_dec i k) as [->|]; [|enum_from i lo m]
  end.
Ltac enum_below i n := enum_from i 0 n.

(** Reduce the [decide]s of reflexive equations. *)
Ltac decide_refl :=
  repeat match goal with
  | |- context [decide (?a = ?a)] => rewrite (decide_True (P := a = a)) by reflexivity
  end.

(** Decide an equation between boolean terms by cases on the bits in it. *)
Ltac zbits :=
  repeat match goal with
  | |- context [Z.testbit ?x ?i] => destruct (Z.testbit x i)
  end; try done.

Create HintDb cpp.
Create Rewrite HintDb cpp.

Lemma u8_mod x : u8 x = x mod 256. Proof. reflexivity. Qed.
Lemma u16_mod x : u16 x = x mod 65536. Proof. reflexivity. Qed.
Lemma u32_mod x : u32 x = x mod 4294967296. Proof. reflexivity. Qed.
Lemma u64_mod x : u64 x = x mod 18446744073709551616. Proof. reflexivity. Qed.
Lemma s8_mod x : s8 x = (x + 128) mod 256 - 128. Proof. reflexivity. Qed.
Lemma s16_mod x : s16 x = (x + 32768) mod 65536 - 32768. Proof. reflexivity. Qed.
Lemma s32_mod x : s32 x = (x + 2147483648) mod 4294967296 - 2147483648.
Proof. reflexivity. Qed.

Lemma in_u8 x : in_range uint8_t x <-> 0 <= x < 256. Proof. reflexivity. Qed.
Lemma in_u16 x : in_range uint16_t x <-> 0 <= x < 65536. Proof. reflexivity. Qed.
Lemma in_u32 x : in_range uint32_t x <-> 0 <= x < 4294967296. Proof. reflexivity. Qed.
Lemma in_u64 x : in_range uint64_t x <-> 0 <= x < 18446744073709551616.
Proof. reflexivity. Qed.
Lemma in_s8 x : in_range int8_t x <-> - 128 <= x < 128. Proof. reflexivity. Qed.
Lemma in_s16 x : in_range int16_t x <-> - 32768 <= x < 32768. Proof. reflexivity. Qed.
Lemma in_s32 x : in_range int32_t x <-> - 2147483648 <= x < 2147483648.
Proof. reflexivity. Qed.

(** Turn the conversions and ranges of the goal and the context into [mod]. *)
Ltac cpp_unfold :=
  rewrite ?u8_mod, ?u16_mod, ?u32_mod, ?u64_mod, ?s8_mod, ?s16_mod, ?s32_mod,
    ?in_u8, ?in_u16, ?in_u32, ?in_u64, ?in_s8, ?in_s16, ?in_s32 in *.
Ltac cpp_lia := cpp_unfold; zlia.

Lemma cast_in_range T x : in_range T (cast T x).
Proof. destruct T; cpp_lia. Qed.

Lemma cast_id T x : in_range T x -> cast T x = x.
Proof. destruct T; intros; cpp_lia. Qed.

Lemma cast_idemp T x : cast T (cast T x) = cast T x.
Proof. apply cast_id, cast_in_range. Qed.

#[export] Hint Resolve cast_in_range : cpp.
#[export] Hint Rewrite cast_idemp : cpp.

(** ** Bits of bounded integers *)

Lemma testbit_high w x i : 0 <= x < 2 ^ w -> w <= i -> Z.testbit x i = false.
Proof.
  intros Hx Hi. destruct (decide (0 <= w)) as [Hw|Hw].
  - rewrite <- (Z.mod_small x (2 ^ w)) by lia.
    apply Z.mod_pow2_bits_high. lia.
  - rewrite Z.pow_neg_r in Hx by lia. lia.
Qed.

Lemma bits_range w x :
  0 <= w -> 0 <= x -> (forall i, w <= i -> Z.testbit x i = false) -> x < 2 ^ w.
Proof.
  intros Hw Hx H. destruct (decide (x = 0)) as [->|Hne]; [apply Z.pow_pos_nonneg; lia|].
  apply Z.log2_lt_pow2; [lia|].
  destruct (Z.lt_ge_cases (Z.log2 x) w) as [|Hge]; [done|].
  specialize (H _ Hge). rewrite Z.bit_log2 in H; [discriminate|lia].
Qed.

Lemma bits_ext w x y :
  0 <= x < 2 ^ w -> 0 <= y < 2 ^ w ->
  (forall i, 0 <= i < w -> Z.testbit x i = Z.testbit y i) -> x = y.
Proof.
  intros Hx Hy H. apply Z.bits_inj'. intros i Hi.
  destruct (decide (i < w)) as [|Hge]; [apply H; lia|].
  rewrite (testbit_high w x), (testbit_high w y) by lia. done.
Qed.

Lemma cast_u_testbit T x i :
  is_signed T = false -> 0 <= i ->
  Z.testbit (cast T x) i = (i <? width T) && Z.testbit x i.
Proof.
  intros Hs Hi. unfold cast, wrap_u. rewrite Hs.
  destruct (Z.ltb_spec i (width T)).
  - rewrite Z.mod_pow2_bits_low by lia. done.
  - assert (0 <= width T) by (destruct T; discriminate).
    rewrite Z.mod_pow2_bits_high by lia. done.
Qed.

Lemma land_in_range w x m :
  0 <= w -> 0 <= m < 2 ^ w -> 0 <= x .& m < 2 ^ w.
Proof.
  intros Hw Hm. assert (0 <= x .& m) by (apply Z.land_nonneg; lia).
  split; [done|]. apply bits_range; [lia..|]. intros i Hi.
  rewrite Z.land_spec, (testbit_high w m) by lia. apply andb_false_r.
Qed.

Lemma lor_in_range w x y :
  0 <= w -> 0 <= x < 2 ^ w -> 0 <= y < 2 ^ w -> 0 <= x .| y < 2 ^ w.
Proof.
  intros Hw Hx Hy. assert (0 <= x .| y) by (apply Z.lor_nonneg; lia).
  split; [done|]. apply bits_range; [lia..|]. intros i Hi.
  rewrite Z.lor_spec, (testbit_high w x), (testbit_high w y) by lia. done.
Qed.

(** [land] with [2 ^ n - 1] is the remainder. *)
Lemma land_mask n x m : 0 <= n -> m = 2 ^ n - 1 -> x .& m = x mod 2 ^ n.
Proof.
  intros Hn ->. replace (2 ^ n - 1) with (Z.ones n) by (rewrite Z.ones_equiv; lia).
  apply Z.land_ones. lia.
Qed.

(** A number is its low [n] bits and the rest. *)
Lemma nz_true x : nz x = true <-> x <> 0.
Proof. unfold nz. destruct (Z.eqb_spec x 0); cbn; intuition congruence. Qed.

(** [x & (1 << i)] tests bit [i]. *)
Lemma nz_land_bit x m i : 0 <= i -> m = 2 ^ i -> nz (x .& m) = Z.testbit x i.
Proof.
  intros Hi ->. unfold nz. destruct (Z.testbit x i) eqn:E.
  - destruct (Z.eqb_spec (x .& 2 ^ i) 0) as [H|]; [|done].
    apply (f_equal (fun z => Z.testbit z i)) in H.
    rewrite Z.land_spec, E, Z.pow2_bits_true, Z.bits_0 in H by lia. done.
  - replace (x .& 2 ^ i) with 0; [done|]. symmetry. apply Z.bits_inj'. intros j Hj.
    rewrite Z.land_spec, Z.bits_0, Z.pow2_bits_eqb by lia.
    destruct (Z.eqb_spec i j) as [->|]; [rewrite E; done|apply andb_false_r].
Qed.

(** The bits of [q * 2 ^ n + r] are those of [r] below [n] and of [q] from there. *)
Lemma testbit_concat n q r i :
  0 <= n -> 0 <= r < 2 ^ n -> 0 <= i ->
  Z.testbit (q * 2 ^ n + r) i = if i <? n then Z.testbit r i else Z.testbit q (i - n).
Proof.
  intros Hn Hr Hi. destruct (Z.ltb_spec i n).
  - rewrite <- (Z.mod_pow2_bits_low (q * 2 ^ n + r) n i) by lia.
    rewrite Z.add_comm, Z.mod_add, Z.mod_small by lia. done.
  - replace i with (i - n + n) at 1 by lia.
    rewrite <- Z.div_pow2_bits by lia.
    rewrite Z.div_add_l, (Z.div_small r), Z.add_0_r by lia. done.
Qed.

(** A mask of [k] ones shifted by [n]. *)
Lemma testbit_field n k i :
  0 <= n -> 0 <= k -> 0 <= i ->
  Z.testbit (2 ^ (n + k) - 2 ^ n) i = (n <=? i) && (i <? n + k).
Proof.
  intros Hn Hk Hi.
  replace (2 ^ (n + k) - 2 ^ n) with (Z.ones k * 2 ^ n + 0).
  2: { rewrite Z.ones_equiv, Z.pow_add_r by lia. lia. }
  rewrite testbit_concat by lia.
  destruct (Z.ltb_spec i n), (Z.leb_spec n i), (Z.ltb_spec i (n + k)); try lia; cbn;
    rewrite ?Z.bits_0; try done.
  - apply Z.ones_spec_low; lia.
  - apply Z.ones_spec_high; lia.
Qed.

(** Glueing disjoint fields: a word with its low byte replaced, and its high one. *)
Lemma replace_low_byte x v :
  in_range uint16_t x -> (x .& 0xff00) .| (v .& 0x00ff) = (x / 256) * 256 + v mod 256.
Proof.
  intros Hx. apply Z.bits_inj'. intros i Hi.
  change 256 with (2 ^ 8). rewrite testbit_concat by (try apply Z.mod_pos_bound; lia).
  change 0xff00 with (2 ^ (8 + 8) - 2 ^ 8). change 0x00ff with (2 ^ (0 + 8) - 2 ^ 0).
  rewrite Z.lor_spec, !Z.land_spec, !testbit_field by lia.
  destruct (Z.ltb_spec i 8).
  - rewrite Z.mod_pow2_bits_low by lia. zcmp. zbits.
  - rewrite Z.div_pow2_bits by lia. replace (i - 8 + 8) with i by lia.
    zcmp; [zbits|]. rewrite (testbit_high 16 x) by (cpp_unfold; lia). zbits.
Qed.

Lemma replace_high_byte x v :
  in_range uint16_t x -> in_range uint16_t v ->
  u16 ((x .& 0x00ff) .| (v .<< 8)) = (v mod 256) * 256 + x mod 256.
Proof.
  intros Hx Hv. apply Z.bits_inj'. intros i Hi.
  change 256 with (2 ^ 8). rewrite testbit_concat by (try apply Z.mod_pos_bound; lia).
  change 0x00ff with (2 ^ (0 + 8) - 2 ^ 0).
  rewrite cast_u_testbit by (done || lia). change (width uint16_t) with 16.
  rewrite Z.lor_spec, Z.land_spec, testbit_field, Z.shiftl_spec by lia.
  destruct (Z.ltb_spec i 8).
  - rewrite Z.mod_pow2_bits_low, (Z.testbit_neg_r v) by lia. zcmp. zbits.
  - zcmp.
    + rewrite Z.mod_pow2_bits_low by lia. zbits.
    + rewrite Z.mod_pow2_bits_high by lia. done.
Qed.

Lemma high_byte x : in_range uint16_t x -> u16 (x .>> 8) = x / 256.
Proof. intros Hx. rewrite Z.shiftr_div_pow2 by lia. change (2 ^ 8) with 256. cpp_lia. Qed.

Lemma low_byte x : x .& 0x00ff = x mod 256.
Proof. by apply (land_mask 8). Qed.

(** What two successive compound assignments to a [uint16_t] leave. *)
Lemma low_half x v :
  in_range uint16_t x ->
  u16 (u16 (x .& 0xff00) .| (u16 v .& 0x00ff)) = (x / 256) * 256 + v mod 256.
Proof.
  intros Hx. rewrite (cast_id _ (x .& _)) by (apply (land_in_range 16); lia).
  rewrite replace_low_byte by done. cpp_lia.
Qed.

Lemma high_half x v :
  in_range uint16_t x ->
  u16 (u16 (x .& 0x00ff) .| (u16 v .<< 8)) = (v mod 256) * 256 + x mod 256.
Proof.
  intros Hx. rewrite (cast_id _ (x .& _)) by (apply (land_in_range 16); lia).
  rewrite replace_high_byte by auto with cpp. cpp_lia.
Qed.

(** ** Exhaustive checks *)

(** [f] holds of [x .. x + n - 1], and of [0 .. n - 1]. *)
Fixpoint forall_from (n : nat) (x : Z) (f : Z -> bool) : bool :=
  match n with
  | O => true
  | S n => if f x then forall_from n (x + 1) f else false
  end.
Definition forall_below (n : Z) (f : Z -> bool) : bool := forall_from (Z.to_nat n) 0 f.

Lemma forall_from_spec n x f y :
  forall_from n x f = true -> x <= y < x + Z.of_nat n -> f y = true.
Proof.
  revert x. induction n as [|n IH]; intros x H Hy; [lia|]. cbn [forall_from] in H.
  destruct (f x) eqn:E; [|discriminate]. destruct (Z.eq_dec y x) as [->|]; [done|].
  apply (IH (x + 1)); [done|lia].
Qed.

Lemma forall_below_spec n f x : forall_below n f = true -> 0 <= x < n -> f x = true.
Proof. intros H Hx. apply (forall_from_spec _ _ _ _ H). lia. Qed.
