(* ===== verification/Config.v ===== *)
(** * Build configuration

    What [config.h] (made by CMake from [config.h.in]) and the compiler's
    command line fix when the simulator is built, and the one value that C++
    leaves undefined: the models are parametric in all of it. *)
From S2P Require Import Prelude.

Class Config := {
  (** [-DMEM_INIT_BYTE_VAL], the CMake option [POISON_MEMORY_VALUE]. *)
  MEM_INIT_BYTE_VAL : Z;
  (** Trap on the ESC opcodes. *)
  S80X86_TRAP_ESCAPE : bool;
  (** Clear bits 12-15 of the flags register, as in 80286 real mode. *)
  S80X86_PSEUDO_286 : bool;
  (** [1 << n] for an [int] and an [n >= 32]: undefined in C++, so any value. *)
  undefined_shift : Z -> Z;
}.

(** The default build: no poisoning, ESC ignored, 8086 flags. *)
Definition default_config : Config := {|
  MEM_INIT_BYTE_VAL := 0;
  S80X86_TRAP_ESCAPE := false;
  S80X86_PSEUDO_286 := false;
  undefined_shift := fun _ => 0;
|}.
