(* ===== verification/MainMemory.v ===== *)
(** * The simulated RAM: [sim/common/Memory.h], [sim/common/Memory.cpp] and
    [get_phys_addr] of [sim/common/CPU.h]. *)
From S2P Require Import Prelude Config.

(** ** Physical addresses *)

(** [get_phys_addr]: segment and displacement to a 20-bit address. *)
Definition get_phys_addr (segment displacement : Z) : Z :=
  u32 (u32 (u32 (u16 segment) .<< 4) + u32 displacement) mod (1 * 1024 * 1024).

Module Memory.

Definition MEMORY_SIZE : Z := 1 * 1024 * 1024.

(** [uint8_t mem[MEMORY_SIZE]] as the bytes written so far over the
    constructor's contents, and [bool written]. *)
Record t := mk { cells : gmap Z Z; written : bool }.

Section memory.
Context {CFG : Config}.

Definition mem_init_8 : Z := u8 MEM_INIT_BYTE_VAL.

(** The constructor's two [memset]s. *)
Definition init_byte (addr : Z) : Z :=
  if (0x1000 <=? addr) && (addr <? 0x1000 + 128) then 0 else mem_init_8.

(** [Memory::Memory]: it leaves [written] as it finds it. *)
Definition create (uninitialised : bool) : t := mk ∅ uninitialised.

Definition byte_at (m : t) (addr : Z) : Z := default (init_byte addr) (cells m !! addr).

Definition set_byte (m : t) (addr v : Z) : t := mk (<[addr := v]> (cells m)) (written m).

(** [memcpy] from and to the array, on a little-endian host: [n] bytes. *)
Fixpoint load (n : nat) (m : t) (addr : Z) : Z :=
  match n with
  | O => 0
  | S n => byte_at m addr + 256 * load n m (addr + 1)
  end.

Fixpoint store (n : nat) (m : t) (addr v : Z) : t :=
  match n with
  | O => m
  | S n => store n (set_byte m addr (v mod 256)) (addr + 1) (v / 256)
  end.

Definition in_bounds (T : ctype) (addr : Z) : bool := addr + sizeof T <=? MEMORY_SIZE.

(** [Memory::write<T>]; [None] is the failed assertion. *)
Definition write (T : ctype) (m : t) (addr val : Z) : option t :=
  if in_bounds T addr then
    let m := store (Z.to_nat (sizeof T)) m addr (cast T val) in
    Some (mk (cells m) true)
  else None.

(** [Memory::read<T>]; [None] is the failed assertion. *)
Definition read (T : ctype) (m : t) (addr : Z) : option Z :=
  if in_bounds T addr then Some (cast T (load (Z.to_nat (sizeof T)) m addr))
  else None.

Definition has_written (m : t) : bool := written m.
Definition clear_has_written (m : t) : t := mk (cells m) false.

(** ** Invariant: every cell is a byte *)

Definition wf (m : t) : Prop := map_Forall (fun a v => 0 <= a < MEMORY_SIZE /\ 0 <= v < 256) (cells m).

(** ** Byte-level laws *)

Lemma byte_at_set_byte m a v b :
  byte_at (set_byte m a v) b = if decide (a = b) then v else byte_at m b.
Proof.
  unfold byte_at, set_byte; cbn. case_decide as H.
  - subst. by rewrite lookup_insert_eq.
  - by rewrite lookup_insert_ne.
Qed.

Lemma byte_at_range m a : wf m -> 0 <= byte_at m a < 256.
Proof.
  intros Hwf. unfold byte_at. destruct (cells m !! a) as [v|] eqn:E; cbn.
  - by apply (Hwf a v E).
  - unfold init_byte, mem_init_8. case_match; cpp_lia.
Qed.

Lemma wf_set_byte m a v :
  wf m -> 0 <= a < MEMORY_SIZE -> 0 <= v < 256 -> wf (set_byte m a v).
Proof. intros Hwf Ha Hv. by apply map_Forall_insert_2. Qed.

Lemma wf_store n m a v :
  wf m -> 0 <= a -> a + Z.of_nat n <= MEMORY_SIZE -> wf (store n m a v).
Proof.
  revert m a v. induction n as [|n IH]; intros m a v Hwf Ha Hn; [done|]. cbn [store].
  apply IH; [|lia..]. apply wf_set_byte; [done|lia|]. apply Z.mod_pos_bound. lia.
Qed.

Lemma wf_create w : wf (create w).
Proof. apply map_Forall_empty. Qed.

(** [store] changes exactly the bytes of its window. *)
Lemma byte_at_store_out n m a v b :
  b < a \/ a + Z.of_nat n <= b -> byte_at (store n m a v) b = byte_at m b.
Proof.
  revert m a v. induction n as [|n IH]; intros m a v H; [done|]. cbn [store].
  rewrite IH by lia. rewrite byte_at_set_byte, decide_False by lia. done.
Qed.

Lemma load_store_out k n m a v b :
  b + Z.of_nat k <= a \/ a + Z.of_nat n <= b ->
  load k (store n m a v) b = load k m b.
Proof.
  revert b. induction k as [|k IH]; intros b H; [done|]. cbn [load].
  rewrite IH by lia. rewrite byte_at_store_out by lia. done.
Qed.

Lemma load_store_eq n m a v : load n (store n m a v) a = v mod 256 ^ Z.of_nat n.
Proof.
  revert m a v. induction n as [|n IH]; intros m a v.
  { cbn. by rewrite Z.mod_1_r. }
  cbn [load store]. rewrite IH, byte_at_store_out by lia.
  rewrite byte_at_set_byte, decide_True by done.
  rewrite Nat2Z.inj_succ, Z.pow_succ_r by lia.
  rewrite Z.rem_mul_r by lia. done.
Qed.

Lemma load_range n m a : wf m -> 0 <= load n m a < 256 ^ Z.of_nat n.
Proof.
  intros Hwf. revert a. induction n as [|n IH]; intros a; [cbn; lia|].
  cbn [load]. specialize (IH (a + 1)). pose proof (byte_at_range m a Hwf).
  rewrite Nat2Z.inj_succ, Z.pow_succ_r by lia. lia.
Qed.

(** Loading only looks at the bytes of the window. *)
Lemma load_ext k m m' a :
  (forall b, a <= b < a + Z.of_nat k -> byte_at m b = byte_at m' b) ->
  load k m a = load k m' a.
Proof.
  revert a. induction k as [|k IH]; intros a H; [done|]. cbn [load].
  rewrite H, (IH (a + 1)); [done| |lia]. intros b Hb. apply H. lia.
Qed.

(** ** Laws of [read] and [write] *)

Lemma write_Some T m a v :
  a + sizeof T <= MEMORY_SIZE ->
  write T m a v = Some (mk (cells (store (Z.to_nat (sizeof T)) m a (cast T v))) true).
Proof. intros H. unfold write, in_bounds. by rewrite (proj2 (Z.leb_le _ _)). Qed.

Lemma read_Some T m a :
  a + sizeof T <= MEMORY_SIZE ->
  read T m a = Some (cast T (load (Z.to_nat (sizeof T)) m a)).
Proof. intros H. unfold read, in_bounds. by rewrite (proj2 (Z.leb_le _ _)). Qed.

Lemma wf_write T m a v m' : wf m -> 0 <= a -> write T m a v = Some m' -> wf m'.
Proof.
  intros Hwf Ha. unfold write, in_bounds.
  destruct (Z.leb_spec (a + sizeof T) MEMORY_SIZE); [|discriminate].
  intros [= <-]. unfold wf; cbn. apply (wf_store _ m); [done..|].
  rewrite Z2Nat.id; [lia|by destruct T].
Qed.

Lemma load_written n m w a : load n (mk (cells m) w) a = load n m a.
Proof. by apply load_ext. Qed.

Lemma read_write_eq T m m' a v :
  is_signed T = false -> write T m a v = Some m' -> read T m' a = Some (cast T v).
Proof.
  intros Hs. unfold write, read. destruct (in_bounds T a); [|discriminate].
  intros [= <-]. rewrite load_written, load_store_eq. f_equal.
  rewrite Z2Nat.id by (by destruct T).
  replace (cast T v mod 256 ^ sizeof T) with (cast T (cast T v)) by (by destruct T).
  by rewrite !cast_idemp.
Qed.

Lemma read_write_ne T T' m m' a b v :
  write T m a v = Some m' -> b + sizeof T' <= a \/ a + sizeof T <= b ->
  read T' m' b = read T' m b.
Proof.
  unfold write, read. destruct (in_bounds T a); [|discriminate].
  intros [= <-] H. destruct (in_bounds T' b); [|done].
  rewrite load_written, load_store_out; [done|].
  rewrite !Z2Nat.id by (by destruct T, T'). done.
Qed.

Lemma read_in_range T m a v : read T m a = Some v -> in_range T v.
Proof. unfold read. destruct (in_bounds T a); [|discriminate]. intros [= <-]. auto with cpp. Qed.

End memory.
End Memory.

#[export] Hint Resolve Memory.wf_create Memory.wf_write : cpp.

Lemma get_phys_addr_range segment displacement :
  0 <= get_phys_addr segment displacement < Memory.MEMORY_SIZE.
Proof. apply Z.mod_pos_bound. unfold Memory.MEMORY_SIZE. lia. Qed.

(** On 16-bit segments and displacements the address is the textbook one. *)
Lemma get_phys_addr_eq segment displacement :
  in_range uint16_t segment -> in_range uint32_t displacement ->
  get_phys_addr segment displacement = (segment * 16 + displacement) mod Memory.MEMORY_SIZE.
Proof.
  intros Hs Hd. unfold get_phys_addr, Memory.MEMORY_SIZE.
  rewrite (cast_id uint16_t), (cast_id uint32_t segment) by cpp_lia.
  rewrite Z.shiftl_mul_pow2 by lia. cpp_lia.
Qed.
