(* ===== verification/Registers.v ===== *)
(** * The register file: [sim/common/RegisterFile.h] and
    [sim/common/RegisterFile.cpp]. *)
From S2P Require Import Prelude Config.

(** [enum GPR]: the thirteen 16-bit registers, then the byte registers. *)
Inductive GPR :=
  | AX | CX | DX | BX | SP | BP | SI | DI | ES | CS | SS | DS | IP
  | AL | CL | DL | BL | AH | CH | DH | BH.

#[export] Instance GPR_eq_dec : EqDecision GPR.
Proof. solve_decision. Defined.

Definition all_GPR : list GPR :=
  [AX; CX; DX; BX; SP; BP; SI; DI; ES; CS; SS; DS; IP;
   AL; CL; DL; BL; AH; CH; DH; BH].

Definition NUM_16BIT_REGS : Z := 13.
Definition NUM_REGS : Z := 21.

(** [static_cast<int>] on the enum. *)
Definition GPR_to_int (r : GPR) : Z :=
  match r with
  | AX => 0 | CX => 1 | DX => 2 | BX => 3 | SP => 4 | BP => 5 | SI => 6 | DI => 7
  | ES => 8 | CS => 9 | SS => 10 | DS => 11 | IP => 12
  | AL => 13 | CL => 14 | DL => 15 | BL => 16
  | AH => 17 | CH => 18 | DH => 19 | BH => 20
  end.

(** [static_cast<GPR>]: [None] for an integer that is no enumerator. *)
Definition GPR_of_int (n : Z) : option GPR :=
  if n <? 0 then None else all_GPR !! Z.to_nat n.

(** [enum FlagBitPos] and [enum Flag]. *)
Definition CF_OFFS : Z := 0.
Definition PF_OFFS : Z := 2.
Definition AF_OFFS : Z := 4.
Definition ZF_OFFS : Z := 6.
Definition SF_OFFS : Z := 7.
Definition TF_OFFS : Z := 8.
Definition IF_OFFS : Z := 9.
Definition DF_OFFS : Z := 10.
Definition OF_OFFS : Z := 11.

Definition CF : Z := 1 .<< CF_OFFS.
Definition PF : Z := 1 .<< PF_OFFS.
Definition AF : Z := 1 .<< AF_OFFS.
Definition ZF : Z := 1 .<< ZF_OFFS.
Definition SF : Z := 1 .<< SF_OFFS.
Definition TF : Z := 1 .<< TF_OFFS.
Definition IF : Z := 1 .<< IF_OFFS.
Definition DF : Z := 1 .<< DF_OFFS.
Definition OF : Z := 1 .<< OF_OFFS.

Definition FLAGS_STUCK_BITS {CFG : Config} : Z :=
  if S80X86_PSEUDO_286 then 0x0000 .| (1 .<< 1) else 0xf000 .| (1 .<< 1).

Module RegisterFile.

(** [uint16_t registers[NUM_16BIT_REGS]], [uint16_t flags], [bool written]. *)
Record t := mk { registers : list Z; flags : Z; written : bool }.

Section register_file.
Context {CFG : Config}.

(** [registers[r]] and [registers[r] = v] for a 16-bit register. *)
Definition reg16 (rf : t) (r : GPR) : Z := registers rf !!! Z.to_nat (GPR_to_int r).
Definition assign (rf : t) (r : GPR) (v : Z) : t :=
  mk (<[Z.to_nat (GPR_to_int r) := u16 v]> (registers rf)) (flags rf) (written rf).

Definition set_written (rf : t) (w : bool) : t := mk (registers rf) (flags rf) w.

Definition reset (rf : t) : t :=
  mk (replicate (Z.to_nat NUM_16BIT_REGS) 0) (u16 FLAGS_STUCK_BITS) false.

(** The constructor ends in [reset], which overwrites every member. *)
Definition create : t := reset (mk [] (u16 FLAGS_STUCK_BITS) false).

Definition set (rf : t) (regnum : GPR) (value : Z) : t :=
  let value := u16 value in
  let rf := if decide (regnum = IP) then rf else set_written rf false in
  let set_low r :=
    let rf := assign rf r (reg16 rf r .& 0xff00) in
    assign rf r (reg16 rf r .| (value .& 0x00ff)) in
  let set_high r :=
    let rf := assign rf r (reg16 rf r .& 0x00ff) in
    assign rf r (reg16 rf r .| (value .<< 8)) in
  match regnum with
  | AL => set_low AX | CL => set_low CX | DL => set_low DX | BL => set_low BX
  | AH => set_high AX | CH => set_high CX | DH => set_high DX | BH => set_high BX
  | r => assign rf r value
  end.

Definition get (rf : t) (regnum : GPR) : Z :=
  match regnum with
  | AL => u16 (reg16 rf AX .& 0x00ff)
  | CL => u16 (reg16 rf CX .& 0x00ff)
  | DL => u16 (reg16 rf DX .& 0x00ff)
  | BL => u16 (reg16 rf BX .& 0x00ff)
  | AH => u16 (reg16 rf AX .>> 8)
  | CH => u16 (reg16 rf CX .>> 8)
  | DH => u16 (reg16 rf DX .>> 8)
  | BH => u16 (reg16 rf BX .>> 8)
  | r => u16 (reg16 rf r)
  end.

Definition get_flags (rf : t) : Z := u16 (flags rf .| FLAGS_STUCK_BITS).

Definition get_flag (rf : t) (f : Z) : bool := nz (flags rf .& f).

Definition reserved_mask : Z :=
  u16 ((if S80X86_PSEUDO_286 then 0xf000 else 0) .| (1 .<< 1) .| (1 .<< 3) .| (1 .<< 5)).
Definition valid_mask : Z :=
  u16 (CF .| PF .| AF .| ZF .| SF .| TF .| IF .| DF .| OF).

Definition set_flags (rf : t) (val mask : Z) : t :=
  let val := u16 val in
  let mask := u16 mask in
  let mask := u16 (mask .& ~. reserved_mask) in
  let mask := u16 (mask .& valid_mask) in
  let fl := u16 (flags rf .& ~. mask) in
  let fl := u16 (fl .| (((val .& mask) .| FLAGS_STUCK_BITS) .& 0x0fff)) in
  mk (registers rf) fl true.

Definition has_written (rf : t) : bool := written rf.
Definition clear_has_written (rf : t) : t := set_written rf false.

(** ** Invariant *)

(** Thirteen words; the bits of [flags] outside [valid_mask] are the stuck bits. *)
Record wf (rf : t) : Prop := {
  wf_length : length (registers rf) = 13%nat;
  wf_registers : Forall (in_range uint16_t) (registers rf);
  wf_flags : in_range uint16_t (flags rf);
  wf_stuck : flags rf .& ~. valid_mask = FLAGS_STUCK_BITS;
}.

(** The 16-bit register a GPR lives in. *)
Definition parent (r : GPR) : GPR :=
  match r with
  | AL | AH => AX | CL | CH => CX | DL | DH => DX | BL | BH => BX
  | r => r
  end.

Definition is_byte (r : GPR) : bool :=
  match r with AL | CL | DL | BL | AH | CH | DH | BH => true | _ => false end.
Definition is_high (r : GPR) : bool :=
  match r with AH | CH | DH | BH => true | _ => false end.

(** Two GPRs share storage. *)
Definition overlap (r r' : GPR) : bool :=
  bool_decide (parent r = parent r') &&
  negb (is_byte r && is_byte r' && xorb (is_high r) (is_high r')).

(** The type of the value a GPR holds. *)
Definition gpr_type (r : GPR) : ctype := if is_byte r then uint8_t else uint16_t.

(** ** Laws of the array *)

Lemma reg16_range rf r : wf rf -> in_range uint16_t (reg16 rf r).
Proof.
  intros [Hl Hr _ _]. unfold reg16. rewrite list_lookup_total_alt.
  destruct (registers rf !! _) as [v|] eqn:E; cbn; [|done].
  exact (Forall_lookup_1 _ _ _ _ Hr E).
Qed.

Lemma reg16_assign rf r r' v :
  wf rf -> is_byte r = false -> is_byte r' = false ->
  reg16 (assign rf r v) r' = if decide (r = r') then u16 v else reg16 rf r'.
Proof.
  intros [Hl _ _ _] Hr Hr'. unfold reg16, assign; cbn. case_decide as Hd.
  - subst. apply list_lookup_total_insert_eq. rewrite Hl.
    destruct r'; discriminate || (cbn; lia).
  - apply list_lookup_total_insert_ne.
    destruct r, r'; try discriminate; congruence || (cbn; lia).
Qed.

Lemma wf_assign rf r v : wf rf -> wf (assign rf r v).
Proof.
  intros [Hl Hr Hf Hs]. split; cbn; [by rewrite length_insert| |done..].
  apply Forall_insert; auto with cpp.
Qed.

Lemma wf_set_written rf w : wf rf -> wf (set_written rf w).
Proof. by intros [Hl Hr Hf Hs]. Qed.

Lemma reg16_set_written rf w r : reg16 (set_written rf w) r = reg16 rf r.
Proof. done. Qed.

Lemma FLAGS_STUCK_BITS_range : in_range uint16_t FLAGS_STUCK_BITS.
Proof. unfold FLAGS_STUCK_BITS. by case_match. Qed.

Lemma wf_reset rf : wf (reset rf).
Proof.
  split; cbn; [done|repeat constructor; done|auto with cpp|].
  unfold FLAGS_STUCK_BITS. by case_match.
Qed.

Lemma registers_wf_create : wf create.
Proof. apply wf_reset. Qed.

Lemma wf_set rf r v : wf rf -> wf (set rf r v).
Proof.
  intros H. unfold set.
  assert (wf (if decide (r = IP) then rf else set_written rf false))
    by (case_decide; auto using wf_set_written).
  destruct r; auto using wf_assign.
Qed.

(** ** Reading back *)

(** What [set] does to the 16-bit words. *)
Definition set_word (r : GPR) (old v : Z) : Z :=
  if is_byte r then
    if is_high r then (v mod 256) * 256 + old mod 256 else (old / 256) * 256 + v mod 256
  else u16 v.

Lemma reg16_set rf r v r' :
  wf rf -> is_byte r' = false ->
  reg16 (set rf r v) r' =
    if decide (parent r = r') then set_word r (reg16 rf r') v else reg16 rf r'.
Proof.
  intros Hwf Hr'. unfold set.
  set (rf' := if decide (r = IP) then rf else set_written rf false).
  assert (wf rf') as Hwf' by (unfold rf'; case_decide; auto using wf_set_written).
  assert (forall q, reg16 rf' q = reg16 rf q) as Hq by (intros q; unfold rf'; by case_decide).
  assert (forall q, in_range uint16_t (reg16 rf q)) as Hrng by (intros; by apply reg16_range).
  destruct r; cbn [parent]; unfold set_word; cbn [is_byte is_high];
    rewrite ?reg16_assign, ?Hq by auto using wf_assign;
    decide_refl;
    (case_decide as Hd; [subst r'|done]);
    rewrite ?cast_idemp, ?low_half, ?high_half by done; done.
Qed.

(** A GPR as a function of its word. *)
Definition view (r : GPR) (w : Z) : Z :=
  if is_byte r then if is_high r then w / 256 else w mod 256 else w.

Lemma get_view rf r : wf rf -> get rf r = view r (reg16 rf (parent r)).
Proof.
  intros Hwf. pose proof (reg16_range rf (parent r) Hwf) as Hr.
  destruct r; cbn [parent] in *; unfold view; cbn [is_byte is_high GPR_to_int]; cbn [get];
    rewrite ?low_byte, ?high_byte by done; try done; cpp_lia.
Qed.

(** Every GPR is a part of a word. *)
Lemma get_by_word rf r : wf rf -> get rf r = view r (get rf (parent r)).
Proof.
  intros Hrf. rewrite !get_view by done.
  by replace (view (parent r) _) with (reg16 rf (parent (parent r))) by (by destruct r); destruct r.
Qed.

Lemma get_range rf r : wf rf -> in_range (gpr_type r) (get rf r).
Proof.
  intros Hwf. rewrite get_view by done. pose proof (reg16_range rf (parent r) Hwf) as Hr.
  destruct r; unfold gpr_type, view; cbn [is_byte is_high GPR_to_int parent] in *;
    cbn -[reg16]; cpp_lia.
Qed.

Lemma parent_word r : is_byte (parent r) = false.
Proof. by destruct r. Qed.

Lemma get_set rf r v r' :
  wf rf ->
  get (set rf r v) r' =
    if decide (parent r = parent r')
    then view r' (set_word r (reg16 rf (parent r')) v) else get rf r'.
Proof.
  intros Hwf. rewrite !get_view by auto using wf_set.
  rewrite reg16_set by (auto using parent_word). by case_decide.
Qed.

Lemma get_set_eq rf r v : wf rf -> get (set rf r v) r = cast (gpr_type r) v.
Proof.
  intros Hwf. rewrite get_set, decide_True by done.
  pose proof (reg16_range rf (parent r) Hwf) as Hr.
  destruct r; unfold view, set_word, gpr_type; cbn [is_byte is_high GPR_to_int parent] in *;
    cbn -[reg16 cast] in *; cpp_lia.
Qed.

Lemma get_set_ne rf r v r' :
  wf rf -> overlap r r' = false -> get (set rf r v) r' = get rf r'.
Proof.
  intros Hwf Ho. rewrite get_set by done. case_decide as Hd; [|done].
  rewrite get_view by done. pose proof (reg16_range rf (parent r') Hwf) as Hr.
  unfold overlap in Ho. rewrite bool_decide_true in Ho by done.
  destruct r, r'; try discriminate; unfold view, set_word;
    cbn [is_byte is_high GPR_to_int parent] in *; cbn -[reg16 cast] in *; cpp_lia.
Qed.

(** The 16-bit registers, by name: the form the emulator's proofs use. *)
Lemma get_set_word rf r v r' :
  wf rf -> is_byte r = false -> is_byte r' = false ->
  get (set rf r v) r' = if decide (r = r') then u16 v else get rf r'.
Proof.
  intros Hwf Hr Hr'. case_decide as Hd.
  - subst. rewrite get_set_eq by done. unfold gpr_type. by rewrite Hr'.
  - rewrite get_set_ne; [done..|]. unfold overlap. rewrite Hr, Hr'. cbn.
    rewrite bool_decide_false; [done|]. by destruct r, r'.
Qed.

(** ** Flags *)

Lemma get_set_flags rf val mask r : get (set_flags rf val mask) r = get rf r.
Proof. by destruct r. Qed.

Lemma flags_set rf r v : flags (set rf r v) = flags rf.
Proof. unfold set. by case_decide; destruct r. Qed.

Lemma get_flags_set rf r v : get_flags (set rf r v) = get_flags rf.
Proof. unfold get_flags. by rewrite flags_set. Qed.

Lemma valid_mask_eq : valid_mask = 0xfd5.
Proof. reflexivity. Qed.

Lemma stuck_testbit rf i :
  wf rf -> 0 <= i -> Z.testbit valid_mask i = false ->
  Z.testbit (flags rf) i = Z.testbit FLAGS_STUCK_BITS i.
Proof.
  intros Hwf Hi Hv. rewrite <- (wf_stuck rf Hwf).
  rewrite Z.land_spec, Z.lnot_spec, Hv by lia. by rewrite andb_true_r.
Qed.

Lemma valid_bits i :
  0 <= i < 16 -> Z.testbit valid_mask i = true ->
  Z.testbit reserved_mask i = false /\ Z.testbit FLAGS_STUCK_BITS i = false /\
  Z.testbit 0x0fff i = true.
Proof.
  intros Hi. unfold reserved_mask, FLAGS_STUCK_BITS.
  destruct S80X86_PSEUDO_286; enum_below i 16%nat; vm_compute; intuition congruence.
Qed.

(** [set_flags] replaces exactly the architectural bits of the mask. *)
Lemma set_flags_testbit rf val mask i :
  wf rf -> 0 <= i ->
  Z.testbit (flags (set_flags rf val mask)) i =
    if Z.testbit valid_mask i && Z.testbit mask i
    then Z.testbit val i else Z.testbit (flags rf) i.
Proof.
  intros Hwf Hi. pose proof (stuck_testbit rf i Hwf Hi) as Hst.
  unfold set_flags; cbn [flags].
  repeat (rewrite ?cast_u_testbit, ?Z.lor_spec, ?Z.land_spec, ?Z.lnot_spec by (done || lia)).
  change (width uint16_t) with 16. zcmp.
  - pose proof (valid_bits i ltac:(lia)) as Hb.
    destruct (Z.testbit valid_mask i).
    + destruct Hb as (-> & -> & ->); [done|]. zbits.
    + rewrite Hst by done. zbits.
  - rewrite (testbit_high 16 (flags rf)), (testbit_high 16 valid_mask);
      [done|split; [by vm_compute|done]|lia|apply (wf_flags rf Hwf)|lia].
Qed.
Lemma stuck_valid i :
  0 <= i -> Z.testbit valid_mask i = true -> Z.testbit FLAGS_STUCK_BITS i = false.
Proof.
  intros Hi Hv. destruct (Z.lt_ge_cases i 16) as [|Hge].
  - apply valid_bits; [lia|done].
  - by rewrite (testbit_high 16 valid_mask) in Hv by (done || split; by vm_compute).
Qed.

Lemma wf_set_flags rf val mask : wf rf -> wf (set_flags rf val mask).
Proof.
  intros Hwf. split; [apply Hwf..|apply cast_in_range|].
  apply Z.bits_inj'. intros i Hi.
  rewrite Z.land_spec, Z.lnot_spec, set_flags_testbit by done.
  destruct (Z.testbit valid_mask i) eqn:Hv; cbn.
  - rewrite andb_false_r. symmetry. by apply stuck_valid.
  - rewrite andb_true_r. by apply stuck_testbit.
Qed.

(** The reserved bits are stored as they are read. *)
Lemma get_flags_eq rf : wf rf -> get_flags rf = flags rf.
Proof.
  intros Hwf. unfold get_flags. replace (flags rf .| FLAGS_STUCK_BITS) with (flags rf).
  - apply cast_id, Hwf.
  - apply Z.bits_inj'. intros i Hi. rewrite Z.lor_spec.
    destruct (Z.testbit valid_mask i) eqn:Hv.
    + rewrite (stuck_valid i) by done. zbits.
    + rewrite (stuck_testbit rf i) by done. zbits.
Qed.

Lemma get_flag_testbit rf i : 0 <= i -> get_flag rf (1 .<< i) = Z.testbit (flags rf) i.
Proof.
  intros Hi. unfold get_flag. apply nz_land_bit; [done|].
  rewrite Z.shiftl_mul_pow2; lia.
Qed.

Lemma get_flags_range rf : in_range uint16_t (get_flags rf).
Proof. apply cast_in_range. Qed.

(** All the flags, replaced by those of another file. *)
Lemma set_all_flags rf rf' :
  wf rf -> wf rf' ->
  get_flags (set_flags rf (get_flags rf') 0xffff) =
    get_flags rf'.
Proof.
  intros H H'. pose proof (get_flags_range rf') as Hr.
  pose proof (get_flags_range
    (set_flags rf (get_flags rf') 0xffff)) as Hr2.
  rewrite in_u16 in Hr, Hr2. apply (bits_ext 16); [done..|]. intros i Hi.
  rewrite (get_flags_eq (set_flags _ _ _))
    by by apply wf_set_flags.
  rewrite set_flags_testbit by (done || lia).
  rewrite (get_flags_eq rf') by done.
  destruct (Z.testbit valid_mask i) eqn:E.
  - change 0xffff with (2 ^ (0 + 16) - 2 ^ 0). rewrite testbit_field by lia. zcmp. done.
  - cbn [andb]. by rewrite !stuck_testbit by (done || lia).
Qed.
End register_file.
End RegisterFile.

#[export] Hint Resolve RegisterFile.wf_set RegisterFile.wf_reset RegisterFile.registers_wf_create
  RegisterFile.wf_set_written RegisterFile.wf_set_flags : cpp.
