(* ===== verification/ErrorState.v ===== *)
(** * Stateful C++ code that can stop

    The monad in which the member functions of the simulator are written: a
    computation takes the object's state and either returns a value and the
    state it leaves, or stops with an error (a failed assertion, an undefined
    operation, an exception). With it: a weakest-precondition calculus and
    the pointwise equality of computations. *)
From S2P Require Import Prelude.

(** How a member function can stop without returning. *)
Inductive error :=
  | AssertMemory      (** the bounds assertion of [Memory::read] and [Memory::write] *)
  | AssertFailed      (** another [assert] *)
  | BadEnum           (** [static_cast<GPR>] of an integer that is no enumerator *)
  | Unreachable       (** [__builtin_unreachable()] *)
  | SignedOverflow    (** [INT_MIN / -1] *)
  | DeviceError       (** an assertion or exception in a device *)
  | BadIndex          (** an index outside an array *)
  | Halted            (** the endless loop of [panic] *)
  | NotImplemented    (** the exception of a virtual method that a class does not override *)
  | ExecutionTimeout           (** the exception of an execution that takes too long *)
  | OutOfFuel.        (** the bound given to a loop of the model was too small *)

#[export] Instance error_eq_dec : EqDecision error.
Proof. solve_decision. Defined.

Inductive outcome (S A : Type) :=
  | Ok (a : A) (s : S)
  | Err (e : error).
Arguments Ok {S A} a s.
Arguments Err {S A} e.

Definition M (S A : Type) : Type := S -> outcome S A.

#[export] Instance M_ret S : MRet (M S) := fun A a s => Ok a s.
#[export] Instance M_bind S : MBind (M S) := fun A B f m s =>
  match m s with Ok a s' => f a s' | Err e => Err e end.
#[export] Instance M_fmap S : FMap (M S) := fun A B f m s =>
  match m s with Ok a s' => Ok (f a) s' | Err e => Err e end.

Definition throw {S A} (e : error) : M S A := fun _ => Err e.
Definition gets {S A} (f : S -> A) : M S A := fun s => Ok (f s) s.
Definition modify {S} (f : S -> S) : M S unit := fun s => Ok tt (f s).
(** [assert(b)]. *)
Definition assert_true {S} (b : bool) : M S unit :=
  if b then mret tt else throw AssertFailed.
(** A member function of a part of the state. *)
Definition from_option {S A} (e : error) (o : option A) : M S A :=
  match o with Some a => mret a | None => throw e end.

(** ** Running *)

Definition value_of {S A} (o : outcome S A) : option A :=
  match o with Ok a _ => Some a | Err _ => None end.
Definition state_of {S A} (o : outcome S A) : option S :=
  match o with Ok _ s => Some s | Err _ => None end.

(** ** Weakest preconditions

    [wp m Q E s]: from [s], [m] either returns [a] in a state with [Q], or
    stops with an error that [E] allows. *)

Section wp.
Context {S : Type}.

Definition wp {A} (m : M S A) (Q : A -> S -> Prop) (E : error -> Prop) (s : S) : Prop :=
  match m s with Ok a s' => Q a s' | Err e => E e end.

Lemma wp_ret {A} (a : A) Q E s : Q a s -> wp (mret a) Q E s.
Proof. done. Qed.

Lemma wp_bind {A B} (m : M S A) (f : A -> M S B) Q E s :
  wp m (fun a => wp (f a) Q E) E s -> wp (m ≫= f) Q E s.
Proof. unfold wp, mbind, M_bind. by destruct (m s). Qed.

Lemma wp_bind_inv {A B} (m : M S A) (f : A -> M S B) Q E s :
  wp (m ≫= f) Q E s -> wp m (fun a => wp (f a) Q E) E s.
Proof. unfold wp, mbind, M_bind. by destruct (m s). Qed.

Lemma wp_fmap {A B} (m : M S A) (f : A -> B) Q E s :
  wp m (fun a => Q (f a)) E s -> wp (f <$> m) Q E s.
Proof. unfold wp, fmap, M_fmap. by destruct (m s). Qed.

Lemma wp_mono {A} (m : M S A) (Q Q' : A -> S -> Prop) (E E' : error -> Prop) s :
  wp m Q E s -> (forall a s', Q a s' -> Q' a s') -> (forall e, E e -> E' e) -> wp m Q' E' s.
Proof. unfold wp. destruct (m s); auto. Qed.

Lemma wp_gets {A} (f : S -> A) Q E s : Q (f s) s -> wp (gets f) Q E s.
Proof. done. Qed.

Lemma wp_modify (f : S -> S) Q E s : Q tt (f s) -> wp (modify f) Q E s.
Proof. done. Qed.

Lemma wp_throw {A} e (Q : A -> S -> Prop) (E : error -> Prop) s : E e -> wp (throw e) Q E s.
Proof. done. Qed.

Lemma wp_ok {A} (m : M S A) Q E s a s' : m s = Ok a s' -> Q a s' -> wp m Q E s.
Proof. unfold wp. intros H. by rewrite H. Qed.

Lemma wp_elim {A} (m : M S A) Q E s a s' : wp m Q E s -> m s = Ok a s' -> Q a s'.
Proof. unfold wp. intros H H2. by rewrite H2 in H. Qed.

Lemma wp_elim_err {A} (m : M S A) Q E s e : wp m Q E s -> m s = Err e -> E e.
Proof. unfold wp. intros H H2. by rewrite H2 in H. Qed.
End wp.

Arguments wp : simpl never.

(** ** Equality of computations *)

#[export] Instance M_equiv S A : Equiv (M S A) := fun m1 m2 => forall s, m1 s = m2 s.

#[export] Instance M_equivalence S A : Equivalence (≡@{M S A}).
Proof.
  split; [by intros m s|by intros m1 m2 H s|].
  intros m1 m2 m3 H1 H2 s. by rewrite H1.
Qed.

#[export] Instance M_bind_proper S A B :
  Proper (pointwise_relation A (≡) ==> (≡) ==> (≡)) (@mbind (M S) _ A B).
Proof.
  intros f1 f2 Hf m1 m2 Hm s. unfold mbind, M_bind. rewrite (Hm s).
  destruct (m2 s); [apply Hf|done].
Qed.

#[export] Instance M_fmap_proper S A B (f : A -> B) :
  Proper ((≡) ==> (≡)) (@fmap (M S) _ A B f).
Proof. intros m1 m2 Hm s. unfold fmap, M_fmap. by rewrite (Hm s). Qed.

Section laws.
Context {S : Type}.

Lemma bind_ret_l {A B} (a : A) (f : A -> M S B) : mret a ≫= f ≡ f a.
Proof. done. Qed.

Lemma bind_assoc {A B C} (m : M S A) (f : A -> M S B) (g : B -> M S C) :
  (m ≫= f) ≫= g ≡ m ≫= (fun a => f a ≫= g).
Proof. intros s. unfold mbind, M_bind. by destruct (m s). Qed.

Lemma fmap_bind {A B C} (m : M S A) (f : A -> B) (g : B -> M S C) :
  (f <$> m) ≫= g ≡ m ≫= (fun a => g (f a)).
Proof. intros s. unfold mbind, M_bind, fmap, M_fmap. by destruct (m s). Qed.

Lemma bind_ext {A B} (m : M S A) (f g : A -> M S B) :
  (forall a, f a ≡ g a) -> m ≫= f ≡ m ≫= g.
Proof. intros H s. unfold mbind, M_bind. destruct (m s); [apply H|done]. Qed.
End laws.

#[export] Hint Rewrite @bind_ret_l @bind_assoc @fmap_bind : cpp.

(** ** Loops *)

(** [for (i = first; i < first + n; ++i) f(i)], and from 0. *)
Fixpoint for_from {S} (n : nat) (first : Z) (f : Z -> M S unit) : M S unit :=
  match n with
  | O => mret ()
  | Datatypes.S n => f first ;; for_from n (first + 1) f
  end.
Definition for_loop {S} (n : Z) (f : Z -> M S unit) : M S unit := for_from (Z.to_nat n) 0 f.

(** A loop whose body always returns returns, and keeps an invariant. *)
Lemma for_from_inv {S} (I : Z -> S -> Prop) n first f s :
  I first s ->
  (forall i s, first <= i < first + Z.of_nat n -> I i s -> exists s', f i s = Ok tt s' /\ I (i + 1) s') ->
  exists s', for_from n first f s = Ok tt s' /\ I (first + Z.of_nat n) s'.
Proof.
  revert first s. induction n as [|n IH]; intros first s H0 Hf; cbn [for_from].
  { exists s. by rewrite Z.add_0_r. }
  destruct (Hf first s) as (s1 & E1 & H1); [lia|done|].
  destruct (IH (first + 1) s1) as (s2 & E2 & H2); [done| |].
  { intros i s' Hi. apply Hf. lia. }
  exists s2. unfold mbind, M_bind. rewrite E1. split; [done|].
  by replace (first + Z.of_nat (Datatypes.S n)) with (first + 1 + Z.of_nat n) by lia.
Qed.

Lemma for_loop_inv {S} (I : Z -> S -> Prop) n f s :
  0 <= n -> I 0 s ->
  (forall i s, 0 <= i < n -> I i s -> exists s', f i s = Ok tt s' /\ I (i + 1) s') ->
  exists s', for_loop n f s = Ok tt s' /\ I n s'.
Proof.
  intros Hn H0 Hf. destruct (for_from_inv I (Z.to_nat n) 0 f s) as (s' & E & H); [done| |].
  { intros i s' Hi. apply Hf. lia. }
  exists s'. split; [done|]. by replace n with (0 + Z.of_nat (Z.to_nat n)) by lia.
Qed.
