(* ===== verification/IOPorts.v ===== *)
(** * I/O ports: the interface between the CPU and the devices

    [class IOPorts] of [sim/common/CPU.h], and the interrupt-acknowledge
    callback of [SimCPU]. A device is an object behind a pointer; the pointers
    are the [ioport] handles, and [D] is the state of all the objects
    together. A call may raise interrupts on the CPU
    ([SimCPU::raise_irq], reached through the PIC): the calls it makes are
    returned in order, for the CPU to apply. *)
From S2P Require Import Prelude ErrorState.

(** An [IOPorts *]. *)
Definition ioport := nat.

Class IOPorts (D : Type) := {
  (** [get_base()], [get_num_ports()]: fixed when the object is made. *)
  get_base : ioport -> Z;
  get_num_ports : ioport -> Z;
  (** The virtual methods; the list is the interrupts raised on the CPU. *)
  ioport_read8 : ioport -> Z -> Z -> M D (Z * list Z);
  ioport_read16 : ioport -> Z -> M D (Z * list Z);
  ioport_write8 : ioport -> Z -> Z -> Z -> M D (list Z);
  ioport_write16 : ioport -> Z -> Z -> M D (list Z);
  (** [SimCPU::inta_handler]. *)
  inta_handler : Z -> M D unit;
}.

Section defaults.
Context {D : Type}.
Variable read8 : Z -> Z -> M D (Z * list Z).
Variable write8 : Z -> Z -> Z -> M D (list Z).

(** The bodies [IOPorts::read16] and [IOPorts::write16] that a device
    inherits when it does not override them. *)
Definition default_read16 (port_num : Z) : M D (Z * list Z) :=
  '(lo, i1) ← read8 port_num 0 ;
  '(hi, i2) ← read8 port_num 1 ;
  mret (u16 (u8 lo .| (u16 (u8 hi) .<< 8)), i1 ++ i2).

Definition default_write16 (port_num v : Z) : M D (list Z) :=
  i1 ← write8 port_num 0 (u8 v) ;
  i2 ← write8 port_num 1 (u8 (v .>> 8)) ;
  mret (i1 ++ i2).
End defaults.
