(* ===== verification/SimCPU.v ===== *)
(** * What every CPU of the simulator offers: [class CPU] and [class SimCPU] of
    [sim/common/CPU.h]

    The virtual methods that the bodies of the base classes call, as a class, and
    those bodies. *)
From S2P Require Import Prelude Config MainMemory Registers ErrorState.

Class SimCPU (C : Type) := {
  memory_of : C -> Memory.t;                  (** the member [mem] *)
  with_memory : Memory.t -> C -> C;
  sim_write_reg : GPR -> Z -> M C unit;
  sim_read_reg : GPR -> M C Z;
  sim_write_flags : Z -> M C unit;
  sim_read_flags : M C Z;
  sim_write_mem8 : Z -> Z -> Z -> M C unit;
  sim_write_mem16 : Z -> Z -> Z -> M C unit;
  sim_read_mem8 : Z -> Z -> M C Z;
  sim_read_mem16 : Z -> Z -> M C Z;
}.

(** What a [SimCPU] archive holds: the memory, one word per register, FLAGS. *)
Record archive := mk_archive { ar_mem : Memory.t; ar_regs : list Z; ar_flags : Z }.

Section bodies.
Context {C : Type} {CPU : SimCPU C}.

(** ** The array accessors of [class CPU] *)

Fixpoint read_vector8_from (n : nat) (segment addr m : Z) : M C (list Z) :=
  match n with
  | O => mret []
  | S n =>
      b ← sim_read_mem8 segment (addr + m) ;
      v ← read_vector8_from n segment addr (m + 1) ;
      mret (b :: v)
  end.
Definition read_vector8 (segment addr : Z) (count : nat) : M C (list Z) :=
  read_vector8_from count segment addr 0.

Fixpoint write_vector8_from (segment addr offs : Z) (v : list Z) : M C unit :=
  match v with
  | [] => mret ()
  | b :: v =>
      sim_write_mem8 segment (addr + offs) b ;;
      write_vector8_from segment addr (u16 (offs + 1)) v
  end.
Definition write_vector8 (segment addr : Z) (v : list Z) : M C unit :=
  write_vector8_from segment addr 0 v.

Fixpoint read_vector16_from (n : nat) (segment addr m : Z) : M C (list Z) :=
  match n with
  | O => mret []
  | S n =>
      w ← sim_read_mem16 segment (addr + m * 2) ;
      v ← read_vector16_from n segment addr (m + 1) ;
      mret (w :: v)
  end.
Definition read_vector16 (segment addr : Z) (count : nat) : M C (list Z) :=
  read_vector16_from count segment addr 0.

Fixpoint write_vector16_from (segment addr offs : Z) (v : list Z) : M C unit :=
  match v with
  | [] => mret ()
  | w :: v =>
      sim_write_mem16 segment (addr + offs) w ;;
      write_vector16_from segment addr (u16 (offs + 2)) v
  end.
Definition write_vector16 (segment addr : Z) (v : list Z) : M C unit :=
  write_vector16_from segment addr 0 v.

(** ** [SimCPU::save] and [SimCPU::load] *)

(** [AX] to [NUM_16BIT_REGS], which is [AL], inclusive. *)
Definition saved_regs : list GPR :=
  [AX; CX; DX; BX; SP; BP; SI; DI; ES; CS; SS; DS; IP; AL].

Fixpoint save_regs (l : list GPR) : M C (list Z) :=
  match l with
  | [] => mret []
  | r :: l => v ← sim_read_reg r ; vs ← save_regs l ; mret (v :: vs)
  end.

Definition save : M C archive :=
  m ← gets memory_of ;
  regs ← save_regs saved_regs ;
  flags ← sim_read_flags ;
  mret (mk_archive m regs flags).

Fixpoint load_regs (l : list GPR) (vs : list Z) : M C unit :=
  match l, vs with
  | r :: l, v :: vs => sim_write_reg r v ;; load_regs l vs
  | _, _ => mret ()
  end.

Definition load (ar : archive) : M C unit :=
  modify (with_memory (ar_mem ar)) ;;
  load_regs saved_regs (ar_regs ar) ;;
  sim_write_flags (ar_flags ar).

End bodies.
