(* ===== verification/SimCPUProps.v ===== *)
(** * What a client of [SimCPU] may rely on

    The contract of the accessors of [SimCPU], which both implementations keep,
    and what it gives: an archive that one of them saves restores the processor
    that is seen through the other. *)
From S2P Require Import Prelude Config MainMemory Registers ErrorState SimCPU.

(** An object shows a memory and a register file; reading and writing are those
    of the register file. An access may be limited in number, for an object that
    counts cycles: [shows n] is an object that is good for [n] more. *)
Class SimCPULaws {CFG : Config} (C : Type) {CPU : SimCPU C} := {
  shows : nat -> Memory.t -> RegisterFile.t -> C -> Prop;
  shows_wf n m rf c : shows n m rf c -> RegisterFile.wf rf;
  shows_memory n m rf c : shows n m rf c -> memory_of c = m;
  shows_with n m m' rf c : shows n m rf c -> shows n m' rf (with_memory m' c);
  shows_read n m rf c r :
    shows (S n) m rf c -> exists c', sim_read_reg r c = Ok (RegisterFile.get rf r) c' /\ shows n m rf c';
  shows_write n m rf c r v :
    shows (S n) m rf c -> exists c', sim_write_reg r v c = Ok tt c' /\ shows n m (RegisterFile.set rf r (u16 v)) c';
  shows_read_flags n m rf c :
    shows (S n) m rf c -> exists c', sim_read_flags c = Ok (RegisterFile.get_flags rf) c' /\ shows n m rf c';
  shows_write_flags n m rf c v :
    shows (S n) m rf c ->
    exists c', sim_write_flags v c = Ok tt c' /\ shows n m (RegisterFile.set_flags rf (u16 v) 0xffff) c';
}.

(** ** Registers written one after the other *)

Section files.
Context {CFG : Config}.
Implicit Types rf : RegisterFile.t.

Definition set_all (l : list GPR) (vs : list Z) (rf : RegisterFile.t) : RegisterFile.t :=
  foldl (fun rf '(r, v) => RegisterFile.set rf r (u16 v)) rf (zip l vs).

Lemma wf_set_all l vs rf : RegisterFile.wf rf -> RegisterFile.wf (set_all l vs rf).
Proof.
  revert vs rf. induction l as [|r l IH]; intros [|v vs] rf Hrf; try done.
  apply (IH vs). by apply RegisterFile.wf_set.
Qed.

Lemma flags_set_all l vs rf : RegisterFile.flags (set_all l vs rf) = RegisterFile.flags rf.
Proof.
  revert vs rf. induction l as [|r l IH]; intros [|v vs] rf; try done.
  etransitivity; [apply (IH vs)|]. apply RegisterFile.flags_set.
Qed.

(** After loading words from [rf], those words are the ones of [rf]. *)
Lemma get_set_all l rf rf0 r :
  RegisterFile.wf rf -> RegisterFile.wf rf0 ->
  Forall (fun q => RegisterFile.is_byte q = false) l -> RegisterFile.is_byte r = false ->
  RegisterFile.get (set_all l (RegisterFile.get rf <$> l) rf0) r =
    if decide (r ∈ l) then RegisterFile.get rf r else RegisterFile.get rf0 r.
Proof.
  intros Hrf. revert rf0. induction l as [|q l IH]; intros rf0 Hrf0 Hl Hr; [done|].
  inversion_clear Hl as [|?? Hq Hl']. cbn [set_all fmap list_fmap zip zip_with foldl].
  etransitivity; [apply (IH (RegisterFile.set rf0 q (u16 (RegisterFile.get rf q)))); try done;
    by apply RegisterFile.wf_set|].
  destruct (decide (r ∈ l)) as [Hin|Hin].
  { by rewrite decide_True by by right. }
  rewrite RegisterFile.get_set_word by done. case_decide as Hqr.
  - subst q. rewrite decide_True, cast_idemp by by left. apply cast_id.
    pose proof (RegisterFile.get_range rf r Hrf) as H. unfold RegisterFile.gpr_type in H. by rewrite Hr in H.
  - rewrite decide_False; [done|]. by intros [|]%elem_of_cons.
Qed.

(** The registers that [load] makes of an archive of [rf]. *)
Definition restored rf rf0 : RegisterFile.t :=
  RegisterFile.set_flags (set_all saved_regs (RegisterFile.get rf <$> saved_regs) rf0)
    (u16 (RegisterFile.get_flags rf)) 0xffff.

Lemma restored_wf rf rf0 : RegisterFile.wf rf0 -> RegisterFile.wf (restored rf rf0).
Proof. intros H. by apply RegisterFile.wf_set_flags, wf_set_all. Qed.

(** The registers are those of [rf]: the thirteen words are written, and AL is
    then written once more. *)
Lemma restored_get rf rf0 r :
  RegisterFile.wf rf -> RegisterFile.wf rf0 -> RegisterFile.get (restored rf rf0) r = RegisterFile.get rf r.
Proof.
  intros Hrf Hrf0. unfold restored. rewrite RegisterFile.get_set_flags.
  set (words := [AX; CX; DX; BX; SP; BP; SI; DI; ES; CS; SS; DS; IP]).
  set (rf1 := set_all words (RegisterFile.get rf <$> words) rf0).
  change (set_all saved_regs (RegisterFile.get rf <$> saved_regs) rf0)
    with (RegisterFile.set rf1 AL (u16 (RegisterFile.get rf AL))).
  assert (Hrf1 : RegisterFile.wf rf1) by by apply wf_set_all.
  assert (Hw : forall r, RegisterFile.is_byte r = false -> RegisterFile.get rf1 r = RegisterFile.get rf r).
  { intros q Hq. unfold rf1. rewrite get_set_all by (done || by repeat constructor).
    rewrite decide_True; [done|]. destruct q; try discriminate; set_solver. }
  assert (Hw' : forall r, RegisterFile.is_byte r = false ->
    RegisterFile.get (RegisterFile.set rf1 AL (u16 (RegisterFile.get rf AL))) r = RegisterFile.get rf r).
  { intros q Hq. rewrite RegisterFile.get_set by done. case_decide as Hd; [|by apply Hw].
    destruct q; try discriminate. rewrite (RegisterFile.get_by_word rf AL) by done.
    pose proof (RegisterFile.get_view rf1 AX Hrf1) as Hax. rewrite Hw in Hax by done.
    pose proof (RegisterFile.get_range rf AX Hrf) as Hr. change (RegisterFile.gpr_type AX) with uint16_t in Hr.
    unfold RegisterFile.view, RegisterFile.set_word in *.
    cbn [RegisterFile.is_byte RegisterFile.is_high RegisterFile.parent] in *.
    rewrite <- Hax. generalize dependent (RegisterFile.get rf AX). intros x _ Hx. cpp_lia. }
  rewrite (RegisterFile.get_by_word (RegisterFile.set _ _ _)), (RegisterFile.get_by_word rf r)
    by (done || by apply RegisterFile.wf_set).
  by rewrite Hw' by apply RegisterFile.parent_word.
Qed.

Lemma restored_flags rf rf0 :
  RegisterFile.wf rf -> RegisterFile.wf rf0 ->
  RegisterFile.get_flags (restored rf rf0) = RegisterFile.get_flags rf.
Proof.
  intros Hrf Hrf0. unfold restored. rewrite (cast_id uint16_t) by apply RegisterFile.get_flags_range.
  apply RegisterFile.set_all_flags; [by apply wf_set_all|done].
Qed.
End files.

(** ** Saving and loading *)

Section archive.
Context {CFG : Config} {C : Type} {CPU : SimCPU C} {L : SimCPULaws C}.
Implicit Types (c : C) (rf : RegisterFile.t) (m : Memory.t).

Lemma save_regs_shows l n m rf c :
  shows (length l + n) m rf c -> exists c', save_regs l c = Ok (RegisterFile.get rf <$> l) c' /\ shows n m rf c'.
Proof.
  revert c. induction l as [|r l IH]; intros c Hc; [by exists c|].
  destruct (shows_read (length l + n) m rf c r Hc) as (c1 & E1 & H1). destruct (IH c1 H1) as (c2 & E2 & H2).
  exists c2. split; [|done]. cbn [save_regs]. unfold mbind, M_bind. by rewrite E1, E2.
Qed.

Lemma load_regs_shows l vs n m rf c :
  length vs = length l -> shows (length l + n) m rf c ->
  exists c', load_regs l vs c = Ok tt c' /\ shows n m (set_all l vs rf) c'.
Proof.
  revert vs rf c. induction l as [|r l IH]; intros [|v vs] rf c Hl Hc; try discriminate; [by exists c|].
  destruct (shows_write (length l + n) m rf c r v Hc) as (c1 & E1 & H1).
  injection Hl as Hl. destruct (IH vs _ c1 Hl H1) as (c2 & E2 & H2).
  exists c2. split; [|done]. cbn [load_regs]. unfold mbind, M_bind. by rewrite E1, E2.
Qed.

(** [save] makes an archive of what is shown. *)
Definition archive_of m rf : archive := mk_archive m (RegisterFile.get rf <$> saved_regs) (RegisterFile.get_flags rf).

Lemma save_shows n m rf c :
  shows (15 + n) m rf c -> exists c', save c = Ok (archive_of m rf) c' /\ shows n m rf c'.
Proof.
  intros Hc. destruct (save_regs_shows saved_regs (1 + n) m rf c) as (c1 & E1 & H1); [exact Hc|].
  destruct (shows_read_flags _ _ _ _ H1) as (c2 & E2 & H2). exists c2. split; [|done].
  unfold save, mbind, M_bind, gets. rewrite E1, E2. by rewrite (shows_memory _ _ _ _ Hc).
Qed.

(** [load] shows what was saved. *)
Lemma load_shows n m m0 rf rf0 c :
  shows (15 + n) m0 rf0 c ->
  exists c', load (archive_of m rf) c = Ok tt c' /\ shows n m (restored rf rf0) c'.
Proof.
  intros Hc. apply (shows_with _ _ m) in Hc.
  destruct (load_regs_shows saved_regs (RegisterFile.get rf <$> saved_regs) (1 + n) m rf0 _ (length_fmap _ _) Hc) as (c1 & E1 & H1).
  destruct (shows_write_flags _ _ _ _ (RegisterFile.get_flags rf) H1) as (c2 & E2 & H2).
  exists c2. split; [|done]. unfold load, mbind, M_bind, modify. cbn [ar_mem ar_regs ar_flags archive_of]. by rewrite E1.
Qed.
End archive.
