(* ===== verification/VerilogDriver.v ===== *)
(** * The driver of a simulated circuit: [tests/rtl/VerilogDriver.h]

    The base class of [RTLCPU]: it clocks the model that Verilator generates, and
    calls back the functions that were handed to [periodic] and
    [after_n_cycles]. The functions are closures in C++; here they have names,
    and the class that makes them says what each does. Tracing and coverage only
    write files. *)
From S2P Require Import Prelude ErrorState.

(** The generated class, as the driver uses it: two pins and [eval]. *)
Class Verilated (T : Type) := {
  dut_eval : T -> T;
  dut_clk : T -> Z;
  set_dut_clk : Z -> T -> T;
  dut_reset : T -> Z;
  set_dut_reset : Z -> T -> T;
}.

(** The function of [reset], or one of the derived class. *)
Inductive callback (E : Type) :=
  | ReleaseReset
  | Client (e : E).
Arguments ReleaseReset {E}. Arguments Client {E} e.

Definition evals_per_cycle : Z := 10.
Definition max_deferred_delta : Z := 64.

(** [deferred_events] has [max_deferred_delta] vectors. *)
Record driver (T E : Type) := mk_driver {
  dut : T;
  cycle_num : Z;
  deferred_events : list (list (callback E));
  clock_setup : list (callback E);      (** [periodic_events] *)
  clock_capture : list (callback E);
}.
Arguments mk_driver {T E}. Arguments dut {T E}. Arguments cycle_num {T E}.
Arguments deferred_events {T E}. Arguments clock_setup {T E}. Arguments clock_capture {T E}.

(** An object of a derived class: its base, and what its functions do. *)
Class DriverBase (T E S : Type) := {
  base : S -> driver T E;
  with_base : driver T E -> S -> S;
}.
Class Callbacks (E S : Type) := call_client : E -> M S unit.

Section driver.
Context {T E S : Type} {V : Verilated T} {VD : DriverBase T E S}.
Implicit Types d : driver T E.

Definition put_dut (x : T) d := mk_driver x (cycle_num d) (deferred_events d) (clock_setup d) (clock_capture d).
Definition put_cycle_num (x : Z) d := mk_driver (dut d) x (deferred_events d) (clock_setup d) (clock_capture d).
Definition put_deferred (x : list (list (callback E))) d :=
  mk_driver (dut d) (cycle_num d) x (clock_setup d) (clock_capture d).
Definition put_setup (x : list (callback E)) d :=
  mk_driver (dut d) (cycle_num d) (deferred_events d) x (clock_capture d).
Definition put_capture (x : list (callback E)) d :=
  mk_driver (dut d) (cycle_num d) (deferred_events d) (clock_setup d) x.

Definition on_base (f : driver T E -> driver T E) : M S unit := modify (fun s => with_base (f (base s)) s).
Definition on_dut (f : T -> T) : M S unit := on_base (fun d => put_dut (f (dut d)) d).
Definition from_base {A} (f : driver T E -> A) : M S A := gets (fun s => f (base s)).

(** [VerilogDriver::VerilogDriver]. *)
Definition driver_create (model : T) : driver T E :=
  mk_driver (set_dut_clk 0 (set_dut_reset 0 model)) 0 (replicate (Z.to_nat max_deferred_delta) []) [] [].

(** [deferred_events[target % max_deferred_delta].push_back(cb)]. *)
Definition push_event (target : Z) (cb : callback E) d : driver T E :=
  put_deferred (alter (fun l => l ++ [cb]) (Z.to_nat (target mod max_deferred_delta)) (deferred_events d)) d.

Definition at_cycle (target : Z) (cb : callback E) : M S unit :=
  n ← from_base cycle_num ;
  assert_true (n <=? target) ;;
  assert_true (target <? u64 (n + max_deferred_delta)) ;;
  on_base (push_event target cb).

Definition after_n_cycles (delta : Z) (cb : callback E) : M S unit :=
  n ← from_base cycle_num ;
  at_cycle (u64 (n + delta)) cb.

Definition periodic_setup (e : E) : M S unit := on_base (fun d => put_setup (clock_setup d ++ [Client e]) d).
Definition periodic_capture (e : E) : M S unit := on_base (fun d => put_capture (clock_capture d ++ [Client e]) d).

Context {CB : Callbacks E S}.

Definition call (cb : callback E) : M S unit :=
  match cb with
  | ReleaseReset => on_dut (set_dut_reset 0)
  | Client e => call_client e
  end.

Fixpoint call_all (l : list (callback E)) : M S unit :=
  match l with [] => mret () | cb :: l => call cb ;; call_all l end.

(** The vector is copied and cleared before its functions are called. *)
Definition due_now d : nat := Z.to_nat (cycle_num d mod max_deferred_delta).
Definition clear_due d : driver T E := put_deferred (<[due_now d := []]> (deferred_events d)) d.

Definition run_deferred_events : M S unit :=
  events ← from_base (fun d => deferred_events d !!! due_now d) ;
  on_base clear_due ;;
  call_all events.

Definition toggle_clk : M S unit :=
  on_dut (fun x => set_dut_clk (if nz (dut_clk x) then 0 else 1) x).
Definition eval : M S unit := on_dut dut_eval.

(** The body of the inner loop of [cycle]. *)
Definition eval_turn (j : Z) : M S unit :=
  if j =? 0 then
    setup ← from_base clock_setup ;
    call_all setup ;;
    toggle_clk ;;
    eval ;;
    run_deferred_events ;;
    eval ;;
    capture ← from_base clock_capture ;
    call_all capture
  else if j =? evals_per_cycle / 2 then toggle_clk ;; eval
  else eval.

Definition cycle_once : M S unit :=
  for_loop evals_per_cycle eval_turn ;;
  on_base (fun d => put_cycle_num (u64 (cycle_num d + 1)) d).

Definition cycle (count : Z) : M S unit := for_loop count (fun _ => cycle_once).

(** The loop of [reset], for at most [fuel] turns. *)
Fixpoint cycle_until_released (fuel : nat) : M S unit :=
  match fuel with
  | O => throw OutOfFuel
  | Datatypes.S fuel =>
      cycle 1 ;;
      r ← from_base (fun d => dut_reset (dut d)) ;
      if nz r then cycle_until_released fuel else mret ()
  end.

Definition driver_reset (fuel : nat) (count : Z) : M S unit :=
  on_dut (set_dut_reset 1) ;;
  after_n_cycles count ReleaseReset ;;
  cycle_until_released fuel.

End driver.
