(* ===== verification/RTLCPU.v ===== *)
(** * The CPU that the RTL makes: [sim/RTLCPU/RTLCPU.h] and [sim/RTLCPU/Core.cpp]

    The class drives the model that Verilator generates from [RTLCPU.sv] by its
    pins: it plays the memory, the ports and the interrupt controller, and it
    reads and writes registers by the debug procedures of the microcode. The
    generated model is not in the repository: it is the parameter [RTLModel]. *)
From S2P Require Import Prelude Config MainMemory Registers ErrorState IOPorts SimCPU VerilogDriver.

(** The input pins of [RTLCPU.sv], and the output pins. *)
Inductive input :=
  | clk | reset | nmi | intr | irq
  | q_m_data_in | q_m_ack | io_m_data_in | io_m_ack
  | debug_seize | debug_addr | debug_run | debug_wr_val | debug_wr_en
  | cache_enabled.

Inductive output :=
  | inta
  | q_m_addr | q_m_data_out | q_m_access | q_m_wr_en | q_m_bytesel
  | io_m_addr | io_m_data_out | io_m_access | io_m_wr_en | io_m_bytesel
  | d_io | lock
  | debug_stopped | debug_val.

#[export] Instance input_eq_dec : EqDecision input.
Proof. solve_decision. Defined.

Definition pins : Type := input -> Z.

(** [dut.p = v], [v] as the type of the pin holds it. *)
Definition pin_type (p : input) : ctype :=
  match p with
  | q_m_data_in | io_m_data_in | debug_wr_val => uint16_t
  | _ => uint8_t
  end.
Definition drive (p : input) (v : Z) (l : pins) : pins :=
  fun q => if decide (q = p) then cast (pin_type p) v else l q.

(** What Verilator generates: what [eval] makes of the registers and wires, the
    output pins, and the three functions that the RTL exports. *)
Class RTLModel := {
  wires : Type;
  power_on : pins * wires;
  rtl_eval : pins -> wires -> wires;
  rtl_out : wires -> output -> Z;
  get_ext_int_yield : wires -> bool;
  get_microcode_address : wires -> Z;
  get_and_clear_length : wires -> Z * wires;
}.

(** The functions handed to [after_n_cycles] and [periodic], in the order in
    which they occur. *)
Inductive rtl_event :=
  | MemAccess | IoAccess | MemWrite | IoWrite | SampleStopped | DriveIrq | EndInterrupt
  | StartProc (addr : Z) | StopRun | Detach
  | WriteTemp (val : Z) | StopWrite
  | MemRead | MemAck | MemDone
  | IoRead | IoAck | IoDone
  | NmiHigh | NmiLow.

Section rtlcpu.
Context {CFG : Config} {RTL : RTLModel} {D : Type} {IOP : IOPorts D}.

(** [VRTLCPU]. *)
Record model := mk_model { in_pins : pins; state : wires }.

#[export] Instance model_verilated : Verilated model := {
  dut_eval x := mk_model (in_pins x) (rtl_eval (in_pins x) (state x));
  dut_clk x := in_pins x clk;
  set_dut_clk v x := mk_model (drive clk v (in_pins x)) (state x);
  dut_reset x := in_pins x reset;
  set_dut_reset v x := mk_model (drive reset v (in_pins x)) (state x);
}.

(** The members, with those of [SimCPU]; [devs] are the objects that the
    pointers of [io] name. *)
Record rtlcpu := mk_rtlcpu {
  drv : driver model rtl_event;
  mem : Memory.t;
  devs : D;
  mem_in_progress : bool;
  io_in_progress : bool;
  mem_latency : Z;
  is_stopped : bool;
  io : gmap Z ioport;
  pending_irq : Z;
  int_in_progress : bool;
}.

Implicit Types s : rtlcpu.

Definition put_drv x s := mk_rtlcpu x (mem s) (devs s) (mem_in_progress s) (io_in_progress s) (mem_latency s)
  (is_stopped s) (io s) (pending_irq s) (int_in_progress s).
Definition put_mem x s := mk_rtlcpu (drv s) x (devs s) (mem_in_progress s) (io_in_progress s) (mem_latency s)
  (is_stopped s) (io s) (pending_irq s) (int_in_progress s).
Definition put_devs x s := mk_rtlcpu (drv s) (mem s) x (mem_in_progress s) (io_in_progress s) (mem_latency s)
  (is_stopped s) (io s) (pending_irq s) (int_in_progress s).
Definition put_mem_in_progress x s := mk_rtlcpu (drv s) (mem s) (devs s) x (io_in_progress s) (mem_latency s)
  (is_stopped s) (io s) (pending_irq s) (int_in_progress s).
Definition put_io_in_progress x s := mk_rtlcpu (drv s) (mem s) (devs s) (mem_in_progress s) x (mem_latency s)
  (is_stopped s) (io s) (pending_irq s) (int_in_progress s).
Definition put_is_stopped x s := mk_rtlcpu (drv s) (mem s) (devs s) (mem_in_progress s) (io_in_progress s)
  (mem_latency s) x (io s) (pending_irq s) (int_in_progress s).
Definition put_io x s := mk_rtlcpu (drv s) (mem s) (devs s) (mem_in_progress s) (io_in_progress s) (mem_latency s)
  (is_stopped s) x (pending_irq s) (int_in_progress s).
Definition put_pending_irq x s := mk_rtlcpu (drv s) (mem s) (devs s) (mem_in_progress s) (io_in_progress s)
  (mem_latency s) (is_stopped s) (io s) x (int_in_progress s).
Definition put_int_in_progress x s := mk_rtlcpu (drv s) (mem s) (devs s) (mem_in_progress s) (io_in_progress s)
  (mem_latency s) (is_stopped s) (io s) (pending_irq s) x.

Definition pin s (p : output) : Z := rtl_out (state (dut (drv s))) p.
Definition pin_set s (p : output) : bool := nz (pin s p).
Definition input_pin s (p : input) : Z := in_pins (dut (drv s)) p.

Definition map_pins (f : pins -> pins) s : rtlcpu :=
  put_drv (put_dut (mk_model (f (in_pins (dut (drv s)))) (state (dut (drv s)))) (drv s)) s.
Definition set_pin (p : input) (v : Z) : M rtlcpu unit := modify (map_pins (drive p v)).

(** ** What the functions do *)

(** [RTLCPU::raise_irq], which the controller calls. *)
Definition rtl_raise_irq (irq_num : Z) s : rtlcpu := put_pending_irq (u8 irq_num) s.

(** A call of a device, which may raise interrupts. *)
Definition call_device {A} (f : M D A) (irqs : A -> list Z) : M rtlcpu A := fun s =>
  match f (devs s) with
  | Ok a d => Ok a (foldl (fun s i => rtl_raise_irq i s) (put_devs d s) (irqs a))
  | Err e => Err e
  end.

Definition ack_int (irq_num : Z) : M rtlcpu unit := call_device (inta_handler irq_num) (fun _ => []).

Definition read_word (addr : Z) : M rtlcpu Z :=
  m ← gets mem ; from_option AssertMemory (Memory.read uint16_t m addr).
Definition write_byte (addr v : Z) : M rtlcpu unit :=
  m ← gets mem ;
  m ← from_option AssertMemory (Memory.write uint8_t m addr v) ;
  modify (put_mem m).

(** The address of a bus cycle, and the port that is there. *)
Definition mem_bus_addr s : Z := u32 (pin s q_m_addr .<< 1).
Definition io_bus_addr s : Z := pin s io_m_addr .<< 1.
Definition io_port s : option ioport := io s !! u16 (io_bus_addr s).

(** [auto p = io[addr]; ... addr - p->get_base()]. *)
Definition write_port s (p : ioport) : M rtlcpu unit :=
  let n := u16 (io_bus_addr s - get_base p) in
  let v := pin s io_m_data_out in
  (if pin s io_m_bytesel =? 0x3 then call_device (ioport_write16 p n (u16 v)) id
   else if nz (pin s io_m_bytesel .& (1 .<< 0)) then call_device (ioport_write8 p n 0 (u8 v)) id
   else if nz (pin s io_m_bytesel .& (1 .<< 1)) then call_device (ioport_write8 p n 1 (u8 (v .>> 8))) id
   else mret []) ;;
  mret ().

Definition read_port s (p : ioport) : M rtlcpu unit :=
  let n := u16 (io_bus_addr s - get_base p) in
  if pin s io_m_bytesel =? 0x3 then
    r ← call_device (ioport_read16 p n) snd ; set_pin io_m_data_in (u16 (fst r))
  else if nz (pin s io_m_bytesel .& 0x1) then
    r ← call_device (ioport_read8 p n 0) snd ; set_pin io_m_data_in (u8 (fst r))
  else if nz (pin s io_m_bytesel .& 0x2) then
    r ← call_device (ioport_read8 p n 1) snd ; set_pin io_m_data_in (u8 (fst r) .<< 8)
  else mret ().

#[export] Instance rtlcpu_driver : DriverBase model rtl_event rtlcpu := {
  base := drv;
  with_base := put_drv;
}.

(** [RTLCPU::mem_access] and [RTLCPU::io_access], called before the clock edge. *)
Definition mem_access : M rtlcpu unit :=
  s ← gets id ;
  if nz (input_pin s reset) || negb (pin_set s q_m_access) || pin_set s d_io || mem_in_progress s then mret ()
  else
    after_n_cycles 0 (Client MemRead) ;;
    modify (put_mem_in_progress true) ;;
    after_n_cycles (mem_latency s) (Client MemAck).

Definition io_access : M rtlcpu unit :=
  s ← gets id ;
  if nz (input_pin s reset) || negb (pin_set s io_m_access) || negb (pin_set s d_io) || io_in_progress s then mret ()
  else
    after_n_cycles 0 (Client IoRead) ;;
    modify (put_io_in_progress true) ;;
    after_n_cycles (mem_latency s) (Client IoAck).

(** The four functions that the constructor hands to [periodic] for the end of
    a cycle, and the one for the interrupt. *)
Definition mem_write : M rtlcpu unit :=
  s ← gets id ;
  if pin_set s q_m_access && negb (pin_set s d_io) && pin_set s q_m_wr_en then
    (if nz (pin s q_m_bytesel .& (1 .<< 0)) then write_byte (mem_bus_addr s) (u8 (pin s q_m_data_out .& 0xff))
     else mret ()) ;;
    (if nz (pin s q_m_bytesel .& (1 .<< 1)) then
       write_byte (u32 (mem_bus_addr s + 1)) (u8 ((pin s q_m_data_out .>> 8) .& 0xff))
     else mret ())
  else mret ().

Definition io_write : M rtlcpu unit :=
  s ← gets id ;
  if pin_set s io_m_access && pin_set s d_io && pin_set s io_m_wr_en && negb (io_in_progress s) then
    match io_port s with
    | None => mret ()
    | Some p => write_port s p
    end
  else mret ().

Definition sample_stopped : M rtlcpu unit := modify (fun s => put_is_stopped (pin_set s debug_stopped) s).

Definition drive_irq : M rtlcpu unit :=
  s ← gets id ;
  if int_in_progress s || negb (nz (pending_irq s)) then set_pin intr 0
  else if pin_set s inta then
    modify (put_pending_irq 0) ;;
    ack_int (pending_irq s)
  else
    set_pin intr 1 ;;
    set_pin irq (pending_irq s).

Definition end_interrupt : M rtlcpu unit :=
  s ← gets id ;
  if pin_set s inta then modify (put_int_in_progress false) else mret ().

Definition mem_read : M rtlcpu unit :=
  s ← gets id ;
  v ← read_word (mem_bus_addr s) ;
  set_pin q_m_data_in v.

Definition io_read : M rtlcpu unit :=
  s ← gets id ;
  match io_port s with
  | None => set_pin io_m_data_in 0
  | Some p => if pin_set s io_m_wr_en then set_pin io_m_data_in 0 else read_port s p
  end.

#[export] Instance rtlcpu_callbacks : Callbacks rtl_event rtlcpu := fun e =>
  match e with
  | MemAccess => mem_access
  | IoAccess => io_access
  | MemWrite => mem_write
  | IoWrite => io_write
  | SampleStopped => sample_stopped
  | DriveIrq => drive_irq
  | EndInterrupt => end_interrupt
  | StartProc addr => set_pin debug_addr addr ;; set_pin debug_run 1 ;; after_n_cycles 1 (Client StopRun)
  | StopRun => set_pin debug_run 0
  | Detach =>
      set_pin debug_seize 0 ;; set_pin debug_addr 0 ;; set_pin debug_run 1 ;; after_n_cycles 1 (Client StopRun)
  | WriteTemp val => set_pin debug_wr_en 1 ;; set_pin debug_wr_val val ;; after_n_cycles 1 (Client StopWrite)
  | StopWrite => set_pin debug_wr_en 0
  | MemRead => mem_read
  | MemAck => set_pin q_m_ack 1 ;; after_n_cycles 1 (Client MemDone)
  | MemDone => set_pin q_m_ack 0 ;; modify (put_mem_in_progress false)
  | IoRead => io_read
  | IoAck => set_pin io_m_ack 1 ;; after_n_cycles 1 (Client IoDone)
  | IoDone => set_pin io_m_ack 0 ;; modify (put_io_in_progress false)
  | NmiHigh => set_pin nmi 1 ;; after_n_cycles 1 (Client NmiLow)
  | NmiLow => set_pin nmi 0
  end.

(** ** Cycles and debug procedures *)

(** The loops that wait for the model get at most [patience] turns. *)
Variable patience : nat.

Definition rtl_cycle (count : Z) : M rtlcpu unit := cycle count.
Definition cur_cycle : M rtlcpu Z := from_base cycle_num.
Definition debug_is_stopped : M rtlcpu bool := gets is_stopped.
Definition microcode_address : M rtlcpu Z := gets (fun s => get_microcode_address (state (dut (drv s)))).

(** [while (debug_is_stopped() == b) body]. *)
Fixpoint while_stopped (fuel : nat) (b : bool) (body : M rtlcpu unit) : M rtlcpu unit :=
  match fuel with
  | O => throw OutOfFuel
  | S fuel =>
      stopped ← debug_is_stopped ;
      if bool_decide (stopped = b) then body ;; while_stopped fuel b body else mret ()
  end.

Definition max_cycles_per_step : Z := 100000000.

(** The second loop of [debug_run_proc], with its count. *)
Fixpoint run_to_stop (fuel : nat) (io_callback : Z -> M rtlcpu unit) (cycle_count : Z) : M rtlcpu Z :=
  match fuel with
  | O => throw OutOfFuel
  | S fuel =>
      stopped ← debug_is_stopped ;
      if stopped : bool then mret cycle_count
      else
        rtl_cycle 1 ;;
        addr ← microcode_address ;
        n ← cur_cycle ;
        io_callback n ;;
        run_to_stop fuel io_callback
          (if negb (addr =? 0x100) && negb (addr =? 0x102) then cycle_count + 1 else cycle_count)
  end.

Definition debug_run_proc (addr : Z) (io_callback : Z -> M rtlcpu unit) : M rtlcpu Z :=
  after_n_cycles 0 (Client (StartProc addr)) ;;
  while_stopped patience true (rtl_cycle 1) ;;
  cycle_count ← run_to_stop patience io_callback 0 ;
  if max_cycles_per_step <=? cycle_count then throw ExecutionTimeout else mret cycle_count.

Definition null_io (v : Z) : M rtlcpu unit := mret ().
(** With the default argument, and the result dropped. *)
Definition run_proc (addr : Z) : M rtlcpu unit := debug_run_proc addr null_io ;; mret ().

Definition assert_stopped : M rtlcpu unit := b ← gets is_stopped ; assert_true b.
Definition read_debug_val : M rtlcpu Z := gets (fun s => u16 (pin s debug_val)).

Definition debug_step (io_callback : Z -> M rtlcpu unit) : M rtlcpu Z :=
  assert_stopped ;; debug_run_proc 0x00 io_callback.

Definition rtl_debug_detach : M rtlcpu unit := after_n_cycles 0 (Client Detach).

Definition start_instruction : M rtlcpu unit :=
  assert_stopped ;;
  l ← gets mem_latency ;
  rtl_cycle ((l + 1) * 128) ;;
  after_n_cycles 0 (Client (StartProc 0)) ;;
  while_stopped patience true (rtl_cycle 1).

Definition complete_instruction : M rtlcpu unit := while_stopped patience false (rtl_cycle 1).
Definition int_yield_ready : M rtlcpu bool := gets (fun s => get_ext_int_yield (state (dut (drv s)))).
Definition enable_cache : M rtlcpu unit := set_pin cache_enabled 1.

(** ** Registers *)

Definition debug_write_data (val : Z) : M rtlcpu unit :=
  after_n_cycles 0 (Client (WriteTemp val)) ;;
  rtl_cycle 1.

(** [union reg_converter]. *)
Definition put_v8 (high : bool) (v16 v : Z) : Z :=
  if high then (v16 .& 0x00ff) .| (u8 v .<< 8) else (v16 .& 0xff00) .| u8 v.
Definition get_v8 (high : bool) (v16 : Z) : Z := if high then u8 (v16 .>> 8) else u8 v16.

(** [(regnum - AL) & 0x3], and [regnum >= AH]. *)
Definition regsel (regnum : GPR) : Z := (GPR_to_int regnum - GPR_to_int AL) .& 0x3.
Definition is_upper (regnum : GPR) : bool := GPR_to_int AH <=? GPR_to_int regnum.

Definition read_ip : M rtlcpu Z :=
  s ← gets id ;
  assert_true (pin_set s debug_stopped) ;;
  run_proc 0x0f ;;
  read_debug_val.

Definition read_sr (regnum : GPR) : M rtlcpu Z := run_proc (0x03 + GPR_to_int regnum) ;; read_debug_val.

Definition read_gpr (regnum : GPR) : M rtlcpu Z :=
  if GPR_to_int regnum <? NUM_16BIT_REGS then run_proc (0x03 + GPR_to_int regnum) ;; read_debug_val
  else
    run_proc (0x03 + regsel regnum) ;;
    v16 ← read_debug_val ;
    mret (get_v8 (is_upper regnum) v16).

(** [regnum >= ES && regnum <= DS]. *)
Definition is_sr (regnum : GPR) : bool :=
  (GPR_to_int ES <=? GPR_to_int regnum) && (GPR_to_int regnum <=? GPR_to_int DS).

Definition rtl_read_reg (regnum : GPR) : M rtlcpu Z :=
  if decide (regnum = IP) then read_ip
  else if is_sr regnum then read_sr regnum
  else read_gpr regnum.

Definition write_sr (regnum : GPR) (val : Z) : M rtlcpu unit :=
  debug_write_data val ;; run_proc (0x13 + GPR_to_int regnum).

Definition write_ip (val : Z) : M rtlcpu unit :=
  assert_stopped ;; debug_write_data val ;; run_proc 0x11.

Definition write_gpr (regnum : GPR) (val : Z) : M rtlcpu unit :=
  if GPR_to_int regnum <? NUM_16BIT_REGS then
    debug_write_data val ;; run_proc (0x13 + GPR_to_int regnum)
  else
    r ← from_option BadEnum (GPR_of_int (regsel regnum)) ;
    v16 ← rtl_read_reg r ;
    debug_write_data (put_v8 (is_upper regnum) v16 val) ;;
    run_proc (0x13 + regsel regnum).

Definition rtl_write_reg (regnum : GPR) (val : Z) : M rtlcpu unit :=
  let val := u16 val in
  if decide (regnum = IP) then write_ip val
  else if is_sr regnum then write_sr regnum val
  else write_gpr regnum val.

Definition rtl_write_flags (val : Z) : M rtlcpu unit := debug_write_data (u16 val) ;; run_proc 0x12.
Definition rtl_read_flags : M rtlcpu Z := run_proc 0x10 ;; read_debug_val.

(** ** Memory and ports, through the debug procedures *)

Definition write_mar (v : Z) : M rtlcpu unit := debug_write_data (u16 v) ;; run_proc 0x1f.
Definition write_mdr (v : Z) : M rtlcpu unit := debug_write_data (u16 v) ;; run_proc 0x20.

(** [DS] is changed for the access and restored. *)
Definition with_ds {A} (segment : Z) (f : M rtlcpu A) : M rtlcpu A :=
  prev_ds ← rtl_read_reg DS ;
  rtl_write_reg DS segment ;;
  v ← f ;
  rtl_write_reg DS prev_ds ;;
  mret v.

Definition rtl_write_mem8 (segment addr val : Z) : M rtlcpu unit :=
  with_ds segment (write_mar addr ;; write_mdr (u8 val) ;; run_proc 0x23).
Definition rtl_write_mem16 (segment addr val : Z) : M rtlcpu unit :=
  with_ds segment (write_mar addr ;; write_mdr (u16 val) ;; run_proc 0x24).
Definition rtl_write_mem32 (segment addr val : Z) : M rtlcpu unit :=
  rtl_write_mem16 segment addr (u32 val .& 0xffff) ;;
  rtl_write_mem16 segment (u16 addr + 2) (u32 val .>> 16).
Definition rtl_read_mem8 (segment addr : Z) : M rtlcpu Z :=
  with_ds segment (write_mar addr ;; run_proc 0x21 ;; u8 <$> read_debug_val).
Definition rtl_read_mem16 (segment addr : Z) : M rtlcpu Z :=
  with_ds segment (write_mar addr ;; run_proc 0x22 ;; read_debug_val).
(** C++ leaves open which of the two is read first; this is the order of the text. *)
Definition rtl_read_mem32 (segment addr : Z) : M rtlcpu Z :=
  lo ← rtl_read_mem16 segment addr ;
  hi ← rtl_read_mem16 segment (u16 addr + 2) ;
  mret (lo .| u32 (hi .<< 16)).

(** The address register of the microcode moves on by itself. *)
Fixpoint write_all (proc : Z) (v : list Z) : M rtlcpu unit :=
  match v with
  | [] => mret ()
  | b :: v => write_mdr b ;; run_proc proc ;; write_all proc v
  end.
Definition rtl_write_vector8 (segment addr : Z) (v : list Z) : M rtlcpu unit :=
  with_ds segment (write_mar addr ;; write_all 0x23 v).
Definition rtl_write_vector16 (segment addr : Z) (v : list Z) : M rtlcpu unit :=
  with_ds segment (write_mar addr ;; write_all 0x24 v).

Definition rtl_write_io8 (addr val : Z) : M rtlcpu unit := write_mar addr ;; write_mdr (u8 val) ;; run_proc 0x27.
Definition rtl_write_io16 (addr val : Z) : M rtlcpu unit := write_mar addr ;; write_mdr (u16 val) ;; run_proc 0x28.
Definition rtl_read_io8 (addr : Z) : M rtlcpu Z := write_mar addr ;; run_proc 0x25 ;; u8 <$> read_debug_val.
Definition rtl_read_io16 (addr : Z) : M rtlcpu Z := write_mar addr ;; run_proc 0x26 ;; read_debug_val.

(** [for (m = 0; m < p->get_num_ports(); ++m) io[p->get_base() + 2 * m] = p]. *)
Definition rtl_add_ioport (p : ioport) : M rtlcpu unit :=
  modify (fun s => put_io
    (foldl (fun ports m => <[u16 (get_base p + m * 2) := p]> ports) (io s) (seqZ 0 (get_num_ports p))) s).

Definition VEC_INT : Z := 12.

Definition rtl_has_trapped : M rtlcpu bool :=
  int_cs ← rtl_read_mem16 0 (VEC_INT + 2) ;
  int_ip ← rtl_read_mem16 0 (VEC_INT + 0) ;
  cs ← read_sr CS ;
  if cs =? int_cs then ip ← read_ip ; mret (ip =? int_ip) else mret false.

(** ** Running *)

Definition clear_instr_length : M rtlcpu Z := fun s =>
  let '(n, w) := get_and_clear_length (state (dut (drv s))) in
  Ok (u64 n) (put_drv (put_dut (mk_model (in_pins (dut (drv s))) w) (drv s)) s).

Definition rtl_step_with_io (io_callback : Z -> M rtlcpu unit) : M rtlcpu Z :=
  clear_instr_length ;;
  debug_step io_callback ;;
  clear_instr_length.
Definition rtl_step : M rtlcpu Z := rtl_step_with_io null_io.
Definition time_step : M rtlcpu Z := debug_step null_io.
Definition idle (count : Z) : M rtlcpu unit := rtl_cycle count.
Definition cycle_cpu : M rtlcpu unit := rtl_cycle 1.

Definition rtl_cycle_cpu_with_io (io_callback : Z -> M rtlcpu unit) : M rtlcpu unit :=
  rtl_cycle 1 ;;
  n ← cur_cycle ;
  io_callback n.

Definition rtl_raise_nmi : M rtlcpu unit := after_n_cycles 0 (Client NmiHigh) ;; rtl_cycle 1.
Definition rtl_cycle_count : M rtlcpu Z := cur_cycle.
Definition rtl_instruction_had_side_effects : M rtlcpu bool := gets (fun s => Memory.has_written (mem s)).
Definition rtl_clear_side_effects : M rtlcpu unit :=
  modify (fun s => put_mem (Memory.clear_has_written (mem s)) s).

Fixpoint wait_idle_address (fuel : nat) : M rtlcpu unit :=
  match fuel with
  | O => throw OutOfFuel
  | S fuel =>
      addr ← microcode_address ;
      if negb (addr =? 0x102) then rtl_cycle 1 ;; wait_idle_address fuel else mret ()
  end.

Definition rtl_reset : M rtlcpu unit :=
  set_pin nmi 0 ;;
  set_pin intr 0 ;;
  modify (put_pending_irq 0) ;;
  modify (put_int_in_progress false) ;;
  driver_reset patience 2 ;;
  wait_idle_address patience.

(** ** [RTLCPU::RTLCPU] *)

Definition construct : M rtlcpu unit :=
  set_pin debug_seize 1 ;;
  set_pin cache_enabled 0 ;;
  rtl_reset ;;
  periodic_setup MemAccess ;;
  periodic_setup IoAccess ;;
  periodic_capture MemWrite ;;
  periodic_capture IoWrite ;;
  periodic_capture SampleStopped ;;
  periodic_setup DriveIrq ;;
  periodic_capture EndInterrupt.

(** The members before the body of the constructor runs; those that it leaves
    uninitialised are arguments. *)
Definition RTLCPU_members (mem_written : bool) (garbage_irq : Z) (garbage_int : bool) (devs : D) : rtlcpu :=
  mk_rtlcpu (driver_create (mk_model (fst power_on) (snd power_on))) (Memory.create mem_written) devs
    false false 0 true ∅ garbage_irq garbage_int.

Definition RTLCPU_create (mem_written : bool) (garbage_irq : Z) (garbage_int : bool) (devs : D) :
    outcome rtlcpu unit :=
  construct (RTLCPU_members mem_written garbage_irq garbage_int devs).

#[export] Instance rtlcpu_simcpu : SimCPU rtlcpu := {
  memory_of := mem;
  with_memory := put_mem;
  sim_write_reg := rtl_write_reg;
  sim_read_reg := rtl_read_reg;
  sim_write_flags := rtl_write_flags;
  sim_read_flags := rtl_read_flags;
  sim_write_mem8 := rtl_write_mem8;
  sim_write_mem16 := rtl_write_mem16;
  sim_read_mem8 := rtl_read_mem8;
  sim_read_mem16 := rtl_read_mem16;
}.

End rtlcpu.
