(* ===== verification/DriverProps.v ===== *)
(** * The driver's calendar of callbacks

    The ring of vectors of [VerilogDriver] is a calendar: what is due in how many
    cycles. *)
From S2P Require Import Prelude ErrorState VerilogDriver.

(** The base of an object is a part of it. *)
Class DriverLaws (T E S : Type) {VD : DriverBase T E S} := {
  base_with d s : base (with_base d s) = d;
  with_with d d' s : with_base d (with_base d' s) = with_base d s;
  with_own s : with_base (base s) s = s;
}.

(** Neither the clock nor an evaluation touches the reset pin. *)
Class VerilatedLaws (T : Type) {V : Verilated T} := {
  reset_eval x : dut_reset (dut_eval x) = dut_reset x;
  reset_clk v x : dut_reset (set_dut_clk v x) = dut_reset x;
  reset_low x : dut_reset (set_dut_reset 0 x) = 0;
}.

Section calendar.
Context {T E S : Type} {V : Verilated T} {VL : VerilatedLaws T} {VD : DriverBase T E S} {L : DriverLaws T E S}.
Implicit Types (d : driver T E) (s : S) (k : Z).

(** What is due [k] cycles from now. *)
Definition slot d k : nat := Z.to_nat ((cycle_num d + k) mod max_deferred_delta).
Definition due d k : list (callback E) := deferred_events d !!! slot d k.

(** The counter does not wrap for another 64 cycles. *)
Record wf_driver d : Prop := {
  wf_slots : length (deferred_events d) = 64%nat;
  wf_cycles : 0 <= cycle_num d /\ cycle_num d + 64 < 2 ^ 64;
}.

Lemma slot_lt d k : wf_driver d -> (slot d k < length (deferred_events d))%nat.
Proof. intros [-> _]. unfold slot, max_deferred_delta. zlia. Qed.

Lemma due_slot_inj d k k' : 0 <= k < 64 -> 0 <= k' < 64 -> slot d k = slot d k' -> k = k'.
Proof. unfold slot, max_deferred_delta. zlia. Qed.

Lemma slot_now d : slot d 0 = due_now d.
Proof. unfold slot, due_now. by rewrite Z.add_0_r. Qed.

(** Both updates of the ring, on the calendar. *)
Lemma due_push d k cb k' :
  wf_driver d -> 0 <= k < 64 -> 0 <= k' < 64 ->
  due (push_event (cycle_num d + k) cb d) k' = due d k' ++ (if decide (k' = k) then [cb] else []).
Proof.
  intros Hd Hk Hk'. unfold due, push_event. cbn [deferred_events put_deferred]. rewrite !list_lookup_total_alt.
  change (Z.to_nat ((cycle_num d + k) mod max_deferred_delta)) with (slot d k).
  change (slot (put_deferred _ d) k') with (slot d k').
  destruct (lookup_lt_is_Some_2 (deferred_events d) (slot d k')) as [l El]; [by apply slot_lt|].
  case_decide as Hkk.
  - subst k'. rewrite list_lookup_alter_eq, El. done.
  - rewrite list_lookup_alter_ne, El, app_nil_r; [done|]. intros H. apply Hkk. by apply due_slot_inj with d.
Qed.

Lemma due_clear d k :
  wf_driver d -> 0 <= k < 64 -> due (clear_due d) k = if decide (k = 0) then [] else due d k.
Proof.
  intros Hd Hk. unfold due, clear_due. cbn [deferred_events put_deferred]. rewrite <- slot_now.
  change (slot (put_deferred _ d) k) with (slot d k). case_decide as H0.
  - subst k. apply list_lookup_total_insert_eq. by apply slot_lt.
  - apply list_lookup_total_insert_ne. intros H. apply H0. symmetry. apply due_slot_inj with d; [lia|done|done].
Qed.

(** The end of a cycle moves everything one day nearer; the empty vector of
    today is the one of 63 days hence. *)
Lemma due_next d k :
  wf_driver d -> 0 <= k < 64 ->
  due (put_cycle_num (u64 (cycle_num d + 1)) d) k = due d ((k + 1) mod 64).
Proof.
  intros [_ Hc] Hk. unfold due, slot. cbn [deferred_events cycle_num put_cycle_num].
  rewrite cast_id by cpp_lia. do 2 f_equal. unfold max_deferred_delta. zlia.
Qed.

Lemma wf_push d target cb : wf_driver d -> wf_driver (push_event target cb d).
Proof. intros [Hl Hc]. split; [|done]. cbn. by rewrite length_alter. Qed.
Lemma wf_put_dut x d : wf_driver d -> wf_driver (put_dut x d).
Proof. by intros []. Qed.
Lemma wf_clear d : wf_driver d -> wf_driver (clear_due d).
Proof. intros [Hl Hc]. split; [|done]. cbn. by rewrite length_insert. Qed.

(** ** The methods *)

Lemma on_base_eq f s : on_base f s = Ok tt (with_base (f (base s)) s).
Proof. done. Qed.
Lemma on_dut_eq f s : on_dut f s = Ok tt (with_base (put_dut (f (dut (base s))) (base s)) s).
Proof. done. Qed.

(** An appointment within 64 cycles goes into the calendar; a later one fails
    the assertion. *)
Lemma after_n_eq k cb s :
  wf_driver (base s) -> 0 <= k < 64 ->
  after_n_cycles k cb s = Ok tt (with_base (push_event (cycle_num (base s) + k) cb (base s)) s).
Proof.
  intros [_ Hc] Hk. unfold after_n_cycles, at_cycle, from_base, gets, mbind, M_bind.
  rewrite (cast_id uint64_t (_ + k)) by cpp_lia.
  rewrite (cast_id uint64_t (_ + max_deferred_delta)) by (unfold max_deferred_delta; cpp_lia).
  rewrite (proj2 (Z.leb_le _ _)) by lia. rewrite (proj2 (Z.ltb_lt _ _)) by (unfold max_deferred_delta; lia). done.
Qed.

Lemma after_n_late k cb s :
  wf_driver (base s) -> 64 <= k < 2 ^ 64 -> cycle_num (base s) + k < 2 ^ 64 ->
  after_n_cycles k cb s = Err AssertFailed.
Proof.
  intros [_ Hc] Hk Hr. unfold after_n_cycles, at_cycle, from_base, gets, mbind, M_bind.
  rewrite (cast_id uint64_t (_ + k)) by cpp_lia.
  rewrite (cast_id uint64_t (_ + max_deferred_delta)) by (unfold max_deferred_delta; cpp_lia).
  rewrite (proj2 (Z.leb_le _ _)) by lia. rewrite (proj2 (Z.ltb_ge _ _)) by (unfold max_deferred_delta; lia). done.
Qed.

Context {CB : Callbacks E S}.

Lemma call_all_app l1 l2 s :
  call_all (l1 ++ l2) s = (call_all l1 ;; call_all l2) s.
Proof.
  revert s. induction l1 as [|cb l1 IH]; intros s; [done|]. cbn [app call_all]. unfold mbind, M_bind.
  destruct (call cb s) as [[] s1|]; [|done]. rewrite IH. unfold mbind, M_bind. by destruct (call_all l1 s1) as [[] ?|].
Qed.

Lemma run_deferred_eq s :
  run_deferred_events s = call_all (due (base s) 0) (with_base (clear_due (base s)) s).
Proof. unfold run_deferred_events, from_base, gets, mbind, M_bind, due. by rewrite slot_now, on_base_eq. Qed.

(** The reset pin is low. *)
Definition released s : Prop := dut_reset (dut (base s)) = 0.

(** A call that leaves the clock of the calendar only adds appointments
    from day [n] on, and does not raise the reset pin. *)
Record appoints (n : Z) s s' : Prop := {
  ap_wf : wf_driver (base s');
  ap_num : cycle_num (base s') = cycle_num (base s);
  ap_due k : n <= k < 64 -> exists l, due (base s') k = due (base s) k ++ l;
  ap_reset : released s -> released s';
}.

Lemma appoints_refl n s : wf_driver (base s) -> appoints n s s.
Proof. intros H. split; [done..| |done]. intros k _. exists []. by rewrite app_nil_r. Qed.

Lemma appoints_trans n s1 s2 s3 : appoints n s1 s2 -> appoints n s2 s3 -> appoints n s1 s3.
Proof.
  intros [H1 N1 D1 R1] [H2 N2 D2 R2]. split; [done|congruence| |auto]. intros k Hk.
  destruct (D1 k Hk) as [l1 E1], (D2 k Hk) as [l2 E2]. exists (l1 ++ l2). by rewrite E2, E1, app_assoc.
Qed.

Lemma appoints_mono n n' s s' : n <= n' -> appoints n s s' -> appoints n' s s'.
Proof. intros Hn [H N A R]. split; [done..| |exact R]. intros k Hk. apply A. lia. Qed.

(** [f] returns, and only adds. *)
Definition polite (n : Z) (f : M S unit) : Prop :=
  forall s, wf_driver (base s) -> exists s', f s = Ok tt s' /\ appoints n s s'.

Lemma polite_ret n : polite n (mret ()).
Proof. intros s Hs. exists s. split; [done|by apply appoints_refl]. Qed.

Lemma polite_bind n f g : polite n f -> polite n g -> polite n (f ;; g).
Proof.
  intros Hf Hg s Hs. destruct (Hf s Hs) as (s1 & E1 & A1). destruct (Hg s1 (ap_wf _ _ _ A1)) as (s2 & E2 & A2).
  exists s2. unfold mbind, M_bind. rewrite E1. split; [done|by eapply appoints_trans].
Qed.

Lemma polite_mono n n' f : n <= n' -> polite n f -> polite n' f.
Proof. intros Hn Hf s Hs. destruct (Hf s Hs) as (s' & Es & A). exists s'. split; [done|by eapply appoints_mono]. Qed.

Lemma polite_read {A} n (h : driver T E -> A) f : (forall a, polite n (f a)) -> polite n (from_base h ≫= f).
Proof. intros Hf s Hs. by apply Hf. Qed.

Lemma polite_on_dut n f : (forall x, dut_reset x = 0 -> dut_reset (f x) = 0) -> polite n (on_dut f).
Proof using L.
  intros Hf s [H1 H2]. eexists. split; [apply on_dut_eq|]. split; unfold released; rewrite base_with; [by split|done| |].
  - intros k _. exists []. by rewrite app_nil_r.
  - apply Hf.
Qed.

Lemma polite_eval n : polite n eval.
Proof using L VL. apply polite_on_dut. intros x. by rewrite reset_eval. Qed.
Lemma polite_clk n : polite n toggle_clk.
Proof using L VL. apply polite_on_dut. intros x. by rewrite reset_clk. Qed.

Lemma polite_after n k cb : 0 <= k < 64 -> 0 <= n -> polite n (after_n_cycles k cb).
Proof using L.
  intros Hk Hn s Hs. eexists. split; [by apply after_n_eq|].
  split; unfold released; rewrite base_with; [by apply wf_push|done| |done].
  intros k' Hk'. eexists. apply due_push; [done..|lia].
Qed.

(** ** A cycle, when the functions of the derived class are polite *)

Section punctual.
Context (Hclient : forall e, polite 0 (call_client (E := E) e)).

Lemma polite_call cb : polite 0 (call cb).
Proof using L VL Hclient. destruct cb; [apply polite_on_dut; intros; apply reset_low|apply Hclient]. Qed.

Lemma polite_call_all l : polite 0 (call_all l).
Proof using L VL Hclient.
  induction l as [|cb l IH]; [apply polite_ret|]. apply polite_bind; [apply polite_call|exact IH].
Qed.

Lemma polite_deferred : polite 1 run_deferred_events.
Proof using L VL Hclient.
  intros s Hs. rewrite run_deferred_eq.
  destruct (polite_call_all (due (base s) 0) (with_base (clear_due (base s)) s)) as (s' & Es & A).
  { rewrite base_with. by apply wf_clear. }
  exists s'. split; [exact Es|]. destruct A as [A1 A2 A3 A4]. unfold released in *. rewrite base_with in A2, A4.
  split; [done|exact A2| |exact A4].
  intros k Hk. destruct (A3 k) as [l El]; [lia|]. exists l.
  rewrite El, base_with, due_clear by (done || lia). by rewrite decide_False by lia.
Qed.

Lemma polite_turn j : polite 1 (eval_turn j).
Proof using L VL Hclient.
  unfold eval_turn. destruct (j =? 0); [|destruct (j =? _)].
  - apply polite_read. intros setup. repeat (apply polite_bind; [|try apply polite_read; intros]);
      first [apply polite_clk | apply polite_eval | apply polite_deferred | by apply (polite_mono 0), polite_call_all].
  - apply polite_bind; [apply polite_clk|apply polite_eval].
  - apply polite_eval.
Qed.

Lemma polite_turns n first : polite 1 (for_from n first eval_turn).
Proof using L VL Hclient.
  revert first. induction n as [|n IH]; intros first; [apply polite_ret|]. cbn [for_from].
  apply polite_bind; [apply polite_turn|apply IH].
Qed.

(** A function that is due is called: the reset pin is released. *)
Lemma call_release l s :
  wf_driver (base s) -> ReleaseReset ∈ l -> exists s', call_all l s = Ok tt s' /\ appoints 0 s s' /\ released s'.
Proof using L VL Hclient.
  intros Hs (l1 & l2 & ->)%list_elem_of_split. rewrite call_all_app. unfold mbind, M_bind.
  destruct (polite_call_all l1 s Hs) as (s1 & E1 & A1). rewrite E1. cbn [call_all]. unfold mbind, M_bind.
  destruct (polite_call ReleaseReset s1 (ap_wf _ _ _ A1)) as (s2 & E2 & A2). rewrite E2.
  destruct (polite_call_all l2 s2 (ap_wf _ _ _ A2)) as (s3 & E3 & A3). exists s3. split; [exact E3|].
  split; [eapply appoints_trans; [exact A1|]; by eapply appoints_trans|].
  apply (ap_reset _ _ _ A3). cbn [call] in E2. rewrite on_dut_eq in E2. injection E2 as <-.
  unfold released. rewrite base_with. apply reset_low.
Qed.

(** One cycle: every appointment comes one day nearer, and a reset that ends
    today has ended. *)
Lemma cycle_once_eq s :
  wf_driver (base s) -> cycle_num (base s) + 65 < 2 ^ 64 ->
  exists s', cycle_once s = Ok tt s' /\ wf_driver (base s') /\
    cycle_num (base s') = cycle_num (base s) + 1 /\
    (forall k, 0 <= k < 63 -> exists l, due (base s') k = due (base s) (k + 1) ++ l) /\
    (released s -> released s').
Proof using L VL Hclient.
  intros Hs Hroom. destruct (polite_turns (Z.to_nat evals_per_cycle) 0 s Hs) as (s1 & E1 & [A1 A2 A3 A4]).
  exists (with_base (put_cycle_num (u64 (cycle_num (base s1) + 1)) (base s1)) s1).
  unfold cycle_once, for_loop, mbind, M_bind. rewrite E1. split; [done|]. unfold released in *. rewrite base_with.
  pose proof (wf_cycles _ Hs) as Hc. assert (Hn : u64 (cycle_num (base s1) + 1) = cycle_num (base s) + 1)
    by (rewrite A2, cast_id by cpp_lia; done).
  split; [split; [apply A1|cbn [cycle_num put_cycle_num]; rewrite Hn; lia]|].
  split; [exact Hn|]. split; [|exact A4].
  intros k Hk. rewrite due_next by (done || lia). rewrite Z.mod_small by lia. apply A3. lia.
Qed.

Lemma cycle_from_eq n first s :
  wf_driver (base s) -> cycle_num (base s) + Z.of_nat n + 64 < 2 ^ 64 -> Z.of_nat n < 64 ->
  exists s', for_from n first (fun _ => cycle_once) s = Ok tt s' /\ wf_driver (base s') /\
    cycle_num (base s') = cycle_num (base s) + Z.of_nat n /\
    (forall k, 0 <= k < 64 - Z.of_nat n -> exists l, due (base s') k = due (base s) (k + Z.of_nat n) ++ l) /\
    (released s -> released s').
Proof using L VL Hclient.
  revert first s. induction n as [|n IH]; intros first s Hs Hroom Hn.
  { exists s. split; [done|]. split; [done|]. split; [lia|]. split; [|done].
    intros k Hk. exists []. rewrite app_nil_r. f_equal. lia. }
  destruct (cycle_once_eq s Hs) as (s1 & E1 & W1 & N1 & D1 & R1); [lia|].
  destruct (IH (first + 1) s1) as (s2 & E2 & W2 & N2 & D2 & R2); [done|lia|lia|].
  exists s2. cbn [for_from]. unfold mbind, M_bind. rewrite E1. split; [exact E2|]. split; [done|]. split; [lia|].
  split; [|auto]. intros k Hk. destruct (D2 k) as [l2 E2']; [lia|]. destruct (D1 (k + Z.of_nat n)) as [l1 E1']; [lia|].
  exists (l1 ++ l2). rewrite E2', E1', <- app_assoc. do 2 f_equal. lia.
Qed.

Lemma cycle_one_eq s :
  wf_driver (base s) -> cycle_num (base s) + 65 < 2 ^ 64 ->
  exists s', cycle 1 s = Ok tt s' /\ wf_driver (base s') /\
    cycle_num (base s') = cycle_num (base s) + 1 /\
    (forall k, 0 <= k < 63 -> exists l, due (base s') k = due (base s) (k + 1) ++ l) /\
    (released s -> released s').
Proof using L VL Hclient.
  intros Hs Hroom. destruct (cycle_once_eq s Hs Hroom) as (s1 & E1 & H). exists s1.
  split; [|exact H]. change (cycle 1 s) with ((cycle_once ;; mret ()) s). unfold mbind, M_bind. by rewrite E1.
Qed.

(** The cycle in which a release is due ends with the pin low. *)
Lemma turn_release s :
  wf_driver (base s) -> ReleaseReset ∈ due (base s) 0 ->
  exists s', eval_turn 0 s = Ok tt s' /\ appoints 1 s s' /\ released s'.
Proof using L VL Hclient.
  intros Hs Hin. cbn [eval_turn Z.eqb]. unfold from_base, gets, mbind at 1, M_bind at 1.
  assert (P : polite 0 (call_all (clock_setup (base s)) ;; toggle_clk ;; eval)).
  { apply polite_bind; [apply polite_call_all|]. apply polite_bind; [apply polite_clk|apply polite_eval]. }
  destruct (P s Hs) as (s1 & E1 & A1).
  assert (Hin1 : ReleaseReset ∈ due (base s1) 0).
  { destruct (ap_due _ _ _ A1 0) as [l ->]; [lia|]. apply elem_of_app. by left. }
  destruct (polite_deferred s1 (ap_wf _ _ _ A1)) as (s2 & E2 & A2).
  assert (R2 : released s2).
  { rewrite run_deferred_eq in E2.
    destruct (call_release (due (base s1) 0) (with_base (clear_due (base s1)) s1)) as (s2' & E2' & _ & R2);
      [rewrite base_with; apply wf_clear, A1|done|]. rewrite E2 in E2'. by injection E2' as <-. }
  destruct (polite_eval 1 s2 (ap_wf _ _ _ A2)) as (s3 & E3 & A3).
  destruct (polite_mono 0 1 (call_all (clock_capture (base s3))) ltac:(lia) (polite_call_all _) s3 (ap_wf _ _ _ A3))
    as (s4 & E4 & A4). exists s4. split; [|split; [|apply A4, A3, R2]].
  - revert E1. unfold mbind, M_bind. destruct (call_all _ s) as [[] sa|]; [|done].
    destruct (toggle_clk sa) as [[] sb|]; [|done]. intros E1. by rewrite E1, E2, E3, E4.
  - eapply appoints_trans; [eapply appoints_mono; [|exact A1]; lia|]. eapply appoints_trans; [exact A2|].
    by eapply appoints_trans.
Qed.

Lemma cycle_release s :
  wf_driver (base s) -> cycle_num (base s) + 65 < 2 ^ 64 -> ReleaseReset ∈ due (base s) 0 ->
  exists s', cycle 1 s = Ok tt s' /\ wf_driver (base s') /\ cycle_num (base s') = cycle_num (base s) + 1 /\ released s'.
Proof using L VL Hclient.
  intros Hs Hroom Hin. destruct (cycle_one_eq s Hs Hroom) as (s' & Ec & W & N & _ & _). exists s'.
  split; [exact Ec|]. split; [done|]. split; [done|].
  destruct (turn_release s Hs Hin) as (s1 & E1 & A1 & R1).
  destruct (polite_turns 9 1 s1 (ap_wf _ _ _ A1)) as (s2 & E2 & A2).
  revert Ec. change (cycle 1 s) with ((cycle_once ;; mret ()) s).
  change cycle_once with ((eval_turn 0 ;; for_from 9 1 eval_turn) ;;
    on_base (fun d => put_cycle_num (u64 (cycle_num d + 1)) d)).
  unfold mbind, M_bind. rewrite E1, E2. rewrite on_base_eq. intros [= <-].
  unfold released. rewrite base_with. cbn. apply (ap_reset _ _ _ A2 R1).
Qed.

(** [reset] returns. *)
Lemma reset_returns fuel n s :
  wf_driver (base s) -> cycle_num (base s) + Z.of_nat n + 65 < 2 ^ 64 -> Z.of_nat n < 64 ->
  ReleaseReset ∈ due (base s) (Z.of_nat n) -> (n < fuel)%nat ->
  exists s', cycle_until_released fuel s = Ok tt s' /\ wf_driver (base s') /\ released s' /\
    cycle_num (base s) < cycle_num (base s') <= cycle_num (base s) + Z.of_nat n + 1.
Proof using L VL Hclient.
  revert n s. induction fuel as [|fuel IH]; intros n s Hs Hroom Hn Hin Hf; [lia|]. cbn [cycle_until_released].
  assert (Hstop : forall s1, cycle 1 s = Ok tt s1 -> released s1 -> exists s', (cycle 1 ;;
    r ← from_base (fun d => dut_reset (dut d)) ; if nz r then cycle_until_released fuel else mret ()) s = Ok tt s' /\ s' = s1).
  { intros s1 E1 R1. exists s1. unfold mbind, M_bind, from_base, gets. rewrite E1. by rewrite R1. }
  destruct n as [|n].
  - destruct (cycle_release s Hs ltac:(lia) Hin) as (s1 & E1 & W1 & N1 & R1).
    destruct (Hstop s1 E1 R1) as (s' & -> & ->). exists s1. split_and!; [done|done|done|lia|lia].
  - destruct (cycle_one_eq s Hs ltac:(lia)) as (s1 & E1 & W1 & N1 & D1 & _).
    destruct (decide (released s1)) as [R1|R1].
    { destruct (Hstop s1 E1 R1) as (s' & -> & ->). exists s1. split_and!; [done|done|done|lia|lia]. }
    destruct (IH n s1 W1) as (s' & Es & W' & R' & N'); [lia|lia| |lia|].
    + destruct (D1 (Z.of_nat n)) as [l ->]; [lia|]. apply elem_of_app. left.
      by replace (Z.of_nat n + 1) with (Z.of_nat (Datatypes.S n)) by lia.
    + exists s'. split; [|split_and!; [done|done|lia|lia]]. unfold mbind, M_bind, from_base, gets. rewrite E1.
      assert (Hnz : nz (dut_reset (dut (base s1))) = true) by by apply nz_true. by rewrite Hnz.
Qed.
End punctual.
End calendar.

(** ** The calendar is kept *)

Section promises.
Context {T E S : Type} {V : Verilated T} {VL : VerilatedLaws T} {VD : DriverBase T E S} {L : DriverLaws T E S}.
Context {CB : Callbacks E S} (Hclient : forall e, polite (T := T) 0 (call_client (E := E) (S := S) e)).
Implicit Types s : S.

(** A function that is handed to [after_n_cycles k] is called on time. *)
Lemma callbacks_on_time s k cb :
  wf_driver (base s) -> 0 <= k -> cycle_num (base s) + k + 64 < 2 ^ 64 ->
  (k < 64 ->
    exists s1 s2 l, after_n_cycles k cb s = Ok tt s1 /\ due (base s1) k = due (base s) k ++ [cb] /\
      cycle k s1 = Ok tt s2 /\ cycle_num (base s2) = cycle_num (base s) + k /\
      due (base s2) 0 = due (base s) k ++ cb :: l /\
      run_deferred_events s2 = call_all (due (base s2) 0) (with_base (clear_due (base s2)) s2) /\
      due (clear_due (base s2)) 0 = []) /\
  (64 <= k -> after_n_cycles k cb s = Err AssertFailed).
Proof using L VL Hclient.
  intros Hs Hk Hroom. pose proof (wf_cycles _ Hs) as Hcyc. split; intros Hk64; [|apply after_n_late; [done|lia|lia]].
  set (s1 := with_base (push_event (cycle_num (base s) + k) cb (base s)) s).
  assert (E1 : base s1 = push_event (cycle_num (base s) + k) cb (base s)) by apply base_with.
  assert (D1 : due (base s1) k = due (base s) k ++ [cb]).
  { rewrite E1, due_push by done. by rewrite decide_True. }
  destruct (cycle_from_eq Hclient (Z.to_nat k) 0 s1) as (s2 & E2 & W2 & N2 & D2 & _);
    [rewrite E1; by apply wf_push|rewrite E1; cbn; lia|lia|].
  destruct (D2 0) as [l El]; [lia|]. rewrite Z.add_0_l, Z2Nat.id, D1, <- app_assoc in El by lia.
  exists s1, s2, l. split; [by apply after_n_eq|]. split; [exact D1|]. split; [exact E2|].
  split; [rewrite N2, E1; cbn; lia|]. split; [exact El|]. split; [apply run_deferred_eq|].
  rewrite due_clear by done. by rewrite decide_True.
Qed.

(** [reset] returns, with the reset pin low. *)
Lemma reset_ends fuel count s :
  wf_driver (base s) -> 0 <= count < 64 -> cycle_num (base s) + count + 65 < 2 ^ 64 -> count < Z.of_nat fuel ->
  exists s', driver_reset fuel count s = Ok tt s' /\ dut_reset (dut (base s')) = 0 /\ wf_driver (base s') /\
    cycle_num (base s) < cycle_num (base s') <= cycle_num (base s) + count + 1.
Proof using L VL Hclient.
  intros Hs Hcount Hroom Hf. unfold driver_reset, mbind, M_bind. rewrite on_dut_eq.
  set (s0 := with_base _ s). assert (E0 : base s0 = put_dut (set_dut_reset 1 (dut (base s))) (base s)) by apply base_with.
  assert (W0 : wf_driver (base s0)) by (rewrite E0; by apply wf_put_dut).
  rewrite after_n_eq by (done || lia). set (s1 := with_base _ s0).
  assert (E1 : base s1 = push_event (cycle_num (base s0) + count) ReleaseReset (base s0)) by apply base_with.
  assert (N1 : cycle_num (base s1) = cycle_num (base s)) by by rewrite E1, E0.
  destruct (reset_returns Hclient fuel (Z.to_nat count) s1) as (s' & Es & W' & R' & N'); [|lia|lia| |lia|].
  - rewrite E1. by apply wf_push.
  - rewrite E1, Z2Nat.id, due_push by (done || lia). rewrite decide_True by done. apply elem_of_app. right. constructor.
  - exists s'. split; [exact Es|]. split; [exact R'|]. split; [done|lia].
Qed.

(** C25. The driver keeps its appointments. For a derived class whose own functions
    return and only make appointments: a function handed to [after_n_cycles k],
    with [k] below 64, becomes due in [k] cycles, after the functions that were
    due then already; [k] calls of [cycle] later it is in front of everything that
    was appointed in the meantime, and the cycle that comes calls exactly the
    functions that are due, each once and in that order, on a calendar from
    which they are gone. With [k] from 64 on the assertion of [at_cycle] fails. And
    [reset], which makes such an appointment and waits for it, returns, with the
    reset pin low, within [count + 1] cycles; its loop needs no more turns than
    that. *)
Theorem driver_keeps_appointments s :
  wf_driver (base s) ->
  (forall k cb, 0 <= k -> cycle_num (base s) + k + 64 < 2 ^ 64 ->
    (k < 64 ->
      exists s1 s2 l, after_n_cycles k cb s = Ok tt s1 /\ due (base s1) k = due (base s) k ++ [cb] /\
        cycle k s1 = Ok tt s2 /\ cycle_num (base s2) = cycle_num (base s) + k /\
        due (base s2) 0 = due (base s) k ++ cb :: l /\
        run_deferred_events s2 = call_all (due (base s2) 0) (with_base (clear_due (base s2)) s2) /\
        due (clear_due (base s2)) 0 = []) /\
    (64 <= k -> after_n_cycles k cb s = Err AssertFailed)) /\
  (forall fuel count, 0 <= count < 64 -> cycle_num (base s) + count + 65 < 2 ^ 64 -> count < Z.of_nat fuel ->
    exists s', driver_reset fuel count s = Ok tt s' /\ dut_reset (dut (base s')) = 0 /\ wf_driver (base s') /\
      cycle_num (base s) < cycle_num (base s') <= cycle_num (base s) + count + 1).
Proof using L VL Hclient.
  intros Hs. split; [intros k cb; by apply callbacks_on_time|intros fuel count; by apply reset_ends].
Qed.
End promises.

(** ** An object whose functions keep a log *)

Definition toy : Type := driver (Z * Z) nat * list nat.

#[local] Instance toy_dut : Verilated (Z * Z) := {
  dut_eval x := x;
  dut_clk := fst;
  set_dut_clk v x := (v, snd x);
  dut_reset := snd;
  set_dut_reset v x := (fst x, v);
}.
#[local] Instance toy_dut_laws : VerilatedLaws (Z * Z).
Proof. by split. Defined.
#[local] Instance toy_base : DriverBase (Z * Z) nat toy := { base := fst; with_base d s := (d, snd s) }.
#[local] Instance toy_base_laws : DriverLaws (Z * Z) nat toy.
Proof. split; [done|done|]. by intros []. Defined.
#[local] Instance toy_callbacks : Callbacks nat toy := fun e => modify (fun s => (fst s, snd s ++ [e])).

Lemma toy_polite e : polite (T := Z * Z) 0 (call_client (E := nat) (S := toy) e).
Proof.
  intros s Hs. exists (fst s, snd s ++ [e]). split; [done|]. split; try done.
  intros k _. exists []. by rewrite app_nil_r.
Qed.

Definition toy_start : toy := (driver_create (0, 0), []).
Lemma toy_start_wf : wf_driver (base toy_start).
Proof. by split. Qed.

(** An appointment in two cycles, in three the log has it; and [reset] of a new
    object, as [RTLCPU::reset] calls it. *)
Lemma driver_keeps_appointments_witness :
  ((exists s1 s2 l, after_n_cycles 2 (Client 7%nat) toy_start = Ok tt s1 /\ cycle 2 s1 = Ok tt s2 /\
    due (base s2) 0 = Client 7%nat :: l) /\
   snd <$> state_of ((after_n_cycles 2 (Client 7%nat) ;; cycle 3) toy_start) = Some [7%nat]) /\
  exists s, driver_reset 5 2 toy_start = Ok tt s /\ dut_reset (dut (base s)) = 0 /\ cycle_num (base s) = 3.
Proof.
  destruct (driver_keeps_appointments toy_polite toy_start toy_start_wf) as [Hcall Hreset]. split.
  - split; [|by vm_compute]. destruct (Hcall 2 (Client 7%nat)) as [H _]; [done|done|].
    destruct (H ltac:(done)) as (s1 & s2 & l & E1 & _ & E2 & _ & D & _). exists s1, s2, l.
    split_and!; [exact E1|exact E2|]. rewrite D. by vm_compute.
  - destruct (Hreset 5%nat 2) as (s & E & R & _); [done|done|done|].
    exists s. split; [exact E|]. split; [exact R|].
    assert (H : (fun s => cycle_num (base s)) <$> state_of (driver_reset 5 2 toy_start) = Some 3) by by vm_compute.
    rewrite E in H. by injection H.
Defined.
