(* ===== verification/RTLProps.v ===== *)
(** * Registers through the debug unit

    [RTLCPU] has no access to the registers of the circuit: it runs procedures of
    the debug microcode. Here is what the guide promises of the debug interface,
    as a class of the generated model, and what the accessors make of it. *)
From S2P Require Import Prelude Config MainMemory Registers ErrorState IOPorts SimCPU SimCPUProps.
From S2P Require Import VerilogDriver RTLCPU DriverProps.

(** ** The debug unit: [documentation/development-guide.asciidoc] and
    [rtl/microcode/debug.us] *)

(** The procedures for registers. *)
Inductive procedure := ReadReg (r : GPR) | ReadFlags | WriteReg (r : GPR) | WriteFlags.

Definition reg_procedure (addr : Z) : option procedure :=
  if (0x03 <=? addr) && (addr <=? 0x0f) then ReadReg <$> GPR_of_int (addr - 0x03)
  else if addr =? 0x10 then Some ReadFlags
  else if addr =? 0x11 then Some (WriteReg IP)
  else if addr =? 0x12 then Some WriteFlags
  else if (0x13 <=? addr) && (addr <=? 0x1e) then WriteReg <$> GPR_of_int (addr - 0x13)
  else None.

#[export] Instance procedure_eq_dec : EqDecision procedure.
Proof. solve_decision. Defined.

Lemma reg_proc_read r : RegisterFile.is_byte r = false -> reg_procedure (0x03 + GPR_to_int r) = Some (ReadReg r).
Proof. by destruct r. Qed.
Lemma reg_proc_write r :
  RegisterFile.is_byte r = false -> r <> IP -> reg_procedure (0x13 + GPR_to_int r) = Some (WriteReg r).
Proof. by destruct r. Qed.

(** The word of a byte register. *)
Lemma regsel_parent r : RegisterFile.is_byte r = true -> regsel r = GPR_to_int (RegisterFile.parent r).
Proof. by destruct r. Qed.

Lemma GPR_to_int_small r : 0 <= GPR_to_int r < 21.
Proof. destruct r; cbn; lia. Qed.

Lemma get_v8_view r w : in_range uint16_t w -> RegisterFile.is_byte r = true ->
  get_v8 (is_upper r) w = RegisterFile.view r w.
Proof.
  intros Hw Hr. unfold get_v8, RegisterFile.view. rewrite Hr.
  replace (is_upper r) with (RegisterFile.is_high r) by by destruct r.
  destruct (RegisterFile.is_high r); [|by rewrite u8_mod]. rewrite Z.shiftr_div_pow2 by lia. cpp_lia.
Qed.

(** [put_v8] makes the word that [RegisterFile::set] makes. *)
Lemma put_v8_word r w v : in_range uint16_t w -> RegisterFile.is_byte r = true ->
  u16 (put_v8 (is_upper r) w v) = RegisterFile.set_word r w v.
Proof.
  intros Hw Hr. unfold put_v8, RegisterFile.set_word. rewrite Hr.
  replace (is_upper r) with (RegisterFile.is_high r) by by destruct r.
  destruct (RegisterFile.is_high r).
  - rewrite replace_high_byte by (done || cpp_lia). by rewrite u8_mod, Z.mod_mod.
  - replace (u8 v) with (v .& 0x00ff) by by rewrite low_byte. rewrite replace_low_byte by done. cpp_lia.
Qed.

Section bytes.
Context {CFG : Config}.
Implicit Types rf : RegisterFile.t.

Lemma assign_ext rf r a b : u16 a = u16 b -> RegisterFile.assign rf r a = RegisterFile.assign rf r b.
Proof. intros H. unfold RegisterFile.assign. by rewrite H. Qed.

Lemma assign_assign rf r a b : RegisterFile.assign (RegisterFile.assign rf r a) r b = RegisterFile.assign rf r b.
Proof. unfold RegisterFile.assign. cbn. by rewrite list_insert_insert_eq. Qed.

(** A byte is written by writing the word it is in. *)
Lemma set_byte_by_word rf r v :
  RegisterFile.wf rf -> RegisterFile.is_byte r = true ->
  RegisterFile.set rf r v =
    RegisterFile.set rf (RegisterFile.parent r)
      (RegisterFile.set_word r (RegisterFile.get rf (RegisterFile.parent r)) v).
Proof.
  intros Hrf Hr. pose proof (RegisterFile.reg16_range rf (RegisterFile.parent r) Hrf) as Hw.
  rewrite RegisterFile.get_view by done.
  replace (RegisterFile.view (RegisterFile.parent r) _) with (RegisterFile.reg16 rf (RegisterFile.parent r))
    by by destruct r.
  assert (Hwf : RegisterFile.wf (RegisterFile.set_written rf false)) by by apply RegisterFile.wf_set_written.
  destruct r; try discriminate; unfold RegisterFile.set; cbn [RegisterFile.parent] in *;
    rewrite !decide_False by done; rewrite assign_assign, RegisterFile.reg16_assign by done; rewrite decide_True by done;
    apply assign_ext; rewrite cast_idemp; rewrite ?low_half, ?high_half by done;
    rewrite RegisterFile.reg16_set_written; unfold RegisterFile.set_word;
    cbn [RegisterFile.is_byte RegisterFile.is_high]; cpp_lia.
Qed.
End bytes.

(** Waiting for the controller, running a procedure for some more cycles, or
    running something else. *)
Inductive activity := Waiting | Running (p : procedure) (n : nat) | Elsewhere.

#[export] Instance activity_eq_dec : EqDecision activity.
Proof. solve_decision. Defined.

Record debug_unit := mk_unit { doing : activity; file : RegisterFile.t; temp : Z }.

(** The four inputs of the debug interface. *)
Record controls := mk_controls { run : bool; addr : Z; wr_en : bool; wr_val : Z }.
Definition controls_of (p : pins) : controls :=
  mk_controls (nz (p debug_run)) (p debug_addr) (nz (p debug_wr_en)) (p debug_wr_val).

Definition run_procedure {CFG : Config} (p : procedure) (rf : RegisterFile.t) (t : Z) : debug_unit :=
  match p with
  | ReadReg r => mk_unit Waiting rf (RegisterFile.get rf r)
  | ReadFlags => mk_unit Waiting rf (RegisterFile.get_flags rf)
  | WriteReg r => mk_unit Waiting (RegisterFile.set rf r t) t
  | WriteFlags => mk_unit Waiting (RegisterFile.set_flags rf t 0xffff) t
  end.

(** A rising edge, for a unit whose procedures take at most [longest] cycles. *)
Inductive clocked {CFG : Config} (longest : nat) : controls -> debug_unit -> debug_unit -> Prop :=
  | clocked_idle a v rf t : clocked longest (mk_controls false a false v) (mk_unit Waiting rf t) (mk_unit Waiting rf t)
  | clocked_write a v rf t : clocked longest (mk_controls false a true v) (mk_unit Waiting rf t) (mk_unit Waiting rf v)
  | clocked_start a v rf t p n :
      reg_procedure a = Some p -> (n <= longest)%nat ->
      clocked longest (mk_controls true a false v) (mk_unit Waiting rf t) (mk_unit (Running p n) rf t)
  | clocked_run a v rf t p n :
      clocked longest (mk_controls false a false v) (mk_unit (Running p (S n)) rf t) (mk_unit (Running p n) rf t)
  | clocked_done a v rf t p :
      clocked longest (mk_controls false a false v) (mk_unit (Running p 0) rf t) (run_procedure p rf t).

(** The inputs that could make the circuit do something else are low, and the
    16-bit input holds 16 bits. *)
Definition undisturbed (p : pins) : Prop :=
  p reset = 0 /\ p nmi = 0 /\ p intr = 0 /\ p debug_seize <> 0 /\ p cache_enabled = 0 /\
  in_range uint16_t (p debug_wr_val).

Definition control_pin (p : input) : bool :=
  match p with debug_addr | debug_run | debug_wr_en | debug_wr_val => true | _ => false end.

Lemma undisturbed_drive p x q : control_pin p = true -> undisturbed q -> undisturbed (drive p x q).
Proof.
  intros Hp (H1 & H2 & H3 & H4 & H5 & H6). destruct p; try discriminate; split_and!; try done.
  apply cast_in_range.
Qed.

(** The circuit reads its memory ahead at any time; it writes and uses ports
    only when an instruction or another procedure runs. *)
Class DebugUnit {CFG : Config} {RTL : RTLModel} := {
  sampled_clk : wires -> Z;
  debug_state : wires -> debug_unit;
  longest : nat;
  longest_bound : Z.of_nat longest + 1 < max_cycles_per_step;
  sampled_eval p w : sampled_clk (rtl_eval p w) = p clk;
  eval_steady p w :
    undisturbed p -> doing (debug_state w) <> Elsewhere -> ~ (sampled_clk w = 0 /\ p clk <> 0) ->
    debug_state (rtl_eval p w) = debug_state w;
  eval_rising p w :
    undisturbed p -> sampled_clk w = 0 -> p clk <> 0 ->
    (exists u, clocked longest (controls_of p) (debug_state w) u) ->
    clocked longest (controls_of p) (debug_state w) (debug_state (rtl_eval p w));
  out_stopped w :
    doing (debug_state w) <> Elsewhere -> nz (rtl_out w debug_stopped) = bool_decide (doing (debug_state w) = Waiting);
  out_val w : doing (debug_state w) <> Elsewhere -> u16 (rtl_out w debug_val) = temp (debug_state w);
  out_quiet w :
    doing (debug_state w) <> Elsewhere ->
    nz (rtl_out w inta) = false /\ nz (rtl_out w io_m_access) = false /\
    (nz (rtl_out w q_m_access) = true -> nz (rtl_out w q_m_wr_en) = false) /\
    0 <= rtl_out w q_m_addr < 2 ^ 19;
}.

Section debugged.
Context {CFG : Config} {RTL : RTLModel} {DU : DebugUnit} {D : Type} {IOP : IOPorts D}.
Implicit Types (s : rtlcpu (D := D)) (e : rtl_event).

#[export] Instance rtlcpu_driver_laws : DriverLaws model rtl_event (rtlcpu (D := D)).
Proof. split; by intros; repeat match goal with s : rtlcpu |- _ => destruct s end. Qed.

(** ** What the driver's side of the debug interface looks like *)

(** The events of the debug interface; the others that may be due are those of
    a read of the memory. *)
Definition debug_event (cb : callback rtl_event) : option rtl_event :=
  match cb with
  | Client (StartProc a) => Some (StartProc a)
  | Client StopRun => Some StopRun
  | Client (WriteTemp v) => Some (WriteTemp v)
  | Client StopWrite => Some StopWrite
  | _ => None
  end.
Definition expected (cb : callback rtl_event) : Prop :=
  is_Some (debug_event cb) \/ cb = Client MemRead \/ cb = Client MemAck \/ cb = Client MemDone.
Definition agenda (l : list (callback rtl_event)) (es : list rtl_event) : Prop :=
  Forall expected l /\ omap debug_event l = es.

Record view := mk_view {
  v_clk : Z; v_controls : controls; v_unit : debug_unit;
  v_today : list rtl_event; v_tomorrow : list rtl_event;
  v_stopped : bool; v_cycle : Z }.

(** The memory and the devices do not change. *)
Context (mm : Memory.t) (dv : D).

(** The driver in state [s], before or after an evaluation. *)
Record drives (v : view) s : Prop := {
  dr_wf : wf_driver (drv s);
  dr_cycle : cycle_num (drv s) = v_cycle v;
  dr_setup : clock_setup (drv s) = Client <$> [MemAccess; IoAccess; DriveIrq];
  dr_capture : clock_capture (drv s) = Client <$> [MemWrite; IoWrite; SampleStopped; EndInterrupt];
  dr_calendar k : 0 <= k < 64 ->
    agenda (due (drv s) k) (if decide (k = 0) then v_today v else if decide (k = 1) then v_tomorrow v else []);
  dr_pins : undisturbed (in_pins (dut (drv s)));
  dr_clk : in_pins (dut (drv s)) clk = v_clk v;
  dr_sampled : sampled_clk (state (dut (drv s))) = v_clk v;
  dr_controls : controls_of (in_pins (dut (drv s))) = v_controls v;
  dr_unit : debug_state (state (dut (drv s))) = v_unit v;
  dr_busy : doing (v_unit v) <> Elsewhere;
  dr_irq : pending_irq s = 0;
  dr_latency : 0 <= mem_latency s < 63;
  dr_stopped : is_stopped s = v_stopped v;
  dr_mem : mem s = mm;
  dr_devs : devs s = dv;
}.

(** [f] returns, in a state with [Q]. *)
Definition returns (f : M (rtlcpu (D := D)) unit) (Q : rtlcpu -> Prop) s : Prop := wp f (fun _ => Q) (fun _ => False) s.

Lemma returns_bind f g P Q s : returns f P s -> (forall s', P s' -> returns g Q s') -> returns (f ;; g) Q s.
Proof. intros Hf Hg. apply wp_bind. eapply wp_mono; [exact Hf| |done]. intros [] s' Hs'. by apply Hg. Qed.

Lemma returns_mono f P Q s : returns f P s -> (forall s', P s' -> Q s') -> returns f Q s.
Proof. intros Hf HPQ. eapply wp_mono; [exact Hf| |done]. intros [] s'. apply HPQ. Qed.

Lemma returns_then {A} (f g : M (rtlcpu (D := D)) unit) (h : M (rtlcpu (D := D)) A) P Q E s :
  returns (f ;; g) P s -> (forall s', P s' -> wp h Q E s') -> wp (f ;; g ;; h) Q E s.
Proof.
  unfold returns, wp, mbind, M_bind. intros Hfg Hh. destruct (f s) as [[] s1|]; [|done].
  destruct (g s1) as [[] s2|]; [|done]. by apply Hh.
Qed.

(** *** Pins *)

(** Pins that neither the clock nor the debug interface uses. *)
Definition free_pin (p : input) : bool :=
  match p with irq | q_m_data_in | q_m_ack | io_m_data_in | io_m_ack => true | _ => false end.

Lemma controls_ext f g :
  f debug_run = g debug_run -> f debug_addr = g debug_addr -> f debug_wr_en = g debug_wr_en ->
  f debug_wr_val = g debug_wr_val -> controls_of f = controls_of g.
Proof. intros H1 H2 H3 H4. unfold controls_of. by rewrite H1, H2, H3, H4. Qed.

Lemma drives_pins v f s :
  drives v s ->
  (forall q, free_pin q = false -> f (in_pins (dut (drv s))) q = in_pins (dut (drv s)) q) ->
  drives v (map_pins f s).
Proof.
  intros [] Hf. split; try done; cbn [map_pins drv put_drv put_dut dut in_pins].
  - by apply wf_put_dut.
  - unfold undisturbed. by rewrite !Hf.
  - by rewrite Hf.
  - etransitivity; [|done]. by apply controls_ext; apply Hf.
Qed.

Lemma set_free_pin p x v s : free_pin p = true -> drives v s -> returns (set_pin p x) (drives v) s.
Proof.
  intros Hp Hs. apply wp_modify. apply drives_pins; [done|]. intros q Hq. unfold drive.
  rewrite decide_False; [done|]. intros ->. congruence.
Qed.

(** [intr] is low anyway. *)
Lemma set_intr_low v s : drives v s -> returns (set_pin intr 0) (drives v) s.
Proof.
  intros Hs. apply wp_modify. apply drives_pins; [done|]. intros q _. unfold drive. case_decide as Hq; [|done].
  subst q. by destruct (dr_pins _ _ Hs) as (_ & _ & -> & _).
Qed.

(** *** Appointments *)

Lemma agenda_nil : agenda [] [].
Proof. split; [constructor|done]. Qed.

Lemma agenda_app l l' es es' : agenda l es -> agenda l' es' -> agenda (l ++ l') (es ++ es').
Proof. intros [H1 <-] [H2 <-]. split; [by apply Forall_app|]. by rewrite omap_app. Qed.

Definition book (k : Z) (es : list rtl_event) v : view :=
  mk_view (v_clk v) (v_controls v) (v_unit v)
    (if decide (k = 0) then v_today v ++ es else v_today v)
    (if decide (k = 1) then v_tomorrow v ++ es else v_tomorrow v) (v_stopped v) (v_cycle v).

Lemma book_nil k v : book k [] v = v.
Proof. destruct v. unfold book. cbn. rewrite !app_nil_r. by repeat case_decide. Qed.

Lemma after_debug k e es v s :
  drives v s -> 0 <= k < 64 -> agenda [Client e] es -> (1 < k -> es = []) ->
  returns (after_n_cycles k (Client e)) (drives (book k es v)) s.
Proof.
  intros Hs Hk He Hes. unfold returns, wp. rewrite after_n_eq by (done || apply Hs).
  destruct Hs. split; cbn; try done; [by apply wf_push|].
  intros k' Hk'. rewrite due_push by done. specialize (dr_calendar0 k' Hk'). unfold book; cbn.
  destruct (decide (k' = k)) as [->|Hne].
  - assert (Ha := agenda_app _ _ _ _ dr_calendar0 He). revert Ha. repeat case_decide; try done.
    by rewrite Hes by lia.
  - rewrite app_nil_r. revert dr_calendar0. repeat case_decide; try done; subst; done.
Qed.

(** *** The functions that are called every cycle *)

Lemma after_bus k e v s :
  drives v s -> 0 <= k < 64 -> agenda [Client e] [] -> returns (after_n_cycles k (Client e)) (drives v) s.
Proof. intros Hs Hk He. rewrite <- (book_nil k v). by apply after_debug. Qed.

Ltac bus_agenda := split; [apply Forall_singleton; unfold expected; naive_solver|done].

Lemma drives_in_progress b v s : drives v s -> drives v (put_mem_in_progress b s).
Proof. by intros []. Qed.

Lemma drives_quiet v s :
  drives v s ->
  pin_set s inta = false /\ pin_set s io_m_access = false /\
  (pin_set s q_m_access = true -> pin_set s q_m_wr_en = false) /\ 0 <= pin s q_m_addr < 2 ^ 19.
Proof. intros Hs. apply out_quiet. rewrite (dr_unit _ _ Hs). apply (dr_busy _ _ Hs). Qed.

Lemma mem_access_returns v s : drives v s -> returns mem_access (drives v) s.
Proof.
  intros Hs. apply wp_bind, wp_gets. destruct (_ || _); [by apply wp_ret|].
  eapply returns_bind; [apply after_bus; [exact Hs|lia|bus_agenda]|]. intros s1 Hs1.
  eapply returns_bind; [apply wp_modify; by apply drives_in_progress|]. intros s2 Hs2.
  apply after_bus; [done| |bus_agenda]. destruct Hs. cbn. lia.
Qed.

Lemma io_access_returns v s : drives v s -> returns io_access (drives v) s.
Proof.
  intros Hs. apply wp_bind, wp_gets. destruct (drives_quiet v s Hs) as (_ & Hio & _). unfold id.
  rewrite Hio. cbn [negb]. rewrite orb_true_r. by apply wp_ret.
Qed.

Lemma drive_irq_returns v s : drives v s -> returns drive_irq (drives v) s.
Proof.
  intros Hs. apply wp_bind, wp_gets. unfold id. rewrite (dr_irq _ _ Hs). cbn. rewrite orb_true_r.
  by apply set_intr_low.
Qed.

Lemma mem_write_returns v s : drives v s -> returns mem_write (drives v) s.
Proof.
  intros Hs. apply wp_bind, wp_gets. destruct (drives_quiet v s Hs) as (_ & _ & Hm & _). unfold id.
  destruct (pin_set s q_m_access) eqn:E; [rewrite Hm by done; rewrite andb_false_r|]; by apply wp_ret.
Qed.

Lemma io_write_returns v s : drives v s -> returns io_write (drives v) s.
Proof.
  intros Hs. apply wp_bind, wp_gets. destruct (drives_quiet v s Hs) as (_ & Hio & _). unfold id.
  rewrite Hio. by apply wp_ret.
Qed.

Lemma end_interrupt_returns v s : drives v s -> returns end_interrupt (drives v) s.
Proof.
  intros Hs. apply wp_bind, wp_gets. destruct (drives_quiet v s Hs) as (Hi & _). unfold id. rewrite Hi. by apply wp_ret.
Qed.

Definition waiting (u : debug_unit) : bool := bool_decide (doing u = Waiting).
Definition sample v : view :=
  mk_view (v_clk v) (v_controls v) (v_unit v) (v_today v) (v_tomorrow v) (waiting (v_unit v)) (v_cycle v).

Lemma sample_returns v s : drives v s -> returns sample_stopped (drives (sample v)) s.
Proof.
  intros Hs. apply wp_modify. unfold pin_set, pin. rewrite out_stopped; rewrite (dr_unit _ _ Hs); [|apply Hs].
  by destruct Hs.
Qed.

Lemma setup_returns v s : drives v s -> returns (call_all (clock_setup (drv s))) (drives v) s.
Proof.
  intros Hs. rewrite (dr_setup _ _ Hs).
  eapply returns_bind; [by apply mem_access_returns|]. intros s1 Hs1.
  eapply returns_bind; [by apply io_access_returns|]. intros s2 Hs2.
  eapply returns_bind; [by apply drive_irq_returns|]. intros s3 Hs3. by apply wp_ret.
Qed.

Lemma capture_returns v s : drives v s -> returns (call_all (clock_capture (drv s))) (drives (sample v)) s.
Proof.
  intros Hs. rewrite (dr_capture _ _ Hs).
  eapply returns_bind; [by apply mem_write_returns|]. intros s1 Hs1.
  eapply returns_bind; [by apply io_write_returns|]. intros s2 Hs2.
  eapply returns_bind; [by apply sample_returns|]. intros s3 Hs3.
  eapply returns_bind; [by apply end_interrupt_returns|]. intros s4 Hs4. by apply wp_ret.
Qed.

(** *** The functions that are due *)

Definition set_controls x v : view :=
  mk_view (v_clk v) x (v_unit v) (v_today v) (v_tomorrow v) (v_stopped v) (v_cycle v).

Definition do_event v e : view :=
  let c := v_controls v in
  match e with
  | StartProc a => book 1 [StopRun] (set_controls (mk_controls true (u8 a) (wr_en c) (wr_val c)) v)
  | StopRun => set_controls (mk_controls false (addr c) (wr_en c) (wr_val c)) v
  | WriteTemp x => book 1 [StopWrite] (set_controls (mk_controls (run c) (addr c) true (u16 x)) v)
  | StopWrite => set_controls (mk_controls (run c) (addr c) false (wr_val c)) v
  | _ => v
  end.

(** A pin of the debug interface. *)
Lemma set_control g p x v s :
  (forall q, controls_of (drive p x q) = g (controls_of q)) ->
  control_pin p = true ->
  drives v s -> returns (set_pin p x) (drives (set_controls (g (v_controls v)) v)) s.
Proof.
  intros Hg Hp []. apply wp_modify. split; try done; cbn [map_pins drv put_drv put_dut dut in_pins].
  - by apply wf_put_dut.
  - by apply undisturbed_drive.
  - unfold drive. rewrite decide_False; [done|]. by intros <-.
  - rewrite Hg. by rewrite dr_controls0.
Qed.

Ltac control g := by apply (set_control g).

Lemma set_addr x v s : drives v s ->
  returns (set_pin debug_addr x)
    (drives (set_controls (let c := v_controls v in mk_controls (run c) (u8 x) (wr_en c) (wr_val c)) v)) s.
Proof. intros Hs. control (fun c => mk_controls (run c) (u8 x) (wr_en c) (wr_val c)). Qed.

Lemma set_run x v s : drives v s ->
  returns (set_pin debug_run x)
    (drives (set_controls (let c := v_controls v in mk_controls (nz (u8 x)) (addr c) (wr_en c) (wr_val c)) v)) s.
Proof. intros Hs. control (fun c => mk_controls (nz (u8 x)) (addr c) (wr_en c) (wr_val c)). Qed.

Lemma set_en x v s : drives v s ->
  returns (set_pin debug_wr_en x)
    (drives (set_controls (let c := v_controls v in mk_controls (run c) (addr c) (nz (u8 x)) (wr_val c)) v)) s.
Proof. intros Hs. control (fun c => mk_controls (run c) (addr c) (nz (u8 x)) (wr_val c)). Qed.

Lemma set_val x v s : drives v s ->
  returns (set_pin debug_wr_val x)
    (drives (set_controls (let c := v_controls v in mk_controls (run c) (addr c) (wr_en c) (u16 x)) v)) s.
Proof. intros Hs. control (fun c => mk_controls (run c) (addr c) (wr_en c) (u16 x)). Qed.

Lemma stop_agenda e : debug_event (Client e) = Some e -> agenda [Client e] [e].
Proof. intros He. split; [apply Forall_singleton; left; by rewrite He|]. cbn [omap list_omap]. by rewrite He. Qed.

Lemma event_returns v e s :
  debug_event (Client e) = Some e -> drives v s -> returns (call (Client e)) (drives (do_event v e)) s.
Proof.
  intros He Hs. destruct e; try discriminate; clear He.
  - eapply returns_bind; [by apply set_addr|]. intros s1 Hs1.
    eapply returns_bind; [by apply set_run|]. intros s2 Hs2.
    apply (after_debug 1 StopRun [StopRun] _ _ Hs2); [lia|by apply stop_agenda|lia].
  - by apply set_run.
  - eapply returns_bind; [by apply set_en|]. intros s1 Hs1.
    eapply returns_bind; [by apply set_val|]. intros s2 Hs2.
    apply (after_debug 1 StopWrite [StopWrite] _ _ Hs2); [lia|by apply stop_agenda|lia].
  - by apply set_en.
Qed.

(** The reads of the memory. *)
Lemma mem_read_returns v s : drives v s -> returns mem_read (drives v) s.
Proof.
  intros Hs. apply wp_bind, wp_gets. unfold id, read_word. apply wp_bind, wp_bind, wp_gets.
  destruct (drives_quiet v s Hs) as (_ & _ & _ & Ha). rewrite Memory.read_Some.
  - apply wp_ret. by apply set_free_pin.
  - unfold mem_bus_addr, Memory.MEMORY_SIZE. rewrite Z.shiftl_mul_pow2 by lia. cbn [sizeof]. cpp_lia.
Qed.

Lemma bus_returns v e s : e ∈ [MemRead; MemAck; MemDone] -> drives v s -> returns (call (Client e)) (drives v) s.
Proof.
  intros He Hs. repeat (apply elem_of_cons in He as [->|He]); [..|by apply not_elem_of_nil in He].
  - by apply mem_read_returns.
  - eapply returns_bind; [by apply set_free_pin|]. intros s1 Hs1. apply after_bus; [done|lia|bus_agenda].
  - eapply returns_bind; [by apply set_free_pin|]. intros s1 Hs1. apply wp_modify. by apply drives_in_progress.
Qed.

Lemma agenda_returns l es v s :
  agenda l es -> drives v s -> returns (call_all l) (drives (foldl do_event v es)) s.
Proof.
  intros [Hl <-]. revert v s. induction Hl as [|cb l Hcb Hl IH]; intros v s Hs; [by apply wp_ret|].
  destruct (debug_event cb) as [e|] eqn:E; cbn [call_all omap list_omap]; rewrite E.
  - assert (cb = Client e /\ debug_event (Client e) = Some e) as [-> E'].
    { destruct cb as [|[]]; try discriminate; by injection E as <-. }
    eapply returns_bind; [by apply event_returns|]. intros s1 Hs1. by apply IH.
  - destruct Hcb as [Hcb|Hcb]; [rewrite E in Hcb; by destruct Hcb|].
    assert (exists e, cb = Client e /\ e ∈ [MemRead; MemAck; MemDone]) as (e & -> & He).
    { destruct Hcb as [->|[->| ->]]; eexists; split; try done; set_solver. }
    eapply returns_bind; [by apply bus_returns|]. intros s1 Hs1. by apply IH.
Qed.

Definition drop_today v : view :=
  mk_view (v_clk v) (v_controls v) (v_unit v) [] (v_tomorrow v) (v_stopped v) (v_cycle v).

Lemma deferred_returns v s :
  drives v s -> returns run_deferred_events (drives (foldl do_event (drop_today v) (v_today v))) s.
Proof.
  intros Hs. unfold returns, wp. rewrite run_deferred_eq. apply agenda_returns; [by apply (dr_calendar _ _ Hs 0)|].
  destruct Hs. split; try done; cbn [with_base rtlcpu_driver drv put_drv base].
  - by apply wf_clear.
  - intros k Hk. rewrite due_clear by done. specialize (dr_calendar0 k Hk). case_decide; [apply agenda_nil|done].
Qed.

(** *** Evaluations and cycles *)

Definition clock b u v : view :=
  mk_view b (v_controls v) u (v_today v) (v_tomorrow v) (v_stopped v) (v_cycle v).

(** A change of the model alone. *)
Lemma drives_model b u w p v s :
  drives v s -> (forall q, q <> clk -> p q = in_pins (dut (drv s)) q) ->
  p clk = b -> sampled_clk w = b -> debug_state w = u -> doing u <> Elsewhere ->
  drives (clock b u v) (put_drv (put_dut (mk_model p w) (drv s)) s).
Proof.
  intros [] Hp Hb Hw Hu Hd. split; try done; cbn [drv put_drv put_dut dut in_pins].
  - by apply wf_put_dut.
  - unfold undisturbed. by rewrite !Hp.
  - etransitivity; [|done]. by apply controls_ext; apply Hp.
Qed.

Lemma eval_returns v s : drives v s -> returns eval (drives v) s.
Proof.
  intros Hs. apply wp_modify. replace v with (clock (v_clk v) (v_unit v) v) by by destruct v.
  apply drives_model; try done; [by destruct Hs|rewrite sampled_eval; apply Hs| |apply Hs].
  cbn. rewrite eval_steady; [apply Hs|apply Hs|rewrite (dr_unit _ _ Hs); apply Hs|].
  rewrite (dr_sampled _ _ Hs), (dr_clk _ _ Hs). tauto.
Qed.

(** The unit has a rising edge to follow. *)
Definition ready_for_edge v : Prop := exists u, clocked longest (v_controls v) (v_unit v) u.

Lemma clocked_busy n c u u' : clocked n c u u' -> doing u' <> Elsewhere.
Proof. intros []; try done. by destruct p. Qed.

Lemma toggle_eq s :
  toggle_clk s = Ok tt (put_drv (put_dut (mk_model
    (drive clk (if nz (in_pins (dut (drv s)) clk) then 0 else 1) (in_pins (dut (drv s)))) (state (dut (drv s)))) (drv s)) s).
Proof. done. Qed.

Lemma rising_returns (f : M rtlcpu unit) Q v s :
  drives v s -> v_clk v = 0 -> ready_for_edge v ->
  (forall u s', clocked longest (v_controls v) (v_unit v) u -> drives (clock 1 u v) s' -> returns f Q s') ->
  returns (toggle_clk ;; eval ;; f) Q s.
Proof.
  intros Hs Hclk Hready Hf. unfold returns, wp, mbind, M_bind. rewrite toggle_eq.
  rewrite (dr_clk _ _ Hs), Hclk. change (if nz 0 then 0 else 1) with 1.
  set (p := drive clk 1 (in_pins (dut (drv s)))). cbn. set (w := rtl_eval p (state (dut (drv s)))).
  assert (Hp : forall q, q <> clk -> p q = in_pins (dut (drv s)) q).
  { intros q Hq. unfold p, drive. by rewrite decide_False. }
  assert (Hc : controls_of p = v_controls v).
  { rewrite <- (dr_controls _ _ Hs). by apply controls_ext; apply Hp. }
  assert (Hu : clocked longest (v_controls v) (v_unit v) (debug_state w)).
  { rewrite <- Hc, <- (dr_unit _ _ Hs). apply eval_rising.
    - unfold undisturbed. rewrite !Hp by done. apply Hs.
    - by rewrite (dr_sampled _ _ Hs).
    - done.
    - rewrite Hc, (dr_unit _ _ Hs). exact Hready. }
  apply (Hf (debug_state w)); [done|]. refine (drives_model 1 _ w p v s Hs Hp _ _ _ _); try done.
  - unfold w. by rewrite sampled_eval.
  - by eapply clocked_busy.
Qed.

Lemma falling_returns v s : drives v s -> v_clk v = 1 -> returns (toggle_clk ;; eval) (drives (clock 0 (v_unit v) v)) s.
Proof.
  intros Hs Hclk. unfold returns, wp, mbind, M_bind. rewrite toggle_eq.
  rewrite (dr_clk _ _ Hs), Hclk. change (if nz 1 then 0 else 1) with 0.
  set (p := drive clk 0 (in_pins (dut (drv s)))). cbn.
  assert (Hp : forall q, q <> clk -> p q = in_pins (dut (drv s)) q).
  { intros q Hq. unfold p, drive. by rewrite decide_False. }
  refine (drives_model 0 _ (rtl_eval p _) p v s Hs Hp _ _ _ _); try done; [by rewrite sampled_eval| |apply Hs].
  rewrite eval_steady; [apply Hs| |rewrite (dr_unit _ _ Hs); apply Hs|].
  - unfold undisturbed. rewrite !Hp by done. apply Hs.
  - rewrite (dr_sampled _ _ Hs), Hclk. by intros [? _].
Qed.

(** What is left of a cycle after the rising edge. *)
Definition finish v : view :=
  let v := sample (foldl do_event (drop_today v) (v_today v)) in
  mk_view 0 (v_controls v) (v_unit v) (v_tomorrow v) [] (v_stopped v) (v_cycle v + 1).

Lemma do_events_clock es v :
  v_clk (foldl do_event v es) = v_clk v /\ v_unit (foldl do_event v es) = v_unit v /\
  v_cycle (foldl do_event v es) = v_cycle v.
Proof.
  revert v. induction es as [|e es IH]; intros v; [done|]. cbn [foldl].
  destruct (IH (do_event v e)) as (-> & -> & ->). by destruct e.
Qed.

(** Nothing is left for today. *)
Lemma do_events_today es v : v_today (foldl do_event v es) = v_today v.
Proof. revert v. induction es as [|e es IH]; intros v; [done|]. cbn [foldl]. rewrite IH. by destruct e. Qed.

Lemma end_of_cycle v s :
  drives v s -> v_today v = [] -> v_cycle v + 65 < 2 ^ 64 ->
  returns (on_base (fun d => put_cycle_num (u64 (cycle_num d + 1)) d))
    (drives (mk_view (v_clk v) (v_controls v) (v_unit v) (v_tomorrow v) [] (v_stopped v) (v_cycle v + 1))) s.
Proof.
  intros Hs Ht Hroom. apply wp_modify. pose proof (dr_wf _ _ Hs) as [Hl Hc]. destruct Hs.
  assert (Hn : u64 (cycle_num (drv s) + 1) = v_cycle v + 1) by (rewrite dr_cycle0, cast_id by cpp_lia; done).
  split; try done; cbn [base with_base rtlcpu_driver drv put_drv].
  - split; [done|]. cbn. lia.
  - intros k Hk. rewrite due_next by done.
    destruct (decide (k = 63)) as [->|Hk'].
    { change ((63 + 1) mod 64) with 0. specialize (dr_calendar0 0 ltac:(lia)). by rewrite Ht in dr_calendar0. }
    rewrite Z.mod_small by lia. specialize (dr_calendar0 (k + 1) ltac:(lia)). revert dr_calendar0. cbn [v_today v_tomorrow].
    repeat case_decide; try lia; done.
Qed.

Lemma turn_returns j v s : j <> 0 -> j <> 5 -> drives v s -> returns (eval_turn j) (drives v) s.
Proof.
  intros H0 H5 Hs. unfold eval_turn. change (evals_per_cycle / 2) with 5.
  rewrite (proj2 (Z.eqb_neq j 0)), (proj2 (Z.eqb_neq j 5)) by done. by apply eval_returns.
Qed.

Lemma turns_return n first v s : 5 < first -> drives v s -> returns (for_from n first eval_turn) (drives v) s.
Proof.
  revert first s. induction n as [|n IH]; intros first s Hf Hs; [by apply wp_ret|]. cbn [for_from].
  eapply returns_bind; [apply turn_returns; [lia..|exact Hs]|]. intros s1 Hs1. apply IH; [lia|exact Hs1].
Qed.

(** The turn with the rising edge. *)
Lemma first_turn_returns v s :
  drives v s -> v_clk v = 0 -> ready_for_edge v ->
  returns (eval_turn 0) (fun s' => exists u, clocked longest (v_controls v) (v_unit v) u /\
    drives (sample (foldl do_event (drop_today (clock 1 u v)) (v_today v))) s') s.
Proof.
  intros Hs Hclk Hready. cbn [eval_turn Z.eqb]. apply wp_bind, wp_gets.
  eapply returns_bind; [by apply setup_returns|]. intros s1 Hs1.
  eapply rising_returns; [exact Hs1|done..|]. intros u s2 Hu Hs2.
  eapply returns_bind; [by apply deferred_returns|]. intros s3 Hs3.
  eapply returns_bind; [by apply eval_returns|]. intros s4 Hs4. apply wp_bind, wp_gets.
  eapply returns_mono; [by apply capture_returns|]. intros s5 Hs5. by exists u.
Qed.

(** One cycle. *)
Lemma cycle_returns v s :
  drives v s -> v_clk v = 0 -> ready_for_edge v -> v_cycle v + 65 < 2 ^ 64 ->
  returns (rtl_cycle 1)
    (fun s' => exists u, clocked longest (v_controls v) (v_unit v) u /\ drives (finish (clock 1 u v)) s') s.
Proof.
  intros Hs Hclk Hready Hroom. apply (returns_bind _ _ (fun s' =>
    exists u, clocked longest (v_controls v) (v_unit v) u /\ drives (finish (clock 1 u v)) s')); [|intros; by apply wp_ret].
  apply (returns_bind _ _ (fun s' => exists u, clocked longest (v_controls v) (v_unit v) u /\
    drives (clock 0 u (sample (foldl do_event (drop_today (clock 1 u v)) (v_today v)))) s')).
  - change (for_loop evals_per_cycle eval_turn) with (eval_turn 0 ;; eval_turn 1 ;; eval_turn 2 ;; eval_turn 3 ;;
      eval_turn 4 ;; (toggle_clk ;; eval) ;; for_from 4 6 eval_turn).
    eapply returns_bind; [by apply first_turn_returns|]. intros s1 (u & Hu & Hs1).
    destruct (do_events_clock (v_today v) (drop_today (clock 1 u v))) as (Ec & Eu & _).
    do 4 (eapply returns_bind; [apply turn_returns; [done..|eassumption]|]; intros).
    eapply returns_bind; [apply falling_returns; [eassumption|exact Ec]|]. intros s2 Hs2.
    eapply returns_mono; [apply turns_return; [done|exact Hs2]|]. intros s3 Hs3. exists u. split; [done|].
    change (v_unit (sample _)) with (v_unit (foldl do_event (drop_today (clock 1 u v)) (v_today v))) in Hs3.
    by rewrite Eu in Hs3.
  - intros s1 (u & Hu & Hs1). eapply returns_mono; [apply end_of_cycle; [exact Hs1|apply do_events_today|]|].
    + cbn. destruct (do_events_clock (v_today v) (drop_today (clock 1 u v))) as (_ & _ & ->). done.
    + intros s2 Hs2. exists u. split; [done|].
      destruct (do_events_clock (v_today v) (drop_today (clock 1 u v))) as (_ & Eu & _).
      refine (eq_rect _ (fun x => drives x s2) Hs2 _ _). unfold finish. f_equal. by symmetry.
Qed.

(** ** Running a procedure *)

(** The controller may start a procedure; a write of the temporary register
    may still be under way. *)
Definition ready (writing : bool) a x u cyc : view :=
  mk_view 0 (mk_controls false a writing x) u (if writing then [StopWrite] else []) [] true cyc.

Definition settled (writing : bool) x (u : debug_unit) : debug_unit :=
  if writing then mk_unit (doing u) (file u) x else u.

(** A turn of the loops that wait. *)
Lemma wait_turn fuel b v s (body : M rtlcpu unit) Q :
  drives v s -> v_stopped v = b -> returns (body ;; while_stopped fuel b body) Q s ->
  returns (while_stopped (S fuel) b body) Q s.
Proof.
  intros Hs Hb Hf. apply wp_bind, wp_gets. rewrite (dr_stopped _ _ Hs), Hb, bool_decide_true by done. exact Hf.
Qed.

Lemma wait_end fuel b v s (body : M rtlcpu unit) (Q : rtlcpu -> Prop) :
  drives v s -> v_stopped v = negb b -> Q s -> returns (while_stopped (S fuel) b body) Q s.
Proof.
  intros Hs Hb Hf. apply wp_bind, wp_gets. rewrite (dr_stopped _ _ Hs), Hb, bool_decide_false by by destruct b.
  by apply wp_ret.
Qed.

(** The two cycles from the request to the first cycle of the procedure. *)
Lemma start_returns fuel writing addr p a x rf t cyc s :
  reg_procedure addr = Some p -> 0 <= addr < 256 -> cyc + 67 < 2 ^ 64 -> (2 < fuel)%nat ->
  drives (ready writing a x (mk_unit Waiting rf t) cyc) s ->
  returns (after_n_cycles 0 (Client (StartProc addr)) ;; while_stopped fuel true (rtl_cycle 1))
    (fun s' => exists n, (n <= longest)%nat /\
      drives (mk_view 0 (mk_controls false addr false x) (mk_unit (Running p n) rf (if writing then x else t))
        [] [] false (cyc + 2)) s') s.
Proof.
  intros Hp Haddr Hroom Hf Hs. destruct fuel as [|[|[|fuel]]]; [lia..|].
  eapply returns_bind.
  { apply (after_debug 0 (StartProc addr) [StartProc addr] _ _ Hs); [lia|by apply stop_agenda|lia]. }
  intros s1 Hs1. unfold book, ready in Hs1. cbn in Hs1. eapply wait_turn; [exact Hs1|done|].
  eapply returns_bind.
  { apply (cycle_returns _ _ Hs1); [done| |cbn; lia]. destruct writing; eexists; constructor. }
  intros s2 (u2 & Hu2 & Hs2).
  assert (u2 = mk_unit Waiting rf (if writing then x else t)) as ->.
  { cbn in Hu2. destruct writing; by inversion Hu2. }
  assert (Hs2' : drives (mk_view 0 (mk_controls true addr false x) (mk_unit Waiting rf (if writing then x else t))
    [StopRun] [] true (cyc + 1)) s2).
  { rewrite <- (cast_id uint8_t addr) by done. by destruct writing. }
  eapply wait_turn; [exact Hs2'|done|]. eapply returns_bind.
  { apply (cycle_returns _ _ Hs2'); [done| |cbn; lia]. eexists. by apply (clocked_start _ _ _ _ _ p 0); [|lia]. }
  intros s3 (u3 & Hu3 & Hs3). cbn in Hu3. inversion Hu3 as [| |a' v' rf' t' p' n Hp' Hn| |]. subst.
  eapply wait_end; [exact Hs3|done|]. exists n. split; [done|]. assert (p' = p) as -> by congruence.
  replace (cyc + 2) with (cyc + 1 + 1) by lia. exact Hs3.
Qed.

(** The cycles of the procedure. *)
Lemma procedure_returns n addr p x rf t cyc fuel count s :
  cyc + Z.of_nat n + 66 < 2 ^ 64 -> (n + 1 < fuel)%nat ->
  drives (mk_view 0 (mk_controls false addr false x) (mk_unit (Running p n) rf t) [] [] false cyc) s ->
  wp (run_to_stop fuel null_io count) (fun c s' => c <= count + Z.of_nat n + 1 /\
    drives (ready false addr x (run_procedure p rf t) (cyc + Z.of_nat n + 1)) s') (fun _ => False) s.
Proof.
  revert cyc fuel count s. induction n as [|n IH]; intros cyc fuel count s Hroom Hf Hs;
    (destruct fuel as [|fuel]; [lia|]); cbn [run_to_stop];
    apply wp_bind, wp_gets; rewrite (dr_stopped _ _ Hs); cbn [v_stopped]; apply wp_bind;
    (eapply wp_mono; [eapply (cycle_returns _ _ Hs); [done|eexists; constructor|cbn; lia]| |done]);
    intros [] s1 (u & Hu & Hs1); cbn in Hu; inversion Hu; subst; clear Hu;
    apply wp_bind, wp_gets, wp_bind, wp_gets, wp_bind, wp_ret.
  - destruct fuel as [|fuel]; [lia|]. cbn [run_to_stop]. apply wp_bind, wp_gets. rewrite (dr_stopped _ _ Hs1).
    assert (Hw : waiting (run_procedure p rf t) = true) by by destruct p.
    change (v_stopped (finish _)) with (waiting (run_procedure p rf t)). rewrite Hw. apply wp_ret.
    split; [destruct (_ && _); lia|]. refine (eq_rect _ (fun x => drives x s1) Hs1 _ _).
    unfold finish, ready, sample. cbn. by rewrite Hw, Z.add_0_r.
  - eapply wp_mono; [apply (IH (cyc + 1)); [lia|lia|exact Hs1]| |done]. intros c s2 (Hc & Hs2). cbn beta. split.
    + revert Hc. destruct (_ && _); lia.
    + by replace (cyc + Z.of_nat (S n) + 1) with (cyc + 1 + Z.of_nat n + 1) by lia.
Qed.

(** The value that the debug interface shows. *)
Lemma debug_val_eq v s : drives v s -> read_debug_val s = Ok (temp (v_unit v)) s.
Proof.
  intros Hs. unfold read_debug_val, gets, pin. rewrite out_val; rewrite (dr_unit _ _ Hs); [done|apply Hs].
Qed.

Lemma debug_stopped_eq v s : drives v s -> pin_set s debug_stopped = waiting (v_unit v).
Proof. intros Hs. unfold pin_set, pin. rewrite out_stopped; rewrite (dr_unit _ _ Hs); [done|apply Hs]. Qed.

(** [debug_write_data]: the write reaches the register at the next edge. *)
Lemma write_data_returns val a x rf t cyc s :
  cyc + 65 < 2 ^ 64 -> drives (ready false a x (mk_unit Waiting rf t) cyc) s ->
  returns (debug_write_data val) (drives (ready true a (u16 val) (mk_unit Waiting rf t) (cyc + 1))) s.
Proof.
  intros Hroom Hs. eapply returns_bind.
  { apply (after_debug 0 (WriteTemp val) [WriteTemp val] _ _ Hs); [lia|by apply stop_agenda|lia]. }
  intros s1 Hs1. unfold book, ready in Hs1. cbn in Hs1. eapply returns_mono.
  { apply (cycle_returns _ _ Hs1); [done|eexists; constructor|cbn; lia]. }
  intros s2 (u & Hu & Hs2). cbn in Hu. inversion Hu; subst. exact Hs2.
Qed.

Definition cycles_per_proc : Z := Z.of_nat longest + 4.

(** *** The accessors *)

(** The driver and the debug unit between two operations, in cycle [cyc]. *)
Definition rests (rf : RegisterFile.t) (cyc : Z) s : Prop :=
  exists a x t, drives (ready false a x (mk_unit Waiting rf t) cyc) s.

(** [f] returns [r] within [n] procedures, and leaves the registers [rf']. *)
Definition does {A} (n : Z) (f : M rtlcpu A) rf (r : A) rf' : Prop :=
  forall cyc s, rests rf cyc s -> cyc + n * (cycles_per_proc + 1) + 65 < 2 ^ 64 ->
    exists cyc' s', cyc' <= cyc + n * (cycles_per_proc + 1) /\ f s = Ok r s' /\ rests rf' cyc' s'.

Lemma does_bind {A B} n n' (f : M rtlcpu A) (g : A -> M rtlcpu B) rf rf1 rf2 r r' :
  0 <= n -> 0 <= n' -> does n f rf r rf1 -> does n' (g r) rf1 r' rf2 -> does (n + n') (f ≫= g) rf r' rf2.
Proof.
  unfold does. intros Hn Hn' Hf Hg cyc s Hs Hroom.
  assert (0 <= cycles_per_proc + 1) by (unfold cycles_per_proc; lia).
  destruct (Hf cyc s Hs) as (c1 & s1 & Hc1 & E1 & H1); [nia|].
  destruct (Hg c1 s1 H1) as (c2 & s2 & Hc2 & E2 & H2); [nia|].
  exists c2, s2. split; [nia|]. split; [|done]. unfold mbind, M_bind. by rewrite E1.
Qed.

Lemma does_ret {A} (r : A) rf : does 0 (mret r) rf r rf.
Proof. intros cyc s Hs _. exists cyc, s. split; [lia|done]. Qed.

Lemma does_weaken {A} n n' (f : M rtlcpu A) rf r rf' : n <= n' -> does n f rf r rf' -> does n' f rf r rf'.
Proof.
  unfold does. intros Hn Hf cyc s Hs Hroom. assert (0 <= cycles_per_proc + 1) by (unfold cycles_per_proc; lia).
  destruct (Hf cyc s Hs) as (c & s1 & Hc & Hs1); [nia|]. exists c, s1. split; [nia|done].
Qed.

Lemma does_assert_stopped rf : does 0 assert_stopped rf () rf.
Proof.
  intros cyc s Hs _. exists cyc, s. split; [lia|]. split; [|done]. destruct Hs as (a & x & t & Hs).
  unfold assert_stopped, gets, mbind, M_bind. by rewrite (dr_stopped _ _ Hs).
Qed.

(** [patience] is enough for the longest procedure. *)
Context (patience : nat) (Hpatience : (longest + 2 < patience)%nat).

Lemma run_proc_returns writing addr p a x rf t cyc s :
  reg_procedure addr = Some p -> 0 <= addr < 256 -> cyc + cycles_per_proc + 65 < 2 ^ 64 ->
  drives (ready writing a x (mk_unit Waiting rf t) cyc) s ->
  returns (run_proc patience addr) (fun s' => exists cyc', cyc' <= cyc + cycles_per_proc /\
    drives (ready false addr x (run_procedure p rf (if writing then x else t)) cyc') s') s.
Proof using Hpatience.
  unfold cycles_per_proc. intros Hp Haddr Hroom Hs. apply wp_bind. unfold debug_run_proc.
  apply returns_then with (P := fun s' => exists n, (n <= longest)%nat /\
      drives (mk_view 0 (mk_controls false addr false x) (mk_unit (Running p n) rf (if writing then x else t))
        [] [] false (cyc + 2)) s').
  { eapply start_returns; [done..|lia|lia|exact Hs]. }
  intros s1 (n & Hn & Hs1). apply wp_bind. pose proof longest_bound as Hb.
  eapply wp_mono; [eapply procedure_returns; [| |exact Hs1]; lia| |done].
  intros c s2 (Hc & Hs2). cbn beta. rewrite (proj2 (Z.leb_gt _ _)) by lia. do 2 apply wp_ret.
  exists (cyc + 2 + Z.of_nat n + 1). split; [lia|exact Hs2].
Qed.

(** Reading: a procedure, and the value it leaves in the temporary register. *)
Lemma does_read addr p rf v :
  reg_procedure addr = Some p -> 0 <= addr < 256 -> (forall t, run_procedure p rf t = mk_unit Waiting rf v) ->
  does 1 (run_proc patience addr ;; read_debug_val) rf v rf.
Proof using Hpatience.
  intros Hp Ha Hv cyc s (a & x & t & Hs) Hroom.
  assert (Hrun := run_proc_returns false addr p a x rf t cyc s Hp Ha ltac:(lia) Hs).
  unfold returns, wp in Hrun. destruct (run_proc patience addr s) as [[] s1|] eqn:E; [|done].
  destruct Hrun as (cyc' & Hc & Hs1). rewrite Hv in Hs1. exists cyc', s1. split; [lia|]. split.
  - unfold mbind, M_bind. rewrite E. by rewrite (debug_val_eq _ _ Hs1).
  - by exists addr, x, v.
Qed.

(** Writing: the temporary register, and a procedure. *)
Lemma does_write addr p val rf rf' :
  reg_procedure addr = Some p -> 0 <= addr < 256 ->
  run_procedure p rf (u16 val) = mk_unit Waiting rf' (u16 val) ->
  does 1 (debug_write_data val ;; run_proc patience addr) rf () rf'.
Proof using Hpatience.
  intros Hp Ha Hv cyc s (a & x & t & Hs) Hroom.
  assert (H : returns (debug_write_data val ;; run_proc patience addr) (fun s' =>
    exists cyc', cyc' <= cyc + 1 + cycles_per_proc /\ rests rf' cyc' s') s).
  { eapply returns_bind; [eapply write_data_returns; [|exact Hs]|].
    - unfold cycles_per_proc in Hroom. lia.
    - intros s1 Hs1. eapply returns_mono; [eapply run_proc_returns; [exact Hp|exact Ha| |exact Hs1]; lia|].
      intros s2 (cyc' & Hc & Hs2). exists cyc'. split; [lia|]. cbn [ready] in Hs2. rewrite Hv in Hs2.
      by exists addr, (u16 val), (u16 val). }
  unfold returns, wp in H.
  destruct ((debug_write_data val ;; run_proc patience addr) s) as [[] s1|]; [|done]. destruct H as (cyc' & Hc & H).
  exists cyc', s1. split; [lia|done].
Qed.

(** ** [read_reg], [write_reg] and the flags refine the register file *)

Lemma does_read_word r rf :
  RegisterFile.is_byte r = false -> does 1 (run_proc patience (0x03 + GPR_to_int r) ;; read_debug_val) rf (RegisterFile.get rf r) rf.
Proof using Hpatience.
  intros Hr. pose proof (GPR_to_int_small r). apply (does_read _ (ReadReg r)); [by apply reg_proc_read|lia|done].
Qed.

Lemma does_read_reg r rf : RegisterFile.wf rf -> does 1 (rtl_read_reg patience r) rf (RegisterFile.get rf r) rf.
Proof using Hpatience.
  intros Hrf. unfold rtl_read_reg. case_decide as Hip.
  { subst r. intros cyc s Hs Hroom. destruct (Hs) as (a & x & t & Hd). unfold read_ip, gets, mbind at 1, M_bind at 1.
    unfold id. rewrite (debug_stopped_eq _ _ Hd).
    by apply (does_read_word IP rf eq_refl cyc s). }
  destruct (is_sr r) eqn:Hsr.
  { apply does_read_word. by destruct r. }
  unfold read_gpr. destruct (RegisterFile.is_byte r) eqn:Hb.
  - replace (GPR_to_int r <? NUM_16BIT_REGS) with false by by destruct r.
    rewrite regsel_parent by done. rewrite (RegisterFile.get_by_word rf r) by done.
    pose proof (RegisterFile.parent_word r) as Hp.
    rewrite <- get_v8_view; [| |done].
    + intros cyc s Hs Hroom. destruct (does_read_word _ rf Hp cyc s Hs Hroom) as (c & s1 & Hc & E & H1).
      exists c, s1. split; [done|]. split; [|done]. revert E. unfold mbind, M_bind.
      destruct (run_proc _ _ s) as [[] s0|]; [|done]. by intros ->.
    + pose proof (RegisterFile.get_range rf (RegisterFile.parent r) Hrf) as Hg.
      unfold RegisterFile.gpr_type in Hg. by rewrite Hp in Hg.
  - replace (GPR_to_int r <? NUM_16BIT_REGS) with true by by destruct r. by apply does_read_word.
Qed.

Lemma does_write_word r v rf :
  RegisterFile.is_byte r = false -> r <> IP ->
  does 1 (debug_write_data v ;; run_proc patience (0x13 + GPR_to_int r)) rf () (RegisterFile.set rf r (u16 v)).
Proof using Hpatience.
  intros Hr Hip. pose proof (GPR_to_int_small r). apply (does_write _ (WriteReg r)); [by apply reg_proc_write|lia|done].
Qed.

Lemma does_write_reg r v rf :
  RegisterFile.wf rf -> does 2 (rtl_write_reg patience r v) rf () (RegisterFile.set rf r (u16 v)).
Proof using Hpatience.
  intros Hrf. unfold rtl_write_reg. cbv zeta.
  replace (RegisterFile.set rf r (u16 v)) with (RegisterFile.set rf r (u16 (u16 v))) by by rewrite cast_idemp.
  generalize (u16 v). intros w.
  case_decide as Hip.
  { subst r. apply (does_bind 0 2 _ _ _ rf _ ()); [lia|lia|apply does_assert_stopped|].
    apply (does_weaken 1); [lia|]. by apply (does_write 0x11 (WriteReg IP)). }
  destruct (is_sr r) eqn:Hsr.
  { apply (does_weaken 1); [lia|]. apply does_write_word; by destruct r. }
  unfold write_gpr. destruct (RegisterFile.is_byte r) eqn:Hb.
  - replace (GPR_to_int r <? NUM_16BIT_REGS) with false by by destruct r.
    rewrite regsel_parent by done. pose proof (RegisterFile.parent_word r) as Hp.
    replace (GPR_of_int (GPR_to_int (RegisterFile.parent r))) with (Some (RegisterFile.parent r)) by by destruct r.
    change (from_option BadEnum (Some ?q)) with (mret (M := M (rtlcpu (D := D))) q).
    apply (does_bind 1 1 _ _ _ rf _ (RegisterFile.get rf (RegisterFile.parent r))); [lia|lia|by apply does_read_reg|].
    replace (RegisterFile.set rf r (u16 w)) with (RegisterFile.set rf r w)
      by (unfold RegisterFile.set; by rewrite cast_idemp).
    rewrite set_byte_by_word by done.
    rewrite <- put_v8_word; [|pose proof (RegisterFile.get_range rf (RegisterFile.parent r) Hrf) as Hg;
      unfold RegisterFile.gpr_type in Hg; by rewrite Hp in Hg|done].
    apply does_write_word; [done|by destruct r].
  - replace (GPR_to_int r <? NUM_16BIT_REGS) with true by by destruct r.
    apply (does_weaken 1); [lia|]. by apply does_write_word.
Qed.

Lemma does_read_flags rf : does 1 (rtl_read_flags patience) rf (RegisterFile.get_flags rf) rf.
Proof using Hpatience. by apply (does_read 0x10 ReadFlags). Qed.

Lemma does_write_flags v rf :
  does 1 (rtl_write_flags patience v) rf () (RegisterFile.set_flags rf (u16 v) 0xffff).
Proof using Hpatience. unfold rtl_write_flags. rewrite <- (cast_idemp uint16_t v) at 2. by apply (does_write 0x12 WriteFlags). Qed.

(** C24. The accessors of the registers refine the register file, through a
    circuit that the driver only sees by its pins. From a state in which the
    debug unit waits and shows the registers [rf], for every register, byte
    registers included: [read_reg] returns in finite time what [RegisterFile::get] would,
    [write_reg] leaves what [RegisterFile::set] would, and the flags likewise; the memory and the
    devices are untouched whatever the circuit reads ahead meanwhile, and the driver is
    at rest again, within one or two procedures. *)
Theorem debug_accessors_refine_registers rf :
  RegisterFile.wf rf ->
  (forall r, does 1 (rtl_read_reg patience r) rf (RegisterFile.get rf r) rf) /\
  (forall r v, does 2 (rtl_write_reg patience r v) rf () (RegisterFile.set rf r (u16 v))) /\
  does 1 (rtl_read_flags patience) rf (RegisterFile.get_flags rf) rf /\
  (forall v, does 1 (rtl_write_flags patience v) rf () (RegisterFile.set_flags rf (u16 v) 0xffff)).
Proof using Hpatience.
  intros Hrf. split_and!; intros; [by apply does_read_reg|by apply does_write_reg|apply does_read_flags
    |apply does_write_flags].
Qed.
End debugged.

(** ** The contract of [SimCPU] *)

Section laws.
Context {CFG : Config} {RTL : RTLModel} {DU : DebugUnit} {D : Type} {IOP : IOPorts D}.
Context (dv : D).
Implicit Types s : rtlcpu (D := D).

(** The most cycles that an access takes. *)
Definition cycles_per_access : Z := 2 * (cycles_per_proc + 1).

Definition rtl_shows (n : nat) (m : Memory.t) (rf : RegisterFile.t) s : Prop :=
  RegisterFile.wf rf /\
  exists cyc, rests m dv rf cyc s /\ cyc + Z.of_nat n * cycles_per_access + 65 < 2 ^ 64.

Lemma drives_memory m m' v s : drives m dv v s -> drives m' dv v (put_mem m' s).
Proof. by intros []. Qed.

Lemma does_shows {A} k n m rf rf' (f : M rtlcpu A) r s :
  0 <= k <= 2 -> does m dv k f rf r rf' -> RegisterFile.wf rf' -> rtl_shows (S n) m rf s ->
  exists s', f s = Ok r s' /\ rtl_shows n m rf' s'.
Proof.
  unfold rtl_shows, cycles_per_access. intros Hk Hf Hrf' (_ & cyc & Hs & Hroom).
  assert (0 <= cycles_per_proc) by (unfold cycles_per_proc; lia).
  destruct (Hf cyc s Hs) as (c & s1 & Hc & E & H1); [nia|].
  exists s1. split; [done|]. split; [done|]. exists c. split; [done|nia].
Qed.

Context (patience : nat) (Hpatience : (longest + 2 < patience)%nat).

#[export] Instance rtlcpu_laws : SimCPULaws (CPU := rtlcpu_simcpu patience) (rtlcpu (D := D)).
Proof using dv Hpatience.
  refine (Build_SimCPULaws _ _ _ rtl_shows _ _ _ _ _ _ _).
  - by intros n m rf s [H _].
  - intros n m rf s (_ & cyc & (a & x & t & Hs) & _). apply Hs.
  - intros n m m' rf s (Hrf & cyc & (a & x & t & Hs) & Hroom). split; [done|]. exists cyc. split; [|done].
    exists a, x, t. by apply (drives_memory m).
  - intros n m rf s r Hs. eapply (does_shows 1); [done|by apply does_read_reg, Hs|apply Hs|exact Hs].
  - intros n m rf s r v Hs. eapply (does_shows 2); [done|by apply does_write_reg, Hs|apply RegisterFile.wf_set, Hs|exact Hs].
  - intros n m rf s Hs. eapply (does_shows 1); [done|by apply does_read_flags|apply Hs|exact Hs].
  - intros n m rf s v Hs. eapply (does_shows 1); [done|by apply does_write_flags|apply RegisterFile.wf_set_flags, Hs|exact Hs].
Defined.
End laws.
