(* ===== verification/Machine.v ===== *)
(** * The emulator's state: the members of [EmulatorPimpl]
    ([sim/cppmodel/Emulate.cpp]) and of the objects it owns or points to, and
    the accessors its member functions use. *)
From S2P Require Import Prelude Config MainMemory Registers ErrorState IOPorts.

(** [enum RepMode], [enum OperandWidth], [enum OperandType]. *)
Inductive RepMode := REPNE | REPE.
Inductive OperandWidth := OP_WIDTH_8 | OP_WIDTH_16.
Inductive OperandType := OP_REG | OP_MEM.

#[export] Instance RepMode_eq_dec : EqDecision RepMode.
Proof. solve_decision. Defined.
#[export] Instance OperandWidth_eq_dec : EqDecision OperandWidth.
Proof. solve_decision. Defined.
#[export] Instance OperandType_eq_dec : EqDecision OperandType.
Proof. solve_decision. Defined.

(** The members of [class ModRMDecoder]; its callback and its register
    pointer are the emulator's own. *)
Record ModRMState := mk_modrm {
  mrm_width : OperandWidth;
  mrm_modrm : Z;
  mrm_cached_address : Z;
  mrm_addr_is_cached : bool;
  mrm_is_decoded : bool;
}.

(** The members of [class EmulatorPimpl]; [mem], [registers] and [io] are
    the pointed-to objects, [devs] the device objects behind [io]. *)
Record machine (D : Type) := mk_machine {
  mem : Memory.t;
  io : gmap Z ioport;
  devs : D;
  registers : RegisterFile.t;
  instr_length : Z;
  modrm_decoder : ModRMState;
  opcode : Z;
  jump_taken : bool;
  default_segment_overriden : bool;
  override_segment : GPR;
  rep_mode : RepMode;
  has_rep_prefix : bool;
  nmi_pending : bool;
  ext_int_inhibit : bool;
  pending_irq : Z;
  tf_was_set : bool;
}.
Arguments mk_machine {D}.
Arguments mem {D}. Arguments io {D}. Arguments devs {D}. Arguments registers {D}.
Arguments instr_length {D}. Arguments modrm_decoder {D}. Arguments opcode {D}.
Arguments jump_taken {D}. Arguments default_segment_overriden {D}.
Arguments override_segment {D}. Arguments rep_mode {D}. Arguments has_rep_prefix {D}.
Arguments nmi_pending {D}. Arguments ext_int_inhibit {D}. Arguments pending_irq {D}.
Arguments tf_was_set {D}.

(** Assignments to one member. *)
Definition set_mem {D} (x : Memory.t) (m : machine D) : machine D :=
  mk_machine x (io m) (devs m) (registers m) (instr_length m) (modrm_decoder m) (opcode m)
    (jump_taken m) (default_segment_overriden m) (override_segment m) (rep_mode m)
    (has_rep_prefix m) (nmi_pending m) (ext_int_inhibit m) (pending_irq m) (tf_was_set m).
Definition set_io {D} (x : gmap Z ioport) (m : machine D) : machine D :=
  mk_machine (mem m) x (devs m) (registers m) (instr_length m) (modrm_decoder m) (opcode m)
    (jump_taken m) (default_segment_overriden m) (override_segment m) (rep_mode m)
    (has_rep_prefix m) (nmi_pending m) (ext_int_inhibit m) (pending_irq m) (tf_was_set m).
Definition set_devs {D} (x : D) (m : machine D) : machine D :=
  mk_machine (mem m) (io m) x (registers m) (instr_length m) (modrm_decoder m) (opcode m)
    (jump_taken m) (default_segment_overriden m) (override_segment m) (rep_mode m)
    (has_rep_prefix m) (nmi_pending m) (ext_int_inhibit m) (pending_irq m) (tf_was_set m).
Definition set_registers {D} (x : RegisterFile.t) (m : machine D) : machine D :=
  mk_machine (mem m) (io m) (devs m) x (instr_length m) (modrm_decoder m) (opcode m)
    (jump_taken m) (default_segment_overriden m) (override_segment m) (rep_mode m)
    (has_rep_prefix m) (nmi_pending m) (ext_int_inhibit m) (pending_irq m) (tf_was_set m).
Definition set_instr_length {D} (x : Z) (m : machine D) : machine D :=
  mk_machine (mem m) (io m) (devs m) (registers m) x (modrm_decoder m) (opcode m) (jump_taken
    m) (default_segment_overriden m) (override_segment m) (rep_mode m) (has_rep_prefix m)
    (nmi_pending m) (ext_int_inhibit m) (pending_irq m) (tf_was_set m).
Definition set_modrm_decoder {D} (x : ModRMState) (m : machine D) : machine D :=
  mk_machine (mem m) (io m) (devs m) (registers m) (instr_length m) x (opcode m) (jump_taken m)
    (default_segment_overriden m) (override_segment m) (rep_mode m) (has_rep_prefix m)
    (nmi_pending m) (ext_int_inhibit m) (pending_irq m) (tf_was_set m).
Definition set_opcode {D} (x : Z) (m : machine D) : machine D :=
  mk_machine (mem m) (io m) (devs m) (registers m) (instr_length m) (modrm_decoder m) x
    (jump_taken m) (default_segment_overriden m) (override_segment m) (rep_mode m)
    (has_rep_prefix m) (nmi_pending m) (ext_int_inhibit m) (pending_irq m) (tf_was_set m).
Definition set_jump_taken {D} (x : bool) (m : machine D) : machine D :=
  mk_machine (mem m) (io m) (devs m) (registers m) (instr_length m) (modrm_decoder m) (opcode
    m) x (default_segment_overriden m) (override_segment m) (rep_mode m) (has_rep_prefix m)
    (nmi_pending m) (ext_int_inhibit m) (pending_irq m) (tf_was_set m).
Definition set_default_segment_overriden {D} (x : bool) (m : machine D) : machine D :=
  mk_machine (mem m) (io m) (devs m) (registers m) (instr_length m) (modrm_decoder m) (opcode
    m) (jump_taken m) x (override_segment m) (rep_mode m) (has_rep_prefix m) (nmi_pending m)
    (ext_int_inhibit m) (pending_irq m) (tf_was_set m).
Definition set_override_segment {D} (x : GPR) (m : machine D) : machine D :=
  mk_machine (mem m) (io m) (devs m) (registers m) (instr_length m) (modrm_decoder m) (opcode
    m) (jump_taken m) (default_segment_overriden m) x (rep_mode m) (has_rep_prefix m)
    (nmi_pending m) (ext_int_inhibit m) (pending_irq m) (tf_was_set m).
Definition set_rep_mode {D} (x : RepMode) (m : machine D) : machine D :=
  mk_machine (mem m) (io m) (devs m) (registers m) (instr_length m) (modrm_decoder m) (opcode
    m) (jump_taken m) (default_segment_overriden m) (override_segment m) x (has_rep_prefix m)
    (nmi_pending m) (ext_int_inhibit m) (pending_irq m) (tf_was_set m).
Definition set_has_rep_prefix {D} (x : bool) (m : machine D) : machine D :=
  mk_machine (mem m) (io m) (devs m) (registers m) (instr_length m) (modrm_decoder m) (opcode
    m) (jump_taken m) (default_segment_overriden m) (override_segment m) (rep_mode m) x
    (nmi_pending m) (ext_int_inhibit m) (pending_irq m) (tf_was_set m).
Definition set_nmi_pending {D} (x : bool) (m : machine D) : machine D :=
  mk_machine (mem m) (io m) (devs m) (registers m) (instr_length m) (modrm_decoder m) (opcode
    m) (jump_taken m) (default_segment_overriden m) (override_segment m) (rep_mode m)
    (has_rep_prefix m) x (ext_int_inhibit m) (pending_irq m) (tf_was_set m).
Definition set_ext_int_inhibit {D} (x : bool) (m : machine D) : machine D :=
  mk_machine (mem m) (io m) (devs m) (registers m) (instr_length m) (modrm_decoder m) (opcode
    m) (jump_taken m) (default_segment_overriden m) (override_segment m) (rep_mode m)
    (has_rep_prefix m) (nmi_pending m) x (pending_irq m) (tf_was_set m).
Definition set_pending_irq {D} (x : Z) (m : machine D) : machine D :=
  mk_machine (mem m) (io m) (devs m) (registers m) (instr_length m) (modrm_decoder m) (opcode
    m) (jump_taken m) (default_segment_overriden m) (override_segment m) (rep_mode m)
    (has_rep_prefix m) (nmi_pending m) (ext_int_inhibit m) x (tf_was_set m).
Definition set_tf_was_set {D} (x : bool) (m : machine D) : machine D :=
  mk_machine (mem m) (io m) (devs m) (registers m) (instr_length m) (modrm_decoder m) (opcode
    m) (jump_taken m) (default_segment_overriden m) (override_segment m) (rep_mode m)
    (has_rep_prefix m) (nmi_pending m) (ext_int_inhibit m) (pending_irq m) x.
Definition set_mrm_width (x : OperandWidth) (d : ModRMState) : ModRMState :=
  mk_modrm x (mrm_modrm d) (mrm_cached_address d) (mrm_addr_is_cached d) (mrm_is_decoded d).
Definition set_mrm_modrm (x : Z) (d : ModRMState) : ModRMState :=
  mk_modrm (mrm_width d) x (mrm_cached_address d) (mrm_addr_is_cached d) (mrm_is_decoded d).
Definition set_mrm_cached_address (x : Z) (d : ModRMState) : ModRMState :=
  mk_modrm (mrm_width d) (mrm_modrm d) x (mrm_addr_is_cached d) (mrm_is_decoded d).
Definition set_mrm_addr_is_cached (x : bool) (d : ModRMState) : ModRMState :=
  mk_modrm (mrm_width d) (mrm_modrm d) (mrm_cached_address d) x (mrm_is_decoded d).
Definition set_mrm_is_decoded (x : bool) (d : ModRMState) : ModRMState :=
  mk_modrm (mrm_width d) (mrm_modrm d) (mrm_cached_address d) (mrm_addr_is_cached d) x.

(** A member function of the emulator. *)
Abbreviation emu D := (M (machine D)).

Section accessors.
Context {CFG : Config} {D : Type}.

(** ** [registers->...] *)

Definition registers_get (r : GPR) : emu D Z :=
  gets (fun m => RegisterFile.get (registers m) r).
Definition registers_set (r : GPR) (v : Z) : emu D unit :=
  modify (fun m => set_registers (RegisterFile.set (registers m) r v) m).
Definition registers_get_flags : emu D Z :=
  gets (fun m => RegisterFile.get_flags (registers m)).
Definition registers_get_flag (f : Z) : emu D bool :=
  gets (fun m => RegisterFile.get_flag (registers m) f).
Definition registers_set_flags (val mask : Z) : emu D unit :=
  modify (fun m => set_registers (RegisterFile.set_flags (registers m) val mask) m).

(** ** [mem->read<T>], [mem->write<T>] *)

Definition mem_read (T : ctype) (addr : Z) : emu D Z :=
  m ← gets mem ;
  from_option AssertMemory (Memory.read T m (u32 addr)).
Definition mem_write (T : ctype) (addr val : Z) : emu D unit :=
  m ← gets mem ;
  m' ← from_option AssertMemory (Memory.write T m (u32 addr) val) ;
  modify (set_mem m').

(** [static_cast<GPR>(n)]. *)
Definition cast_GPR (n : Z) : emu D GPR := from_option BadEnum (GPR_of_int n).

(** ** Calls into the devices *)

(** [EmulatorPimpl::raise_irq], [raise_nmi]. *)
Definition raise_irq (irq_num : Z) (m : machine D) : machine D :=
  set_pending_irq (u8 irq_num) m.
Definition raise_nmi (m : machine D) : machine D := set_nmi_pending true m.

(** A call of a device's method: it runs on the device objects, and the
    interrupts it raises reach [pending_irq] in order. *)
Definition call_device {A} (f : M D A) (irqs : A -> list Z) : emu D A :=
  fun m =>
    match f (devs m) with
    | Ok a d => Ok a (foldl (fun m i => raise_irq i m) (set_devs d m) (irqs a))
    | Err e => Err e
    end.

End accessors.
