(* ===== verification/ModRM.v ===== *)
(** * The ModR/M decoder: [sim/cppmodel/ModRM.h] and [sim/cppmodel/ModRM.cpp]. *)
From S2P Require Import Prelude Config MainMemory Registers ErrorState IOPorts Machine.

Module ModRMDecoder.
Section decoder.
Context {CFG : Config} {D : Type}.

(** The callback given to the constructor; the emulator passes [fetch_byte]. *)
Variable get_byte : emu D Z.

Definition update (f : ModRMState -> ModRMState) : emu D unit :=
  modify (fun m => set_modrm_decoder (f (modrm_decoder m)) m).

(** What the constructor initialises; the last three members are left as found. *)
Definition create (cached_address : Z) (addr_is_cached is_decoded : bool) : ModRMState :=
  mk_modrm OP_WIDTH_16 0 cached_address addr_is_cached is_decoded.

Definition clear : emu D unit := update (set_mrm_is_decoded false).

Definition rm_type : emu D OperandType :=
  d ← gets modrm_decoder ;
  assert_true (mrm_is_decoded d) ;;
  mret (if mrm_modrm d .& 0xc0 =? 0xc0 then OP_REG else OP_MEM).

Definition set_width (width : OperandWidth) : emu D unit := update (set_mrm_width width).

Definition raw_reg : emu D Z :=
  d ← gets modrm_decoder ;
  assert_true (mrm_is_decoded d) ;;
  mret ((mrm_modrm d .>> 3) .& 0x7).

Definition reg : emu D GPR :=
  d ← gets modrm_decoder ;
  assert_true (mrm_is_decoded d) ;;
  reg ← raw_reg ;
  if decide (mrm_width d = OP_WIDTH_8) then cast_GPR (GPR_to_int AL + reg)
  else cast_GPR (GPR_to_int AX + reg).

Definition rm_reg : emu D GPR :=
  d ← gets modrm_decoder ;
  assert_true (mrm_is_decoded d) ;;
  ty ← rm_type ;
  assert_true (bool_decide (ty = OP_REG)) ;;
  let reg := (mrm_modrm d .>> 0) .& 0x7 in
  if decide (mrm_width d = OP_WIDTH_8) then cast_GPR (GPR_to_int AL + reg)
  else cast_GPR (GPR_to_int AX + reg).

(** The two reads of an unordered [|] are taken left to right. *)
Definition mod00 : emu D Z :=
  d ← gets modrm_decoder ;
  bx ← registers_get BX ; bp ← registers_get BP ;
  si ← registers_get SI ; di ← registers_get DI ;
  match mrm_modrm d .& 0x7 with
  | 0x0 => mret (u16 (bx + si))
  | 0x1 => mret (u16 (bx + di))
  | 0x2 => mret (u16 (bp + si))
  | 0x3 => mret (u16 (bp + di))
  | 0x4 => mret (u16 si)
  | 0x5 => mret (u16 di)
  | 0x6 =>
      lo ← get_byte ;
      hi ← get_byte ;
      mret (u16 (u16 lo .| (u16 hi .<< 8)))
  | 0x7 => mret (u16 bx)
  | _ => throw Unreachable
  end.

Definition mod01 : emu D Z :=
  b ← get_byte ;
  let displacement := s8 b in
  d ← gets modrm_decoder ;
  bx ← registers_get BX ; bp ← registers_get BP ;
  si ← registers_get SI ; di ← registers_get DI ;
  match mrm_modrm d .& 0x7 with
  | 0x0 => mret (u16 (bx + si + displacement))
  | 0x1 => mret (u16 (bx + di + displacement))
  | 0x2 => mret (u16 (bp + si + displacement))
  | 0x3 => mret (u16 (bp + di + displacement))
  | 0x4 => mret (u16 (si + displacement))
  | 0x5 => mret (u16 (di + displacement))
  | 0x6 => mret (u16 (bp + displacement))
  | 0x7 => mret (u16 (bx + displacement))
  | _ => throw Unreachable
  end.

Definition mod10 : emu D Z :=
  lo ← get_byte ;
  hi ← get_byte ;
  let displacement := s16 lo .| (u16 hi .<< 8) in
  d ← gets modrm_decoder ;
  bx ← registers_get BX ; bp ← registers_get BP ;
  si ← registers_get SI ; di ← registers_get DI ;
  match mrm_modrm d .& 0x7 with
  | 0x0 => mret (u16 (bx + si + displacement))
  | 0x1 => mret (u16 (bx + di + displacement))
  | 0x2 => mret (u16 (bp + si + displacement))
  | 0x3 => mret (u16 (bp + di + displacement))
  | 0x4 => mret (u16 (si + displacement))
  | 0x5 => mret (u16 (di + displacement))
  | 0x6 => mret (u16 (bp + displacement))
  | 0x7 => mret (u16 (bx + displacement))
  | _ => throw Unreachable
  end.

Definition calculate_effective_address : emu D Z :=
  ty ← rm_type ;
  assert_true (bool_decide (ty = OP_MEM)) ;;
  d ← gets modrm_decoder ;
  assert_true (negb (mrm_modrm d .>> 6 =? 0x03)) ;;
  match (mrm_modrm d .>> 6) .& 0x3 with
  | 0x00 => mod00
  | 0x01 => mod01
  | 0x02 => mod10
  | _ => throw Unreachable
  end.

Definition effective_address : emu D Z :=
  d ← gets modrm_decoder ;
  assert_true (mrm_is_decoded d) ;;
  if mrm_addr_is_cached d then mret (mrm_cached_address d)
  else
    a ← calculate_effective_address ;
    update (set_mrm_cached_address a) ;;
    update (set_mrm_addr_is_cached true) ;;
    mret a.

Definition decode : emu D unit :=
  update (set_mrm_is_decoded true) ;;
  b ← get_byte ;
  update (set_mrm_modrm (u8 b)) ;;
  update (set_mrm_addr_is_cached false) ;;
  ty ← rm_type ;
  if decide (ty = OP_MEM) then effective_address ;; mret () else mret ().

Definition uses_bp_as_base : emu D bool :=
  d ← gets modrm_decoder ;
  if negb (mrm_is_decoded d) then mret false
  else
    ty ← rm_type ;
    if negb (bool_decide (ty = OP_MEM)) then mret false
    else
      let mod_ := mrm_modrm d .>> 6 in
      let rm := mrm_modrm d .& 0x7 in
      if mod_ =? 0 then mret ((rm =? 0x2) || (rm =? 0x3))
      else mret ((rm =? 0x2) || (rm =? 0x3) || (rm =? 0x6)).

End decoder.
End ModRMDecoder.
