(* ===== verification/Core.v ===== *)
(** * The emulator's shared member functions: fetching, operands, the stack,
    ports, repetition and interrupt entry ([sim/cppmodel/Emulate.cpp]). *)
From S2P Require Import Prelude Config MainMemory Registers ErrorState IOPorts Machine ModRM.

(** [enum InterruptVectorOffset] of [sim/common/CPU.h]. *)
Definition VEC_DIVIDE_ERROR : Z := 0.
Definition VEC_SINGLE_STEP : Z := 4.
Definition VEC_NMI : Z := 8.
Definition VEC_INT : Z := 12.
Definition VEC_OVERFLOW : Z := 16.
Definition VEC_BOUND : Z := 20.
Definition VEC_INVALID_OPCODE : Z := 24.
Definition VEC_ESCAPE : Z := 28.

(** [sign_extend<Out, In>]. *)
Definition sign_extend (Out In : ctype) (v : Z) : Z :=
  let v := cast In v in
  let bit_shift := (sizeof Out - sizeof In) * 8 in
  let o := cast Out v in
  let o := cast Out (o .<< bit_shift) in
  cast Out (o .>> bit_shift).

Section core.
Context {CFG : Config} {D : Type} {IOP : IOPorts D}.

(** ** Fetching *)

Definition fetch_byte : emu D Z :=
  cs ← registers_get CS ;
  ip ← registers_get IP ;
  n ← gets instr_length ;
  modify (set_instr_length (u64 (n + 1))) ;;
  mem_read uint8_t (get_phys_addr cs (u64 (ip + n))).

(** The two fetches of an unordered [|] are taken left to right. *)
Definition fetch_16bit : emu D Z :=
  lo ← fetch_byte ;
  hi ← fetch_byte ;
  mret (u16 (u16 lo .| (u16 hi .<< 8))).

(** ** The decoder with its callback *)

Definition decode : emu D unit := ModRMDecoder.decode fetch_byte.
Definition effective_address : emu D Z := ModRMDecoder.effective_address fetch_byte.
Definition rm_type : emu D OperandType := ModRMDecoder.rm_type.
Definition raw_reg : emu D Z := ModRMDecoder.raw_reg.
Definition reg : emu D GPR := ModRMDecoder.reg.
Definition rm_reg : emu D GPR := ModRMDecoder.rm_reg.
Definition set_width (w : OperandWidth) : emu D unit := ModRMDecoder.set_width w.

(** ** Segments and operands *)

Definition get_segment (is_stack_reference : bool) : emu D GPR :=
  if is_stack_reference then mret SS
  else
    overriden ← gets default_segment_overriden ;
    if overriden : bool then gets override_segment
    else
      bp ← ModRMDecoder.uses_bp_as_base ;
      mret (if bp || is_stack_reference then SS else DS).

Definition set_override_segment_to (segment : GPR) : emu D unit :=
  modify (set_default_segment_overriden true) ;;
  modify (set_override_segment segment).

Definition write_data (T : ctype) (val : Z) (stack : bool) : emu D unit :=
  let val := cast T val in
  ty ← rm_type ;
  if decide (ty = OP_REG) then
    dest ← rm_reg ;
    registers_set dest val
  else
    ea ← effective_address ;
    segment ← get_segment stack ;
    seg ← registers_get segment ;
    mem_write T (get_phys_addr seg ea) val.

Definition read_data (T : ctype) (stack : bool) : emu D Z :=
  ty ← rm_type ;
  if decide (ty = OP_MEM) then
    displacement ← effective_address ;
    segment ← get_segment stack ;
    seg ← registers_get segment ;
    mem_read T (get_phys_addr seg displacement)
  else
    source ← rm_reg ;
    v ← registers_get source ;
    mret (cast T v).

(** ** The stack *)

Definition push_word (v : Z) : emu D unit :=
  let v := u16 v in
  sp ← registers_get SP ;
  registers_set SP (sp - 2) ;;
  ss ← registers_get SS ;
  sp ← registers_get SP ;
  mem_write uint16_t (get_phys_addr ss sp) v.

Definition pop_word : emu D Z :=
  ss ← registers_get SS ;
  sp ← registers_get SP ;
  v ← mem_read uint16_t (get_phys_addr ss sp) ;
  sp ← registers_get SP ;
  registers_set SP (sp + 2) ;;
  mret v.

(** ** Ports *)

(** [addr & ~1] for a [uint32_t]. *)
Definition even_port (addr : Z) : Z := u32 (addr .& ~. 1).

Definition write_io8 (addr val : Z) : emu D unit :=
  let addr := u32 addr in
  ports ← gets io ;
  match ports !! u16 (even_port addr) with
  | None => mret ()
  | Some p =>
      call_device
        (ioport_write8 p (u16 (even_port addr - get_base p)) (addr .& 1) (u8 val)) id ;;
      mret ()
  end.

Definition write_io16 (addr val : Z) : emu D unit :=
  let addr := u32 addr in
  ports ← gets io ;
  match ports !! u16 (even_port addr) with
  | None => mret ()
  | Some p =>
      call_device (ioport_write16 p (u16 (even_port addr - get_base p)) (u16 val)) id ;;
      mret ()
  end.

Definition read_io8 (addr : Z) : emu D Z :=
  let addr := u32 addr in
  ports ← gets io ;
  match ports !! u16 (even_port addr) with
  | None => mret 0
  | Some p =>
      r ← call_device
            (ioport_read8 p (u16 (even_port addr - get_base p)) (addr .& 1)) snd ;
      mret (u8 (fst r))
  end.

Definition read_io16 (addr : Z) : emu D Z :=
  let addr := u32 addr in
  ports ← gets io ;
  match ports !! u16 (even_port addr) with
  | None => mret 0
  | Some p =>
      r ← call_device (ioport_read16 p (u16 (even_port addr - get_base p))) snd ;
      mret (u16 (fst r))
  end.

(** ** Repeated string instructions *)

(** The [while (registers->get(CX) != 0)] loop, for at most [fuel] turns. *)
Fixpoint rep_loop (fuel : nat) (primitive : emu D unit) (should_terminate : emu D bool)
    : emu D unit :=
  cx ← registers_get CX ;
  if cx =? 0 then mret ()
  else
    match fuel with
    | O => throw OutOfFuel
    | S fuel =>
        primitive ;;
        cx ← registers_get CX ;
        registers_set CX (cx - 1) ;;
        stop ← should_terminate ;
        if stop : bool then mret () else rep_loop fuel primitive should_terminate
    end.

(** The fuel is the value of CX on entry. *)
Definition do_rep (primitive : emu D unit) (should_terminate : emu D bool) : emu D unit :=
  rep ← gets has_rep_prefix ;
  if negb rep then primitive
  else
    cx ← registers_get CX ;
    rep_loop (Z.to_nat cx) primitive should_terminate.

Definition string_rep_complete : emu D bool :=
  mode ← gets rep_mode ;
  zf ← registers_get_flag ZF ;
  if bool_decide (mode = REPE) && negb zf then mret true
  else if bool_decide (mode = REPNE) && zf then mret true
  else mret false.

(** ** Interrupt entry *)

Definition single_step : emu D unit :=
  tf ← gets tf_was_set ;
  inhibit ← gets ext_int_inhibit ;
  if negb tf || inhibit then mret ()
  else
    flags ← registers_get_flags ;
    push_word flags ;;
    cs ← registers_get CS ;
    push_word cs ;;
    ip ← registers_get IP ;
    push_word ip ;;
    let flags := u16 (flags .& ~. (IF .| TF)) in
    registers_set_flags flags (IF .| TF) ;;
    new_cs ← mem_read uint16_t (VEC_SINGLE_STEP + 2) ;
    new_ip ← mem_read uint16_t (VEC_SINGLE_STEP + 0) ;
    registers_set CS new_cs ;;
    registers_set IP new_ip ;;
    modify (set_jump_taken true).

Definition handle_nmi : emu D unit :=
  modify (set_nmi_pending false) ;;
  flags ← registers_get_flags ;
  push_word flags ;;
  cs ← registers_get CS ;
  push_word cs ;;
  ip ← registers_get IP ;
  push_word ip ;;
  let flags := u16 (flags .& ~. (IF .| TF)) in
  registers_set_flags flags (IF .| TF) ;;
  new_cs ← mem_read uint16_t (VEC_NMI + 2) ;
  new_ip ← mem_read uint16_t (VEC_NMI + 0) ;
  registers_set CS new_cs ;;
  registers_set IP new_ip ;;
  modify (set_jump_taken true) ;;
  single_step.

Definition handle_irq : emu D unit :=
  pending ← gets pending_irq ;
  assert_true (nz pending) ;;
  let irq_num := pending in
  modify (set_pending_irq 0) ;;
  call_device (inta_handler irq_num) (fun _ => []) ;;
  flags ← registers_get_flags ;
  push_word flags ;;
  cs ← registers_get CS ;
  push_word cs ;;
  ip ← registers_get IP ;
  push_word ip ;;
  let flags := u16 (flags .& ~. (IF .| TF)) in
  registers_set_flags flags (IF .| TF) ;;
  new_cs ← mem_read uint16_t (irq_num * 4 + 2) ;
  new_ip ← mem_read uint16_t (irq_num * 4 + 0) ;
  registers_set CS new_cs ;;
  registers_set IP new_ip ;;
  modify (set_jump_taken true) ;;
  single_step.

Definition invalid_opcode : emu D unit :=
  flags ← registers_get_flags ;
  push_word flags ;;
  cs ← registers_get CS ;
  push_word cs ;;
  ip ← registers_get IP ;
  n ← gets instr_length ;
  push_word (ip + n) ;;
  let flags := u16 (flags .& ~. (IF .| TF)) in
  registers_set_flags flags (IF .| TF) ;;
  new_cs ← mem_read uint16_t (VEC_INVALID_OPCODE + 2) ;
  new_ip ← mem_read uint16_t (VEC_INVALID_OPCODE + 0) ;
  registers_set CS new_cs ;;
  registers_set IP new_ip ;;
  modify (set_jump_taken true).

End core.
