(* ===== verification/Safety.v ===== *)
(** * The safety calculus

    The emulator's representation invariant, the decoder's typestate, and a
    judgement [safe] that every member function is proved to satisfy: from a
    well-formed state it ends in a well-formed state, returns a value in
    range, changes only the registers it is said to change, and stops only
    with the errors [allowed]. *)
From S2P Require Import Prelude Config MainMemory Registers ErrorState IOPorts Machine ModRM Core.

(** The law of the device interface: a method stops only with an error of its
    own, never with one of the CPU's. *)
Class IOPortsSafe (D : Type) {IOP : IOPorts D} := {
  read8_safe p port offs d : wp (ioport_read8 p port offs) (fun _ _ => True) (eq DeviceError) d;
  read16_safe p port d : wp (ioport_read16 p port) (fun _ _ => True) (eq DeviceError) d;
  write8_safe p port offs v d : wp (ioport_write8 p port offs v) (fun _ _ => True) (eq DeviceError) d;
  write16_safe p port v d : wp (ioport_write16 p port v) (fun _ _ => True) (eq DeviceError) d;
  inta_safe i d : wp (inta_handler i) (fun _ _ => True) (eq DeviceError) d;
}.

(** The errors a step can stop with. *)
Definition allowed (e : error) : Prop :=
  e = AssertMemory \/ e = SignedOverflow \/ e = DeviceError.

Section safety.
Context {CFG : Config} {D : Type}.

(** ** Invariants *)

Record wf (m : machine D) : Prop := {
  wf_mem : Memory.wf (mem m);
  wf_registers : RegisterFile.wf (registers m);
  wf_instr_length : in_range uint64_t (instr_length m);
  wf_modrm : in_range uint8_t (mrm_modrm (modrm_decoder m));
  wf_cached : in_range uint16_t (mrm_cached_address (modrm_decoder m));
  wf_opcode : in_range uint8_t (opcode m);
  wf_pending_irq : in_range uint8_t (pending_irq m);
}.

Definition is_mem_operand (d : ModRMState) : bool := negb (mrm_modrm d .& 0xc0 =? 0xc0).

(** The decoder's typestate: what is known of its members between two calls. *)
Definition typestate : Type := ModRMState -> Prop.

(** Nothing, as before [decode]. *)
Definition any : typestate := fun _ => True.

(** What a completed [decode] leaves: the address of a memory operand is cached. *)
Definition decoded : typestate := fun d =>
  mrm_is_decoded d = true /\ (is_mem_operand d = true -> mrm_addr_is_cached d = true).

Definition reg_operand : typestate := fun d => decoded d /\ is_mem_operand d = false.
Definition mem_operand : typestate := fun d => decoded d /\ is_mem_operand d = true.
(** The [reg] field, which selects the operation of an opcode group. *)
Definition in_group (n : Z) : typestate := fun d =>
  decoded d /\ (mrm_modrm d .>> 3) .& 0x7 = n.

Definition entails (Φ Ψ : typestate) : Prop := forall d, Φ d -> Ψ d.

Lemma entails_refl Φ : entails Φ Φ. Proof. by intros d. Qed.
Lemma entails_any Φ : entails Φ any. Proof. done. Qed.
Lemma reg_operand_decoded : entails reg_operand decoded. Proof. by intros d []. Qed.
Lemma mem_operand_decoded : entails mem_operand decoded. Proof. by intros d []. Qed.
Lemma in_group_decoded n : entails (in_group n) decoded. Proof. by intros d []. Qed.

Definition inv (Φ : typestate) (m : machine D) : Prop := wf m /\ Φ (modrm_decoder m).

(** The registers outside [A] are as they were. *)
Definition same_outside (A : GPR -> bool) (m m' : machine D) : Prop :=
  forall r, A r = false ->
    RegisterFile.get (registers m') r = RegisterFile.get (registers m) r.

(** Writing [r] can only be seen through registers of [A]. *)
Definition may_write (A : GPR -> bool) (r : GPR) : bool :=
  forallb (fun r' => A r' || negb (RegisterFile.overlap r r')) all_GPR.

(** Every register may change. *)
Definition anything : GPR -> bool := fun _ => true.

Definition safe {X} (A : GPR -> bool) (Φ : typestate) (c : emu D X) (P : X -> Prop)
    (Ψ : typestate) : Prop :=
  forall m, inv Φ m ->
    wp c (fun a m' => P a /\ inv Ψ m' /\ same_outside A m m') allowed m.

(** ** Rules *)

Lemma same_outside_refl A m : same_outside A m m.
Proof. by intros r. Qed.

Lemma same_outside_trans A m1 m2 m3 :
  same_outside A m1 m2 -> same_outside A m2 m3 -> same_outside A m1 m3.
Proof. intros H1 H2 r Hr. by rewrite H2, H1. Qed.

Lemma may_write_spec A r r' :
  may_write A r = true -> A r' = false -> RegisterFile.overlap r r' = false.
Proof.
  intros H Hr'. unfold may_write in H. rewrite forallb_forall in H.
  specialize (H r'). rewrite Hr' in H. apply negb_true_iff, H. by destruct r'; cbn; auto 30.
Qed.

Lemma inv_weaken Φ Ψ m : entails Φ Ψ -> inv Φ m -> inv Ψ m.
Proof. intros H [Hw Hi]. split; auto. Qed.

Lemma safe_weaken {X} A Φ c (P Q : X -> Prop) Ψ Ψ' :
  safe A Φ c P Ψ -> (forall a, P a -> Q a) -> entails Ψ Ψ' -> safe A Φ c Q Ψ'.
Proof.
  intros H HPQ HΨ m Hm. eapply wp_mono; [by apply H| |done].
  intros a m' (Ha & Hi & Hs). eauto using inv_weaken.
Qed.

Lemma safe_pre {X} A Φ Φ' c (P : X -> Prop) Ψ :
  safe A Φ c P Ψ -> entails Φ' Φ -> safe A Φ' c P Ψ.
Proof. intros H HΦ m Hm. eapply H, inv_weaken; eauto. Qed.

Lemma safe_drop {X} A Φ c (P : X -> Prop) Ψ : safe A Φ c P Ψ -> safe A Φ c (fun _ => True) any.
Proof. intros. by eapply safe_weaken. Qed.

Lemma safe_widen {X} A Φ c (P : X -> Prop) Ψ : safe A Φ c P Ψ -> safe anything Φ c P Ψ.
Proof.
  intros H m Hm. eapply wp_mono; [by apply H| |done].
  intros a m' (Ha & Hi & Hs). split; [done|]. by split.
Qed.

Lemma safe_ret {X} A Φ (a : X) (P : X -> Prop) : P a -> safe A Φ (mret a) P Φ.
Proof. intros Ha m Hm. apply wp_ret. auto using same_outside_refl. Qed.

Lemma safe_bind {X Y} A Φ Φ1 Φ2 (c : emu D X) (f : X -> emu D Y) P Q :
  safe A Φ c P Φ1 -> (forall a, P a -> safe A Φ1 (f a) Q Φ2) -> safe A Φ (c ≫= f) Q Φ2.
Proof.
  intros Hc Hf m Hm. apply wp_bind. eapply wp_mono; [by apply Hc| |done].
  intros a m1 (Ha & Hi & Hs). eapply wp_mono; [by apply (Hf a)| |done].
  intros b m2 (Hb & Hi2 & Hs2). eauto using same_outside_trans.
Qed.

Lemma safe_fmap {X Y} A Φ Φ1 (c : emu D X) (f : X -> Y) (P : X -> Prop) (Q : Y -> Prop) :
  safe A Φ c P Φ1 -> (forall a, P a -> Q (f a)) -> safe A Φ (f <$> c) Q Φ1.
Proof.
  intros Hc Hf m Hm. apply wp_fmap. eapply wp_mono; [by apply Hc| |done].
  intros a m1 (Ha & Hi & Hs). auto.
Qed.

Lemma safe_gets {X} A Φ (f : machine D -> X) (P : X -> Prop) :
  (forall m, inv Φ m -> P (f m)) -> safe A Φ (gets f) P Φ.
Proof. intros H m Hm. apply wp_gets. auto using same_outside_refl. Qed.

(** An assignment that touches neither the registers nor the decoder. *)
Lemma safe_modify A Φ (f : machine D -> machine D) :
  (forall m, wf m -> wf (f m)) ->
  (forall m, modrm_decoder (f m) = modrm_decoder m) ->
  (forall m, registers (f m) = registers m) ->
  safe A Φ (modify f) (fun _ => True) Φ.
Proof.
  intros Hw Hd Hr m [Hm Hi]. apply wp_modify. split; [done|]. split.
  - split; [auto|]. by rewrite Hd.
  - intros r _. by rewrite Hr.
Qed.

Lemma safe_throw {X} A Φ e (P : X -> Prop) Ψ : allowed e -> safe A Φ (throw e) P Ψ.
Proof. intros He m Hm. by apply wp_throw. Qed.

Lemma safe_assert A Φ b : b = true -> safe A Φ (assert_true b) (fun _ => True) Φ.
Proof. intros ->. by apply safe_ret. Qed.

(** ** Registers and memory *)

Lemma safe_registers_get A Φ r :
  safe A Φ (registers_get r) (in_range (RegisterFile.gpr_type r)) Φ.
Proof. apply safe_gets. intros m [Hm _]. apply RegisterFile.get_range, Hm. Qed.

Lemma gpr_type_u16 r x : in_range (RegisterFile.gpr_type r) x -> in_range uint16_t x.
Proof. unfold RegisterFile.gpr_type. case_match; cpp_lia. Qed.

Lemma wf_set_registers m rf : wf m -> RegisterFile.wf rf -> wf (set_registers rf m).
Proof. by intros [] ?. Qed.

Lemma safe_registers_set A Φ r v :
  may_write A r = true -> safe A Φ (registers_set r v) (fun _ => True) Φ.
Proof.
  intros Hr m [Hm Hi]. apply wp_modify. split; [done|]. split.
  - split; [|done]. apply wf_set_registers; [done|]. apply RegisterFile.wf_set, Hm.
  - intros r' Hr'. apply RegisterFile.get_set_ne; [apply Hm|]. by eapply may_write_spec.
Qed.

Lemma safe_registers_get_flags A Φ : safe A Φ registers_get_flags (in_range uint16_t) Φ.
Proof. apply safe_gets. intros m _. apply RegisterFile.get_flags_range. Qed.

Lemma safe_registers_get_flag A Φ f : safe A Φ (registers_get_flag f) (fun _ => True) Φ.
Proof. by apply safe_gets. Qed.

Lemma safe_registers_set_flags A Φ v mask :
  safe A Φ (registers_set_flags v mask) (fun _ => True) Φ.
Proof.
  intros m [Hm Hi]. apply wp_modify. split; [done|]. split.
  - split; [|done]. apply wf_set_registers; [done|]. apply RegisterFile.wf_set_flags, Hm.
  - intros r' Hr'. apply RegisterFile.get_set_flags.
Qed.

Lemma safe_mem_read A Φ T a : safe A Φ (mem_read T a) (in_range T) Φ.
Proof.
  unfold mem_read. eapply safe_bind; [by apply (safe_gets _ _ _ (fun _ => True))|].
  intros mm _. destruct (Memory.read T mm (u32 a)) as [v|] eqn:E; cbn [from_option].
  - apply safe_ret. by eapply Memory.read_in_range.
  - apply safe_throw. by left.
Qed.

Lemma safe_mem_write A Φ T a v : safe A Φ (mem_write T a v) (fun _ => True) Φ.
Proof.
  intros m [Hm Hi]. unfold mem_write. apply wp_bind, wp_gets, wp_bind.
  destruct (Memory.write T (mem m) (u32 a) v) as [m'|] eqn:E; cbn [from_option].
  - apply wp_ret, wp_modify. split; [done|]. split; [|by intros r].
    split; [|done]. pose proof Hm as [Hmem _ _ _ _ _ _].
    assert (Memory.wf m') by (eapply Memory.wf_write; [done| |done]; cpp_lia).
    by destruct Hm.
  - apply wp_throw. by left.
Qed.

Lemma GPR_of_int_Some n : 0 <= n < 21 -> exists r, GPR_of_int n = Some r /\ GPR_to_int r = n.
Proof.
  intros Hn. enum_below n 21%nat; eexists; split; reflexivity.
Qed.

Lemma safe_cast_GPR A Φ n (P : GPR -> Prop) :
  0 <= n < 21 -> (forall r, GPR_to_int r = n -> P r) -> safe A Φ (cast_GPR n) P Φ.
Proof.
  intros Hn HP. destruct (GPR_of_int_Some n Hn) as (r & E & Hr).
  unfold cast_GPR. rewrite E. apply safe_ret. auto.
Qed.

(** ** Calls into devices *)

Lemma foldl_raise_irq (irqs : list Z) (m : machine D) :
  exists p, foldl (fun m i => raise_irq i m) m irqs = set_pending_irq p m /\
            (p = pending_irq m \/ in_range uint8_t p).
Proof.
  revert m. induction irqs as [|i irqs IH]; intros m.
  - exists (pending_irq m). split; [by destruct m|by left].
  - cbn [foldl]. destruct (IH (raise_irq i m)) as (p & E & Hp). exists p.
    split; [exact E|]. right. destruct Hp as [->|]; [|done]. apply cast_in_range.
Qed.

Lemma safe_call_device {X} A Φ (f : M D X) irqs :
  (forall s, wp f (fun _ _ => True) (eq DeviceError) s) ->
  safe A Φ (call_device f irqs) (fun _ => True) Φ.
Proof.
  intros Hf m [Hm Hi]. unfold wp, call_device. specialize (Hf (devs m)). unfold wp in Hf.
  destruct (f (devs m)) as [a s|e].
  - destruct (foldl_raise_irq (irqs a) (set_devs s m)) as (p & E & Hp). rewrite E.
    split; [done|]. split; [|by intros r]. split; [|done].
    destruct Hm. split; try done. cbn in *. by destruct Hp as [->|].
  - subst. by right; right.
Qed.

End safety.

#[export] Hint Extern 0 (allowed _) => (unfold allowed; tauto) : cpp.
