(* ===== verification/Decoder.v ===== *)
(** * The decoder refines the ModR/M table

    Exact equations for fetching and for [ModRMDecoder::decode]: the bytes
    consumed, the effective address and the segment, against the addressing
    table of the instruction set; then the safety of the core functions. *)
From S2P Require Import Prelude Config MainMemory Registers ErrorState IOPorts Machine ModRM Core Safety.

(** ** The addressing table *)

(** Fields of a ModR/M byte. *)
Definition field_mod (b : Z) : Z := b / 64.
Definition field_reg (b : Z) : Z := b / 8 mod 8.
Definition field_rm (b : Z) : Z := b mod 8.

(** Bytes of displacement. *)
Definition disp_size (b : Z) : Z :=
  match field_mod b with
  | 0 => if field_rm b =? 6 then 2 else 0
  | 1 => 1
  | 2 => 2
  | _ => 0
  end.

(** The registers a memory operand adds up. *)
Definition base_registers (b : Z) : list GPR :=
  match field_rm b with
  | 0 => [BX; SI] | 1 => [BX; DI] | 2 => [BP; SI] | 3 => [BP; DI]
  | 4 => [SI] | 5 => [DI]
  | 6 => if field_mod b =? 0 then [] else [BP]
  | _ => [BX]
  end.

Section spec.
Context {CFG : Config} {D : Type}.

(** The displacement, given the two bytes that follow the ModR/M byte. *)
Definition displacement (b d0 d1 : Z) : Z :=
  match disp_size b with 0 => 0 | 1 => s8 d0 | _ => d0 + 256 * d1 end.

Definition sum_registers (rf : RegisterFile.t) (l : list GPR) : Z :=
  foldr (fun r n => RegisterFile.get rf r + n) 0 l.

Definition effective_address_spec (rf : RegisterFile.t) (b d0 d1 : Z) : Z :=
  (sum_registers rf (base_registers b) + displacement b d0 d1) mod 65536.

(** The default segment of a memory operand: SS when BP is a base. *)
Definition default_segment (b : Z) : GPR :=
  if bool_decide (BP ∈ base_registers b) then SS else DS.

(** The [i]-th byte at CS:IP. *)
Definition code_byte (m : machine D) (i : Z) : Z :=
  Memory.byte_at (mem m)
    (get_phys_addr (RegisterFile.get (registers m) CS)
       (u64 (RegisterFile.get (registers m) IP + i))).
End spec.

(** ** Running a computation *)

Create Rewrite HintDb run.

Section run.
Context {CFG : Config} {D : Type}.
Implicit Types m : machine D.

Lemma run_bind {A B} (c : emu D A) (f : A -> emu D B) m :
  (c ≫= f) m = match c m with Ok a m' => f a m' | Err e => Err e end.
Proof. done. Qed.
Lemma run_fmap {A B} (c : emu D A) (f : A -> B) m :
  (f <$> c) m = match c m with Ok a m' => Ok (f a) m' | Err e => Err e end.
Proof. done. Qed.
Lemma run_ret {A} (a : A) m : (mret a : emu D A) m = Ok a m.
Proof. done. Qed.
Lemma run_gets {A} (f : machine D -> A) m : gets f m = Ok (f m) m.
Proof. done. Qed.
Lemma run_modify (f : machine D -> machine D) m : modify f m = Ok tt (f m).
Proof. done. Qed.
Lemma run_assert b m : b = true -> (assert_true b : emu D unit) m = Ok tt m.
Proof. by intros ->. Qed.
Lemma run_registers_get r m :
  registers_get r m = Ok (RegisterFile.get (registers m) r) m.
Proof. done. Qed.
Lemma run_registers_set r v m :
  registers_set r v m = Ok tt (set_registers (RegisterFile.set (registers m) r v) m).
Proof. done. Qed.
Lemma run_registers_get_flags m :
  registers_get_flags m = Ok (RegisterFile.get_flags (registers m)) m.
Proof. done. Qed.
Lemma run_registers_get_flag f m :
  registers_get_flag f m = Ok (RegisterFile.get_flag (registers m) f) m.
Proof. done. Qed.
Lemma run_registers_set_flags v k m :
  registers_set_flags v k m = Ok tt (set_registers (RegisterFile.set_flags (registers m) v k) m).
Proof. done. Qed.
Lemma run_update f m :
  ModRMDecoder.update f m = Ok tt (set_modrm_decoder (f (modrm_decoder m)) m).
Proof. done. Qed.
End run.

#[export] Hint Rewrite @run_bind @run_fmap @run_ret @run_gets @run_modify @run_registers_get
  @run_registers_set @run_registers_get_flags @run_registers_get_flag
  @run_registers_set_flags @run_update : run.

(** Simplify the members of updated states. *)
Ltac msimpl :=
  cbn [mem io devs registers instr_length modrm_decoder opcode jump_taken
       default_segment_overriden override_segment rep_mode has_rep_prefix nmi_pending
       ext_int_inhibit pending_irq tf_was_set
       set_mem set_io set_devs set_registers set_instr_length set_modrm_decoder set_opcode
       set_jump_taken set_default_segment_overriden set_override_segment set_rep_mode
       set_has_rep_prefix set_nmi_pending set_ext_int_inhibit set_pending_irq set_tf_was_set
       mrm_width mrm_modrm mrm_cached_address mrm_addr_is_cached mrm_is_decoded
       set_mrm_width set_mrm_modrm set_mrm_cached_address set_mrm_addr_is_cached
       set_mrm_is_decoded fst snd].

(** One pass of symbolic execution. *)
Ltac run := repeat (autorewrite with run; msimpl).

Section fetch.
Context {CFG : Config} {D : Type}.
Implicit Types m : machine D.

Lemma mem_read_Some T a v m :
  Memory.read T (mem m) (u32 a) = Some v -> (mem_read T a : emu D Z) m = Ok v m.
Proof. intros H. unfold mem_read. run. by rewrite H. Qed.

Lemma phys_u32 seg disp : u32 (get_phys_addr seg disp) = get_phys_addr seg disp.
Proof.
  apply cast_id. pose proof (get_phys_addr_range seg disp). unfold Memory.MEMORY_SIZE in *.
  cpp_lia.
Qed.

Lemma read_byte (mm : Memory.t) a :
  Memory.wf mm -> a < Memory.MEMORY_SIZE -> Memory.read uint8_t mm a = Some (Memory.byte_at mm a).
Proof.
  intros Hmm Ha. rewrite Memory.read_Some by (cbn; lia).
  change (Z.to_nat (sizeof uint8_t)) with 1%nat. cbn [Memory.load].
  rewrite cast_id; [f_equal; lia|].
  pose proof (Memory.byte_at_range mm a Hmm). cpp_lia.
Qed.

(** Fetching a byte never fails. *)
Lemma fetch_byte_eq m :
  wf m ->
  fetch_byte m =
    Ok (code_byte m (instr_length m)) (set_instr_length (u64 (instr_length m + 1)) m).
Proof.
  intros Hm. unfold fetch_byte. run. apply mem_read_Some. msimpl. rewrite phys_u32.
  apply read_byte; [apply Hm|]. apply get_phys_addr_range.
Qed.

Lemma code_byte_range m i : wf m -> in_range uint8_t (code_byte m i).
Proof. intros Hm. apply Memory.byte_at_range, Hm. Qed.

Lemma code_byte_u64 m i : code_byte m (u64 i) = code_byte m i.
Proof. unfold code_byte. do 2 f_equal. cpp_lia. Qed.

Lemma code_byte_u64_1 m i : code_byte m (u64 i + 1) = code_byte m (i + 1).
Proof. unfold code_byte. do 2 f_equal. cpp_lia. Qed.

Lemma wf_set_instr_length n m : wf m -> wf (set_instr_length (u64 n) m).
Proof. intros []. split; msimpl; auto with cpp. Qed.

Lemma wf_set_instr_length_mod n m : wf m -> 0 <= n -> wf (set_instr_length (n mod 16) m).
Proof. intros [] ?. split; msimpl; auto; cpp_lia. Qed.

Lemma bytes_to_word lo hi :
  in_range uint8_t lo -> in_range uint8_t hi -> u16 (u16 lo .| (u16 hi .<< 8)) = lo + 256 * hi.
Proof.
  intros Hlo Hhi. rewrite !(cast_id uint16_t lo), (cast_id uint16_t hi) by cpp_lia.
  replace (lo .| (hi .<< 8)) with (lo + 256 * hi).
  - apply cast_id. cpp_lia.
  - apply Z.bits_inj'. intros i Hi.
    replace (lo + 256 * hi) with (hi * 2 ^ 8 + lo) by (change (2 ^ 8) with 256; lia).
    rewrite testbit_concat by (cpp_unfold; lia).
    rewrite Z.lor_spec, Z.shiftl_spec by lia. zcmp.
    + rewrite (Z.testbit_neg_r hi) by lia. zbits.
    + rewrite (testbit_high 8 lo) by (cpp_unfold; lia). zbits.
Qed.

Lemma fetch_16bit_eq m :
  wf m ->
  fetch_16bit m =
    Ok (code_byte m (instr_length m) + 256 * code_byte m (instr_length m + 1))
       (set_instr_length (u64 (instr_length m + 2)) m).
Proof.
  intros Hm. unfold fetch_16bit. run. rewrite fetch_byte_eq by done. run.
  rewrite fetch_byte_eq by auto using wf_set_instr_length. run.
  rewrite bytes_to_word by auto using code_byte_range, wf_set_instr_length.
  f_equal; [|unfold set_instr_length; msimpl; f_equal; cpp_lia].
  do 2 f_equal. apply (code_byte_u64 m).
Qed.
End fetch.

(** Normal form of a sequence of assignments: the decoder's last, one
    assignment per member. *)
Create Rewrite HintDb state.

Section setters.
Context {D : Type}.
Implicit Types m : machine D.
Lemma set_modrm_modrm d d' m :
  set_modrm_decoder d (set_modrm_decoder d' m) = set_modrm_decoder d m.
Proof. reflexivity. Qed.
Lemma set_length_modrm n d m :
  set_instr_length n (set_modrm_decoder d m) = set_modrm_decoder d (set_instr_length n m).
Proof. reflexivity. Qed.
Lemma set_length_length n n' m :
  set_instr_length n (set_instr_length n' m) = set_instr_length n m.
Proof. reflexivity. Qed.
End setters.
#[export] Hint Rewrite @set_modrm_modrm @set_length_modrm @set_length_length : state.

Lemma u64_add_l x y : u64 (u64 x + y) = u64 (x + y).
Proof. cpp_lia. Qed.

(** ** Effective addresses *)

Lemma modrm_is_register b :
  in_range uint8_t b -> (b .& 0xc0 =? 0xc0) = (field_mod b =? 3).
Proof.
  intros Hb. apply eqb_prop.
  apply (forall_below_spec 256 (fun b => eqb (b .& 0xc0 =? 0xc0) (field_mod b =? 3)));
    [by vm_compute|done].
Qed.

Lemma field_rm_land b : b .& 0x7 = field_rm b.
Proof. by apply (land_mask 3). Qed.

Lemma field_reg_land b : (b .>> 3) .& 0x7 = field_reg b.
Proof. rewrite (land_mask 3) by done. by rewrite Z.shiftr_div_pow2. Qed.

Lemma field_mod_shift b : b .>> 6 = field_mod b.
Proof. by rewrite Z.shiftr_div_pow2. Qed.

Lemma field_rm_range b : 0 <= field_rm b < 8.
Proof. by apply Z.mod_pos_bound. Qed.

Lemma field_reg_range b : 0 <= field_reg b < 8.
Proof. by apply Z.mod_pos_bound. Qed.

Lemma field_mod_range b : in_range uint8_t b -> 0 <= field_mod b < 4.
Proof. unfold field_mod. cpp_lia. Qed.

Lemma is_mem_operand_eq d :
  in_range uint8_t (mrm_modrm d) -> is_mem_operand d = negb (field_mod (mrm_modrm d) =? 3).
Proof. intros H. unfold is_mem_operand. by rewrite modrm_is_register. Qed.

Section decode.
Context {CFG : Config} {D : Type} {IOP : IOPorts D}.
Implicit Types m : machine D.

Lemma set_instr_length_same n m : n = instr_length m -> set_instr_length n m = m.
Proof. intros ->. by destruct m. Qed.

Lemma add_word_wrap x d : u16 (x + d) = (x + d) mod 65536.
Proof. done. Qed.

Lemma rm_type_eq m :
  mrm_is_decoded (modrm_decoder m) = true ->
  ModRMDecoder.rm_type m =
    Ok (if is_mem_operand (modrm_decoder m) then OP_MEM else OP_REG) m.
Proof.
  intros Hd. unfold ModRMDecoder.rm_type, is_mem_operand. run. rewrite Hd.
  cbn [assert_true]. run. by destruct (_ =? _).
Qed.

Lemma assert_ok (b : bool) m : b = true -> assert_true b m = Ok tt m.
Proof. by intros ->. Qed.

Lemma displacement_word b m i :
  wf m -> disp_size b = 2 ->
  code_byte m i + 256 * code_byte m (i + 1) =
    displacement b (code_byte m i) (code_byte m (i + 1)).
Proof. intros _ E. unfold displacement. by rewrite E. Qed.

(** The sign-extended low byte of [mod10] does not reach the high one. *)
Lemma signed_word lo hi :
  in_range uint8_t lo -> in_range uint8_t hi -> s16 lo .| (u16 hi .<< 8) = lo + 256 * hi.
Proof.
  intros Hlo Hhi. rewrite <- (bytes_to_word lo hi) by done.
  rewrite !(cast_id uint16_t lo), (cast_id uint16_t hi), (cast_id int16_t lo) by cpp_lia.
  symmetry. apply cast_id. apply (lor_in_range 16); [done|cpp_lia|].
  rewrite Z.shiftl_mul_pow2 by done. cpp_lia.
Qed.

Lemma mod00_eq m :
  wf m -> let b := mrm_modrm (modrm_decoder m) in field_mod b = 0 ->
  ModRMDecoder.mod00 fetch_byte m =
    Ok (effective_address_spec (registers m) b
          (code_byte m (instr_length m)) (code_byte m (instr_length m + 1)))
       (set_instr_length (u64 (instr_length m + disp_size b)) m).
Proof.
  intros Hm b Hmod. unfold ModRMDecoder.mod00. run.
  rewrite field_rm_land. fold b. pose proof (field_rm_range b) as Hrm.
  assert (Hsame : set_instr_length (u64 (instr_length m + 0)) m = m).
  { apply set_instr_length_same. rewrite Z.add_0_r. apply cast_id, Hm. }
  unfold effective_address_spec, displacement, disp_size, base_registers, sum_registers.
  rewrite Hmod. remember (field_rm b) as rm eqn:Erm. clear Erm.
  enum_below rm 8%nat; cbn [Z.eqb Pos.eqb foldr]; rewrite ?Hsame; run;
    try (do 2 f_equal; cpp_lia).
  transitivity (fetch_16bit m); [reflexivity|]. rewrite fetch_16bit_eq by done.
  f_equal. symmetry. rewrite Z.add_0_l. apply Z.mod_small.
  pose proof (code_byte_range m (instr_length m) Hm).
  pose proof (code_byte_range m (instr_length m + 1) Hm). cpp_lia.
Qed.

Lemma mod01_eq m :
  wf m -> let b := mrm_modrm (modrm_decoder m) in field_mod b = 1 ->
  ModRMDecoder.mod01 fetch_byte m =
    Ok (effective_address_spec (registers m) b
          (code_byte m (instr_length m)) (code_byte m (instr_length m + 1)))
       (set_instr_length (u64 (instr_length m + disp_size b)) m).
Proof.
  intros Hm b Hmod. unfold ModRMDecoder.mod01. run. rewrite fetch_byte_eq by done. run.
  rewrite field_rm_land. fold b. pose proof (field_rm_range b) as Hrm.
  unfold effective_address_spec, displacement, disp_size, base_registers, sum_registers.
  rewrite Hmod. remember (field_rm b) as rm eqn:Erm. clear Erm.
  enum_below rm 8%nat; cbn [Z.eqb Pos.eqb foldr]; run; do 2 f_equal; cpp_lia.
Qed.

Lemma mod10_eq m :
  wf m -> let b := mrm_modrm (modrm_decoder m) in field_mod b = 2 ->
  ModRMDecoder.mod10 fetch_byte m =
    Ok (effective_address_spec (registers m) b
          (code_byte m (instr_length m)) (code_byte m (instr_length m + 1)))
       (set_instr_length (u64 (instr_length m + disp_size b)) m).
Proof.
  intros Hm b Hmod. unfold ModRMDecoder.mod10. run. rewrite fetch_byte_eq by done. run.
  rewrite fetch_byte_eq by auto using wf_set_instr_length. run.
  rewrite field_rm_land. fold b. pose proof (field_rm_range b) as Hrm.
  change (code_byte (set_instr_length _ m)) with (code_byte m).
  rewrite code_byte_u64, signed_word by auto using code_byte_range.
  unfold effective_address_spec, displacement, disp_size, base_registers, sum_registers.
  rewrite Hmod. remember (field_rm b) as rm eqn:Erm. clear Erm.
  replace (set_instr_length _ (set_instr_length _ m))
    with (set_instr_length (u64 (instr_length m + 2)) m)
    by (unfold set_instr_length; msimpl; f_equal; cpp_lia).
  enum_below rm 8%nat; cbn [Z.eqb Pos.eqb foldr]; run; do 2 f_equal; cpp_lia.
Qed.

(** The bytes the address calculation consumes, and its result. *)
Lemma calculate_effective_address_eq m :
  wf m -> mrm_is_decoded (modrm_decoder m) = true ->
  is_mem_operand (modrm_decoder m) = true ->
  let b := mrm_modrm (modrm_decoder m) in
  ModRMDecoder.calculate_effective_address fetch_byte m =
    Ok (effective_address_spec (registers m) b
          (code_byte m (instr_length m)) (code_byte m (instr_length m + 1)))
       (set_instr_length (u64 (instr_length m + disp_size b)) m).
Proof.
  intros Hm Hd Ho b. pose proof (wf_modrm m Hm) as Hb.
  unfold ModRMDecoder.calculate_effective_address. run. rewrite rm_type_eq, Ho by done.
  run. rewrite assert_ok by done. run. fold b in Hb |- *.
  rewrite is_mem_operand_eq in Ho by done. rewrite field_mod_shift.
  rewrite assert_ok by done. run.
  pose proof (field_mod_range b Hb) as Hmod. apply negb_true_iff, Z.eqb_neq in Ho.
  rewrite (land_mask 2), (Z.mod_small (field_mod b)) by (done || cbn; lia).
  fold b in Ho. destruct (decide (field_mod b = 0)) as [E|]; [rewrite E; by apply mod00_eq|].
  destruct (decide (field_mod b = 1)) as [E|]; [rewrite E; by apply mod01_eq|].
  assert (E : field_mod b = 2) by lia. rewrite E. by apply mod10_eq.
Qed.

(** ** [decode] *)

(** The decoder's members after decoding ModR/M byte [b] followed by [d0], [d1]. *)
Definition decoded_as (rf : RegisterFile.t) (b d0 d1 : Z) (d : ModRMState) : ModRMState :=
  if field_mod b =? 3 then
    mk_modrm (mrm_width d) b (mrm_cached_address d) false true
  else
    mk_modrm (mrm_width d) b (effective_address_spec rf b d0 d1) true true.

(** The state [decode] leaves. *)
Definition decode_spec m : machine D :=
  let n := instr_length m in
  let b := code_byte m n in
  set_modrm_decoder
    (decoded_as (registers m) b (code_byte m (n + 1)) (code_byte m (n + 2)) (modrm_decoder m))
    (set_instr_length (u64 (n + 1 + disp_size b)) m).

Lemma wf_set_modrm_decoder d m :
  wf m -> in_range uint8_t (mrm_modrm d) -> in_range uint16_t (mrm_cached_address d) ->
  wf (set_modrm_decoder d m).
Proof. by intros [] ??. Qed.

Lemma effective_address_range rf b d0 d1 :
  in_range uint16_t (effective_address_spec rf b d0 d1).
Proof. unfold effective_address_spec. cpp_lia. Qed.

Lemma effective_address_eq m :
  mrm_is_decoded (modrm_decoder m) = true -> wf m ->
  is_mem_operand (modrm_decoder m) = true -> mrm_addr_is_cached (modrm_decoder m) = false ->
  let b := mrm_modrm (modrm_decoder m) in
  let ea := effective_address_spec (registers m) b
              (code_byte m (instr_length m)) (code_byte m (instr_length m + 1)) in
  effective_address m =
    Ok ea (set_modrm_decoder (mk_modrm (mrm_width (modrm_decoder m)) b ea true true)
             (set_instr_length (u64 (instr_length m + disp_size b)) m)).
Proof.
  intros Hd Hm Ho Hc b ea. unfold effective_address, ModRMDecoder.effective_address. run.
  rewrite Hd. cbn [assert_true]. run. rewrite Hc. run.
  rewrite calculate_effective_address_eq by done. run.
  unfold set_modrm_decoder, set_mrm_addr_is_cached, set_mrm_cached_address. msimpl. by rewrite Hd.
Qed.

Lemma effective_address_cached m :
  mrm_is_decoded (modrm_decoder m) = true -> mrm_addr_is_cached (modrm_decoder m) = true ->
  effective_address m = Ok (mrm_cached_address (modrm_decoder m)) m.
Proof.
  intros Hd Hc. unfold effective_address, ModRMDecoder.effective_address. run.
  rewrite Hd. cbn [assert_true]. run. by rewrite Hc.
Qed.

Lemma decode_eq m : wf m -> decode m = Ok tt (decode_spec m).
Proof.
  intros Hm. unfold decode, ModRMDecoder.decode. run.
  pose proof (code_byte_range m (instr_length m) Hm) as Hb.
  rewrite fetch_byte_eq by (destruct Hm; by apply wf_set_modrm_decoder). run.
  change (code_byte (set_modrm_decoder _ m)) with (code_byte m).
  rewrite (cast_id uint8_t) by done. unfold decode_spec, decoded_as.
  set (b := code_byte m (instr_length m)) in *.
  rewrite rm_type_eq by done. rewrite is_mem_operand_eq by done. msimpl.
  destruct (Z.eqb_spec (field_mod b) 3) as [E|E]; cbn [negb].
  - assert (disp_size b = 0) as -> by (unfold disp_size; by rewrite E).
    rewrite decide_False by done. run. unfold set_modrm_decoder, set_instr_length. msimpl.
    do 2 f_equal. by rewrite Z.add_0_r.
  - rewrite decide_True by done. run.
    set (m1 := set_modrm_decoder _ (set_modrm_decoder _ _)).
    change (ModRMDecoder.effective_address fetch_byte m1) with (effective_address m1).
    assert (Hm1 : wf m1).
    { destruct Hm. unfold m1, set_modrm_decoder, set_instr_length. split; msimpl; auto with cpp. }
    rewrite effective_address_eq; try done.
    2: { rewrite is_mem_operand_eq by done. apply negb_true_iff, Z.eqb_neq, E. }
    run. unfold m1. msimpl.
    change (code_byte (set_modrm_decoder _ _)) with (code_byte m).
    rewrite code_byte_u64, code_byte_u64_1, <- Z.add_assoc. autorewrite with state.
    by rewrite u64_add_l.
Qed.

(** ** Segments *)

Lemma default_segment_cases b :
  in_range uint8_t b -> field_mod b <> 3 ->
  default_segment b =
    (if field_mod b =? 0 then if (field_rm b =? 2) || (field_rm b =? 3) then SS else DS
     else if (field_rm b =? 2) || (field_rm b =? 3) || (field_rm b =? 6) then SS else DS).
Proof.
  intros Hb Ho. pose proof (field_rm_range b) as Hrm. pose proof (field_mod_range b Hb) as Hmod.
  unfold default_segment, base_registers.
  remember (field_rm b) as rm eqn:Erm. remember (field_mod b) as md eqn:Emd. clear Erm Emd.
  enum_below rm 8%nat; by destruct (md =? 0).
Qed.

(** The segment of a memory operand: the override, else the default one. *)
Lemma get_segment_eq m :
  wf m -> mrm_is_decoded (modrm_decoder m) = true ->
  is_mem_operand (modrm_decoder m) = true ->
  get_segment false m =
    Ok (if default_segment_overriden m then override_segment m
        else default_segment (mrm_modrm (modrm_decoder m))) m.
Proof.
  intros Hm Hd Ho. unfold get_segment, ModRMDecoder.uses_bp_as_base. run.
  destruct (default_segment_overriden m); [done|]. run.
  rewrite Hd. cbn [negb]. run. rewrite rm_type_eq, Ho by done. run.
  rewrite bool_decide_true by done. cbn [negb].
  rewrite field_mod_shift, field_rm_land.
  rewrite is_mem_operand_eq in Ho by apply Hm. apply negb_true_iff, Z.eqb_neq in Ho.
  rewrite default_segment_cases by (done || apply Hm).
  destruct (field_mod _ =? 0); run; by rewrite orb_false_r.
Qed.
End decode.
