(* ===== verification/CoreSafe.v ===== *)
(** * Safety of the core functions *)
From S2P Require Import Prelude Config MainMemory Registers ErrorState IOPorts Machine ModRM Core.
From S2P Require Import Safety Decoder.

Create HintDb safe discriminated.
#[export] Hint Constants Opaque : safe.

Section core_safe.
Context {CFG : Config} {D : Type} {IOP : IOPorts D} {SAFE : IOPortsSafe D}.
Implicit Types m : machine D.
Abbreviation safe := (Safety.safe (D := D)).

Lemma safe_intro {X} A Φ (c : emu D X) (P : X -> Prop) Ψ (f : machine D -> X)
    (g : machine D -> machine D) :
  (forall m, wf m -> Φ (modrm_decoder m) ->
     c m = Ok (f m) (g m) /\ P (f m) /\ wf (g m) /\ Ψ (modrm_decoder (g m)) /\
     registers (g m) = registers m) ->
  safe A Φ c P Ψ.
Proof.
  intros H m [Hm Hd]. destruct (H m Hm Hd) as (E & HP & Hg & Hg' & Hr).
  eapply wp_ok; [exact E|]. do 2 (split; [done|]). intros r _. by rewrite Hr.
Qed.

(** A computation that changes nothing. *)
Lemma safe_reader {X} A Φ (c : emu D X) (P : X -> Prop) :
  (forall m, wf m -> Φ (modrm_decoder m) -> exists a, c m = Ok a m /\ P a) ->
  safe A Φ c P Φ.
Proof.
  intros H m [Hm Hd]. destruct (H m Hm Hd) as (a & E & HP).
  eapply wp_ok; [exact E|]. split; [done|]. by split.
Qed.

Lemma safe_fetch_byte A Φ : safe A Φ fetch_byte (in_range uint8_t) Φ.
Proof.
  eapply safe_intro. intros m Hm Hd. split; [by apply fetch_byte_eq|].
  split; [by apply code_byte_range|]. split; [by apply wf_set_instr_length|done].
Qed.

Lemma safe_fetch_16bit A Φ : safe A Φ fetch_16bit (in_range uint16_t) Φ.
Proof.
  eapply safe_intro. intros m Hm Hd. split; [by apply fetch_16bit_eq|].
  split; [|split; [by apply wf_set_instr_length|done]].
  pose proof (code_byte_range m (instr_length m) Hm).
  pose proof (code_byte_range m (instr_length m + 1) Hm). cpp_lia.
Qed.

Lemma wf_decode_spec m : wf m -> wf (decode_spec m).
Proof.
  intros Hm. unfold decode_spec, decoded_as.
  pose proof (code_byte_range m (instr_length m) Hm).
  case_match; apply wf_set_modrm_decoder; msimpl; auto using wf_set_instr_length.
  - apply Hm.
  - apply effective_address_range.
Qed.

Lemma decoded_decode_spec m : wf m -> decoded (modrm_decoder (decode_spec m)).
Proof.
  intros Hm. unfold decoded, decode_spec, decoded_as. msimpl.
  pose proof (code_byte_range m (instr_length m) Hm) as Hb.
  destruct (Z.eqb_spec (field_mod (code_byte m (instr_length m))) 3) as [E|E]; msimpl; [|done].
  rewrite is_mem_operand_eq by done. msimpl. by rewrite E.
Qed.

Lemma safe_decode A Φ : safe A Φ decode (fun _ => True) decoded.
Proof.
  eapply safe_intro. intros m Hm Hd. split; [by apply (decode_eq m)|].
  split; [done|]. split; [by apply wf_decode_spec|]. split; [|done].
  by apply decoded_decode_spec.
Qed.

(** ** Operand accessors of the decoder *)

Lemma safe_set_width A Φ w : safe A Φ (set_width w) (fun _ => True) any.
Proof.
  eapply safe_intro. intros m Hm Hd. split; [apply run_update|]. split; [done|].
  split; [apply wf_set_modrm_decoder; [done|apply Hm..]|]. done.
Qed.

(** The [reg] field, and what it tells of the decoder. *)
Lemma safe_raw_reg_bind {X} A Φ (f : Z -> emu D X) P Ψ :
  entails Φ decoded ->
  (forall n, 0 <= n < 8 -> safe A (in_group n) (f n) P Ψ) ->
  safe A Φ (raw_reg ≫= f) P Ψ.
Proof.
  intros HΦ H m [Hm Hd]. apply HΦ in Hd as Hdec. unfold raw_reg, ModRMDecoder.raw_reg.
  apply wp_bind, wp_bind, wp_gets, wp_bind. eapply wp_ok; [apply assert_ok, Hdec|].
  eapply H; [|split; [done|by split]]. rewrite field_reg_land. apply field_reg_range.
Qed.

Lemma safe_reg A Φ : entails Φ decoded -> safe A Φ reg (fun _ => True) Φ.
Proof.
  intros HΦ m [Hm Hd]. apply HΦ in Hd as Hdec. unfold reg, ModRMDecoder.reg.
  apply wp_bind, wp_gets, wp_bind. eapply wp_ok; [apply assert_ok, Hdec|].
  unfold ModRMDecoder.raw_reg. apply wp_bind, wp_bind, wp_gets, wp_bind.
  eapply wp_ok; [apply assert_ok, Hdec|]. apply wp_ret. rewrite field_reg_land.
  pose proof (field_reg_range (mrm_modrm (modrm_decoder m))).
  case_decide; apply (safe_cast_GPR A Φ); try done; cbn; lia.
Qed.

Lemma safe_raw_reg_group A n :
  safe A (in_group n) raw_reg (fun n' => n' = n) (in_group n).
Proof.
  apply safe_reader. intros m Hm [Hd Hn]. exists n. split; [|done].
  unfold raw_reg, ModRMDecoder.raw_reg. run. rewrite assert_ok by apply Hd. run. by rewrite Hn.
Qed.

(** The kind of the operand, and what it tells of the decoder. *)
Lemma safe_rm_type_bind {X} A Φ (f : OperandType -> emu D X) P Ψ :
  entails Φ decoded ->
  safe A reg_operand (f OP_REG) P Ψ -> safe A mem_operand (f OP_MEM) P Ψ ->
  safe A Φ (rm_type ≫= f) P Ψ.
Proof.
  intros HΦ Hr Hmem m [Hm Hd]. apply HΦ in Hd as Hdec. apply wp_bind.
  eapply wp_ok; [apply rm_type_eq, Hdec|].
  destruct (is_mem_operand (modrm_decoder m)) eqn:E; [apply Hmem|apply Hr];
    (split; [done|by split]).
Qed.

Lemma safe_rm_reg A : safe A reg_operand rm_reg (fun _ => True) reg_operand.
Proof.
  intros m [Hm Hd]. destruct Hd as [Hdec Ho] eqn:E. clear E. unfold rm_reg, ModRMDecoder.rm_reg.
  apply wp_bind, wp_gets, wp_bind. eapply wp_ok; [apply assert_ok, Hdec|].
  apply wp_bind. eapply wp_ok; [apply rm_type_eq, Hdec|]. rewrite Ho.
  apply wp_bind. eapply wp_ok; [by apply assert_ok|]. rewrite Z.shiftr_0_r, field_rm_land.
  pose proof (field_rm_range (mrm_modrm (modrm_decoder m))).
  case_decide; apply (safe_cast_GPR A reg_operand); try done; cbn; lia.
Qed.

Lemma safe_effective_address A :
  safe A mem_operand effective_address (in_range uint16_t) mem_operand.
Proof.
  apply safe_reader. intros m Hm [[Hd Hc] Ho]. eexists.
  split; [by apply effective_address_cached, Hc|]. apply Hm.
Qed.

Lemma safe_get_segment A Φ b : safe A Φ (get_segment b) (fun _ => True) Φ.
Proof.
  destruct b; [by apply safe_ret|]. apply safe_reader. intros m Hm Hd. unfold get_segment. run.
  destruct (default_segment_overriden m); run; [by eexists|].
  unfold ModRMDecoder.uses_bp_as_base. run.
  destruct (mrm_is_decoded (modrm_decoder m)) eqn:E; cbn [negb]; run; [|by eexists].
  rewrite rm_type_eq by done. run. destruct (negb (bool_decide _)); run; [by eexists|].
  destruct (_ =? 0); run; by eexists.
Qed.

Lemma safe_equiv {X} A Φ (c c' : emu D X) P Ψ :
  c ≡ c' -> safe A Φ c' P Ψ -> safe A Φ c P Ψ.
Proof. intros E H m Hm. unfold wp. rewrite (E m). by apply H. Qed.

Lemma safe_fmap_bind {X Y Z} A Φ (c : emu D X) (g : X -> Y) (f : Y -> emu D Z) P Ψ :
  safe A Φ (c ≫= fun a => f (g a)) P Ψ -> safe A Φ ((g <$> c) ≫= f) P Ψ.
Proof. apply safe_equiv, fmap_bind. Qed.

Lemma safe_bind_bind {X Y Z} A Φ (c : emu D X) (g : X -> emu D Y) (f : Y -> emu D Z) P Ψ :
  safe A Φ (c ≫= fun a => g a ≫= f) P Ψ -> safe A Φ ((c ≫= g) ≫= f) P Ψ.
Proof. apply safe_equiv, bind_assoc. Qed.
End core_safe.

(** ** Automation

    [safe] is proved by walking the term: a lemma of the database for a call,
    the rules for the rest. A compound first component keeps the typestate. *)

#[export] Hint Resolve entails_refl entails_any reg_operand_decoded mem_operand_decoded
  in_group_decoded : safe.
#[export] Hint Resolve safe_registers_get safe_registers_set safe_registers_get_flags
  safe_registers_get_flag safe_registers_set_flags safe_mem_read safe_mem_write
  safe_fetch_byte safe_fetch_16bit safe_decode safe_set_width safe_reg safe_rm_reg
  safe_effective_address safe_get_segment : safe.
#[export] Hint Extern 0 (may_write _ _ = true) => reflexivity : safe.
#[export] Hint Extern 0 (allowed _) => (unfold allowed; tauto) : safe.

(** An assignment to a member with no invariant of its own. *)
#[export] Hint Extern 1 (safe _ _ (modify _) _ _) =>
  (apply safe_modify; [by intros ? []|done|done]) : safe.
#[export] Hint Extern 1 (safe _ _ (gets _) _ _) =>
  (apply safe_gets; first [by intros ? [[] _]|by intros]) : safe.
#[export] Hint Extern 2 (safe _ _ (throw _) _ _) => (apply safe_throw; unfold allowed; tauto) : safe.

#[export] Hint Extern 1 (safe _ _ (call_device _ _) _ _) =>
  (apply safe_call_device; intros;
   first [apply read8_safe|apply read16_safe|apply write8_safe|apply write16_safe|apply inta_safe])
  : safe.

Ltac safe_leaf :=
  first [ solve [eauto 4 with safe]
        | eapply safe_weaken; [solve [eauto 4 with safe]|by intros|solve [eauto 3 with safe]] ].

(** The index of a register, from a masked field. *)
Ltac gpr_index :=
  match goal with
  | |- context [?x .& 0x7] => pose proof (land_in_range 3 x 0x7)
  | |- context [?x .& 0x3] => pose proof (land_in_range 2 x 0x3)
  end; cbn [GPR_to_int] in *; lia.

Ltac safe_step :=
  lazymatch goal with
  | |- Safety.safe _ _ (mret _) _ _ =>
      first [apply safe_ret; solve [done|auto with cpp]
            |eapply safe_weaken; [apply (safe_ret _ _ _ (fun _ => True)); done|done|
                                  solve [eauto 3 with safe]]]
  | |- Safety.safe _ (in_group ?n) (raw_reg ≫= _) _ _ =>
      eapply safe_bind; [apply safe_raw_reg_group|intros ? ->]
  | |- Safety.safe _ _ (raw_reg ≫= _) _ _ =>
      apply safe_raw_reg_bind; [solve [eauto 3 with safe]|intros ? ?]
  | |- Safety.safe _ _ (rm_type ≫= _) _ _ =>
      apply safe_rm_type_bind; [solve [eauto 3 with safe]| |]
  | |- Safety.safe _ _ (cast_GPR _ ≫= _) _ _ =>
      eapply safe_bind; [apply (safe_cast_GPR _ _ _ (fun _ => True)); [gpr_index|done]|intros ? _]
  | |- Safety.safe _ _ (assert_true _ ≫= _) _ _ =>
      eapply safe_bind; [apply safe_assert; reflexivity|intros ? _]
  | |- Safety.safe _ _ ((_ <$> _) ≫= _) _ _ => apply safe_fmap_bind
  | |- Safety.safe _ _ ((_ ≫= _) ≫= _) _ _ => apply safe_bind_bind
  | |- Safety.safe _ ?Φ (_ ≫= _) _ _ =>
      first [ eapply safe_bind; [solve [eauto 4 with safe]|intros ? ?]
            | eapply (safe_bind _ _ Φ _ _ _ (fun _ => True)); [|intros ? _] ]
  | |- Safety.safe _ _ (_ <$> _) _ _ =>
      eapply safe_fmap; [solve [eauto 4 with safe]|intros ? ?; try done]
  | |- Safety.safe _ _ (let '(_, _) := ?p in _) _ _ => destruct p
  | |- Safety.safe _ _ (if ?b then _ else _) _ _ =>
      let E := fresh in destruct b eqn:E; try (apply Z.eqb_eq in E; subst)
  | |- Safety.safe _ _ (match ?o with Some _ => _ | None => _ end) _ _ => destruct o
  | |- Safety.safe _ _ _ _ _ => safe_leaf
  end.
Ltac safe_simpl :=
  cbv beta iota zeta;
  repeat match goal with
  | |- context [bool_decide (OP_REG = OP_REG)] =>
      change (bool_decide (OP_REG = OP_REG)) with true
  | |- context [bool_decide (OP_MEM = OP_REG)] =>
      change (bool_decide (OP_MEM = OP_REG)) with false
  end; cbn [negb].
Ltac safe_auto := repeat (safe_simpl; safe_step).

(** The same for an instruction: a function with no lemma is unfolded. *)
Ltac head_of c := lazymatch c with ?f _ => head_of f | _ => c end.
Ltac safe_unfold :=
  lazymatch goal with
  | |- Safety.safe _ _ ?c _ _ => let h := head_of c in unfold h
  end.

Section core_calls.
Context {CFG : Config} {D : Type} {IOP : IOPorts D} {SAFE : IOPortsSafe D}.
Abbreviation safe := (Safety.safe (D := D)).


(** ** Operands *)

Lemma safe_read_data A Φ T b :
  entails Φ decoded -> safe A Φ (read_data T b) (in_range T) decoded.
Proof.
  intros HΦ. unfold read_data. safe_step.
  - rewrite decide_False by done.
    eapply safe_weaken with (Ψ := reg_operand); [|done|eauto with safe].
    do 2 safe_step. apply safe_ret. auto with cpp.
  - rewrite decide_True by done.
    eapply safe_weaken with (Ψ := mem_operand); [safe_auto|done|eauto with safe].
Qed.

Lemma safe_write_data Φ T v b :
  entails Φ decoded -> safe anything Φ (write_data T v b) (fun _ => True) decoded.
Proof.
  intros HΦ. unfold write_data. safe_step.
  - rewrite decide_True by done.
    eapply safe_weaken with (Ψ := reg_operand); [safe_auto|done|eauto with safe].
  - rewrite decide_False by done.
    eapply safe_weaken with (Ψ := mem_operand); [safe_auto|done|eauto with safe].
Qed.

(** ** The stack and the ports *)

Lemma safe_push_word A Φ v :
  may_write A SP = true -> safe A Φ (push_word v) (fun _ => True) Φ.
Proof. intros. unfold push_word. safe_auto. Qed.

Lemma safe_pop_word A Φ :
  may_write A SP = true -> safe A Φ pop_word (in_range uint16_t) Φ.
Proof.
  intros. unfold pop_word. do 5 safe_step. by apply safe_ret.
Qed.

Lemma safe_write_io8 A Φ a v : safe A Φ (write_io8 a v) (fun _ => True) Φ.
Proof using SAFE. unfold write_io8. safe_auto. Qed.

Lemma safe_write_io16 A Φ a v : safe A Φ (write_io16 a v) (fun _ => True) Φ.
Proof using SAFE. unfold write_io16. safe_auto. Qed.

Lemma safe_read_io8 A Φ a : safe A Φ (read_io8 a) (in_range uint8_t) Φ.
Proof using SAFE. unfold read_io8. safe_auto. Qed.

Lemma safe_read_io16 A Φ a : safe A Φ (read_io16 a) (in_range uint16_t) Φ.
Proof using SAFE. unfold read_io16. safe_auto. Qed.
End core_calls.

#[export] Hint Resolve safe_read_data safe_write_data safe_push_word safe_pop_word
  safe_write_io8 safe_write_io16 safe_read_io8 safe_read_io16 : safe.

Section interrupts.
Context {CFG : Config} {D : Type} {IOP : IOPorts D} {SAFE : IOPortsSafe D}.
Abbreviation safe := (Safety.safe (D := D)).

(** ** Interrupt entry *)

Lemma safe_single_step Φ : safe anything Φ single_step (fun _ => True) Φ.
Proof. unfold single_step. safe_auto. Qed.

Lemma safe_handle_nmi Φ : safe anything Φ handle_nmi (fun _ => True) Φ.
Proof. unfold handle_nmi. safe_auto. apply safe_single_step. Qed.

Lemma safe_invalid_opcode Φ : safe anything Φ invalid_opcode (fun _ => True) Φ.
Proof. unfold invalid_opcode. safe_auto. Qed.

(** [handle_irq] is called with an interrupt pending. *)
Lemma safe_handle_irq m :
  inv any m -> pending_irq m <> 0 ->
  wp handle_irq (fun _ m' => inv any m') allowed m.
Proof using SAFE.
  intros Hm Hp. unfold handle_irq. apply wp_bind, wp_gets, wp_bind.
  eapply wp_ok; [apply assert_ok; by apply nz_true|].
  match goal with |- wp ?c _ _ _ => assert (H : safe anything any c (fun _ => True) any) end.
  { safe_auto. apply safe_single_step. }
  eapply wp_mono; [by apply H| |done]. by intros ? ? (_ & ? & _).
Qed.

(** ** Repetition *)

(** The registers a string primitive leaves alone: CX counts the turns. *)
Definition but_cx (r : GPR) : bool := negb (RegisterFile.overlap CX r).

(** Each turn takes one from CX, so that many turns are enough. *)
Lemma safe_rep_loop primitive stop fuel m :
  safe but_cx any primitive (fun _ => True) any ->
  safe but_cx any stop (fun _ => True) any ->
  inv any m -> RegisterFile.get (registers m) CX <= Z.of_nat fuel ->
  wp (rep_loop fuel primitive stop) (fun _ m' => inv any m') allowed m.
Proof.
  intros Hp Hs. revert m. induction fuel as [|fuel IH]; intros m Hm Hcx;
    pose proof (RegisterFile.get_range (registers m) CX (wf_registers m (proj1 Hm))) as Hr;
    change (RegisterFile.gpr_type CX) with uint16_t in Hr;
    cbn [rep_loop]; apply wp_bind, wp_gets;
    destruct (Z.eqb_spec (RegisterFile.get (registers m) CX) 0) as [E|E]; try by apply wp_ret.
  { exfalso. cpp_lia. }
  apply wp_bind. eapply wp_mono; [by apply Hp| |done].
  intros [] m1 (_ & Hm1 & Hs1). apply wp_bind, wp_gets, wp_bind, wp_modify, wp_bind.
  rewrite (Hs1 CX eq_refl). set (m2 := set_registers _ m1).
  assert (Hm2 : inv any m2).
  { split; [|done]. apply wf_set_registers, RegisterFile.wf_set; apply Hm1. }
  assert (Hcx2 : RegisterFile.get (registers m2) CX = RegisterFile.get (registers m) CX - 1).
  { unfold m2; cbn [registers set_registers]. rewrite RegisterFile.get_set_eq by apply Hm1.
    apply (cast_id uint16_t). cpp_lia. }
  eapply wp_mono; [by apply Hs| |done]. intros done m3 (_ & Hm3 & Hs3).
  destruct done; [by apply wp_ret|]. apply IH; [done|]. rewrite (Hs3 CX eq_refl), Hcx2. lia.
Qed.

Lemma safe_do_rep primitive stop :
  safe but_cx any primitive (fun _ => True) any ->
  safe but_cx any stop (fun _ => True) any ->
  safe anything any (do_rep primitive stop) (fun _ => True) any.
Proof.
  intros Hp Hs m Hm. unfold do_rep. apply wp_bind, wp_gets. destruct (has_rep_prefix m); cbn [negb].
  - apply wp_bind, wp_gets. eapply wp_mono; [apply safe_rep_loop; try done; lia| |done].
    intros ? m' Hm'. by split; [|split].
  - apply (safe_widen but_cx any primitive); done.
Qed.

Lemma safe_string_rep_complete A Φ : safe A Φ string_rep_complete (fun _ => True) Φ.
Proof. unfold string_rep_complete. safe_auto. Qed.
End interrupts.

#[export] Hint Resolve safe_single_step safe_handle_nmi safe_invalid_opcode
  safe_string_rep_complete : safe.

Ltac safe_loop :=
  lazymatch goal with
  | |- Safety.safe anything any (do_rep _ _) _ _ => apply safe_do_rep
  end.
Ltac safe_insn := repeat (safe_simpl; first [safe_loop | safe_step | safe_unfold]).
