(* ===== verification/Stack.v ===== *)
(** * The stack: what [push_word] and [pop_word] do, exactly *)
From S2P Require Import Prelude Config MainMemory Registers ErrorState IOPorts Machine ModRM Core.
From S2P Require Import Safety Decoder CoreSafe.

(** The memory with the word at [a] replaced. *)
Definition put16 `{Config} (mm : Memory.t) (a v : Z) : Memory.t :=
  Memory.mk (Memory.cells (Memory.store 2 mm a (u16 v))) true.

(** The word at [a]. *)
Definition word_at `{Config} (mm : Memory.t) (a : Z) : Z :=
  Memory.byte_at mm a + 256 * Memory.byte_at mm (a + 1).

(** A word at [a] does not run past the end of RAM. *)
Definition word_fits (a : Z) : Prop := a + 2 <= Memory.MEMORY_SIZE.

Section memory.
Context {CFG : Config} {D : Type}.
Implicit Types m : machine D.

Lemma put16_Some mm a v : word_fits a -> Memory.write uint16_t mm a v = Some (put16 mm a v).
Proof. intros Ha. by apply Memory.write_Some. Qed.

Lemma wf_put16 mm a v : Memory.wf mm -> 0 <= a -> word_fits a -> Memory.wf (put16 mm a v).
Proof. intros Hm Ha Hf. eapply Memory.wf_write; [done|done|]. by apply put16_Some. Qed.

Lemma read16_Some mm a :
  Memory.wf mm -> word_fits a -> Memory.read uint16_t mm a = Some (word_at mm a).
Proof.
  intros Hm Ha. rewrite Memory.read_Some by done. f_equal. unfold word_at.
  change (Z.to_nat (sizeof uint16_t)) with 2%nat. cbn [Memory.load].
  pose proof (Memory.byte_at_range mm a Hm). pose proof (Memory.byte_at_range mm (a + 1) Hm).
  rewrite Z.mul_0_r, Z.add_0_r. apply cast_id. cpp_lia.
Qed.

Lemma word_at_range mm a : Memory.wf mm -> in_range uint16_t (word_at mm a).
Proof.
  intros Hm. unfold word_at. pose proof (Memory.byte_at_range mm a Hm).
  pose proof (Memory.byte_at_range mm (a + 1) Hm). cpp_lia.
Qed.

Lemma word_at_put16_eq mm a v :
  Memory.wf mm -> 0 <= a -> word_fits a -> word_at (put16 mm a v) a = u16 v.
Proof.
  intros Hm Ha Hf. apply (f_equal (default 0)
    (x := Some (word_at (put16 mm a v) a)) (y := Some (u16 v))).
  rewrite <- read16_Some by auto using wf_put16.
  eapply Memory.read_write_eq; [done|]. by apply put16_Some.
Qed.

Lemma word_at_put16_ne mm a b v :
  b + 2 <= a \/ a + 2 <= b -> word_at (put16 mm a v) b = word_at mm b.
Proof.
  intros H. unfold word_at, put16.
  change (Memory.byte_at (Memory.mk (Memory.cells ?x) true)) with (Memory.byte_at x).
  rewrite !Memory.byte_at_store_out by lia. done.
Qed.

Lemma byte_at_put16_ne mm a b v :
  b < a \/ a + 2 <= b -> Memory.byte_at (put16 mm a v) b = Memory.byte_at mm b.
Proof. intros H. by apply (Memory.byte_at_store_out 2). Qed.

Lemma mem_read16_eq a m :
  wf m -> 0 <= a -> word_fits a ->
  (mem_read uint16_t a : emu D Z) m = Ok (word_at (mem m) a) m.
Proof.
  intros Hm Ha Hf. apply mem_read_Some. rewrite (cast_id uint32_t).
  - apply read16_Some; [apply Hm|done].
  - unfold word_fits, Memory.MEMORY_SIZE in Hf. cpp_lia.
Qed.

Lemma mem_write16_eq a v m :
  0 <= a -> word_fits a ->
  (mem_write uint16_t a v : emu D unit) m = Ok tt (set_mem (put16 (mem m) a v) m).
Proof.
  intros Ha Hf. unfold mem_write. run. rewrite (cast_id uint32_t), put16_Some; [done|done|].
  unfold word_fits, Memory.MEMORY_SIZE in Hf. cpp_lia.
Qed.
End memory.

Section stack.
Context {CFG : Config} {D : Type} {IOP : IOPorts D}.
Implicit Types m : machine D.

(** The address of the word [k] bytes above the stack pointer. *)
Definition stack_addr (rf : RegisterFile.t) (k : Z) : Z :=
  get_phys_addr (RegisterFile.get rf SS) (u16 (RegisterFile.get rf SP + k)).

Lemma stack_addr_range rf k : 0 <= stack_addr rf k < Memory.MEMORY_SIZE.
Proof. apply get_phys_addr_range. Qed.

(** The state [push_word] leaves. *)
Definition pushed (v : Z) m : machine D :=
  set_mem (put16 (mem m) (stack_addr (registers m) (-2)) v)
    (set_registers (RegisterFile.set (registers m) SP (RegisterFile.get (registers m) SP - 2)) m).

Definition popped m : machine D :=
  set_registers (RegisterFile.set (registers m) SP (RegisterFile.get (registers m) SP + 2)) m.

Lemma get_SP_range rf : RegisterFile.wf rf -> in_range uint16_t (RegisterFile.get rf SP).
Proof. intros H. by apply (RegisterFile.get_range rf SP). Qed.

Lemma stack_addr_set_SP rf x k :
  RegisterFile.wf rf ->
  stack_addr (RegisterFile.set rf SP x) k =
    get_phys_addr (RegisterFile.get rf SS) (u16 (x + k)).
Proof.
  intros Hrf. unfold stack_addr. rewrite !RegisterFile.get_set_word by done.
  rewrite decide_False, decide_True by done. f_equal. cpp_lia.
Qed.

Lemma push_word_eq v m :
  wf m -> word_fits (stack_addr (registers m) (-2)) ->
  push_word v m = Ok tt (pushed v m).
Proof.
  intros Hm Hf. unfold push_word. run.
  set (rf := RegisterFile.set _ _ _).
  assert (E : get_phys_addr (RegisterFile.get rf SS) (RegisterFile.get rf SP) =
              stack_addr (registers m) (-2)).
  { unfold rf, stack_addr. rewrite !RegisterFile.get_set_word by (done || apply Hm). done. }
  rewrite E, mem_write16_eq by (done || apply stack_addr_range). unfold pushed, put16. msimpl.
  by rewrite cast_idemp.
Qed.

Lemma pop_word_eq m :
  wf m -> word_fits (stack_addr (registers m) 0) ->
  pop_word m = Ok (word_at (mem m) (stack_addr (registers m) 0)) (popped m).
Proof.
  intros Hm Hf. unfold pop_word. run.
  assert (E : get_phys_addr (RegisterFile.get (registers m) SS) (RegisterFile.get (registers m) SP) =
              stack_addr (registers m) 0).
  { unfold stack_addr. f_equal. rewrite Z.add_0_r. symmetry. apply cast_id, get_SP_range, Hm. }
  rewrite E, mem_read16_eq by (done || apply stack_addr_range). by run.
Qed.

Lemma wf_pushed v m : wf m -> word_fits (stack_addr (registers m) (-2)) -> wf (pushed v m).
Proof.
  intros [] Hf. split; try done.
  - apply wf_put16; [done|apply stack_addr_range|done].
  - by apply RegisterFile.wf_set.
Qed.

Lemma wf_popped m : wf m -> wf (popped m).
Proof. intros []. split; try done. by apply RegisterFile.wf_set. Qed.

(** Registers other than SP. *)
Lemma get_pushed v m r :
  wf m -> RegisterFile.overlap SP r = false ->
  RegisterFile.get (registers (pushed v m)) r = RegisterFile.get (registers m) r.
Proof. intros Hm Hr. apply RegisterFile.get_set_ne; [apply Hm|done]. Qed.

Lemma SP_pushed v m :
  wf m -> RegisterFile.get (registers (pushed v m)) SP = u16 (RegisterFile.get (registers m) SP - 2).
Proof. intros Hm. apply (RegisterFile.get_set_eq _ SP), Hm. Qed.

Lemma flags_pushed v m : RegisterFile.get_flags (registers (pushed v m)) = RegisterFile.get_flags (registers m).
Proof. apply RegisterFile.get_flags_set. Qed.

Lemma stack_addr_pushed v m k :
  wf m -> stack_addr (registers (pushed v m)) k = stack_addr (registers m) (k - 2).
Proof.
  intros Hm. unfold pushed. msimpl. rewrite stack_addr_set_SP by apply Hm.
  unfold stack_addr. do 2 f_equal. lia.
Qed.

Lemma stack_addr_popped m k :
  wf m -> stack_addr (registers (popped m)) k = stack_addr (registers m) (k + 2).
Proof.
  intros Hm. unfold popped. msimpl. rewrite stack_addr_set_SP by apply Hm.
  unfold stack_addr. do 2 f_equal. lia.
Qed.

Lemma stack_words_above rf j k :
  RegisterFile.wf rf -> 2 <= k - j <= 65534 ->
  word_fits (stack_addr rf j) -> word_fits (stack_addr rf k) ->
  stack_addr rf j + 2 <= stack_addr rf k \/ stack_addr rf k + 2 <= stack_addr rf j.
Proof.
  intros Hrf Hk. unfold word_fits, stack_addr.
  pose proof (RegisterFile.get_range rf SS Hrf) as Hss.
  change (RegisterFile.gpr_type SS) with uint16_t in Hss.
  rewrite !get_phys_addr_eq by (done || cpp_lia). unfold Memory.MEMORY_SIZE.
  generalize (RegisterFile.get rf SS), (RegisterFile.get rf SP) as sp. intros ss sp.
  rewrite !u16_mod. intros.
  assert (Hd : (sp + k) mod 65536 - (sp + j) mod 65536 = k - j \/
               (sp + k) mod 65536 - (sp + j) mod 65536 = k - j - 65536) by zlia.
  zlia.
Qed.

(** Different words of the stack do not overlap. *)
Lemma stack_words_disjoint rf j k :
  RegisterFile.wf rf -> 2 <= Z.abs (k - j) <= 65534 ->
  word_fits (stack_addr rf j) -> word_fits (stack_addr rf k) ->
  stack_addr rf j + 2 <= stack_addr rf k \/ stack_addr rf k + 2 <= stack_addr rf j.
Proof.
  intros Hrf Hk Hj' Hk'. destruct (Z.le_gt_cases j k).
  - apply stack_words_above; done || lia.
  - apply or_comm, stack_words_above; done || lia.
Qed.
End stack.
