(* ===== verification/Bench.v ===== *)
(** * A machine to evaluate the model on

    No devices, and a program in memory at CS:IP; the witnesses run the
    definitions on it. *)
From S2P Require Import Prelude Config MainMemory Registers ErrorState IOPorts Machine ModRM Core.
From S2P Require Import Safety.

#[export] Existing Instance default_config.

(** An empty port map: the methods are never called. *)
#[export] Instance no_devices : IOPorts unit := {
  get_base _ := 0;
  get_num_ports _ := 0;
  ioport_read8 _ _ _ := mret (0, []);
  ioport_read16 _ _ := mret (0, []);
  ioport_write8 _ _ _ _ := mret [];
  ioport_write16 _ _ _ := mret [];
  inta_handler _ := mret ();
}.

#[export] Instance no_devices_safe : IOPortsSafe unit.
Proof. by split. Qed.

(** A program at 0000:0100, and the registers and FLAGS to run it with. *)
Definition store_bytes (a : Z) (l : list Z) (m : Memory.t) : Memory.t :=
  foldl (fun m '(i, b) => Memory.set_byte m (a + i) b) m (zip (seqZ 0 (Z.of_nat (length l))) l).

Definition set_regs (l : list (GPR * Z)) (rf : RegisterFile.t) : RegisterFile.t :=
  foldl (fun rf '(r, v) => RegisterFile.set rf r v) rf l.

Definition bench (code : list Z) (data : Z) (bytes : list Z) (regs : list (GPR * Z))
    (flags : Z) : machine unit :=
  mk_machine
    (store_bytes data bytes (store_bytes 0x100 code (Memory.create false)))
    ∅ ()
    (RegisterFile.set_flags
       (set_regs ([(CS, 0); (IP, 0x100); (SS, 0x2000); (SP, 0x100)] ++ regs)
          RegisterFile.create) flags 0xffff)
    0 (ModRMDecoder.create 0 false false) 0 false false DS REPE false false false 0 false.

Lemma wf_set_regs l rf : RegisterFile.wf rf -> RegisterFile.wf (set_regs l rf).
Proof.
  revert rf. induction l as [|[r v] l IH]; intros rf H; [done|].
  apply IH. by apply RegisterFile.wf_set.
Qed.

Lemma wf_store_bytes a l m :
  0 <= a -> a + Z.of_nat (length l) <= Memory.MEMORY_SIZE -> Forall (in_range uint8_t) l ->
  Memory.wf m -> Memory.wf (store_bytes a l m).
Proof.
  intros Ha. unfold store_bytes. change (seqZ 0) with (seqZ (0 + 0)).
  assert (forall k, 0 <= k -> a + k + Z.of_nat (length l) <= Memory.MEMORY_SIZE ->
    Forall (in_range uint8_t) l -> Memory.wf m ->
    Memory.wf (foldl (fun m '(i, b) => Memory.set_byte m (a + i) b) m
      (zip (seqZ k (Z.of_nat (length l))) l))) as H.
  { revert m. induction l as [|b l IH]; intros m k Hk Hl Hb Hm; [done|].
    rewrite seqZ_cons by (cbn; lia). cbn [zip zip_with foldl].
    inversion_clear Hb. replace (Z.pred (Z.of_nat (length (b :: l)))) with (Z.of_nat (length l))
      by (cbn; lia).
    apply IH; [lia|cbn in *; lia|done|].
    apply Memory.wf_set_byte; [done|cbn in *; lia|]. by rewrite <- in_u8. }
  intros. apply H; [lia..|done|done].
Qed.

Lemma wf_bench code data bytes regs flags :
  Z.of_nat (length code) <= 0x10000 -> Forall (in_range uint8_t) code ->
  0 <= data -> data + Z.of_nat (length bytes) <= Memory.MEMORY_SIZE ->
  Forall (in_range uint8_t) bytes ->
  wf (bench code data bytes regs flags).
Proof.
  intros. split; try done; cbn [mem registers bench].
  - apply wf_store_bytes; try done. apply wf_store_bytes; try done.
    unfold Memory.MEMORY_SIZE. lia.
  - apply RegisterFile.wf_set_flags, wf_set_regs, RegisterFile.registers_wf_create.
Qed.

(** Discharge [wf] of a concrete machine. *)
Ltac wf_bench :=
  apply wf_bench; [by vm_compute|repeat constructor; by vm_compute|by vm_compute|by vm_compute|
                   repeat constructor; by vm_compute].

(** The step returns on a concrete machine. *)
Definition returns {S A} (o : outcome S A) : bool :=
  match o with Ok _ _ => true | Err _ => false end.
