(* ===== verification/RTLBench.v ===== *)
(** * A circuit to evaluate the driver on

    The smallest circuit that keeps the contract of [DebugUnit]: it has registers
    and the debug procedures, each of two cycles, and it reads memory all the time. *)
From S2P Require Import Prelude Config MainMemory Registers ErrorState IOPorts SimCPU SimCPUProps.
From S2P Require Import VerilogDriver RTLCPU DriverProps RTLProps Bench.

Record circuit := mk_circuit { seen_clk : Z; unit_of : debug_unit }.

Definition narrow (u : debug_unit) : debug_unit := mk_unit (doing u) (file u) (u16 (temp u)).

Definition circuit_step (c : controls) (u : debug_unit) : debug_unit :=
  match doing u with
  | Waiting =>
      if run c then
        match reg_procedure (addr c) with
        | Some p => mk_unit (Running p 1) (file u) (temp u)
        | None => mk_unit Elsewhere (file u) (temp u)
        end
      else mk_unit Waiting (file u) (if wr_en c then wr_val c else temp u)
  | Running p (S n) => mk_unit (Running p n) (file u) (temp u)
  | Running p O => run_procedure p (file u) (temp u)
  | Elsewhere => u
  end.

Definition is_waiting (a : activity) : bool := match a with Waiting => true | _ => false end.

Definition circuit_eval (p : pins) (w : circuit) : circuit :=
  let u := narrow (unit_of w) in
  mk_circuit (p clk) (if (seen_clk w =? 0) && negb (p clk =? 0) then circuit_step (controls_of p) u else u).

Definition circuit_out (w : circuit) (o : output) : Z :=
  match o with
  | debug_stopped => if is_waiting (doing (unit_of w)) then 1 else 0
  | debug_val => temp (unit_of w)
  | q_m_access => 1
  | q_m_addr => 5
  | _ => 0
  end.

(** With the registers [rf] when it is switched on. *)
Definition circuit_rtl (rf : RegisterFile.t) : RTLModel := {|
  wires := circuit;
  power_on := (fun _ => 0, mk_circuit 0 (mk_unit Waiting rf 0));
  rtl_eval := circuit_eval;
  rtl_out := circuit_out;
  get_ext_int_yield _ := false;
  get_microcode_address w := if is_waiting (doing (unit_of w)) then 0x102 else 0x103;
  get_and_clear_length w := (0, w);
|}.

Section circuit.
Context (rf0 : RegisterFile.t).
Lemma narrow_narrow u : narrow (narrow u) = narrow u.
Proof. unfold narrow; cbn. by rewrite cast_idemp. Qed.

Lemma narrow_step n c u u' :
  in_range uint16_t (wr_val c) -> clocked n c (narrow u) u' -> narrow (circuit_step c (narrow u)) = circuit_step c (narrow u).
Proof.
  intros Hv Hu. unfold narrow at 1. remember (narrow u) as w eqn:Ew.
  assert (Ht : u16 (temp w) = temp w) by (subst w; cbn; by rewrite cast_idemp). clear Ew.
  destruct Hu as [| |? ? ? ? ? ? Hp| |? ? ? ? p]; cbn in Ht, Hv |- *; rewrite ?Hp; cbn; try congruence.
  - by rewrite (cast_id uint16_t v) by done.
  - destruct p; cbn; try congruence.
    + destruct r; cbn; by rewrite cast_idemp.
    + by rewrite (cast_id uint16_t (RegisterFile.get_flags rf)) by apply RegisterFile.get_flags_range.
Qed.

Lemma circuit_step_clocked c u u' : clocked 1 c u u' -> clocked 1 c u (circuit_step c u).
Proof.
  intros [| |? ? ? ? ? ? Hp| |]; cbn; try rewrite Hp; constructor; done || lia.
Qed.

Lemma wr_val_controls p : undisturbed p -> in_range uint16_t (wr_val (controls_of p)).
Proof. by intros (_ & _ & _ & _ & _ & H). Qed.

#[export] Instance circuit_unit : DebugUnit (RTL := circuit_rtl rf0).
Proof.
  refine {| RTLProps.sampled_clk := (seen_clk : wires (RTLModel := circuit_rtl rf0) -> Z);
    RTLProps.debug_state := (fun w => narrow (unit_of w)); RTLProps.longest := 1%nat |}.
  - done.
  - done.
  - intros p w _ _ Hclk. cbn in *. unfold circuit_eval; cbn.
    destruct (Z.eqb_spec (seen_clk w) 0), (Z.eqb_spec (p clk) 0); cbn; try apply narrow_narrow. by destruct Hclk.
  - intros p w Hp Hs Hclk [u Hu]. cbn in *. unfold circuit_eval; cbn.
    rewrite (proj2 (Z.eqb_eq _ _)), (proj2 (Z.eqb_neq _ _)) by done. cbn [andb negb].
    rewrite (narrow_step 1 _ _ u); [|by apply wr_val_controls|done]. by eapply circuit_step_clocked.
  - intros w _. cbn. by destruct (doing (unit_of w)).
  - done.
  - intros w _. cbn. split_and!; done || lia.
Defined.

(** The object that the constructor makes on it. *)
Definition circuit_cpu : rtlcpu (RTL := circuit_rtl rf0) (D := unit) :=
  match RTLCPU_create (RTL := circuit_rtl rf0) 8 false 0 false () with
  | Ok _ s => s
  | Err _ => RTLCPU_members false 0 false ()
  end.

Lemma circuit_cpu_created : RTLCPU_create (RTL := circuit_rtl rf0) 8 false 0 false () = Ok () circuit_cpu.
Proof.
  unfold circuit_cpu. destruct (RTLCPU_create _ _ _ _ _) as [[] s|e] eqn:E; [done|].
  assert (H : value_of (RTLCPU_create (RTL := circuit_rtl rf0) 8 false 0 false ()) = Some ()) by by vm_compute.
  by rewrite E in H.
Qed.

Lemma due_none k : 0 <= k < 64 -> due (drv circuit_cpu) k = [].
Proof.
  intros Hk. unfold due.
  assert (E : deferred_events (drv circuit_cpu) = replicate 64 []) by by vm_compute. rewrite E. clear E.
  rewrite list_lookup_total_alt. destruct (replicate 64 [] !! _) eqn:E; [|done]. by apply lookup_replicate in E as [-> _].
Qed.

Lemma circuit_cpu_rests : rests (Memory.create false) () rf0 3 circuit_cpu.
Proof.
  exists 0, 0, 0. split.
  - split; [|split]; by vm_compute.
  - by vm_compute.
  - by vm_compute.
  - by vm_compute.
  - intros k Hk. rewrite due_none by done. cbn [ready v_today v_tomorrow]. repeat case_decide; apply agenda_nil.
  - split_and!; by vm_compute.
  - by vm_compute.
  - by vm_compute.
  - by vm_compute.
  - by vm_compute.
  - by vm_compute.
  - by vm_compute.
  - by vm_compute.
  - by vm_compute.
  - by vm_compute.
  - by destruct (devs circuit_cpu).
Qed.
End circuit.
