(* ===== verification/DecoderProps.v ===== *)
(** * The decoder implements the ModR/M table *)
From S2P Require Import Prelude Config MainMemory Registers ErrorState IOPorts Machine ModRM Core.
From S2P Require Import Safety Decoder CoreSafe Bench.

#[export] Instance GPR_inhabited : Inhabited GPR := populate AX.

(** The register a 3-bit field names, by the operand width. *)
Definition register_names (w : OperandWidth) : list GPR :=
  match w with
  | OP_WIDTH_8 => [AL; CL; DL; BL; AH; CH; DH; BH]
  | OP_WIDTH_16 => [AX; CX; DX; BX; SP; BP; SI; DI]
  end.
Definition register_name (w : OperandWidth) (n : Z) : GPR := register_names w !!! Z.to_nat n.

Section decoder.
Context {CFG : Config} {D : Type} {IOP : IOPorts D}.
Implicit Types m : machine D.

Lemma cast_GPR_register w n m :
  0 <= n < 8 ->
  (if decide (w = OP_WIDTH_8) then cast_GPR (GPR_to_int AL + n)
   else cast_GPR (GPR_to_int AX + n)) m = Ok (register_name w n) m.
Proof. intros Hn. by enum_below n 8%nat; destruct w. Qed.

Lemma raw_reg_eq m :
  mrm_is_decoded (modrm_decoder m) = true ->
  raw_reg m = Ok (field_reg (mrm_modrm (modrm_decoder m))) m.
Proof.
  intros Hd. unfold raw_reg, ModRMDecoder.raw_reg. run. rewrite assert_ok by done. run.
  by rewrite field_reg_land.
Qed.

Lemma reg_eq m :
  mrm_is_decoded (modrm_decoder m) = true ->
  reg m = Ok (register_name (mrm_width (modrm_decoder m))
                (field_reg (mrm_modrm (modrm_decoder m)))) m.
Proof.
  intros Hd. unfold reg, ModRMDecoder.reg. run. rewrite assert_ok by done. run.
  rewrite raw_reg_eq by done. run. apply cast_GPR_register, field_reg_range.
Qed.

Lemma rm_reg_name m :
  mrm_is_decoded (modrm_decoder m) = true -> is_mem_operand (modrm_decoder m) = false ->
  rm_reg m = Ok (register_name (mrm_width (modrm_decoder m))
                   (field_rm (mrm_modrm (modrm_decoder m)))) m.
Proof.
  intros Hd Ho. unfold rm_reg, ModRMDecoder.rm_reg. run. rewrite assert_ok by done. run.
  rewrite rm_type_eq, Ho by done. run. rewrite assert_ok by done. run.
  rewrite Z.shiftr_0_r, field_rm_land. apply cast_GPR_register, field_rm_range.
Qed.

(** C5. [decode] reads the ModR/M byte and its displacement, as many bytes as
    the addressing table says; then the [reg] field and a register operand
    name the registers of the table for the current width, and a memory
    operand has the table's effective address, modulo 64 KiB, and the segment
    override if there is one, else SS when BP is a base and DS when not.
    Registers and memory are untouched. *)
Theorem decode_table m :
  wf m ->
  let n := instr_length m in
  let b := code_byte m n in
  let w := mrm_width (modrm_decoder m) in
  exists m',
    decode m = Ok tt m' /\
    instr_length m' = u64 (n + 1 + disp_size b) /\
    registers m' = registers m /\ mem m' = mem m /\
    reg m' = Ok (register_name w (field_reg b)) m' /\
    (if field_mod b =? 3 then
       rm_type m' = Ok OP_REG m' /\ rm_reg m' = Ok (register_name w (field_rm b)) m'
     else
       rm_type m' = Ok OP_MEM m' /\
       effective_address m' =
         Ok (effective_address_spec (registers m) b (code_byte m (n + 1)) (code_byte m (n + 2))) m' /\
       get_segment false m' =
         Ok (if default_segment_overriden m then override_segment m else default_segment b) m').
Proof.
  intros Hm n b w. exists (decode_spec m).
  pose proof (code_byte_range m n Hm) as Hb. fold b in Hb.
  pose proof (wf_decode_spec m Hm) as Hm'.
  assert (Hd : mrm_is_decoded (modrm_decoder (decode_spec m)) = true).
  { unfold decode_spec, decoded_as. by destruct (_ =? 3). }
  assert (Hmod : mrm_modrm (modrm_decoder (decode_spec m)) = b).
  { unfold decode_spec, decoded_as. by destruct (_ =? 3). }
  assert (Hw : mrm_width (modrm_decoder (decode_spec m)) = w).
  { unfold decode_spec, decoded_as. by destruct (_ =? 3). }
  assert (Ho : is_mem_operand (modrm_decoder (decode_spec m)) = negb (field_mod b =? 3)).
  { rewrite is_mem_operand_eq by (by rewrite Hmod). by rewrite Hmod. }
  split; [by apply decode_eq|]. do 3 (split; [done|]).
  split; [rewrite reg_eq by done; by rewrite Hmod, Hw|].
  rewrite rm_type_eq by done. rewrite Ho. destruct (field_mod b =? 3) eqn:E; cbn [negb].
  - split; [done|]. rewrite rm_reg_name by done. by rewrite Hmod, Hw.
  - split; [done|]. split.
    + rewrite effective_address_cached; [|done|]; unfold decode_spec, decoded_as;
        fold n b; by rewrite E.
    + rewrite get_segment_eq by (done || by rewrite Ho). by rewrite Hmod.
Qed.
End decoder.

(** [mov 0x12(%bp,%si),%dx] after its opcode byte. *)
Lemma decode_table_witness :
  let m := bench [0x52; 0x12] 0 [] [(BP, 0x8000); (SI, 0x7fff)] 0 in
  let b := code_byte m 0 in
  exists m',
    decode m = Ok tt m' /\
    instr_length m' = u64 (0 + 1 + disp_size b) /\
    registers m' = registers m /\ mem m' = mem m /\
    reg m' = Ok (register_name OP_WIDTH_16 (field_reg b)) m' /\
    (if field_mod b =? 3 then
       rm_type m' = Ok OP_REG m' /\ rm_reg m' = Ok (register_name OP_WIDTH_16 (field_rm b)) m'
     else
       rm_type m' = Ok OP_MEM m' /\
       effective_address m' =
         Ok (effective_address_spec (registers m) b (code_byte m (0 + 1)) (code_byte m (0 + 2))) m' /\
       get_segment false m' =
         Ok (if default_segment_overriden m then override_segment m else default_segment b) m').
Proof. intros m b. apply (decode_table m). wf_bench. Defined.
