(* ===== verification/Alu.v ===== *)
(** * The arithmetic unit: [do_alu] and the operations built on it
    ([sim/cppmodel/Emulate.cpp]), against the arithmetic they stand for. *)
From S2P Require Import Prelude Config MainMemory Registers ErrorState IOPorts Machine ModRM Core.

(** [__builtin_parity] of an [unsigned int]: the number of ones, modulo 2. *)
Fixpoint parity_pos (p : positive) : bool :=
  match p with
  | xH => true
  | xO p => parity_pos p
  | xI p => negb (parity_pos p)
  end.

Definition builtin_parity (x : Z) : bool :=
  match u32 x with Zpos p => parity_pos p | _ => false end.

Section alu.
Context {CFG : Config}.

(** [1 << n] for an [int]; from 32 on C++ gives it no meaning. *)
Definition int_shl1 (n : Z) : Z := if n <? 32 then s32 (1 .<< n) else undefined_shift n.

(** [flags |= f] under a condition. *)
Definition or_flag (b : bool) (f flags : Z) : Z := if b then u16 (flags .| f) else flags.

(** The body of [do_alu<T>], after the read of the flags. *)
Definition alu_compute (T : ctype) (alu_op : Z -> Z -> Z -> Z)
    (flags v1 v2 carry : Z) : Z * Z :=
  let flags := u16 (flags .& ~. (AF .| CF .| OF .| PF .| SF .| ZF)) in
  let result32 := u32 (alu_op (u32 v1) (u32 v2) (u32 carry)) in
  let af := nz (u32 (alu_op (u32 (v1 .& 0xf)) (u32 (v2 .& 0xf)) (u32 carry)) .& int_shl1 4) in
  let sign_bit := 8 * sizeof T - 1 in
  let carry_bit := 8 * sizeof T in
  let flags := or_flag af AF flags in
  let flags := or_flag (nz (result32 .& u32 (int_shl1 carry_bit))) CF flags in
  let flags := or_flag (nz (result32 .& u32 (int_shl1 sign_bit))) SF flags in
  let flags := or_flag (result32 .& u32 (cast T (-1)) =? 0) ZF flags in
  let flags := or_flag (negb (builtin_parity (result32 .& u8 (-1)))) PF flags in
  let carry_in :=
    nz (u32 (alu_op (u32 v1 .& u32 (~. (int_shl1 sign_bit)))
                    (u32 v2 .& u32 (~. (int_shl1 sign_bit))) (u32 carry))
        .& u32 (int_shl1 sign_bit)) in
  let flags := or_flag (xorb carry_in (nz (flags .& CF))) OF flags in
  (flags, cast T result32).

Definition op_add (a b c : Z) : Z := u32 (a + b + c).
Definition op_sub (a b c : Z) : Z := u32 (a - b - c).
Definition op_mul (a b c : Z) : Z := u32 (a * b).
Definition op_xor (a b c : Z) : Z := a .^ b.
Definition op_or (a b c : Z) : Z := a .| b.
Definition op_and (a b c : Z) : Z := a .& b.

Context {D : Type} {IOP : IOPorts D}.

(** [do_alu<T>]: the new flags and the result. *)
Definition do_alu (T : ctype) (v1 v2 carry : Z) (alu_op : Z -> Z -> Z -> Z) : emu D (Z * Z) :=
  flags ← registers_get_flags ;
  mret (alu_compute T alu_op flags (s32 v1) (s32 v2) (s32 carry)).

Definition do_add (T : ctype) (v1 v2 carry_in : Z) : emu D (Z * Z) :=
  do_alu T (u16 v1) (u16 v2) (u16 carry_in) op_add.
Definition do_sub (T : ctype) (v1 v2 carry_in : Z) : emu D (Z * Z) :=
  do_alu T (u16 v1) (u16 v2) (u16 carry_in) op_sub.
Definition do_xor (T : ctype) (v1 v2 : Z) : emu D (Z * Z) :=
  do_alu T (u16 v1) (u16 v2) 0 op_xor.
Definition do_or (T : ctype) (v1 v2 : Z) : emu D (Z * Z) :=
  do_alu T (u16 v1) (u16 v2) 0 op_or.
Definition do_and (T : ctype) (v1 v2 : Z) : emu D (Z * Z) :=
  do_alu T (u16 v1) (u16 v2) 0 op_and.
Definition do_mul (T : ctype) (v1 v2 : Z) : emu D (Z * Z) :=
  do_alu T (s32 v1) (s32 v2) 0 op_mul.

End alu.
