(* ===== verification/AluProps.v ===== *)
(** * The arithmetic unit computes what the processor's manual says

    The results and the six status flags of [do_add], [do_sub] and the logic
    operations, against integer arithmetic. *)
From S2P Require Import Prelude Config MainMemory Registers ErrorState IOPorts Machine ModRM Core.
From S2P Require Import Safety Decoder Bench Alu.

(** ** Bits *)

Lemma testbit_div x i : 0 <= i -> Z.testbit x i = (x / 2 ^ i mod 2 =? 1).
Proof. intros Hi. rewrite Z.testbit_eqb by done. done. Qed.

(** The number of ones in the low byte is even. *)
Definition even_ones (x : Z) : bool :=
  Z.even (foldr (fun i n => Z.b2z (Z.testbit x i) + n) 0 (seqZ 0 8)).

Lemma even_ones_mod x : even_ones (x mod 256) = even_ones x.
Proof.
  unfold even_ones. change (seqZ 0 8) with [0; 1; 2; 3; 4; 5; 6; 7]. cbn [foldr].
  change 256 with (2 ^ 8). by rewrite !Z.mod_pow2_bits_low by lia.
Qed.

Lemma parity_even_ones x : negb (builtin_parity (x .& u8 (-1))) = even_ones x.
Proof.
  rewrite (land_mask 8) by done. rewrite <- even_ones_mod. change (2 ^ 8) with 256.
  assert (Hx : 0 <= x mod 256 < 256) by by apply Z.mod_pos_bound.
  apply eqb_prop, (forall_below_spec 256
    (fun x => eqb (negb (builtin_parity x)) (even_ones x))); [by vm_compute|done].
Qed.

(** Clearing the top bit. *)
Lemma land_clear_top s x :
  0 <= s < 31 -> 0 <= x < 2 ^ (s + 1) -> x .& u32 (~. (2 ^ s)) = x mod 2 ^ s.
Proof.
  intros Hs Hx. apply Z.bits_inj'. intros i Hi.
  rewrite Z.land_spec, cast_u_testbit, Z.lnot_spec, Z.pow2_bits_eqb by (done || lia).
  change (width uint32_t) with 32.
  destruct (Z.lt_ge_cases i s).
  - rewrite Z.mod_pow2_bits_low by lia. zcmp. zbits.
  - rewrite Z.mod_pow2_bits_high by lia.
    destruct (Z.eq_dec i s) as [->|]; [rewrite Z.eqb_refl; zbits; by rewrite !andb_false_r|].
    by rewrite (testbit_high (s + 1) x) by lia.
Qed.

(** ** Flags *)

Lemma or_flag_range b f x :
  in_range uint16_t x -> in_range uint16_t (or_flag b f x).
Proof. intros Hx. unfold or_flag. destruct b; auto with cpp. Qed.

Lemma or_flag_testbit b f i x j :
  f = 2 ^ i -> 0 <= i < 16 -> in_range uint16_t x -> 0 <= j ->
  Z.testbit (or_flag b f x) j = Z.testbit x j || (b && (j =? i)).
Proof.
  intros -> Hi Hx Hj. unfold or_flag. destruct b; cbn [andb]; [|by rewrite orb_false_r].
  rewrite cast_u_testbit, Z.lor_spec, Z.pow2_bits_eqb by (done || lia).
  change (width uint16_t) with 16. rewrite (Z.eqb_sym i).
  destruct (Z.ltb_spec j 16); [done|]. rewrite (testbit_high 16 x) by (cpp_unfold; lia).
  zcmp. done.
Qed.

(** The status flags replaced in [old]. *)
Definition status_mask : Z := AF .| CF .| OF .| PF .| SF .| ZF.
Definition status_flags (old : Z) (af cf sf zf pf of_ : bool) : Z :=
  or_flag of_ OF (or_flag pf PF (or_flag zf ZF (or_flag sf SF (or_flag cf CF
    (or_flag af AF (u16 (old .& ~. status_mask))))))).

Lemma status_flags_range old af cf sf zf pf of_ :
  in_range uint16_t (status_flags old af cf sf zf pf of_).
Proof. unfold status_flags. do 6 apply or_flag_range. auto with cpp. Qed.

Lemma status_flags_testbit old af cf sf zf pf of_ j :
  0 <= j ->
  Z.testbit (status_flags old af cf sf zf pf of_) j =
    (j <? 16) && Z.testbit old j && negb (Z.testbit status_mask j) ||
    (af && (j =? 4)) || (cf && (j =? 0)) || (sf && (j =? 7)) || (zf && (j =? 6)) ||
    (pf && (j =? 2)) || (of_ && (j =? 11)).
Proof.
  intros Hj. unfold status_flags.
  rewrite (or_flag_testbit of_ OF 11), (or_flag_testbit pf PF 2), (or_flag_testbit zf ZF 6),
    (or_flag_testbit sf SF 7), (or_flag_testbit cf CF 0), (or_flag_testbit af AF 4)
    by (done || auto 10 using or_flag_range with cpp).
  rewrite cast_u_testbit, Z.land_spec, Z.lnot_spec by done. change (width uint16_t) with 16.
  by rewrite !andb_assoc.
Qed.

(** Which flag is which. *)
Lemma status_flags_spec old af cf sf zf pf of_ :
  let f := status_flags old af cf sf zf pf of_ in
  nz (f .& AF) = af /\ nz (f .& CF) = cf /\ nz (f .& SF) = sf /\ nz (f .& ZF) = zf /\
  nz (f .& PF) = pf /\ nz (f .& OF) = of_ /\
  (forall i, 0 <= i < 16 -> Z.testbit status_mask i = false -> Z.testbit f i = Z.testbit old i).
Proof.
  cbv zeta. rewrite (nz_land_bit _ AF 4), (nz_land_bit _ CF 0), (nz_land_bit _ SF 7),
    (nz_land_bit _ ZF 6), (nz_land_bit _ PF 2), (nz_land_bit _ OF 11) by done.
  rewrite !status_flags_testbit by done. repeat split.
  1-6: cbn; rewrite ?andb_false_r, ?andb_true_r, ?orb_false_r; done.
  intros i Hi Hm. rewrite status_flags_testbit, Hm by lia. zcmp; subst; try discriminate.
  cbn. by rewrite !andb_false_r, andb_true_r, !orb_false_r.
Qed.

Section compute.
Context {CFG : Config}.

(** The two widths of the instruction set. *)
Definition alu_width (T : ctype) : Prop := T = uint8_t \/ T = uint16_t.

(** [alu_compute] in closed form. *)
Lemma alu_compute_eq T op fl v1 v2 c :
  alu_width T ->
  let w := width T in
  let r := u32 (op (u32 v1) (u32 v2) (u32 c)) in
  let low := u32 (op (u32 (v1 .& 0xf)) (u32 (v2 .& 0xf)) (u32 c)) in
  let body := u32 (op (u32 v1 .& u32 (~. (2 ^ (w - 1)))) (u32 v2 .& u32 (~. (2 ^ (w - 1)))) (u32 c)) in
  alu_compute T op fl v1 v2 c =
    (status_flags fl (Z.testbit low 4) (Z.testbit r w) (Z.testbit r (w - 1)) (cast T r =? 0)
       (even_ones r) (xorb (Z.testbit body (w - 1)) (Z.testbit r w)),
     cast T r).
Proof.
  intros HT w r low body. unfold alu_compute.
  assert (Hmask : forall x, 0 <= x < 2 ^ 32 -> x .& u32 (cast T (-1)) = cast T x).
  { intros x Hx. rewrite (land_mask (width T)); [by destruct HT as [->| ->]|by destruct HT as [->| ->]|].
    by destruct HT as [->| ->]. }
  replace (8 * sizeof T - 1) with (w - 1) by done. replace (8 * sizeof T) with w by done.
  assert (Hw : int_shl1 w = 2 ^ w /\ int_shl1 (w - 1) = 2 ^ (w - 1) /\
               u32 (2 ^ w) = 2 ^ w /\ u32 (2 ^ (w - 1)) = 2 ^ (w - 1) /\ 0 <= w - 1)
    by (unfold w; by destruct HT as [->| ->]).
  destruct Hw as (-> & -> & Hw1 & Hw2 & Hw3). rewrite Hw1, Hw2. fold r low body.
  assert (0 <= w) by lia. clearbody w.
  rewrite (nz_land_bit low (int_shl1 4) 4), (nz_land_bit r (2 ^ w) w),
    (nz_land_bit r (2 ^ (w - 1)) (w - 1)), (nz_land_bit body (2 ^ (w - 1)) (w - 1)) by done.
  rewrite Hmask, parity_even_ones by (apply (cast_in_range uint32_t)).
  f_equal. unfold status_flags. f_equal. f_equal.
  match goal with |- nz (?f .& CF) = _ =>
    change f with (status_flags fl (Z.testbit low 4) (Z.testbit r w) (Z.testbit r (w - 1))
      (cast T r =? 0) (even_ones r) false) end.
  apply status_flags_spec.
Qed.
End compute.

(** ** Addition and subtraction *)

(** Reduce the powers of two at the two widths. *)
Ltac pow_consts :=
  change (2 ^ (8 - 1)) with 128 in *; change (2 ^ (16 - 1)) with 32768 in *;
  change (2 ^ 8) with 256 in *; change (2 ^ 16) with 65536 in *; change (2 ^ 4) with 16 in *.

(** The signed value of a [w]-bit pattern. *)
Definition signed (w x : Z) : Z := if 2 ^ (w - 1) <=? x then x - 2 ^ w else x.

Section arith.
Context {CFG : Config} {D : Type} {IOP : IOPorts D}.
Implicit Types m : machine D.

Lemma alu_operand T x : alu_width T -> in_range T x -> u32 (s32 (u16 x)) = x.
Proof. intros [->| ->] Hx; cpp_lia. Qed.

Lemma alu_operand_low T x : alu_width T -> in_range T x -> u32 (s32 (u16 x) .& 0xf) = x mod 16.
Proof. intros HT Hx. rewrite (land_mask 4) by done. destruct HT as [->| ->]; cpp_lia. Qed.

Lemma alu_operand_body T x :
  alu_width T -> in_range T x ->
  x .& u32 (~. (2 ^ (width T - 1))) = x mod 2 ^ (width T - 1).
Proof.
  intros [->| ->] Hx; [apply (land_clear_top 7)|apply (land_clear_top 15)];
    (lia || by cpp_unfold).
Qed.

Lemma alu_carry c : 0 <= c <= 1 -> u32 (s32 (u16 c)) = c.
Proof. cpp_lia. Qed.

Lemma do_alu_eq T v1 v2 c op m :
  do_alu T v1 v2 c op m =
    Ok (alu_compute T op (RegisterFile.get_flags (registers m)) (s32 v1) (s32 v2) (s32 c)) m.
Proof. done. Qed.

(** The bits of the sum that the flags test. *)
Lemma sum_bits w a b c :
  w = 8 \/ w = 16 -> 0 <= a < 2 ^ w -> 0 <= b < 2 ^ w -> 0 <= c <= 1 ->
  Z.testbit (u32 (op_add a b c)) w = (2 ^ w <=? a + b + c) /\
  Z.testbit (u32 (op_add a b c)) (w - 1) = (2 ^ (w - 1) <=? (a + b + c) mod 2 ^ w) /\
  Z.testbit (u32 (op_add (a mod 16) (b mod 16) c)) 4 = (16 <=? a mod 16 + b mod 16 + c) /\
  xorb (Z.testbit (u32 (op_add (a mod 2 ^ (w - 1)) (b mod 2 ^ (w - 1)) c)) (w - 1))
       (2 ^ w <=? a + b + c) =
    ((signed w a + signed w b + c <? - 2 ^ (w - 1)) ||
     (2 ^ (w - 1) <=? signed w a + signed w b + c)).
Proof.
  intros Hw Ha Hb Hc. rewrite !testbit_div by lia. unfold op_add, signed.
  destruct (Z.leb_spec (2 ^ (w - 1)) a), (Z.leb_spec (2 ^ (w - 1)) b);
  destruct Hw as [->| ->]; pow_consts; rewrite ?u32_mod;
    rewrite !(Z.mod_small _ 4294967296) by zlia; repeat split; zdecide.
Qed.

Lemma difference_bits w a b c :
  w = 8 \/ w = 16 -> 0 <= a < 2 ^ w -> 0 <= b < 2 ^ w -> 0 <= c <= 1 ->
  Z.testbit (u32 (op_sub a b c)) w = (a <? b + c) /\
  Z.testbit (u32 (op_sub a b c)) (w - 1) = (2 ^ (w - 1) <=? (a - b - c) mod 2 ^ w) /\
  Z.testbit (u32 (op_sub (a mod 16) (b mod 16) c)) 4 = (a mod 16 <? b mod 16 + c) /\
  xorb (Z.testbit (u32 (op_sub (a mod 2 ^ (w - 1)) (b mod 2 ^ (w - 1)) c)) (w - 1))
       (a <? b + c) =
    ((signed w a - signed w b - c <? - 2 ^ (w - 1)) ||
     (2 ^ (w - 1) <=? signed w a - signed w b - c)).
Proof.
  intros Hw Ha Hb Hc. rewrite !testbit_div by lia. unfold op_sub, signed.
  destruct (Z.leb_spec (2 ^ (w - 1)) a), (Z.leb_spec (2 ^ (w - 1)) b);
  destruct Hw as [->| ->]; pow_consts; rewrite ?u32_mod;
    rewrite !(Z.mod_small (_ mod _) 4294967296) by (by apply Z.mod_pos_bound);
    repeat split; zdecide.
Qed.

(** What a caller sees of the flags. *)
Definition flags_are (f old : Z) (af cf sf zf pf of_ : bool) : Prop :=
  nz (f .& CF) = cf /\ nz (f .& OF) = of_ /\ nz (f .& AF) = af /\ nz (f .& SF) = sf /\
  nz (f .& ZF) = zf /\ nz (f .& PF) = pf /\
  forall i, 0 <= i < 16 -> Z.testbit status_mask i = false -> Z.testbit f i = Z.testbit old i.

Lemma status_flags_are old af cf sf zf pf of_ :
  flags_are (status_flags old af cf sf zf pf of_) old af cf sf zf pf of_.
Proof.
  destruct (status_flags_spec old af cf sf zf pf of_) as (?&?&?&?&?&?&?). by repeat split.
Qed.

Lemma alu_width_cases T : alu_width T -> width T = 8 \/ width T = 16.
Proof. intros [->| ->]; [by left|by right]. Qed.

Lemma alu_range T x : alu_width T -> in_range T x -> 0 <= x < 2 ^ width T.
Proof. intros [->| ->]; done. Qed.

Lemma cast_alu T x : alu_width T -> cast T x = x mod 2 ^ width T.
Proof. intros [->| ->]; done. Qed.

Lemma cast_alu_u32 T x : alu_width T -> cast T (u32 (u32 x)) = x mod 2 ^ width T.
Proof.
  intros [->| ->]; [rewrite u8_mod|rewrite u16_mod]; rewrite !u32_mod;
    [change (2 ^ width uint8_t) with 256|change (2 ^ width uint16_t) with 65536]; zlia.
Qed.

Lemma even_ones_alu T x : alu_width T -> even_ones (u32 (u32 x)) = even_ones (x mod 2 ^ width T).
Proof.
  intros HT. rewrite <- even_ones_mod, <- (even_ones_mod (x mod _)). f_equal.
  rewrite !u32_mod. destruct HT as [->| ->];
    [change (2 ^ width uint8_t) with 256|change (2 ^ width uint16_t) with 65536]; zlia.
Qed.

(** The flags of a sum and of a difference. *)
Definition add_flags (w old a b c : Z) : Z :=
  let sum := (a + b + c) mod 2 ^ w in
  status_flags old (16 <=? a mod 16 + b mod 16 + c) (2 ^ w <=? a + b + c) (2 ^ (w - 1) <=? sum)
    (sum =? 0) (even_ones sum)
    ((signed w a + signed w b + c <? - 2 ^ (w - 1)) ||
     (2 ^ (w - 1) <=? signed w a + signed w b + c)).

Definition sub_flags (w old a b c : Z) : Z :=
  let diff := (a - b - c) mod 2 ^ w in
  status_flags old (a mod 16 <? b mod 16 + c) (a <? b + c) (2 ^ (w - 1) <=? diff)
    (diff =? 0) (even_ones diff)
    ((signed w a - signed w b - c <? - 2 ^ (w - 1)) ||
     (2 ^ (w - 1) <=? signed w a - signed w b - c)).

Lemma do_add_eq T a b c m :
  alu_width T -> in_range T a -> in_range T b -> 0 <= c <= 1 ->
  do_add T a b c m =
    Ok (add_flags (width T) (RegisterFile.get_flags (registers m)) a b c,
        (a + b + c) mod 2 ^ width T) m.
Proof.
  intros HT Ha Hb Hc. assert (in_range T c) by (destruct HT as [->| ->]; cpp_lia).
  destruct (sum_bits (width T) a b c) as (E1 & E2 & E3 & E4);
    [by apply alu_width_cases|by apply alu_range..|lia|].
  unfold do_add. rewrite do_alu_eq, alu_compute_eq by done.
  rewrite !(alu_operand T), !(alu_operand_low T), !(alu_operand_body T) by done.
  rewrite E1, E2, E3, E4. unfold op_add.
  by rewrite cast_alu_u32, (even_ones_alu T) by done.
Qed.

Lemma do_sub_eq T a b c m :
  alu_width T -> in_range T a -> in_range T b -> 0 <= c <= 1 ->
  do_sub T a b c m =
    Ok (sub_flags (width T) (RegisterFile.get_flags (registers m)) a b c,
        (a - b - c) mod 2 ^ width T) m.
Proof.
  intros HT Ha Hb Hc. assert (in_range T c) by (destruct HT as [->| ->]; cpp_lia).
  destruct (difference_bits (width T) a b c) as (E1 & E2 & E3 & E4);
    [by apply alu_width_cases|by apply alu_range..|lia|].
  unfold do_sub. rewrite do_alu_eq, alu_compute_eq by done.
  rewrite !(alu_operand T), !(alu_operand_low T), !(alu_operand_body T) by done.
  rewrite E1, E2, E3, E4. unfold op_sub.
  by rewrite cast_alu_u32, (even_ones_alu T) by done.
Qed.

(** Addition with carry, at 8 and at 16 bits: [do_add] returns the sum
    modulo the width, and flags in which CF is the unsigned carry, OF the
    signed overflow, AF the carry out of bit 3, SF the sign, ZF zero and PF
    the parity of the low byte; every other flag is as it was. *)
Lemma do_add_correct T a b c m :
  alu_width T -> in_range T a -> in_range T b -> 0 <= c <= 1 ->
  let w := width T in
  let old := RegisterFile.get_flags (registers m) in
  let sum := (a + b + c) mod 2 ^ w in
  exists f,
    do_add T a b c m = Ok (f, sum) m /\
    flags_are f old
      (16 <=? a mod 16 + b mod 16 + c) (2 ^ w <=? a + b + c) (2 ^ (w - 1) <=? sum)
      (sum =? 0) (even_ones sum)
      ((signed w a + signed w b + c <? - 2 ^ (w - 1)) ||
       (2 ^ (w - 1) <=? signed w a + signed w b + c)).
Proof.
  intros. eexists. split; [by apply do_add_eq|]. apply status_flags_are.
Qed.

(** Subtraction with borrow, at 8 and at 16 bits: [do_sub], which also
    compares and negates, returns the difference modulo the width, and flags
    in which CF is the unsigned borrow, OF the signed overflow, AF the borrow
    into bit 3, SF the sign, ZF zero and PF the parity of the low byte. *)
Lemma do_sub_correct T a b c m :
  alu_width T -> in_range T a -> in_range T b -> 0 <= c <= 1 ->
  let w := width T in
  let old := RegisterFile.get_flags (registers m) in
  let diff := (a - b - c) mod 2 ^ w in
  exists f,
    do_sub T a b c m = Ok (f, diff) m /\
    flags_are f old
      (a mod 16 <? b mod 16 + c) (a <? b + c) (2 ^ (w - 1) <=? diff)
      (diff =? 0) (even_ones diff)
      ((signed w a - signed w b - c <? - 2 ^ (w - 1)) ||
       (2 ^ (w - 1) <=? signed w a - signed w b - c)).
Proof.
  intros. eexists. split; [by apply do_sub_eq|]. apply status_flags_are.
Qed.

(** ** Logic *)

(** The three bitwise operations. *)
Inductive logic_op := LXor | LOr | LAnd.
Definition do_logic (o : logic_op) : ctype -> Z -> Z -> emu D (Z * Z) :=
  match o with LXor => do_xor | LOr => do_or | LAnd => do_and end.
Definition logic (o : logic_op) : Z -> Z -> Z :=
  match o with LXor => Z.lxor | LOr => Z.lor | LAnd => Z.land end.

Lemma logic_range o n a b :
  0 <= n -> 0 <= a < 2 ^ n -> 0 <= b < 2 ^ n -> 0 <= logic o a b < 2 ^ n.
Proof.
  intros Hn Ha Hb. destruct o; cbn.
  - assert (0 <= a .^ b) by (apply Z.lxor_nonneg; lia). split; [done|].
    apply bits_range; [done..|]. intros i Hi.
    by rewrite Z.lxor_spec, !(testbit_high n) by lia.
  - by apply lor_in_range.
  - by apply land_in_range.
Qed.

Lemma do_logic_eq o T a b m :
  alu_width T -> in_range T a -> in_range T b ->
  exists af,
    do_logic o T a b m =
      Ok (status_flags (RegisterFile.get_flags (registers m)) af false
            (2 ^ (width T - 1) <=? logic o a b) (logic o a b =? 0) (even_ones (logic o a b)) false,
          logic o a b) m /\ in_range T (logic o a b).
Proof.
  intros HT Ha Hb. set (w := width T). set (r := logic o a b).
  assert (Hr : 0 <= r < 2 ^ w) by (apply logic_range; [by destruct HT as [->| ->]|by apply alu_range..]).
  assert (Hw : 0 <= w - 1 /\ 2 ^ w <= 2 ^ 32) by (unfold w; by destruct HT as [->| ->]).
  assert (H32 : u32 r = r) by (apply (cast_id uint32_t); cpp_unfold; lia).
  assert (HTr : in_range T r) by (destruct HT as [->| ->]; done).
  assert (Hbody : 0 <= logic o (a mod 2 ^ (w - 1)) (b mod 2 ^ (w - 1)) < 2 ^ (w - 1)).
  { apply logic_range; [lia|apply Z.mod_pos_bound; lia..]. }
  assert (H32' : 2 ^ (w - 1) < 2 ^ 32) by (unfold w; by destruct HT as [->| ->]).
  eexists. split; [|exact HTr].
  replace (do_logic o T a b) with (do_alu (D := D) T (u16 a) (u16 b) 0 (fun a b _ => logic o a b))
    by by destruct o.
  rewrite do_alu_eq, alu_compute_eq by done. fold w.
  rewrite !(alu_operand T), !(alu_operand_low T), !(alu_operand_body T) by done. fold w.
  fold r. rewrite H32, (cast_id T r), (testbit_high w r w) by (done || lia).
  rewrite (cast_id uint32_t (logic o (a mod 2 ^ (w - 1)) _))
    by (rewrite in_u32; change (2 ^ 32) with 4294967296 in H32'; clearbody w; lia).
  rewrite (testbit_high (w - 1) (logic o (a mod 2 ^ (w - 1)) _) (w - 1)) by (done || lia).
  replace (Z.testbit r (w - 1)) with (2 ^ (w - 1) <=? r); [reflexivity|].
  rewrite testbit_div by lia. assert (2 ^ w = 2 * 2 ^ (w - 1)) as E.
  { rewrite <- Z.pow_succ_r by lia. f_equal. lia. }
  rewrite E in Hr. apply eq_true_iff_eq. rewrite Z.leb_le, Z.eqb_eq. clear -Hr.
  revert Hr. generalize (2 ^ (w - 1)). intros p Hr. split; intros H.
  - by rewrite <- (Z.div_unique r p 1 (r - p)) by lia.
  - destruct (Z.lt_ge_cases r p) as [Hlt|Hge]; [rewrite Z.div_small in H by lia; discriminate H|done].
Qed.

(** The bitwise operations, at 8 and at 16 bits: the result is the bitwise
    one, CF is clear already, SF, ZF and PF describe the result. OF is clear
    too and AF is left for the callers, which mask it, to ignore. *)
Lemma do_logic_correct o T a b m :
  alu_width T -> in_range T a -> in_range T b ->
  let w := width T in
  let old := RegisterFile.get_flags (registers m) in
  let r := logic o a b in
  exists f af,
    do_logic o T a b m = Ok (f, r) m /\ in_range T r /\
    flags_are f old af false (2 ^ (w - 1) <=? r) (r =? 0) (even_ones r) false.
Proof.
  intros HT Ha Hb w old r. destruct (do_logic_eq o T a b m) as (af & E & Hr); [done..|].
  eexists _, af. split; [exact E|]. split; [done|]. apply status_flags_are.
Qed.

(** C6. Arithmetic and logic, at 8 and at 16 bits. [do_add] and [do_sub], with
    the carry or borrow [c], return the sum and the difference modulo the
    width; in the flags CF is the unsigned carry or borrow, OF the signed
    overflow, AF the carry out of or the borrow into bit 3, SF the sign, ZF
    zero and PF the parity of the low byte; every other flag is as it was. The
    bitwise operations return the bitwise result, with CF and OF clear. *)
Theorem arithmetic_correct T a b c m :
  alu_width T -> in_range T a -> in_range T b -> 0 <= c <= 1 ->
  let w := width T in
  let old := RegisterFile.get_flags (registers m) in
  let sum := (a + b + c) mod 2 ^ w in
  let diff := (a - b - c) mod 2 ^ w in
  let overflows x := (x <? - 2 ^ (w - 1)) || (2 ^ (w - 1) <=? x) in
  (exists f, do_add T a b c m = Ok (f, sum) m /\
    flags_are f old (16 <=? a mod 16 + b mod 16 + c) (2 ^ w <=? a + b + c)
      (2 ^ (w - 1) <=? sum) (sum =? 0) (even_ones sum) (overflows (signed w a + signed w b + c))) /\
  (exists f, do_sub T a b c m = Ok (f, diff) m /\
    flags_are f old (a mod 16 <? b mod 16 + c) (a <? b + c)
      (2 ^ (w - 1) <=? diff) (diff =? 0) (even_ones diff) (overflows (signed w a - signed w b - c))) /\
  (forall o, let r := logic o a b in
    exists f af, do_logic o T a b m = Ok (f, r) m /\ in_range T r /\
      flags_are f old af false (2 ^ (w - 1) <=? r) (r =? 0) (even_ones r) false).
Proof.
  intros. split; [by apply do_add_correct|]. split; [by apply do_sub_correct|].
  intros o. by apply do_logic_correct.
Qed.
End arith.

(** 0x7f + 0x80 + 1 wraps to zero; 0x7f - 0x80 - 1 overflows. *)
Lemma arithmetic_correct_witness :
  let m := bench [] 0 [] [] 0 in
  let old := RegisterFile.get_flags (registers m) in
  (exists f, do_add uint8_t 0x7f 0x80 1 m = Ok (f, 0) m /\
    flags_are f old true true false true true false) /\
  (exists f, do_sub uint8_t 0x7f 0x80 1 m = Ok (f, 0xfe) m /\
    flags_are f old false true true false false true).
Proof.
  intros m old. destruct (arithmetic_correct uint8_t 0x7f 0x80 1 m) as (Hadd & Hsub & _);
    [by left|done|done|done|]. split; [exact Hadd|exact Hsub].
Defined.
