(* ===== verification/InsnAlu.v ===== *)
(** * Arithmetic and logic instructions: [add.cpp], [or.cpp], [adc.cpp],
    [sbb.cpp], [and.cpp], [sub.cpp], [xor.cpp], [cmp.cpp], [test.cpp],
    [inc_dec.cpp], [neg.cpp], [not.cpp] of [sim/cppmodel/instructions], and the
    immediate groups 0x80 to 0x83 of [sim/cppmodel/Emulate.cpp]. *)
From S2P Require Import Prelude Config MainMemory Registers ErrorState IOPorts Machine ModRM Core Alu.

Section alu_instructions.
Context {CFG : Config} {D : Type} {IOP : IOPorts D}.

(** ** add *)

Definition add00 : emu D unit :=
  set_width OP_WIDTH_8 ;;
  decode ;;
  v1 ← read_data uint8_t false ;
  r ← reg ;
  v2 ← u8 <$> registers_get r ;
  '(flags, result) ← do_add uint8_t v1 v2 0 ;
  registers_set_flags flags (OF .| SF .| ZF .| AF .| CF .| PF) ;;
  write_data uint8_t (result .& 0xff) false.

Definition add01 : emu D unit :=
  set_width OP_WIDTH_16 ;;
  decode ;;
  v1 ← read_data uint16_t false ;
  r ← reg ;
  v2 ← u16 <$> registers_get r ;
  '(flags, result) ← do_add uint16_t v1 v2 0 ;
  registers_set_flags flags (OF .| SF .| ZF .| AF .| CF .| PF) ;;
  write_data uint16_t (result .& 0xffff) false.

Definition add02 : emu D unit :=
  set_width OP_WIDTH_8 ;;
  decode ;;
  v1 ← read_data uint8_t false ;
  r ← reg ;
  v2 ← u8 <$> registers_get r ;
  '(flags, result) ← do_add uint8_t v1 v2 0 ;
  registers_set_flags flags (OF .| SF .| ZF .| AF .| CF .| PF) ;;
  r ← reg ;
  registers_set r (result .& 0xff).

Definition add03 : emu D unit :=
  set_width OP_WIDTH_16 ;;
  decode ;;
  v1 ← read_data uint16_t false ;
  r ← reg ;
  v2 ← u16 <$> registers_get r ;
  '(flags, result) ← do_add uint16_t v1 v2 0 ;
  registers_set_flags flags (OF .| SF .| ZF .| AF .| CF .| PF) ;;
  r ← reg ;
  registers_set r (result .& 0xffff).

Definition add04 : emu D unit :=
  v1 ← registers_get AL ;
  v2 ← fetch_byte ;
  '(flags, result) ← do_add uint8_t v1 v2 0 ;
  registers_set_flags flags (OF .| SF .| ZF .| AF .| CF .| PF) ;;
  registers_set AL result.

Definition add05 : emu D unit :=
  v1 ← registers_get AX ;
  v2 ← fetch_16bit ;
  '(flags, result) ← do_add uint16_t v1 v2 0 ;
  registers_set_flags flags (OF .| SF .| ZF .| AF .| CF .| PF) ;;
  registers_set AX result.

(** ** or *)

Definition or08 : emu D unit :=
  set_width OP_WIDTH_8 ;;
  decode ;;
  v1 ← read_data uint8_t false ;
  r ← reg ;
  v2 ← u8 <$> registers_get r ;
  '(flags, result) ← do_or uint8_t v1 v2 ;
  let flags := u16 (flags .& ~. (CF .| OF)) in
  registers_set_flags flags (OF .| SF .| ZF .| CF .| PF) ;;
  write_data uint8_t (result .& 0xff) false.

Definition or09 : emu D unit :=
  set_width OP_WIDTH_16 ;;
  decode ;;
  v1 ← read_data uint16_t false ;
  r ← reg ;
  v2 ← u16 <$> registers_get r ;
  '(flags, result) ← do_or uint16_t v1 v2 ;
  let flags := u16 (flags .& ~. (CF .| OF)) in
  registers_set_flags flags (OF .| SF .| ZF .| CF .| PF) ;;
  write_data uint16_t (result .& 0xffff) false.

Definition or0a : emu D unit :=
  set_width OP_WIDTH_8 ;;
  decode ;;
  v1 ← read_data uint8_t false ;
  r ← reg ;
  v2 ← u8 <$> registers_get r ;
  '(flags, result) ← do_or uint8_t v1 v2 ;
  let flags := u16 (flags .& ~. (CF .| OF)) in
  registers_set_flags flags (OF .| SF .| ZF .| CF .| PF) ;;
  r ← reg ;
  registers_set r (result .& 0xff).

Definition or0b : emu D unit :=
  set_width OP_WIDTH_16 ;;
  decode ;;
  v1 ← read_data uint16_t false ;
  r ← reg ;
  v2 ← u16 <$> registers_get r ;
  '(flags, result) ← do_or uint16_t v1 v2 ;
  let flags := u16 (flags .& ~. (CF .| OF)) in
  registers_set_flags flags (OF .| SF .| ZF .| CF .| PF) ;;
  r ← reg ;
  registers_set r (result .& 0xffff).

Definition or0c : emu D unit :=
  v1 ← registers_get AL ;
  v2 ← fetch_byte ;
  '(flags, result) ← do_or uint8_t v1 v2 ;
  let flags := u16 (flags .& ~. (CF .| OF)) in
  registers_set_flags flags (OF .| SF .| ZF .| CF .| PF) ;;
  registers_set AL result.

Definition or0d : emu D unit :=
  v1 ← registers_get AX ;
  v2 ← fetch_16bit ;
  '(flags, result) ← do_or uint16_t v1 v2 ;
  let flags := u16 (flags .& ~. (CF .| OF)) in
  registers_set_flags flags (OF .| SF .| ZF .| CF .| PF) ;;
  registers_set AX result.

(** ** adc *)

Definition adc10 : emu D unit :=
  set_width OP_WIDTH_8 ;;
  decode ;;
  v1 ← read_data uint8_t false ;
  r ← reg ;
  v2 ← u8 <$> registers_get r ;
  flags ← registers_get_flags ;
  let carry_in := nz (flags .& CF) in
  '(flags, result) ← do_add uint8_t v1 v2 (Z.b2z carry_in) ;
  registers_set_flags flags (OF .| SF .| ZF .| AF .| CF .| PF) ;;
  write_data uint8_t (result .& 0xff) false.

Definition adc11 : emu D unit :=
  set_width OP_WIDTH_16 ;;
  decode ;;
  v1 ← read_data uint16_t false ;
  r ← reg ;
  v2 ← u16 <$> registers_get r ;
  flags ← registers_get_flags ;
  let carry_in := nz (flags .& CF) in
  '(flags, result) ← do_add uint16_t v1 v2 (Z.b2z carry_in) ;
  registers_set_flags flags (OF .| SF .| ZF .| AF .| CF .| PF) ;;
  write_data uint16_t (result .& 0xffff) false.

Definition adc12 : emu D unit :=
  set_width OP_WIDTH_8 ;;
  decode ;;
  v1 ← read_data uint8_t false ;
  r ← reg ;
  v2 ← u8 <$> registers_get r ;
  flags ← registers_get_flags ;
  let carry_in := nz (flags .& CF) in
  '(flags, result) ← do_add uint8_t v1 v2 (Z.b2z carry_in) ;
  registers_set_flags flags (OF .| SF .| ZF .| AF .| CF .| PF) ;;
  r ← reg ;
  registers_set r (result .& 0xff).

Definition adc13 : emu D unit :=
  set_width OP_WIDTH_16 ;;
  decode ;;
  v1 ← read_data uint16_t false ;
  r ← reg ;
  v2 ← u16 <$> registers_get r ;
  flags ← registers_get_flags ;
  let carry_in := nz (flags .& CF) in
  '(flags, result) ← do_add uint16_t v1 v2 (Z.b2z carry_in) ;
  registers_set_flags flags (OF .| SF .| ZF .| AF .| CF .| PF) ;;
  r ← reg ;
  registers_set r (result .& 0xffff).

Definition adc14 : emu D unit :=
  v1 ← registers_get AL ;
  v2 ← fetch_byte ;
  flags ← registers_get_flags ;
  let carry_in := nz (flags .& CF) in
  '(flags, result) ← do_add uint8_t v1 v2 (Z.b2z carry_in) ;
  registers_set_flags flags (OF .| SF .| ZF .| AF .| CF .| PF) ;;
  registers_set AL result.

Definition adc15 : emu D unit :=
  v1 ← registers_get AX ;
  v2 ← fetch_16bit ;
  flags ← registers_get_flags ;
  let carry_in := nz (flags .& CF) in
  '(flags, result) ← do_add uint16_t v1 v2 (Z.b2z carry_in) ;
  registers_set_flags flags (OF .| SF .| ZF .| AF .| CF .| PF) ;;
  registers_set AX result.

(** ** sbb *)

Definition sbb18 : emu D unit :=
  set_width OP_WIDTH_8 ;;
  decode ;;
  v1 ← read_data uint8_t false ;
  r ← reg ;
  v2 ← u8 <$> registers_get r ;
  flags ← registers_get_flags ;
  let carry_in := nz (flags .& CF) in
  '(flags, result) ← do_sub uint8_t v1 v2 (Z.b2z carry_in) ;
  registers_set_flags flags (OF .| SF .| ZF .| CF .| PF .| AF) ;;
  write_data uint8_t (result .& 0xff) false.

Definition sbb19 : emu D unit :=
  set_width OP_WIDTH_16 ;;
  decode ;;
  v1 ← read_data uint16_t false ;
  r ← reg ;
  v2 ← u16 <$> registers_get r ;
  flags ← registers_get_flags ;
  let carry_in := nz (flags .& CF) in
  '(flags, result) ← do_sub uint16_t v1 v2 (Z.b2z carry_in) ;
  registers_set_flags flags (OF .| SF .| ZF .| CF .| PF .| AF) ;;
  write_data uint16_t (result .& 0xffff) false.

Definition sbb1a : emu D unit :=
  set_width OP_WIDTH_8 ;;
  decode ;;
  v1 ← read_data uint8_t false ;
  r ← reg ;
  v2 ← u8 <$> registers_get r ;
  flags ← registers_get_flags ;
  let carry_in := nz (flags .& CF) in
  '(flags, result) ← do_sub uint8_t v2 v1 (Z.b2z carry_in) ;
  registers_set_flags flags (OF .| SF .| ZF .| CF .| PF .| AF) ;;
  r ← reg ;
  registers_set r (result .& 0xff).

Definition sbb1b : emu D unit :=
  set_width OP_WIDTH_16 ;;
  decode ;;
  v1 ← read_data uint16_t false ;
  r ← reg ;
  v2 ← u16 <$> registers_get r ;
  flags ← registers_get_flags ;
  let carry_in := nz (flags .& CF) in
  '(flags, result) ← do_sub uint16_t v2 v1 (Z.b2z carry_in) ;
  registers_set_flags flags (OF .| SF .| ZF .| CF .| PF .| AF) ;;
  r ← reg ;
  registers_set r (result .& 0xffff).

Definition sbb1c : emu D unit :=
  v1 ← registers_get AL ;
  v2 ← fetch_byte ;
  flags ← registers_get_flags ;
  let carry_in := nz (flags .& CF) in
  '(flags, result) ← do_sub uint8_t v1 v2 (Z.b2z carry_in) ;
  registers_set_flags flags (OF .| SF .| ZF .| CF .| PF .| AF) ;;
  registers_set AL result.

Definition sbb1d : emu D unit :=
  v1 ← registers_get AX ;
  v2 ← fetch_16bit ;
  flags ← registers_get_flags ;
  let carry_in := nz (flags .& CF) in
  '(flags, result) ← do_sub uint16_t v1 v2 (Z.b2z carry_in) ;
  registers_set_flags flags (OF .| SF .| ZF .| CF .| PF .| AF) ;;
  registers_set AX result.

(** ** and *)

Definition and20 : emu D unit :=
  set_width OP_WIDTH_8 ;;
  decode ;;
  v1 ← read_data uint8_t false ;
  r ← reg ;
  v2 ← u8 <$> registers_get r ;
  '(flags, result) ← do_and uint8_t v1 v2 ;
  let flags := u16 (flags .& ~. (CF .| OF)) in
  registers_set_flags flags (OF .| SF .| ZF .| CF .| PF) ;;
  write_data uint8_t (result .& 0xff) false.

Definition and21 : emu D unit :=
  set_width OP_WIDTH_16 ;;
  decode ;;
  v1 ← read_data uint16_t false ;
  r ← reg ;
  v2 ← u16 <$> registers_get r ;
  '(flags, result) ← do_and uint16_t v1 v2 ;
  let flags := u16 (flags .& ~. (CF .| OF)) in
  registers_set_flags flags (OF .| SF .| ZF .| CF .| PF) ;;
  write_data uint16_t (result .& 0xffff) false.

Definition and22 : emu D unit :=
  set_width OP_WIDTH_8 ;;
  decode ;;
  v1 ← read_data uint8_t false ;
  r ← reg ;
  v2 ← u8 <$> registers_get r ;
  '(flags, result) ← do_and uint8_t v1 v2 ;
  let flags := u16 (flags .& ~. (CF .| OF)) in
  registers_set_flags flags (OF .| SF .| ZF .| CF .| PF) ;;
  r ← reg ;
  registers_set r (result .& 0xff).

Definition and23 : emu D unit :=
  set_width OP_WIDTH_16 ;;
  decode ;;
  v1 ← read_data uint16_t false ;
  r ← reg ;
  v2 ← u16 <$> registers_get r ;
  '(flags, result) ← do_and uint16_t v1 v2 ;
  let flags := u16 (flags .& ~. (CF .| OF)) in
  registers_set_flags flags (OF .| SF .| ZF .| CF .| PF) ;;
  r ← reg ;
  registers_set r (result .& 0xffff).

Definition and24 : emu D unit :=
  v1 ← registers_get AL ;
  v2 ← fetch_byte ;
  '(flags, result) ← do_and uint8_t v1 v2 ;
  let flags := u16 (flags .& ~. (CF .| OF)) in
  registers_set_flags flags (OF .| SF .| ZF .| CF .| PF) ;;
  registers_set AL result.

Definition and25 : emu D unit :=
  v1 ← registers_get AX ;
  v2 ← fetch_16bit ;
  '(flags, result) ← do_and uint16_t v1 v2 ;
  let flags := u16 (flags .& ~. (CF .| OF)) in
  registers_set_flags flags (OF .| SF .| ZF .| CF .| PF) ;;
  registers_set AX result.

(** ** sub *)

Definition sub28 : emu D unit :=
  set_width OP_WIDTH_8 ;;
  decode ;;
  v1 ← read_data uint8_t false ;
  r ← reg ;
  v2 ← u8 <$> registers_get r ;
  '(flags, result) ← do_sub uint8_t v1 v2 0 ;
  registers_set_flags flags (OF .| SF .| ZF .| CF .| PF .| AF) ;;
  write_data uint8_t (result .& 0xff) false.

Definition sub29 : emu D unit :=
  set_width OP_WIDTH_16 ;;
  decode ;;
  v1 ← read_data uint16_t false ;
  r ← reg ;
  v2 ← u16 <$> registers_get r ;
  '(flags, result) ← do_sub uint16_t v1 v2 0 ;
  registers_set_flags flags (OF .| SF .| ZF .| CF .| PF .| AF) ;;
  write_data uint16_t (result .& 0xffff) false.

Definition sub2a : emu D unit :=
  set_width OP_WIDTH_8 ;;
  decode ;;
  v1 ← read_data uint8_t false ;
  r ← reg ;
  v2 ← u8 <$> registers_get r ;
  '(flags, result) ← do_sub uint8_t v2 v1 0 ;
  registers_set_flags flags (OF .| SF .| ZF .| CF .| PF .| AF) ;;
  r ← reg ;
  registers_set r (result .& 0xff).

Definition sub2b : emu D unit :=
  set_width OP_WIDTH_16 ;;
  decode ;;
  v1 ← read_data uint16_t false ;
  r ← reg ;
  v2 ← u16 <$> registers_get r ;
  '(flags, result) ← do_sub uint16_t v2 v1 0 ;
  registers_set_flags flags (OF .| SF .| ZF .| CF .| PF .| AF) ;;
  r ← reg ;
  registers_set r (result .& 0xffff).

Definition sub2c : emu D unit :=
  v1 ← registers_get AL ;
  v2 ← fetch_byte ;
  '(flags, result) ← do_sub uint8_t v1 v2 0 ;
  registers_set_flags flags (OF .| SF .| ZF .| CF .| PF .| AF) ;;
  registers_set AL result.

Definition sub2d : emu D unit :=
  v1 ← registers_get AX ;
  v2 ← fetch_16bit ;
  '(flags, result) ← do_sub uint16_t v1 v2 0 ;
  registers_set_flags flags (OF .| SF .| ZF .| CF .| PF .| AF) ;;
  registers_set AX result.

(** ** xor *)

Definition xor30 : emu D unit :=
  set_width OP_WIDTH_8 ;;
  decode ;;
  v1 ← read_data uint8_t false ;
  r ← reg ;
  v2 ← u8 <$> registers_get r ;
  '(flags, result) ← do_xor uint8_t v1 v2 ;
  let flags := u16 (flags .& ~. (CF .| OF)) in
  registers_set_flags flags (OF .| SF .| ZF .| CF .| PF) ;;
  write_data uint8_t (result .& 0xff) false.

Definition xor31 : emu D unit :=
  set_width OP_WIDTH_16 ;;
  decode ;;
  v1 ← read_data uint16_t false ;
  r ← reg ;
  v2 ← u16 <$> registers_get r ;
  '(flags, result) ← do_xor uint16_t v1 v2 ;
  let flags := u16 (flags .& ~. (CF .| OF)) in
  registers_set_flags flags (OF .| SF .| ZF .| CF .| PF) ;;
  write_data uint16_t (result .& 0xffff) false.

Definition xor32 : emu D unit :=
  set_width OP_WIDTH_8 ;;
  decode ;;
  v1 ← read_data uint8_t false ;
  r ← reg ;
  v2 ← u8 <$> registers_get r ;
  '(flags, result) ← do_xor uint8_t v1 v2 ;
  let flags := u16 (flags .& ~. (CF .| OF)) in
  registers_set_flags flags (OF .| SF .| ZF .| CF .| PF) ;;
  r ← reg ;
  registers_set r (result .& 0xff).

Definition xor33 : emu D unit :=
  set_width OP_WIDTH_16 ;;
  decode ;;
  v1 ← read_data uint16_t false ;
  r ← reg ;
  v2 ← u16 <$> registers_get r ;
  '(flags, result) ← do_xor uint16_t v1 v2 ;
  let flags := u16 (flags .& ~. (CF .| OF)) in
  registers_set_flags flags (OF .| SF .| ZF .| CF .| PF) ;;
  r ← reg ;
  registers_set r (result .& 0xffff).

Definition xor34 : emu D unit :=
  v1 ← registers_get AL ;
  v2 ← fetch_byte ;
  '(flags, result) ← do_xor uint8_t v1 v2 ;
  let flags := u16 (flags .& ~. (CF .| OF)) in
  registers_set_flags flags (OF .| SF .| ZF .| CF .| PF) ;;
  registers_set AL result.

Definition xor35 : emu D unit :=
  v1 ← registers_get AX ;
  v2 ← fetch_16bit ;
  '(flags, result) ← do_xor uint16_t v1 v2 ;
  let flags := u16 (flags .& ~. (CF .| OF)) in
  registers_set_flags flags (OF .| SF .| ZF .| CF .| PF) ;;
  registers_set AX result.

(** ** cmp *)

Definition cmp38 : emu D unit :=
  set_width OP_WIDTH_8 ;;
  decode ;;
  v1 ← read_data uint8_t false ;
  r ← reg ;
  v2 ← u8 <$> registers_get r ;
  '(flags, result) ← do_sub uint8_t v1 v2 0 ;
  registers_set_flags flags (OF .| SF .| ZF .| AF .| CF .| PF).

Definition cmp39 : emu D unit :=
  set_width OP_WIDTH_16 ;;
  decode ;;
  v1 ← read_data uint16_t false ;
  r ← reg ;
  v2 ← u16 <$> registers_get r ;
  '(flags, result) ← do_sub uint16_t v1 v2 0 ;
  registers_set_flags flags (OF .| SF .| ZF .| AF .| CF .| PF).

Definition cmp3a : emu D unit :=
  set_width OP_WIDTH_8 ;;
  decode ;;
  v1 ← read_data uint8_t false ;
  r ← reg ;
  v2 ← u8 <$> registers_get r ;
  '(flags, result) ← do_sub uint8_t v2 v1 0 ;
  registers_set_flags flags (OF .| SF .| ZF .| AF .| CF .| PF).

Definition cmp3b : emu D unit :=
  set_width OP_WIDTH_16 ;;
  decode ;;
  v1 ← read_data uint16_t false ;
  r ← reg ;
  v2 ← u16 <$> registers_get r ;
  '(flags, result) ← do_sub uint16_t v2 v1 0 ;
  registers_set_flags flags (OF .| SF .| ZF .| AF .| CF .| PF).

Definition cmp3c : emu D unit :=
  v1 ← registers_get AL ;
  v2 ← fetch_byte ;
  '(flags, result) ← do_sub uint8_t v1 v2 0 ;
  registers_set_flags flags (OF .| SF .| ZF .| AF .| CF .| PF).

Definition cmp3d : emu D unit :=
  v1 ← registers_get AX ;
  v2 ← fetch_16bit ;
  '(flags, result) ← do_sub uint16_t v1 v2 0 ;
  registers_set_flags flags (OF .| SF .| ZF .| AF .| CF .| PF).

(** ** test *)

Definition test84 : emu D unit :=
  set_width OP_WIDTH_8 ;;
  decode ;;
  v1 ← read_data uint8_t false ;
  r ← reg ;
  v2 ← u8 <$> registers_get r ;
  '(flags, _) ← do_and uint8_t v1 v2 ;
  let flags := u16 (flags .& ~. (CF .| OF)) in
  registers_set_flags flags (OF .| SF .| ZF .| CF .| PF).

Definition test85 : emu D unit :=
  set_width OP_WIDTH_16 ;;
  decode ;;
  v1 ← read_data uint16_t false ;
  r ← reg ;
  v2 ← u16 <$> registers_get r ;
  '(flags, _) ← do_and uint16_t v1 v2 ;
  let flags := u16 (flags .& ~. (CF .| OF)) in
  registers_set_flags flags (OF .| SF .| ZF .| CF .| PF).

Definition testa8 : emu D unit :=
  v1 ← registers_get AL ;
  v2 ← fetch_byte ;
  '(flags, _) ← do_and uint8_t v1 v2 ;
  let flags := u16 (flags .& ~. (CF .| OF)) in
  registers_set_flags flags (OF .| SF .| ZF .| CF .| PF).

Definition testa9 : emu D unit :=
  v1 ← registers_get AX ;
  v2 ← fetch_16bit ;
  '(flags, _) ← do_and uint16_t v1 v2 ;
  let flags := u16 (flags .& ~. (CF .| OF)) in
  registers_set_flags flags (OF .| SF .| ZF .| CF .| PF).

Definition testf6 : emu D unit :=
  v1 ← read_data uint8_t false ;
  v2 ← fetch_byte ;
  '(flags, _) ← do_and uint8_t v1 v2 ;
  let flags := u16 (flags .& ~. (CF .| OF)) in
  registers_set_flags flags (OF .| SF .| ZF .| CF .| PF).

Definition testf7 : emu D unit :=
  v1 ← read_data uint16_t false ;
  v2 ← fetch_16bit ;
  '(flags, _) ← do_and uint16_t v1 v2 ;
  let flags := u16 (flags .& ~. (CF .| OF)) in
  registers_set_flags flags (OF .| SF .| ZF .| CF .| PF).

(** ** inc and dec *)

Definition inc_dec_fe : emu D unit :=
  set_width OP_WIDTH_8 ;;
  decode ;;
  n ← raw_reg ;
  if n =? 7 then invalid_opcode
  else if negb (n =? 0) && negb (n =? 1) then mret ()
  else
    v ← read_data uint8_t false ;
    '(flags, result) ← (if n =? 0 then do_add uint8_t v 1 0 else do_sub uint8_t v 1 0) ;
    registers_set_flags flags (OF .| SF .| ZF .| AF .| PF) ;;
    write_data uint8_t result false.

Definition incff : emu D unit :=
  n ← raw_reg ;
  assert_true (n =? 0) ;;
  v ← read_data uint16_t false ;
  '(flags, result) ← do_add uint16_t v 1 0 ;
  registers_set_flags flags (OF .| SF .| ZF .| AF .| PF) ;;
  write_data uint16_t result false.

Definition decff : emu D unit :=
  n ← raw_reg ;
  assert_true (n =? 1) ;;
  v ← read_data uint16_t false ;
  '(flags, result) ← do_sub uint16_t v 1 0 ;
  registers_set_flags flags (OF .| SF .| ZF .| AF .| PF) ;;
  write_data uint16_t result false.

Definition inc40_47 : emu D unit :=
  op ← gets opcode ;
  r ← cast_GPR (GPR_to_int AX + (op .& 0x7)) ;
  v ← registers_get r ;
  '(flags, result) ← do_add uint16_t v 1 0 ;
  registers_set_flags flags (OF .| SF .| ZF .| AF .| PF) ;;
  registers_set r result.

Definition dec48_4f : emu D unit :=
  op ← gets opcode ;
  r ← cast_GPR (GPR_to_int AX + (op .& 0x7)) ;
  v ← registers_get r ;
  '(flags, result) ← do_sub uint16_t v 1 0 ;
  registers_set_flags flags (OF .| SF .| ZF .| AF .| PF) ;;
  registers_set r result.

(** ** neg and not *)

Definition negf6 : emu D unit :=
  v ← read_data uint8_t false ;
  '(flags, result) ← do_sub uint8_t 0 v 0 ;
  let flags := u16 (flags .& ~. CF) in
  let flags := or_flag (negb (v =? 0)) CF flags in
  write_data uint8_t result false ;;
  registers_set_flags flags (OF .| SF .| ZF .| CF .| PF .| AF).

Definition negf7 : emu D unit :=
  v ← read_data uint16_t false ;
  '(flags, result) ← do_sub uint16_t 0 v 0 ;
  let flags := u16 (flags .& ~. CF) in
  let flags := or_flag (negb (v =? 0)) CF flags in
  write_data uint16_t result false ;;
  registers_set_flags flags (OF .| SF .| ZF .| CF .| PF .| AF).

Definition notf6 : emu D unit :=
  v ← read_data uint8_t false ;
  write_data uint8_t (~. v) false.

Definition notf7 : emu D unit :=
  v ← read_data uint16_t false ;
  write_data uint16_t (~. v) false.

(** ** The immediate groups *)

Definition add_adc_sub_sbb_cmp_xor_or_and_80 : emu D unit :=
  set_width OP_WIDTH_8 ;;
  decode ;;
  v1 ← read_data uint8_t false ;
  v2 ← fetch_byte ;
  n ← raw_reg ;
  fl ← registers_get_flags ;
  let carry_in := if (n =? 2) || (n =? 3) then nz (fl .& CF) else false in
  let update_mask := u16 (OF .| SF .| ZF .| CF .| PF .| AF) in
  '(flags, result, update_mask) ←
    (if (n =? 0) || (n =? 2) then
       '(flags, result) ← do_add uint8_t v1 v2 (Z.b2z carry_in) ;
       mret (flags, result, update_mask)
     else if n =? 6 then
       '(flags, result) ← do_xor uint8_t v1 v2 ;
       mret (u16 (flags .& ~. (CF .| OF)), result, u16 (update_mask .& ~. AF))
     else if n =? 1 then
       '(flags, result) ← do_or uint8_t v1 v2 ;
       mret (u16 (flags .& ~. (CF .| OF)), result, u16 (update_mask .& ~. AF))
     else if n =? 4 then
       '(flags, result) ← do_and uint8_t v1 v2 ;
       mret (u16 (flags .& ~. (CF .| OF)), result, u16 (update_mask .& ~. AF))
     else
       '(flags, result) ← do_sub uint8_t v1 v2 (Z.b2z carry_in) ;
       mret (flags, result, update_mask)) ;
  registers_set_flags flags update_mask ;;
  if negb (n =? 7) then write_data uint8_t (result .& 0xff) false else mret ().

Definition add_adc_sub_sbb_cmp_82 : emu D unit :=
  add_adc_sub_sbb_cmp_xor_or_and_80.

Definition add_adc_sub_sbb_cmp_xor_or_and_81 : emu D unit :=
  set_width OP_WIDTH_16 ;;
  decode ;;
  v1 ← read_data uint16_t false ;
  v2 ← fetch_16bit ;
  n ← raw_reg ;
  fl ← registers_get_flags ;
  let carry_in := if (n =? 2) || (n =? 3) then nz (fl .& CF) else false in
  let update_mask := u16 (OF .| SF .| ZF .| CF .| PF .| AF) in
  '(flags, result, update_mask) ←
    (if (n =? 0) || (n =? 2) then
       '(flags, result) ← do_add uint16_t v1 v2 (Z.b2z carry_in) ;
       mret (flags, result, update_mask)
     else if n =? 6 then
       '(flags, result) ← do_xor uint16_t v1 v2 ;
       mret (u16 (flags .& ~. (CF .| OF)), result, u16 (update_mask .& ~. AF))
     else if n =? 1 then
       '(flags, result) ← do_or uint16_t v1 v2 ;
       mret (u16 (flags .& ~. (CF .| OF)), result, u16 (update_mask .& ~. AF))
     else if n =? 4 then
       '(flags, result) ← do_and uint16_t v1 v2 ;
       mret (u16 (flags .& ~. (CF .| OF)), result, u16 (update_mask .& ~. AF))
     else
       '(flags, result) ← do_sub uint16_t v1 v2 (Z.b2z carry_in) ;
       mret (flags, result, update_mask)) ;
  registers_set_flags flags update_mask ;;
  if negb (n =? 7) then write_data uint16_t (result .& 0xffff) false else mret ().

Definition add_adc_sub_sbb_cmp_83 : emu D unit :=
  set_width OP_WIDTH_16 ;;
  decode ;;
  v1 ← read_data uint16_t false ;
  v2 ← (sign_extend int16_t uint8_t <$> fetch_byte) ;
  n ← raw_reg ;
  fl ← registers_get_flags ;
  let carry_in := if (n =? 2) || (n =? 3) then nz (fl .& CF) else false in
  let update_mask := u16 (OF .| SF .| ZF .| CF .| PF .| AF) in
  '(flags, result, update_mask) ←
    (if (n =? 0) || (n =? 2) then
       '(flags, result) ← do_add uint16_t v1 v2 (Z.b2z carry_in) ;
       mret (flags, result, update_mask)
     else if n =? 6 then
       '(flags, result) ← do_xor uint16_t v1 v2 ;
       mret (u16 (flags .& ~. (CF .| OF)), result, u16 (update_mask .& ~. AF))
     else if n =? 1 then
       '(flags, result) ← do_or uint16_t v1 v2 ;
       mret (u16 (flags .& ~. (CF .| OF)), result, u16 (update_mask .& ~. AF))
     else if n =? 4 then
       '(flags, result) ← do_and uint16_t v1 v2 ;
       mret (u16 (flags .& ~. (CF .| OF)), result, u16 (update_mask .& ~. AF))
     else
       '(flags, result) ← do_sub uint16_t v1 v2 (Z.b2z carry_in) ;
       mret (flags, result, update_mask)) ;
  registers_set_flags flags update_mask ;;
  if negb (n =? 7) then write_data uint16_t (result .& 0xffff) false else mret ().

End alu_instructions.
