(* ===== verification/InsnData.v ===== *)
(** * Data movement: [mov.cpp], [push.cpp], [pop.cpp], [xchg.cpp], [io.cpp],
    [xlat.cpp], [lea.cpp], [lahf_sahf.cpp], [cbw.cpp], [cwd.cpp],
    [setalc.cpp] and the flag instructions of [sim/cppmodel/instructions]. *)
From S2P Require Import Prelude Config MainMemory Registers ErrorState IOPorts Machine ModRM Core.

Section data_instructions.
Context {CFG : Config} {D : Type} {IOP : IOPorts D}.

(** ** mov *)

Definition mov88 : emu D unit :=
  set_width OP_WIDTH_8 ;;
  decode ;;
  source ← reg ;
  val ← registers_get source ;
  write_data uint8_t val false.

Definition mov89 : emu D unit :=
  set_width OP_WIDTH_16 ;;
  decode ;;
  source ← reg ;
  val ← registers_get source ;
  write_data uint16_t val false.

Definition mov8a : emu D unit :=
  set_width OP_WIDTH_8 ;;
  decode ;;
  val ← read_data uint8_t false ;
  dest ← reg ;
  registers_set dest val.

Definition mov8b : emu D unit :=
  set_width OP_WIDTH_16 ;;
  decode ;;
  val ← read_data uint16_t false ;
  dest ← reg ;
  registers_set dest val.

Definition movc6 : emu D unit :=
  set_width OP_WIDTH_8 ;;
  decode ;;
  n ← raw_reg ;
  if n =? 0 then
    immed ← fetch_byte ;
    write_data uint8_t immed false
  else mret ().

Definition movc7 : emu D unit :=
  set_width OP_WIDTH_16 ;;
  decode ;;
  n ← raw_reg ;
  if n =? 0 then
    immed ← fetch_16bit ;
    write_data uint16_t immed false
  else mret ().

Definition movb0_b7 : emu D unit :=
  immed ← fetch_byte ;
  op ← gets opcode ;
  reg ← cast_GPR (GPR_to_int AL + (op .& 0x7)) ;
  registers_set reg immed.

Definition movb8_bf : emu D unit :=
  immed ← fetch_16bit ;
  op ← gets opcode ;
  reg ← cast_GPR (GPR_to_int AX + (op .& 0x7)) ;
  registers_set reg immed.

Definition mova0 : emu D unit :=
  displacement ← fetch_16bit ;
  segment ← get_segment false ;
  seg ← registers_get segment ;
  val ← mem_read uint8_t (get_phys_addr seg displacement) ;
  registers_set AL val.

Definition mova1 : emu D unit :=
  displacement ← fetch_16bit ;
  segment ← get_segment false ;
  seg ← registers_get segment ;
  val ← mem_read uint16_t (get_phys_addr seg displacement) ;
  registers_set AX val.

Definition mova2 : emu D unit :=
  displacement ← fetch_16bit ;
  val ← registers_get AL ;
  segment ← get_segment false ;
  seg ← registers_get segment ;
  mem_write uint8_t (get_phys_addr seg displacement) val.

Definition mova3 : emu D unit :=
  displacement ← fetch_16bit ;
  val ← registers_get AX ;
  segment ← get_segment false ;
  seg ← registers_get segment ;
  mem_write uint16_t (get_phys_addr seg displacement) val.

Definition mov8e : emu D unit :=
  set_width OP_WIDTH_16 ;;
  decode ;;
  val ← read_data uint16_t false ;
  n ← raw_reg ;
  let segnum := n .& 0x3 in
  reg ← cast_GPR (GPR_to_int ES + segnum) ;
  registers_set reg val ;;
  modify (set_ext_int_inhibit true).

Definition mov8c : emu D unit :=
  set_width OP_WIDTH_16 ;;
  decode ;;
  n ← raw_reg ;
  let segnum := n .& 0x3 in
  reg ← cast_GPR (GPR_to_int ES + segnum) ;
  val ← registers_get reg ;
  write_data uint16_t val false.

(** ** push *)

Definition pushff : emu D unit :=
  n ← raw_reg ;
  assert_true (n =? 6) ;;
  sp ← registers_get SP ;
  registers_set SP (sp - 2) ;;
  val ← read_data uint16_t false ;
  ss ← registers_get SS ;
  sp ← registers_get SP ;
  mem_write uint16_t (get_phys_addr ss sp) val.

Definition push68 : emu D unit :=
  val ← fetch_16bit ;
  sp ← registers_get SP ;
  registers_set SP (sp - 2) ;;
  ss ← registers_get SS ;
  sp ← registers_get SP ;
  mem_write uint16_t (get_phys_addr ss sp) val.

Definition push6a : emu D unit :=
  val ← sign_extend int16_t uint8_t <$> fetch_byte ;
  sp ← registers_get SP ;
  registers_set SP (sp - 2) ;;
  ss ← registers_get SS ;
  sp ← registers_get SP ;
  mem_write uint16_t (get_phys_addr ss sp) val.

Definition push50_57 : emu D unit :=
  op ← gets opcode ;
  reg ← cast_GPR (GPR_to_int AX + (op .& 0x7)) ;
  sp ← registers_get SP ;
  registers_set SP (sp - 2) ;;
  val ← registers_get reg ;
  ss ← registers_get SS ;
  sp ← registers_get SP ;
  mem_write uint16_t (get_phys_addr ss sp) val.

Definition pushsr : emu D unit :=
  op ← gets opcode ;
  reg ← cast_GPR (GPR_to_int ES + ((op .>> 3) .& 0x3)) ;
  val ← registers_get reg ;
  sp ← registers_get SP ;
  registers_set SP (sp - 2) ;;
  ss ← registers_get SS ;
  sp ← registers_get SP ;
  mem_write uint16_t (get_phys_addr ss sp) val.

Definition pushf9c : emu D unit :=
  val ← registers_get_flags ;
  sp ← registers_get SP ;
  registers_set SP (sp - 2) ;;
  ss ← registers_get SS ;
  sp ← registers_get SP ;
  mem_write uint16_t (get_phys_addr ss sp) val.

Definition pusha60 : emu D unit :=
  sp ← registers_get SP ;
  (registers_get AX ≫= push_word) ;;
  (registers_get CX ≫= push_word) ;;
  (registers_get DX ≫= push_word) ;;
  (registers_get BX ≫= push_word) ;;
  push_word sp ;;
  (registers_get BP ≫= push_word) ;;
  (registers_get SI ≫= push_word) ;;
  (registers_get DI ≫= push_word).

Definition popa61 : emu D unit :=
  (pop_word ≫= registers_set DI) ;;
  (pop_word ≫= registers_set SI) ;;
  (pop_word ≫= registers_set BP) ;;
  pop_word ;;
  (pop_word ≫= registers_set BX) ;;
  (pop_word ≫= registers_set DX) ;;
  (pop_word ≫= registers_set CX) ;;
  (pop_word ≫= registers_set AX).

(** ** pop *)

Definition pop8f : emu D unit :=
  set_width OP_WIDTH_16 ;;
  decode ;;
  n ← raw_reg ;
  if negb (n =? 0) then mret ()
  else
    ss ← registers_get SS ;
    sp ← registers_get SP ;
    val ← mem_read uint16_t (get_phys_addr ss sp) ;
    sp ← registers_get SP ;
    registers_set SP (sp + 2) ;;
    write_data uint16_t val false.

Definition pop58_5f : emu D unit :=
  op ← gets opcode ;
  reg ← cast_GPR (GPR_to_int AX + (op .& 0x7)) ;
  ss ← registers_get SS ;
  sp ← registers_get SP ;
  val ← mem_read uint16_t (get_phys_addr ss sp) ;
  sp ← registers_get SP ;
  registers_set SP (sp + 2) ;;
  registers_set reg val.

Definition popsr : emu D unit :=
  op ← gets opcode ;
  reg ← cast_GPR (GPR_to_int ES + ((op .>> 3) .& 0x3)) ;
  ss ← registers_get SS ;
  sp ← registers_get SP ;
  val ← mem_read uint16_t (get_phys_addr ss sp) ;
  registers_set reg val ;;
  sp ← registers_get SP ;
  registers_set SP (sp + 2) ;;
  modify (set_ext_int_inhibit true).

Definition popf9d : emu D unit :=
  ss ← registers_get SS ;
  sp ← registers_get SP ;
  val ← mem_read uint16_t (get_phys_addr ss sp) ;
  registers_set_flags val 0xffff ;;
  sp ← registers_get SP ;
  registers_set SP (sp + 2).

(** ** xchg *)

Definition xchg86 : emu D unit :=
  set_width OP_WIDTH_8 ;;
  decode ;;
  v1 ← read_data uint8_t false ;
  v2 ← (reg ≫= registers_get) ;
  write_data uint8_t v2 false ;;
  r ← reg ;
  registers_set r v1.

Definition xchg87 : emu D unit :=
  set_width OP_WIDTH_16 ;;
  decode ;;
  v1 ← read_data uint16_t false ;
  v2 ← (reg ≫= registers_get) ;
  write_data uint16_t v2 false ;;
  r ← reg ;
  registers_set r v1.

Definition xchg90_97 : emu D unit :=
  op ← gets opcode ;
  reg ← cast_GPR (GPR_to_int AX + (op .& 0x7)) ;
  v1 ← registers_get AX ;
  v2 ← registers_get reg ;
  registers_set AX v2 ;;
  registers_set reg v1.

(** ** in and out *)

Definition ine4 : emu D unit :=
  port_num ← fetch_byte ;
  v ← read_io8 port_num ;
  registers_set AL v.

Definition ine5 : emu D unit :=
  port_num ← fetch_byte ;
  v ← read_io16 port_num ;
  registers_set AX v.

Definition inec : emu D unit :=
  dx ← registers_get DX ;
  v ← read_io8 dx ;
  registers_set AL v.

Definition ined : emu D unit :=
  dx ← registers_get DX ;
  v ← read_io16 dx ;
  registers_set AX v.

Definition oute6 : emu D unit :=
  port_num ← fetch_byte ;
  al ← registers_get AL ;
  write_io8 port_num al.

Definition oute7 : emu D unit :=
  port_num ← fetch_byte ;
  ax ← registers_get AX ;
  write_io16 port_num ax.

Definition outee : emu D unit :=
  dx ← registers_get DX ;
  al ← registers_get AL ;
  write_io8 dx al.

Definition outef : emu D unit :=
  dx ← registers_get DX ;
  ax ← registers_get AX ;
  write_io16 dx ax.

(** ** xlat, lea, lds, les *)

Definition xlatd7 : emu D unit :=
  v ← registers_get AL ;
  table_addr ← registers_get BX ;
  segment ← get_segment false ;
  seg ← registers_get segment ;
  xlated_val ← mem_read uint8_t (get_phys_addr seg (table_addr + v)) ;
  registers_set AL xlated_val.

Definition lea8d : emu D unit :=
  set_width OP_WIDTH_16 ;;
  decode ;;
  ty ← rm_type ;
  if negb (bool_decide (ty = OP_REG)) then
    r ← reg ;
    ea ← effective_address ;
    registers_set r ea
  else mret ().

Definition ldsc5 : emu D unit :=
  set_width OP_WIDTH_16 ;;
  decode ;;
  ty ← rm_type ;
  if bool_decide (ty = OP_REG) then mret ()
  else
    segment ← get_segment false ;
    base ← registers_get segment ;
    ea ← effective_address ;
    let p32 := get_phys_addr base ea in
    displacement ← mem_read uint16_t p32 ;
    seg ← mem_read uint16_t (p32 + 2) ;
    r ← reg ;
    registers_set r displacement ;;
    registers_set DS seg.

Definition lesc4 : emu D unit :=
  set_width OP_WIDTH_16 ;;
  decode ;;
  ty ← rm_type ;
  if bool_decide (ty = OP_REG) then mret ()
  else
    segment ← get_segment false ;
    base ← registers_get segment ;
    ea ← effective_address ;
    let p32 := get_phys_addr base ea in
    displacement ← mem_read uint16_t p32 ;
    seg ← mem_read uint16_t (p32 + 2) ;
    r ← reg ;
    registers_set r displacement ;;
    registers_set ES seg.

(** ** Flags and extensions *)

Definition lahf9f : emu D unit :=
  flags ← registers_get_flags ;
  registers_set AH (flags .& 0xff).

Definition sahf9e : emu D unit :=
  flags ← registers_get AH ;
  registers_set_flags flags 0xff.

Definition cbw98 : emu D unit :=
  al ← registers_get AL ;
  registers_set AX (sign_extend int16_t uint8_t al).

Definition cwd99 : emu D unit :=
  ax ← registers_get AX ;
  let v := sign_extend int32_t uint16_t ax in
  registers_set DX ((v .>> 16) .& 0xffff).

Definition setalcd6 : emu D unit :=
  cf ← registers_get_flag CF ;
  registers_set AL (if cf : bool then 0xff else 0x00).

Definition clcf8 : emu D unit :=
  flags ← registers_get_flags ;
  let flags := u16 (flags .& ~. CF) in
  registers_set_flags flags CF.

Definition cmcf5 : emu D unit :=
  flags ← registers_get_flags ;
  let flags := if nz (flags .& CF) then u16 (flags .& ~. CF) else u16 (flags .| CF) in
  registers_set_flags flags CF.

Definition stcf9 : emu D unit :=
  flags ← registers_get_flags ;
  let flags := u16 (flags .| CF) in
  registers_set_flags flags CF.

Definition cldfc : emu D unit :=
  flags ← registers_get_flags ;
  let flags := u16 (flags .& ~. DF) in
  registers_set_flags flags DF.

Definition stdfd : emu D unit :=
  flags ← registers_get_flags ;
  let flags := u16 (flags .| DF) in
  registers_set_flags flags DF.

Definition clifa : emu D unit :=
  flags ← registers_get_flags ;
  let flags := u16 (flags .& ~. IF) in
  registers_set_flags flags IF.

Definition stifb : emu D unit :=
  flags ← registers_get_flags ;
  let flags := u16 (flags .| IF) in
  registers_set_flags flags IF ;;
  modify (set_ext_int_inhibit true).

End data_instructions.
