(* ===== verification/InsnBcd.v ===== *)
(** * Decimal adjustment: [aaa.cpp], [aas.cpp], [daa.cpp], [das.cpp],
    [aam.cpp], [aad.cpp] of [sim/cppmodel/instructions]. *)
From S2P Require Import Prelude Config MainMemory Registers ErrorState IOPorts Machine ModRM Core Alu.

Section bcd_instructions.
Context {CFG : Config} {D : Type} {IOP : IOPorts D}.

Definition aaa37 : emu D unit :=
  flags ← registers_get_flags ;
  al ← registers_get AL ;
  flags ←
    (if (9 <? al .& 0x0f) || nz (flags .& AF) then
       let al := u16 ((al + 6) .& 0x0f) in
       registers_set AL al ;;
       ah ← registers_get AH ;
       let ah := u16 (ah + 1) in
       registers_set AH ah ;;
       mret (u16 (flags .| (AF .| CF)))
     else mret (u16 (flags .& ~. (AF .| CF)))) ;
  registers_set_flags flags (AF .| CF).

Definition aas3f : emu D unit :=
  flags ← registers_get_flags ;
  al ← registers_get AL ;
  ah ← registers_get AH ;
  let '(al, ah, flags) :=
    if (9 <? al .& 0x0f) || nz (flags .& AF) then
      let al := u16 (al - 6) in
      let al := u16 (al .& 0xf) in
      let ah := u16 (ah - 1) in
      (al, ah, u16 (flags .| (AF .| CF)))
    else (al, ah, u16 (flags .& ~. (AF .| CF))) in
  registers_set AL al ;;
  registers_set AH ah ;;
  registers_set_flags flags (AF .| CF).

(** The computation of [daa] on AL and the flags. *)
Definition daa_compute (al flags : Z) : Z * Z :=
  let '(al, flags) :=
    if (9 <? al .& 0x0f) || nz (flags .& AF) then
      let tmp := u16 (al + 6) in
      let al := u16 (tmp .& 0xff) in
      let flags := u16 (flags .| AF) in
      (al, or_flag (nz (tmp .& 0xff00)) CF flags)
    else (al, u16 (flags .& ~. AF)) in
  if (0x9f <? al) || nz (flags .& CF) then (u16 (al + 0x60), u16 (flags .| CF))
  else (al, flags).

Definition daa27 : emu D unit :=
  flags ← registers_get_flags ;
  al ← registers_get AL ;
  let '(al, flags) := daa_compute al flags in
  registers_set AL al ;;
  registers_set_flags flags (SF .| ZF .| AF .| CF .| PF).

(** The computation of [das] on AL and the flags. *)
Definition das_compute (al flags : Z) : Z * Z :=
  let '(al, flags) :=
    if (9 <? al .& 0x0f) || nz (flags .& AF) then
      let tmp := u16 (al - 6) in
      let al := u16 (tmp .& 0xff) in
      let flags := u16 (flags .| AF) in
      (al, or_flag (nz (tmp .& 0xff00)) CF flags)
    else (al, u16 (flags .& ~. AF)) in
  let '(al, flags) :=
    if (0x9f <? al) || nz (flags .& CF) then (u16 (al - 0x60), u16 (flags .| CF))
    else (al, u16 (flags .& ~. CF)) in
  let flags := or_flag (nz (al .& 0x80)) SF flags in
  let flags := or_flag (al =? 0) ZF flags in
  (al, or_flag (negb (builtin_parity al)) PF flags).

Definition das2f : emu D unit :=
  flags ← registers_get_flags ;
  al ← registers_get AL ;
  ah ← registers_get AH ;
  let '(al, flags) := das_compute al flags in
  registers_set AL al ;;
  registers_set AH ah ;;
  registers_set_flags flags (SF .| ZF .| AF .| CF .| PF).

Definition aamd4 : emu D unit :=
  divisor ← fetch_byte ;
  if divisor =? 0 then
    flags ← registers_get_flags ;
    push_word flags ;;
    cs ← registers_get CS ;
    push_word cs ;;
    ip ← registers_get IP ;
    push_word ip ;;
    let flags := u16 (flags .& ~. (IF .| TF)) in
    registers_set_flags flags (IF .| TF) ;;
    new_cs ← mem_read uint16_t (VEC_DIVIDE_ERROR + 2) ;
    new_ip ← mem_read uint16_t (VEC_DIVIDE_ERROR + 0) ;
    registers_set CS new_cs ;;
    registers_set IP new_ip ;;
    modify (set_jump_taken true)
  else
    al ← registers_get AL ;
    let quotient := Z.quot al divisor in
    let remainder := Z.rem al divisor in
    registers_set AH quotient ;;
    registers_set AL remainder ;;
    flags ← registers_get_flags ;
    let flags := u16 (flags .& ~. (PF .| SF .| ZF)) in
    ax ← registers_get AX ;
    al ← registers_get AL ;
    let flags := or_flag (negb (nz (ax .& 0xffff))) ZF flags in
    let flags := or_flag (negb (builtin_parity (al .& 0xff))) PF flags in
    let flags := or_flag (nz (ax .& 0x8000)) SF flags in
    registers_set_flags flags (SF .| ZF .| PF).

Definition aadd5 : emu D unit :=
  flags ← registers_get_flags ;
  al ← registers_get AL ;
  ah ← registers_get AH ;
  b ← fetch_byte ;
  let v := u16 (al + ah * b) in
  let flags := or_flag (nz (v .& 0x8000)) SF flags in
  let flags := or_flag (v =? 0) ZF flags in
  let flags := or_flag (negb (builtin_parity (v .& 0xff))) PF flags in
  registers_set AL v ;;
  registers_set AH 0 ;;
  registers_set_flags flags (SF .| ZF .| PF).

End bcd_instructions.
