(* ===== verification/InsnMulDiv.v ===== *)
(** * Multiplication and division: [mul.cpp], [imul.cpp] and [div.cpp] of
    [sim/cppmodel/instructions]. *)
From S2P Require Import Prelude Config MainMemory Registers ErrorState IOPorts Machine ModRM Core Alu.

Section muldiv_instructions.
Context {CFG : Config} {D : Type} {IOP : IOPorts D}.

(** ** mul *)

Definition mulf6 : emu D unit :=
  v1 ← read_data uint8_t false ;
  v2 ← registers_get AL ;
  '(flags, result) ← do_mul uint16_t v1 v2 ;
  let flags := u16 (flags .& ~. (CF .| OF .| ZF)) in
  let flags := or_flag (nz (result .& 0xff00)) (CF .| OF) flags in
  registers_set AX result ;;
  registers_set_flags flags (OF .| CF .| ZF).

Definition mulf7 : emu D unit :=
  v1 ← read_data uint16_t false ;
  v2 ← registers_get AX ;
  '(flags, result) ← do_mul uint32_t v1 v2 ;
  let flags := u16 (flags .& ~. (CF .| OF .| ZF)) in
  let flags := or_flag (nz (result .& 0xffff0000)) (CF .| OF) flags in
  registers_set AX (result .& 0xffff) ;;
  registers_set DX ((result .>> 16) .& 0xffff) ;;
  registers_set_flags flags (OF .| CF .| ZF).

(** ** imul *)

Definition imulf6 : emu D unit :=
  old_flags ← registers_get_flags ;
  v1 ← sign_extend int16_t uint8_t <$> read_data uint8_t false ;
  v2 ← sign_extend int16_t uint8_t <$> registers_get AL ;
  '(_, result) ← do_mul int16_t v1 v2 ;
  let result := u16 result in
  let flags := u16 (old_flags .& ~. (CF .| OF .| ZF)) in
  let flags := or_flag (nz (result .& 0xff00)) (CF .| OF) flags in
  registers_set AX result ;;
  registers_set_flags flags (OF .| CF .| ZF).

Definition imulf7 : emu D unit :=
  old_flags ← registers_get_flags ;
  v1 ← sign_extend int32_t uint16_t <$> read_data uint16_t false ;
  v2 ← sign_extend int32_t uint16_t <$> registers_get AX ;
  '(_, result) ← do_mul int32_t v1 v2 ;
  let result := u32 result in
  let flags := u16 (old_flags .& ~. (CF .| OF .| ZF)) in
  let flags := or_flag (nz (result .& 0xffff0000)) (CF .| OF) flags in
  registers_set AX (result .& 0xffff) ;;
  registers_set DX ((result .>> 16) .& 0xffff) ;;
  registers_set_flags flags (OF .| CF .| ZF).

Definition imul69 : emu D unit :=
  set_width OP_WIDTH_16 ;;
  decode ;;
  old_flags ← registers_get_flags ;
  v1 ← sign_extend int32_t int16_t <$> read_data uint16_t false ;
  v2 ← sign_extend int32_t int16_t <$> fetch_16bit ;
  '(_, result) ← do_mul int32_t v1 v2 ;
  let result := u32 result in
  let flags := u16 (old_flags .& ~. (CF .| OF .| ZF)) in
  let flags := or_flag (nz (result .& 0xffff0000)) (CF .| OF) flags in
  r ← reg ;
  registers_set r (result .& 0xffff) ;;
  registers_set_flags flags (OF .| CF .| ZF).

Definition imul6b : emu D unit :=
  set_width OP_WIDTH_16 ;;
  decode ;;
  old_flags ← registers_get_flags ;
  v1 ← sign_extend int32_t int16_t <$> read_data uint16_t false ;
  v2 ← sign_extend int32_t int8_t <$> fetch_byte ;
  '(_, result) ← do_mul int32_t v1 v2 ;
  let result := u32 result in
  let flags := u16 (old_flags .& ~. (CF .| OF .| ZF)) in
  let flags := or_flag (nz (result .& 0xffff0000)) (CF .| OF) flags in
  r ← reg ;
  registers_set r (result .& 0xffff) ;;
  registers_set_flags flags (OF .| CF .| ZF).

(** ** div and idiv *)

Definition divf6 : emu D unit :=
  divisor ← read_data uint8_t false ;
  dividend ← registers_get AX ;
  if (divisor =? 0) || nz (Z.quot dividend divisor .& 0xff00) then
    flags ← registers_get_flags ;
    push_word flags ;;
    cs ← registers_get CS ;
    push_word cs ;;
    ip ← registers_get IP ;
    push_word ip ;;
    let flags := u16 (flags .& ~. (IF .| TF)) in
    registers_set_flags flags (IF .| TF) ;;
    new_cs ← mem_read uint16_t (VEC_DIVIDE_ERROR + 2) ;
    new_ip ← mem_read uint16_t (VEC_DIVIDE_ERROR + 0) ;
    registers_set CS new_cs ;;
    registers_set IP new_ip ;;
    modify (set_jump_taken true)
  else
    let quotient := u8 (Z.quot dividend divisor) in
    let remainder := u8 (Z.rem dividend divisor) in
    registers_set AH remainder ;;
    registers_set AL quotient.

Definition divf7 : emu D unit :=
  divisor ← read_data uint16_t false ;
  dx ← registers_get DX ;
  ax ← registers_get AX ;
  let dividend := u32 (u32 (u32 dx .<< 16) .| ax) in
  if (divisor =? 0) || nz (Z.quot dividend divisor .& 0xffff0000) then
    flags ← registers_get_flags ;
    push_word flags ;;
    cs ← registers_get CS ;
    push_word cs ;;
    ip ← registers_get IP ;
    push_word ip ;;
    let flags := u16 (flags .& ~. (IF .| TF)) in
    registers_set_flags flags (IF .| TF) ;;
    new_cs ← mem_read uint16_t (VEC_DIVIDE_ERROR + 2) ;
    new_ip ← mem_read uint16_t (VEC_DIVIDE_ERROR + 0) ;
    registers_set CS new_cs ;;
    registers_set IP new_ip ;;
    modify (set_jump_taken true)
  else
    let quotient := u16 (Z.quot dividend divisor) in
    let remainder := u16 (Z.rem dividend divisor) in
    registers_set DX remainder ;;
    registers_set AX quotient.

Definition idivf6 : emu D unit :=
  divisor ← s8 <$> read_data uint8_t false ;
  dividend ← s16 <$> registers_get AX ;
  if (divisor =? 0) || (Z.quot dividend divisor <? -128) ||
     (127 <? Z.quot dividend divisor) then
    flags ← registers_get_flags ;
    push_word flags ;;
    cs ← registers_get CS ;
    push_word cs ;;
    ip ← registers_get IP ;
    push_word ip ;;
    let flags := u16 (flags .& ~. (IF .| TF)) in
    registers_set_flags flags (IF .| TF) ;;
    new_cs ← mem_read uint16_t (VEC_DIVIDE_ERROR + 2) ;
    new_ip ← mem_read uint16_t (VEC_DIVIDE_ERROR + 0) ;
    registers_set CS new_cs ;;
    registers_set IP new_ip ;;
    modify (set_jump_taken true)
  else
    let quotient := s8 (Z.quot dividend divisor) in
    let remainder := s8 (Z.rem dividend divisor) in
    registers_set AH remainder ;;
    registers_set AL quotient.

(** [a / b] on [int]: [INT_MIN / -1] does not fit, and has no meaning in C++. *)
Definition int_div (a b : Z) : emu D Z :=
  if (a =? -2147483648) && (b =? -1) then throw SignedOverflow else mret (Z.quot a b).

Definition idivf7 : emu D unit :=
  divisor ← s16 <$> read_data uint16_t false ;
  dx ← registers_get DX ;
  ax ← registers_get AX ;
  let dividend := s32 (u32 (u32 dx .<< 16) .| ax) in
  traps ←
    (if divisor =? 0 then mret true
     else
       q ← int_div dividend divisor ;
       if q <? -32768 then mret true
       else
         q ← int_div dividend divisor ;
         mret (32767 <? q)) ;
  if traps : bool then
    flags ← registers_get_flags ;
    push_word flags ;;
    cs ← registers_get CS ;
    push_word cs ;;
    ip ← registers_get IP ;
    push_word ip ;;
    let flags := u16 (flags .& ~. (IF .| TF)) in
    registers_set_flags flags (IF .| TF) ;;
    new_cs ← mem_read uint16_t (VEC_DIVIDE_ERROR + 2) ;
    new_ip ← mem_read uint16_t (VEC_DIVIDE_ERROR + 0) ;
    registers_set CS new_cs ;;
    registers_set IP new_ip ;;
    modify (set_jump_taken true)
  else
    let quotient := s16 (Z.quot dividend divisor) in
    let remainder := s16 (Z.rem dividend divisor) in
    registers_set DX remainder ;;
    registers_set AX quotient.

End muldiv_instructions.
