(* ===== verification/InsnShift.v ===== *)
(** * Shifts and rotates: [shl.cpp], [shr.cpp], [sar.cpp], [rol.cpp], [ror.cpp],
    [rcl.cpp] and [rcr.cpp] of [sim/cppmodel/instructions]. *)
From S2P Require Import Prelude Config MainMemory Registers ErrorState IOPorts Machine ModRM Core Alu.

Section shifts.

(** [sizeof(T) * 8]. *)
Definition bits (T : ctype) : Z := sizeof T * 8.

(** [T sign_bit = 0x80 << (8 * (sizeof(T) - 1))]. *)
Definition sign_bit (T : ctype) : Z := cast T (0x80 .<< (8 * (sizeof T - 1))).

(** [for (int i = 0; i < count; ++i)] over the flags and the value. *)
Definition for_count (count : Z) (body : Z * Z -> Z * Z) (init : Z * Z) : Z * Z :=
  Nat.iter (Z.to_nat count) body init.

(** [flags &= ~CF; if (b) flags |= CF]. *)
Definition replace_CF (b : bool) (flags : Z) : Z := or_flag b CF (u16 (flags .& ~. CF)).

Definition do_shl (T : ctype) (v count : Z) : Z * Z :=
  let flags := 0 in
  let overflow_test_bits := cast T ((v .>> (8 * sizeof T - 2)) .& 3) in
  let flags := or_flag ((overflow_test_bits =? 1) || (overflow_test_bits =? 2)) OF flags in
  let '(flags, v) :=
    for_count count
      (fun '(flags, v) => (replace_CF (nz (v .& sign_bit T)) flags, cast T (v .<< 1)))
      (flags, v) in
  let flags := or_flag (v =? 0) ZF flags in
  let flags := or_flag (negb (builtin_parity (v .& 0xff))) PF flags in
  let flags := or_flag (nz (v .& sign_bit T)) SF flags in
  (flags, v).

Definition do_shr (T : ctype) (v count : Z) : Z * Z :=
  let flags := 0 in
  let flags := or_flag (nz (v .& sign_bit T)) OF flags in
  let '(flags, v) :=
    for_count count
      (fun '(flags, v) => (replace_CF (nz (v .& 0x1)) flags, cast T (v .>> 1)))
      (flags, v) in
  let flags := or_flag (v =? 0) ZF flags in
  let flags := or_flag (negb (builtin_parity (v .& 0xff))) PF flags in
  (flags, v).

Definition do_sar (T : ctype) (v count : Z) : Z * Z :=
  let flags := 0 in
  let is_negative := nz (v .& sign_bit T) in
  let '(flags, v) :=
    for_count count
      (fun '(flags, v) =>
         let flags := replace_CF (nz (v .& 0x1)) flags in
         let v := cast T (v .>> 1) in
         (flags, if is_negative then cast T (v .| sign_bit T) else v))
      (flags, v) in
  let flags := or_flag (v =? 0) ZF flags in
  let flags := or_flag (negb (builtin_parity (v .& 0xff))) PF flags in
  let flags := or_flag (nz (v .& sign_bit T)) SF flags in
  (flags, v).

Definition do_rol (T : ctype) (v count : Z) : Z * Z :=
  let flags := 0 in
  let '(flags, v) :=
    for_count (count .& 0x1f)
      (fun '(flags, v) =>
         let sign_bit_set := nz (v .& sign_bit T) in
         let flags := replace_CF (nz (v .& sign_bit T)) flags in
         let v := cast T (v .<< 1) in
         (flags, cast T (v + Z.b2z sign_bit_set)))
      (flags, v) in
  let flags := or_flag (xorb (nz (flags .& CF)) (nz (v .& sign_bit T))) OF flags in
  (flags, v).

Definition do_ror (T : ctype) (v count : Z) : Z * Z :=
  let flags := 0 in
  let '(flags, v) :=
    for_count count
      (fun '(flags, v) =>
         let flags := replace_CF (nz (v .& 0x1)) flags in
         let lsb := cast T (v .& 1) in
         let v := cast T (v .>> 1) in
         (flags, cast T (v + (lsb .<< (bits T - 1)))))
      (flags, v) in
  let msbs := cast T ((v .>> (bits T - 2)) .& 0x3) in
  let flags := or_flag ((msbs =? 2) || (msbs =? 1)) OF flags in
  (flags, v).

Definition do_rcl (T : ctype) (v count : Z) (carry_in : bool) : Z * Z :=
  let flags := if carry_in then CF else 0 in
  let '(flags, v) :=
    for_count (count .& 0x1f)
      (fun '(flags, v) =>
         let carry_bit_set := nz (flags .& CF) in
         let flags := replace_CF (nz (v .& sign_bit T)) flags in
         let v := cast T (v .<< 1) in
         (flags, cast T (v + Z.b2z carry_bit_set)))
      (flags, v) in
  let flags := or_flag (xorb (nz (flags .& CF)) (nz (v .& sign_bit T))) OF flags in
  (flags, v).

Definition do_rcr (T : ctype) (v count : Z) (carry_in : bool) : Z * Z :=
  let flags := if carry_in then CF else 0 in
  let '(flags, v) :=
    for_count (count .& 0x1f)
      (fun '(flags, v) =>
         let carry_bit_set := nz (flags .& CF) in
         let flags := u16 (flags .& ~. CF) in
         let lsb := cast T (v .& 1) in
         let v := cast T (v .>> 1) in
         let v := cast T (v + (cast T (Z.b2z carry_bit_set) .<< (bits T - 1))) in
         (or_flag (nz lsb) CF flags, v))
      (flags, v) in
  let msbs := cast T ((v .>> (bits T - 2)) .& 0x3) in
  let flags := or_flag ((msbs =? 2) || (msbs =? 1)) OF flags in
  (flags, v).

End shifts.

Section shift_instructions.
Context {CFG : Config} {D : Type} {IOP : IOPorts D}.

(** ** shl *)

Definition shlc0 : emu D unit :=
  v ← read_data uint8_t false ;
  count ← fetch_byte ;
  if count .& 0x1f =? 0 then mret ()
  else
    let '(flags, v) := do_shl uint8_t v (count .& 0x1f) in
    write_data uint8_t v false ;;
    registers_set_flags flags (CF .| ZF .| PF .| SF).

Definition shlc1 : emu D unit :=
  v ← read_data uint16_t false ;
  count ← fetch_byte ;
  if count .& 0x1f =? 0 then mret ()
  else
    let '(flags, v) := do_shl uint16_t v (count .& 0x1f) in
    write_data uint16_t v false ;;
    registers_set_flags flags (CF .| ZF .| PF .| SF).

Definition shld0 : emu D unit :=
  v ← read_data uint8_t false ;
  let '(flags, v) := do_shl uint8_t v 1 in
  write_data uint8_t v false ;;
  registers_set_flags flags (OF .| CF .| ZF .| PF .| SF).

Definition shld1 : emu D unit :=
  v ← read_data uint16_t false ;
  let '(flags, v) := do_shl uint16_t v 1 in
  write_data uint16_t v false ;;
  registers_set_flags flags (CF .| OF .| ZF .| PF .| SF).

Definition shld2 : emu D unit :=
  v ← read_data uint8_t false ;
  cl ← registers_get CL ;
  if cl =? 0 then mret ()
  else
    let '(flags, v) := do_shl uint8_t v cl in
    write_data uint8_t v false ;;
    registers_set_flags flags (CF .| ZF .| PF .| SF).

Definition shld3 : emu D unit :=
  v ← read_data uint16_t false ;
  cl ← registers_get CL ;
  if cl =? 0 then mret ()
  else
    let '(flags, v) := do_shl uint16_t v cl in
    write_data uint16_t v false ;;
    registers_set_flags flags (CF .| ZF .| PF .| SF).

(** ** shr *)

Definition shrc0 : emu D unit :=
  v ← read_data uint8_t false ;
  count ← fetch_byte ;
  if count .& 0x1f =? 0 then mret ()
  else
    let '(flags, v) := do_shr uint8_t v (count .& 0x1f) in
    write_data uint8_t v false ;;
    registers_set_flags flags (CF .| ZF .| PF .| SF).

Definition shrc1 : emu D unit :=
  v ← read_data uint16_t false ;
  count ← fetch_byte ;
  if count .& 0x1f =? 0 then mret ()
  else
    let '(flags, v) := do_shr uint16_t v (count .& 0x1f) in
    write_data uint16_t v false ;;
    registers_set_flags flags (CF .| ZF .| PF .| SF).

Definition shrd0 : emu D unit :=
  v ← read_data uint8_t false ;
  let '(flags, v) := do_shr uint8_t v 1 in
  write_data uint8_t v false ;;
  registers_set_flags flags (OF .| CF .| ZF .| PF .| SF).

Definition shrd1 : emu D unit :=
  v ← read_data uint16_t false ;
  let '(flags, v) := do_shr uint16_t v 1 in
  write_data uint16_t v false ;;
  registers_set_flags flags (OF .| CF .| ZF .| PF .| SF).

Definition shrd2 : emu D unit :=
  v ← read_data uint8_t false ;
  cl ← registers_get CL ;
  if cl =? 0 then mret ()
  else
    let '(flags, v) := do_shr uint8_t v cl in
    write_data uint8_t v false ;;
    registers_set_flags flags (CF .| ZF .| PF .| SF).

Definition shrd3 : emu D unit :=
  v ← read_data uint16_t false ;
  cl ← registers_get CL ;
  if cl =? 0 then mret ()
  else
    let '(flags, v) := do_shr uint16_t v cl in
    write_data uint16_t v false ;;
    registers_set_flags flags (CF .| ZF .| PF .| SF).

(** ** sar *)

Definition sarc0 : emu D unit :=
  v ← read_data uint8_t false ;
  count ← fetch_byte ;
  if count .& 0x1f =? 0 then mret ()
  else
    let '(flags, v) := do_sar uint8_t v (count .& 0x1f) in
    write_data uint8_t v false ;;
    registers_set_flags flags (CF .| ZF .| PF .| SF).

Definition sarc1 : emu D unit :=
  v ← read_data uint16_t false ;
  count ← fetch_byte ;
  if count .& 0x1f =? 0 then mret ()
  else
    let '(flags, v) := do_sar uint16_t v (count .& 0x1f) in
    write_data uint16_t v false ;;
    registers_set_flags flags (CF .| ZF .| PF .| SF).

Definition sard0 : emu D unit :=
  v ← read_data uint8_t false ;
  let '(flags, v) := do_sar uint8_t v 1 in
  write_data uint8_t v false ;;
  registers_set_flags flags (OF .| CF .| ZF .| PF .| SF).

Definition sard1 : emu D unit :=
  v ← read_data uint16_t false ;
  let '(flags, v) := do_sar uint16_t v 1 in
  write_data uint16_t v false ;;
  registers_set_flags flags (OF .| CF .| ZF .| PF .| SF).

Definition sard2 : emu D unit :=
  v ← read_data uint8_t false ;
  cl ← registers_get CL ;
  if cl =? 0 then mret ()
  else
    let '(flags, v) := do_sar uint8_t v cl in
    write_data uint8_t v false ;;
    registers_set_flags flags (CF .| ZF .| PF .| SF).

Definition sard3 : emu D unit :=
  v ← read_data uint16_t false ;
  cl ← registers_get CL ;
  if cl =? 0 then mret ()
  else
    let '(flags, v) := do_sar uint16_t v cl in
    write_data uint16_t v false ;;
    registers_set_flags flags (CF .| ZF .| PF .| SF).

(** ** rol *)

Definition rolc0 : emu D unit :=
  v ← read_data uint8_t false ;
  count ← fetch_byte ;
  if count .& 0x1f =? 0 then mret ()
  else
    let '(flags, v) := do_rol uint8_t v (count .& 0x1f) in
    write_data uint8_t v false ;;
    registers_set_flags flags (CF).

Definition rolc1 : emu D unit :=
  v ← read_data uint16_t false ;
  count ← fetch_byte ;
  if count .& 0x1f =? 0 then mret ()
  else
    let '(flags, v) := do_rol uint16_t v (count .& 0x1f) in
    write_data uint16_t v false ;;
    registers_set_flags flags (CF).

Definition rold0 : emu D unit :=
  v ← read_data uint8_t false ;
  let '(flags, v) := do_rol uint8_t v 1 in
  write_data uint8_t v false ;;
  registers_set_flags flags (CF .| OF).

Definition rold1 : emu D unit :=
  v ← read_data uint16_t false ;
  let '(flags, v) := do_rol uint16_t v 1 in
  write_data uint16_t v false ;;
  registers_set_flags flags (CF .| OF).

Definition rold2 : emu D unit :=
  v ← read_data uint8_t false ;
  cl ← registers_get CL ;
  if cl =? 0 then mret ()
  else
    let '(flags, v) := do_rol uint8_t v cl in
    write_data uint8_t v false ;;
    registers_set_flags flags (CF).

Definition rold3 : emu D unit :=
  v ← read_data uint16_t false ;
  cl ← registers_get CL ;
  if cl =? 0 then mret ()
  else
    let '(flags, v) := do_rol uint16_t v cl in
    write_data uint16_t v false ;;
    registers_set_flags flags (CF).

(** ** rcl *)

Definition rclc0 : emu D unit :=
  v ← read_data uint8_t false ;
  count ← fetch_byte ;
  if count .& 0x1f =? 0 then mret ()
  else
    cf ← registers_get_flag CF ;
    let '(flags, v) := do_rcl uint8_t v (count .& 0x1f) cf in
    write_data uint8_t v false ;;
    registers_set_flags flags (CF).

Definition rclc1 : emu D unit :=
  v ← read_data uint16_t false ;
  count ← fetch_byte ;
  if count .& 0x1f =? 0 then mret ()
  else
    cf ← registers_get_flag CF ;
    let '(flags, v) := do_rcl uint16_t v (count .& 0x1f) cf in
    write_data uint16_t v false ;;
    registers_set_flags flags (CF).

Definition rcld0 : emu D unit :=
  v ← read_data uint8_t false ;
  cf ← registers_get_flag CF ;
  let '(flags, v) := do_rcl uint8_t v 1 cf in
  write_data uint8_t v false ;;
  registers_set_flags flags (CF .| OF).

Definition rcld1 : emu D unit :=
  v ← read_data uint16_t false ;
  cf ← registers_get_flag CF ;
  let '(flags, v) := do_rcl uint16_t v 1 cf in
  write_data uint16_t v false ;;
  registers_set_flags flags (CF .| OF).

Definition rcld2 : emu D unit :=
  v ← read_data uint8_t false ;
  cl ← registers_get CL ;
  if cl =? 0 then mret ()
  else
    cf ← registers_get_flag CF ;
    let '(flags, v) := do_rcl uint8_t v cl cf in
    write_data uint8_t v false ;;
    registers_set_flags flags (CF).

Definition rcld3 : emu D unit :=
  v ← read_data uint16_t false ;
  cl ← registers_get CL ;
  if cl =? 0 then mret ()
  else
    cf ← registers_get_flag CF ;
    let '(flags, v) := do_rcl uint16_t v cl cf in
    write_data uint16_t v false ;;
    registers_set_flags flags (CF).

(** ** ror *)

Definition rorc0 : emu D unit :=
  v ← read_data uint8_t false ;
  count ← fetch_byte ;
  if count .& 0x1f =? 0 then mret ()
  else
    let '(flags, v) := do_ror uint8_t v (count .& 0x1f) in
    write_data uint8_t v false ;;
    registers_set_flags flags (CF).

Definition rorc1 : emu D unit :=
  v ← read_data uint16_t false ;
  count ← fetch_byte ;
  if count .& 0x1f =? 0 then mret ()
  else
    let '(flags, v) := do_ror uint16_t v (count .& 0x1f) in
    write_data uint16_t v false ;;
    registers_set_flags flags (CF).

Definition rord0 : emu D unit :=
  v ← read_data uint8_t false ;
  let '(flags, v) := do_ror uint8_t v 1 in
  write_data uint8_t v false ;;
  registers_set_flags flags (CF .| OF).

Definition rord1 : emu D unit :=
  v ← read_data uint16_t false ;
  let '(flags, v) := do_ror uint16_t v 1 in
  write_data uint16_t v false ;;
  registers_set_flags flags (CF .| OF).

Definition rord2 : emu D unit :=
  v ← read_data uint8_t false ;
  cl ← registers_get CL ;
  if cl =? 0 then mret ()
  else
    let '(flags, v) := do_ror uint8_t v cl in
    write_data uint8_t v false ;;
    registers_set_flags flags (CF).

Definition rord3 : emu D unit :=
  v ← read_data uint16_t false ;
  cl ← registers_get CL ;
  if cl =? 0 then mret ()
  else
    let '(flags, v) := do_ror uint16_t v cl in
    write_data uint16_t v false ;;
    registers_set_flags flags (CF).

(** ** rcr *)

Definition rcrc0 : emu D unit :=
  v ← read_data uint8_t false ;
  count ← fetch_byte ;
  if count .& 0x1f =? 0 then mret ()
  else
    cf ← registers_get_flag CF ;
    let '(flags, v) := do_rcr uint8_t v (count .& 0x1f) cf in
    write_data uint8_t v false ;;
    registers_set_flags flags (CF).

Definition rcrc1 : emu D unit :=
  v ← read_data uint16_t false ;
  count ← fetch_byte ;
  if count .& 0x1f =? 0 then mret ()
  else
    cf ← registers_get_flag CF ;
    let '(flags, v) := do_rcr uint16_t v (count .& 0x1f) cf in
    write_data uint16_t v false ;;
    registers_set_flags flags (CF).

Definition rcrd0 : emu D unit :=
  v ← read_data uint8_t false ;
  cf ← registers_get_flag CF ;
  let '(flags, v) := do_rcr uint8_t v 1 cf in
  write_data uint8_t v false ;;
  registers_set_flags flags (CF .| OF).

Definition rcrd1 : emu D unit :=
  v ← read_data uint16_t false ;
  cf ← registers_get_flag CF ;
  let '(flags, v) := do_rcr uint16_t v 1 cf in
  write_data uint16_t v false ;;
  registers_set_flags flags (CF .| OF).

Definition rcrd2 : emu D unit :=
  v ← read_data uint8_t false ;
  cl ← registers_get CL ;
  if cl =? 0 then mret ()
  else
    cf ← registers_get_flag CF ;
    let '(flags, v) := do_rcr uint8_t v cl cf in
    write_data uint8_t v false ;;
    registers_set_flags flags (CF).

Definition rcrd3 : emu D unit :=
  v ← read_data uint16_t false ;
  cl ← registers_get CL ;
  if cl =? 0 then mret ()
  else
    cf ← registers_get_flag CF ;
    let '(flags, v) := do_rcr uint16_t v cl cf in
    write_data uint16_t v false ;;
    registers_set_flags flags (CF).

End shift_instructions.
