(* ===== verification/ShiftProps.v ===== *)
(** * Shifts and rotates in closed form *)
From S2P Require Import Prelude Config MainMemory Registers ErrorState IOPorts Machine ModRM Core.
From S2P Require Import Safety Decoder Bench Alu AluProps InsnShift.

(** ** Loops *)

Lemma for_count_0 body x : for_count 0 body x = x.
Proof. done. Qed.

Lemma for_count_succ n body x : 0 <= n -> for_count (n + 1) body x = body (for_count n body x).
Proof. intros Hn. unfold for_count. by rewrite Z.add_1_r, Z2Nat.inj_succ by done. Qed.

(** A loop that keeps an invariant indexed by the turns made. *)
Lemma for_count_ind (P : Z -> Z * Z -> Prop) body x n :
  0 <= n -> P 0 x -> (forall k y, 0 <= k < n -> P k y -> P (k + 1) (body y)) ->
  P n (for_count n body x).
Proof.
  intros Hn H0 Hs. assert (forall k, 0 <= k -> k <= n -> P k (for_count k body x)) as H; [|auto with lia].
  apply (natlike_ind (fun k => k <= n -> P k (for_count k body x))); [done|].
  intros k Hk IH Hle. rewrite <- Z.add_1_r, for_count_succ by done. apply Hs; [lia|]. apply IH. lia.
Qed.

Lemma sign_bit_eq T : alu_width T -> sign_bit T = 2 ^ (width T - 1).
Proof. by intros [->| ->]. Qed.

Lemma nz_sign T v : alu_width T -> nz (v .& sign_bit T) = Z.testbit v (width T - 1).
Proof.
  intros HT. rewrite sign_bit_eq by done. apply nz_land_bit; [by destruct HT as [->| ->]|done].
Qed.

Lemma nz_low v : nz (v .& 0x1) = Z.testbit v 0.
Proof. by apply nz_land_bit. Qed.

(** The flags of a shift: the last bit out in CF, the others over [OF] or none. *)
Definition shift_flags (cf zf pf sf of_ : bool) : Z :=
  or_flag sf SF (or_flag pf PF (or_flag zf ZF (replace_CF cf (or_flag of_ OF 0)))).

Lemma shift_flags_spec cf zf pf sf of_ :
  let f := shift_flags cf zf pf sf of_ in
  nz (f .& CF) = cf /\ nz (f .& ZF) = zf /\ nz (f .& PF) = pf /\ nz (f .& SF) = sf /\
  nz (f .& OF) = of_.
Proof. by destruct cf, zf, pf, sf, of_. Qed.

Lemma parity_low v : negb (builtin_parity (v .& 0xff)) = even_ones v.
Proof. exact (parity_even_ones v). Qed.

Lemma testbit_cast_alu T x i :
  alu_width T -> 0 <= i -> Z.testbit (cast T x) i = (i <? width T) && Z.testbit x i.
Proof. intros [->| ->]; by apply cast_u_testbit. Qed.

(** ** Shifts *)

(** C13, left. *)
Lemma shl_loop T v n fl :
  alu_width T -> in_range T v -> 0 <= n -> fl = 0 \/ fl = OF ->
  for_count n
    (fun '(flags, v) => (replace_CF (nz (v .& sign_bit T)) flags, cast T (v .<< 1))) (fl, v) =
  (if n =? 0 then fl else replace_CF (Z.testbit v (width T - n)) fl, (v * 2 ^ n) mod 2 ^ width T).
Proof.
  intros HT Hv Hn Hfl. apply (for_count_ind (fun k y =>
    y = (if k =? 0 then fl else replace_CF (Z.testbit v (width T - k)) fl,
         (v * 2 ^ k) mod 2 ^ width T))).
  - done.
  - rewrite Z.pow_0_r, Z.mul_1_r, Z.mod_small by by apply alu_range. done.
  - intros k [f x] Hk [= -> ->]. assert (Hw : 0 <= width T - 1) by by destruct HT as [->| ->].
    replace (k + 1 =? 0) with false by (symmetry; apply Z.eqb_neq; lia).
    rewrite nz_sign, Z.mod_pow2_bits_low by (done || lia).
    rewrite Z.mul_pow2_bits by lia. f_equal.
    + replace (width T - 1 - k) with (width T - (k + 1)) by lia.
      destruct (k =? 0); [done|]. destruct Hfl as [->| ->]; by repeat case_match || destruct (Z.testbit _ _).
    + rewrite cast_alu, Z.shiftl_mul_pow2 by done.
      rewrite Z.mul_mod_idemp_l by by destruct HT as [->| ->].
      rewrite Z.pow_add_r by lia. f_equal. lia.
Qed.

Lemma shr_loop T v n fl :
  alu_width T -> in_range T v -> 0 <= n -> fl = 0 \/ fl = OF ->
  for_count n
    (fun '(flags, v) => (replace_CF (nz (v .& 0x1)) flags, cast T (v .>> 1))) (fl, v) =
  (if n =? 0 then fl else replace_CF (Z.testbit v (n - 1)) fl, v / 2 ^ n).
Proof.
  intros HT Hv Hn Hfl. pose proof (alu_range T v HT Hv) as Hr.
  apply (for_count_ind (fun k y =>
    y = (if k =? 0 then fl else replace_CF (Z.testbit v (k - 1)) fl, v / 2 ^ k))).
  - done.
  - by rewrite Z.pow_0_r, Z.div_1_r.
  - intros k [f x] Hk [= -> ->].
    replace (k + 1 =? 0) with false by (symmetry; apply Z.eqb_neq; lia).
    rewrite nz_low, Z.div_pow2_bits by lia. f_equal.
    + rewrite Z.add_0_l, Z.add_simpl_r.
      destruct (k =? 0); [done|]. destruct Hfl as [->| ->]; by repeat case_match || destruct (Z.testbit _ _).
    + rewrite cast_alu, Z.shiftr_div_pow2 by done.
      rewrite Z.div_div, <- Z.pow_add_r by lia. apply Z.mod_small.
      split; [apply Z.div_pos; lia|]. apply Z.div_lt_upper_bound; [lia|].
      assert (1 <= 2 ^ (k + 1)) by (apply (Z.pow_le_mono_r 2 0); lia). nia.
Qed.

Lemma signed_testbit T v i :
  alu_width T -> in_range T v -> 0 <= i ->
  Z.testbit (signed (width T) v) i =
    if i <? width T then Z.testbit v i else Z.testbit v (width T - 1).
Proof.
  intros HT Hv Hi. pose proof (alu_range T v HT Hv) as Hr. unfold signed.
  assert (Hw : 0 <= width T - 1) by by destruct HT as [->| ->].
  assert (E : 2 ^ width T = 2 * 2 ^ (width T - 1)) by by destruct HT as [->| ->].
  assert (Htop : Z.testbit v (width T - 1) = (2 ^ (width T - 1) <=? v)).
  { rewrite testbit_div by done. destruct HT as [->| ->]; pow_consts;
      change (2 ^ (width uint8_t - 1)) with 128 in *;
      change (2 ^ (width uint16_t - 1)) with 32768 in *;
      change (2 ^ width uint8_t) with 256 in *; change (2 ^ width uint16_t) with 65536 in *; zdecide. }
  rewrite Htop. destruct (Z.leb_spec (2 ^ (width T - 1)) v).
  - replace (v - 2 ^ width T) with (-1 * 2 ^ width T + v) by lia.
    rewrite testbit_concat by lia. destruct (Z.ltb_spec i (width T)); [done|].
    by rewrite Z.bits_m1 by lia.
  - destruct (Z.ltb_spec i (width T)); [done|]. by apply (testbit_high (width T)).
Qed.

Lemma sar_loop T v n fl :
  alu_width T -> in_range T v -> 0 <= n -> fl = 0 \/ fl = OF ->
  for_count n
    (fun '(flags, v0) =>
       let flags := replace_CF (nz (v0 .& 0x1)) flags in
       let v1 := cast T (v0 .>> 1) in
       (flags, if nz (v .& sign_bit T) then cast T (v1 .| sign_bit T) else v1)) (fl, v) =
  (if n =? 0 then fl else replace_CF (Z.testbit (signed (width T) v) (n - 1)) fl,
   (signed (width T) v / 2 ^ n) mod 2 ^ width T).
Proof.
  intros HT Hv Hn Hfl. pose proof (alu_range T v HT Hv) as Hr. set (s := signed (width T) v).
  assert (Hw : 0 <= width T - 1) by by destruct HT as [->| ->].
  apply (for_count_ind (fun k y =>
    y = (if k =? 0 then fl else replace_CF (Z.testbit s (k - 1)) fl, (s / 2 ^ k) mod 2 ^ width T))).
  - done.
  - rewrite Z.pow_0_r, Z.div_1_r. f_equal. unfold s, signed. case_match.
    + rewrite <- (Z.mod_add _ 1), Z.mul_1_l, Z.sub_add by lia. by rewrite Z.mod_small.
    + by rewrite Z.mod_small.
  - intros k [f x] Hk [= -> ->].
    replace (k + 1 =? 0) with false by (symmetry; apply Z.eqb_neq; lia). cbv zeta.
    rewrite nz_low, Z.mod_pow2_bits_low, Z.div_pow2_bits by lia. f_equal.
    + rewrite Z.add_0_l, Z.add_simpl_r.
      destruct (k =? 0); [done|]. destruct Hfl as [->| ->]; by repeat case_match || destruct (Z.testbit _ _).
    + rewrite nz_sign by done. apply Z.bits_inj'. intros i Hi.
      assert (Hbit : Z.testbit (cast T (((s / 2 ^ k) mod 2 ^ width T) .>> 1)) i =
        (i <? width T - 1) && Z.testbit s (i + 1 + k)).
      { rewrite testbit_cast_alu, Z.shiftr_spec by done.
        destruct (Z.lt_ge_cases i (width T - 1)).
        - rewrite Z.mod_pow2_bits_low, Z.div_pow2_bits by lia. zcmp. done.
        - rewrite Z.mod_pow2_bits_high by lia. rewrite andb_false_r. zcmp. done. }
      assert (Htop : forall j, width T - 1 <= j -> Z.testbit s j = Z.testbit v (width T - 1)).
      { intros j Hj. unfold s. rewrite signed_testbit by (done || lia). zcmp; [|done].
        f_equal. lia. }
      destruct (Z.lt_ge_cases i (width T)) as [Hlt|Hge].
      * rewrite Z.mod_pow2_bits_low, Z.div_pow2_bits by lia.
        replace (i + (k + 1)) with (i + 1 + k) by lia.
        destruct (Z.testbit v (width T - 1)) eqn:E.
        -- rewrite testbit_cast_alu, Z.lor_spec, Hbit, sign_bit_eq, Z.pow2_bits_eqb by done.
           destruct (Z.eq_dec i (width T - 1)) as [->|].
           ++ rewrite Z.eqb_refl, (Htop (width T - 1 + 1 + k)) by lia. zcmp. by rewrite orb_true_r.
           ++ zcmp. by rewrite orb_false_r.
        -- rewrite Hbit. destruct (Z.eq_dec i (width T - 1)) as [->|].
           ++ rewrite (Htop (width T - 1 + 1 + k)) by lia. by rewrite andb_false_r.
           ++ zcmp. done.
      * rewrite Z.mod_pow2_bits_high by lia.
        destruct (Z.testbit v (width T - 1)); rewrite ?Hbit; [rewrite testbit_cast_alu by done|]; zcmp; done.
Qed.

Lemma top_two T v :
  alu_width T -> in_range T v ->
  let q := cast T ((v .>> (width T - 2)) .& 3) in
  ((q =? 1) || (q =? 2)) = xorb (Z.testbit v (width T - 1)) (Z.testbit v (width T - 2)).
Proof.
  intros HT Hv. pose proof (alu_range T v HT Hv) as Hr. cbv zeta.
  rewrite (land_mask 2), Z.shiftr_div_pow2 by (destruct HT as [->| ->]; done).
  change (2 ^ 2) with 4. set (q := v / 2 ^ (width T - 2)).
  assert (Hq : 0 <= q < 4).
  { unfold q. destruct HT as [->| ->]; [change (2 ^ (width uint8_t - 2)) with 64;
      change (2 ^ width uint8_t) with 256 in Hr|change (2 ^ (width uint16_t - 2)) with 16384;
      change (2 ^ width uint16_t) with 65536 in Hr]; zlia. }
  assert (E1 : Z.testbit v (width T - 1) = Z.testbit q 1).
  { unfold q. rewrite Z.div_pow2_bits by (destruct HT as [->| ->]; done). f_equal. lia. }
  assert (E0 : Z.testbit v (width T - 2) = Z.testbit q 0).
  { unfold q. by rewrite Z.div_pow2_bits by (destruct HT as [->| ->]; done). }
  rewrite E1, E0. clearbody q. destruct HT as [->| ->]; by enum_below q 4%nat.
Qed.

(** What a shift says of its result. *)
Definition shifted (T : ctype) (f r : Z) (cf of_ : bool) : Prop :=
  nz (f .& CF) = cf /\ nz (f .& ZF) = (r =? 0) /\ nz (f .& PF) = even_ones r /\
  nz (f .& SF) = Z.testbit r (width T - 1) /\ nz (f .& OF) = of_.

Lemma shift_flags_shifted T r cf of_ :
  shifted T (shift_flags cf (r =? 0) (even_ones r) (Z.testbit r (width T - 1)) of_) r cf of_.
Proof.
  destruct (shift_flags_spec cf (r =? 0) (even_ones r) (Z.testbit r (width T - 1)) of_)
    as (?&?&?&?&?). by split_and!.
Qed.

Lemma shifts_eq T v n :
  alu_width T -> in_range T v -> 1 <= n ->
  let w := width T in
  let s := signed w v in
  (let '(f, r) := do_shl T v n in
   r = (v * 2 ^ n) mod 2 ^ w /\
   shifted T f r (Z.testbit v (w - n)) (xorb (Z.testbit v (w - 1)) (Z.testbit v (w - 2)))) /\
  (let '(f, r) := do_shr T v n in
   r = v / 2 ^ n /\ shifted T f r (Z.testbit v (n - 1)) (Z.testbit v (w - 1))) /\
  (let '(f, r) := do_sar T v n in
   r = (s / 2 ^ n) mod 2 ^ w /\ shifted T f r (Z.testbit s (n - 1)) false).
Proof.
  intros HT Hv Hn w s. pose proof (alu_range T v HT Hv) as Hr.
  assert (Hn0 : (n =? 0) = false) by by apply Z.eqb_neq; lia.
  assert (HO : forall b, or_flag b OF 0 = 0 \/ or_flag b OF 0 = OF) by (intros []; auto).
  split_and!.
  - unfold do_shl. change (8 * sizeof T - 2) with (width T - 2). rewrite top_two by done.
    rewrite shl_loop, Hn0, nz_sign, parity_low by (done || lia || apply HO).
    split; [done|]. apply shift_flags_shifted.
  - unfold do_shr. rewrite nz_sign, shr_loop, Hn0, parity_low by (done || lia || apply HO).
    split; [done|].
    assert (Hsf : Z.testbit (v / 2 ^ n) (width T - 1) = false).
    { rewrite Z.div_pow2_bits by (destruct HT as [->| ->]; lia || done).
      apply (testbit_high (width T)); [done|lia]. }
    pose proof (shift_flags_shifted T (v / 2 ^ n) (Z.testbit v (n - 1)) (Z.testbit v (w - 1))) as H.
    by rewrite Hsf in H.
  - unfold do_sar. rewrite sar_loop, Hn0, nz_sign, parity_low by (done || lia || by left).
    split; [done|]. apply (shift_flags_shifted T _ _ false).
Qed.

(** ** Rotates *)

(** [r] is [v] with its [w] bits moved up by [n], round the end. *)
Definition rotated (w n v r : Z) : Prop :=
  0 <= r < 2 ^ w /\ forall i, 0 <= i < w -> Z.testbit r i = Z.testbit v ((i - n) mod w).

Lemma rotated_0 w v : 0 < w -> 0 <= v < 2 ^ w -> rotated w 0 v v.
Proof. intros Hw Hv. split; [done|]. intros i Hi. by rewrite Z.sub_0_r, Z.mod_small. Qed.

Lemma rotated_trans w n k v x r :
  0 < w -> rotated w n v x -> rotated w k x r -> rotated w (n + k) v r.
Proof.
  intros Hw [_ H1] [Hr H2]. split; [done|]. intros i Hi.
  rewrite H2, H1 by (done || by apply Z.mod_pos_bound). f_equal.
  rewrite Zminus_mod_idemp_l. f_equal. lia.
Qed.

Lemma rotated_unique w n k v r r' :
  0 < w -> n mod w = k mod w -> rotated w n v r -> rotated w k v r' -> r = r'.
Proof.
  intros Hw E [Hr H1] [Hr' H2]. apply (bits_ext w); [done..|]. intros i Hi.
  rewrite H1, H2 by done. f_equal. by rewrite <- Zminus_mod_idemp_r, E, Zminus_mod_idemp_r.
Qed.

Lemma rotated_up w v :
  1 < w -> 0 <= v < 2 ^ w ->
  rotated w 1 v ((v mod 2 ^ (w - 1)) * 2 + Z.b2z (Z.testbit v (w - 1))).
Proof.
  intros Hw Hv. assert (E : 2 ^ w = 2 ^ (w - 1) * 2) by (rewrite Z.mul_comm, <- Z.pow_succ_r by lia; f_equal; lia).
  pose proof (Z.mod_pos_bound v (2 ^ (w - 1)) ltac:(lia)) as Hm.
  split; [destruct (Z.testbit v (w - 1)); cbn [Z.b2z]; lia|]. intros i Hi.
  change 2 with (2 ^ 1) at 2. rewrite testbit_concat by (lia || (destruct (Z.testbit v (w - 1)); cbn [Z.b2z]; lia)).
  destruct (Z.ltb_spec i 1).
  - replace i with 0 by lia. replace ((0 - 1) mod w) with (w - 1) by (apply (Z.mod_unique_pos (0 - 1) w (-1) (w - 1)); lia).
    by destruct (Z.testbit v (w - 1)).
  - rewrite Z.mod_pow2_bits_low, (Z.mod_small (i - 1)) by lia. done.
Qed.

Lemma rotated_down w v :
  1 < w -> 0 <= v < 2 ^ w ->
  rotated w (-1) v (Z.b2z (Z.testbit v 0) * 2 ^ (w - 1) + v / 2).
Proof.
  intros Hw Hv. assert (E : 2 ^ w = 2 ^ (w - 1) * 2) by (rewrite Z.mul_comm, <- Z.pow_succ_r by lia; f_equal; lia).
  assert (Hd : 0 <= v / 2 < 2 ^ (w - 1)) by zlia.
  split; [destruct (Z.testbit v 0); cbn [Z.b2z]; lia|]. intros i Hi.
  rewrite testbit_concat by lia. replace (i - -1) with (i + 1) by lia.
  destruct (Z.ltb_spec i (w - 1)).
  - rewrite <- Z.div2_div, Z.div2_spec, Z.shiftr_spec, (Z.mod_small (i + 1)) by lia. done.
  - replace i with (w - 1) by lia. rewrite Z.sub_diag, Z.sub_add, Z.mod_same by lia.
    by destruct (Z.testbit v 0).
Qed.

(** A loop whose turns rotate what [val] makes of the state by [d]. *)
Lemma rotated_loop w d (Inv : Z * Z -> Prop) (val : Z * Z -> Z) body n y :
  0 < w -> 0 <= n -> Inv y -> 0 <= val y < 2 ^ w ->
  (forall y, Inv y -> Inv (body y) /\ rotated w d (val y) (val (body y))) ->
  Inv (for_count n body y) /\ rotated w (d * n) (val y) (val (for_count n body y)).
Proof.
  intros Hw Hn Hi Hv Hb.
  apply (for_count_ind (fun k x => Inv x /\ rotated w (d * k) (val y) (val x))); [done|..].
  - rewrite Z.mul_0_r. split; [done|]. by apply rotated_0.
  - intros k x Hk [H1 H2]. destruct (Hb x H1) as [H3 H4]. split; [done|].
    rewrite Z.mul_add_distr_l, Z.mul_1_r. by eapply rotated_trans.
Qed.

(** What every turn leaves true, after one turn or more. *)
Lemma for_count_last (Inv P : Z * Z -> Prop) body n y :
  1 <= n -> Inv y -> (forall y, Inv y -> Inv (body y) /\ P (body y)) -> P (for_count n body y).
Proof.
  intros Hn Hi Hb. replace n with (n - 1 + 1) by lia. rewrite for_count_succ by lia.
  apply Hb. apply (for_count_ind (fun _ x => Inv x)); [lia|done|]. intros k x _ Hx. by apply Hb.
Qed.

(** The loop states: a value of the type, and at most CF among the flags. *)
Definition turning (T : ctype) (y : Z * Z) : Prop := (y.1 = 0 \/ y.1 = CF) /\ in_range T y.2.

Lemma replace_CF_turning T b f x : turning T (f, x) -> replace_CF b f = 0 \/ replace_CF b f = CF.
Proof. intros [[E|E] _]; cbn in E; subst f; destruct b; auto. Qed.

Lemma replace_CF_CF b f : f = 0 \/ f = CF -> nz (replace_CF b f .& CF) = b.
Proof. by intros [->| ->]; destruct b. Qed.

Lemma top_bit_div w v : 0 < w -> 0 <= v < 2 ^ w -> Z.b2z (Z.testbit v (w - 1)) = v / 2 ^ (w - 1).
Proof.
  intros Hw Hv. assert (E : 2 ^ w = 2 ^ (w - 1) * 2)
    by (rewrite Z.mul_comm, <- Z.pow_succ_r by lia; f_equal; lia).
  rewrite Z.testbit_spec' by lia. apply Z.mod_small. split; [apply Z.div_pos; lia|].
  apply Z.div_lt_upper_bound; lia.
Qed.

Lemma low_bit v : Z.b2z (Z.testbit v 0) = v mod 2.
Proof. by rewrite Z.testbit_spec', Z.div_1_r. Qed.

Ltac alu_consts :=
  change (width uint8_t) with 8 in *; change (width uint16_t) with 16 in *;
  change (bits uint8_t) with 8 in *; change (bits uint16_t) with 16 in *;
  change (2 ^ 8) with 256 in *; change (2 ^ 16) with 65536 in *;
  change (2 ^ (8 - 1)) with 128 in *; change (2 ^ (16 - 1)) with 32768 in *;
  change (2 ^ 1) with 2 in *.

(** The value a left turn makes, with the bit [c] coming in at the bottom. *)
Lemma turn_up T v (c : bool) :
  alu_width T -> in_range T v ->
  cast T (cast T (v .<< 1) + Z.b2z c) = (v mod 2 ^ (width T - 1)) * 2 + Z.b2z c.
Proof.
  intros HT Hv. rewrite Z.shiftl_mul_pow2 by done.
  destruct HT as [->| ->], c; cbn [Z.b2z]; alu_consts; cpp_lia.
Qed.

(** The value a right turn makes, with [c] coming in at the top. *)
Lemma turn_down T v (c : bool) :
  alu_width T -> in_range T v ->
  cast T (cast T (v .>> 1) + (cast T (Z.b2z c) .<< (bits T - 1))) =
  Z.b2z c * 2 ^ (width T - 1) + v / 2.
Proof.
  intros HT Hv. rewrite Z.shiftr_div_pow2, Z.shiftl_mul_pow2 by (done || by destruct HT as [->| ->]).
  destruct HT as [->| ->], c; cbn [Z.b2z]; alu_consts; cpp_lia.
Qed.

Lemma lsb_eq T v : alu_width T -> cast T (v .& 1) = cast T (Z.b2z (Z.testbit v 0)).
Proof. intros HT. by rewrite low_bit, (land_mask 1). Qed.

Lemma nz_lsb T v : alu_width T -> nz (cast T (v .& 1)) = Z.testbit v 0.
Proof. intros HT. rewrite lsb_eq by done. by destruct HT as [->| ->], (Z.testbit v 0). Qed.

(** ** [rol] and [ror] *)

Definition rol_turn (T : ctype) : Z * Z -> Z * Z := fun '(flags, v) =>
  let sign_bit_set := nz (v .& sign_bit T) in
  let flags := replace_CF (nz (v .& sign_bit T)) flags in
  let v := cast T (v .<< 1) in
  (flags, cast T (v + Z.b2z sign_bit_set)).

Definition ror_turn (T : ctype) : Z * Z -> Z * Z := fun '(flags, v) =>
  let flags := replace_CF (nz (v .& 0x1)) flags in
  let lsb := cast T (v .& 1) in
  let v := cast T (v .>> 1) in
  (flags, cast T (v + (lsb .<< (bits T - 1)))).

Lemma rol_turn_rotates T y :
  alu_width T -> turning T y ->
  turning T (rol_turn T y) /\ rotated (width T) 1 y.2 (rol_turn T y).2 /\
  nz ((rol_turn T y).1 .& CF) = Z.testbit (rol_turn T y).2 0.
Proof.
  intros HT Hy. destruct y as [f v]. pose proof Hy as [Hf Hv]. cbn [fst snd] in *.
  unfold rol_turn. cbn [fst snd]. rewrite nz_sign, turn_up, replace_CF_CF by done.
  assert (Hrot : rotated (width T) 1 v
      (v mod 2 ^ (width T - 1) * 2 + Z.b2z (Z.testbit v (width T - 1)))).
  { apply rotated_up; [by destruct HT as [->| ->]|by apply alu_range]. }
  split_and!; [split; [by eapply replace_CF_turning|]|done|].
  - cbn [snd]. rewrite <- turn_up by done. apply cast_in_range.
  - rewrite Z.add_comm, Z.mul_comm, Z.add_b2z_double_bit0. done.
Qed.

Lemma ror_turn_rotates T y :
  alu_width T -> turning T y ->
  turning T (ror_turn T y) /\ rotated (width T) (-1) y.2 (ror_turn T y).2 /\
  nz ((ror_turn T y).1 .& CF) = Z.testbit (ror_turn T y).2 (width T - 1).
Proof.
  intros HT Hy. destruct y as [f v]. pose proof Hy as [Hf Hv]. cbn [fst snd] in *.
  unfold ror_turn. cbn [fst snd]. rewrite nz_low, lsb_eq, turn_down, replace_CF_CF by done.
  pose proof (alu_range T v HT Hv) as Hr.
  assert (Hrot : rotated (width T) (-1) v
      (Z.b2z (Z.testbit v 0) * 2 ^ (width T - 1) + v / 2)).
  { apply rotated_down; [by destruct HT as [->| ->]|done]. }
  split_and!; [split; [by eapply replace_CF_turning|]|done|].
  - cbn [snd]. rewrite <- turn_down by done. apply cast_in_range.
  - destruct Hrot as [_ ->]; [|by destruct HT as [->| ->]].
    f_equal. by destruct HT as [->| ->].
Qed.

(** A rotated value, the carry and whether the two top bits of it differ. *)
Definition rotated_flags (T : ctype) (f r : Z) (cf of_ : bool) : Prop :=
  in_range T r /\ nz (f .& CF) = cf /\ nz (f .& OF) = of_.

Lemma or_OF_flags f b : f = 0 \/ f = CF ->
  nz (or_flag b OF f .& CF) = nz (f .& CF) /\ nz (or_flag b OF f .& OF) = b.
Proof. by intros [->| ->]; destruct b. Qed.

Lemma count_mod n : n .& 0x1f = n mod 32.
Proof. by apply (land_mask 5). Qed.

Lemma top_two_msbs T r :
  alu_width T -> in_range T r ->
  let q := cast T ((r .>> (bits T - 2)) .& 0x3) in
  ((q =? 2) || (q =? 1)) = xorb (Z.testbit r (width T - 1)) (Z.testbit r (width T - 2)).
Proof.
  intros HT Hr. cbv zeta. rewrite orb_comm. replace (bits T) with (width T) by by destruct HT as [->| ->].
  by apply top_two.
Qed.

Lemma turning_0 T v : in_range T v -> turning T (0, v).
Proof. split; [by left|done]. Qed.

Lemma do_rol_eq T v n :
  alu_width T -> in_range T v ->
  let '(f, r) := do_rol T v n in
  rotated (width T) (n mod 32) v r /\
  rotated_flags T f r (negb (n mod 32 =? 0) && Z.testbit r 0)
    (xorb (negb (n mod 32 =? 0) && Z.testbit r 0) (Z.testbit r (width T - 1))).
Proof.
  intros HT Hv. unfold do_rol. rewrite count_mod. fold (rol_turn T).
  pose proof (Z.mod_pos_bound n 32 eq_refl) as Hk. set (k := n mod 32) in *.
  assert (Hw : 0 < width T) by by destruct HT as [->| ->].
  destruct (rotated_loop (width T) 1 (turning T) snd (rol_turn T) k (0, v)) as [Ht Hrot];
    [done|lia|by apply turning_0|by apply alu_range| |].
  { intros y Hy. destruct (rol_turn_rotates T y HT Hy) as (?&?&?). by split. }
  assert (Hcf : nz ((for_count k (rol_turn T) (0, v)).1 .& CF) =
                negb (k =? 0) && Z.testbit (for_count k (rol_turn T) (0, v)).2 0).
  { destruct (Z.eqb_spec k 0) as [->|]; [done|]. cbn [negb andb].
    apply (for_count_last (turning T) (fun y => nz (y.1 .& CF) = Z.testbit y.2 0)); [lia|by apply turning_0|].
    intros y Hy. destruct (rol_turn_rotates T y HT Hy) as (?&?&?). by split. }
  destruct (for_count k (rol_turn T) (0, v)) as [f r]. cbn [fst snd] in *. destruct Ht as [Hf Hr].
  rewrite Z.mul_1_l in Hrot. split; [done|]. rewrite nz_sign by done.
  destruct (or_OF_flags f (xorb (nz (f .& CF)) (Z.testbit r (width T - 1))) Hf) as [E1 E2].
  split_and!; [done|by rewrite E1|by rewrite E2, Hcf].
Qed.

Lemma do_ror_eq T v n :
  alu_width T -> in_range T v -> 0 <= n ->
  let '(f, r) := do_ror T v n in
  rotated (width T) (- n) v r /\
  rotated_flags T f r (negb (n =? 0) && Z.testbit r (width T - 1))
    (xorb (Z.testbit r (width T - 1)) (Z.testbit r (width T - 2))).
Proof.
  intros HT Hv Hn. unfold do_ror. fold (ror_turn T).
  assert (Hw : 0 < width T) by by destruct HT as [->| ->].
  destruct (rotated_loop (width T) (-1) (turning T) snd (ror_turn T) n (0, v)) as [Ht Hrot];
    [done|lia|by apply turning_0|by apply alu_range| |].
  { intros y Hy. destruct (ror_turn_rotates T y HT Hy) as (?&?&?). by split. }
  assert (Hcf : nz ((for_count n (ror_turn T) (0, v)).1 .& CF) =
                negb (n =? 0) && Z.testbit (for_count n (ror_turn T) (0, v)).2 (width T - 1)).
  { destruct (Z.eqb_spec n 0) as [->|]; [done|]. cbn [negb andb].
    apply (for_count_last (turning T) (fun y => nz (y.1 .& CF) = Z.testbit y.2 (width T - 1)));
      [lia|by apply turning_0|].
    intros y Hy. destruct (ror_turn_rotates T y HT Hy) as (?&?&?). by split. }
  destruct (for_count n (ror_turn T) (0, v)) as [f r]. cbn [fst snd] in *. destruct Ht as [Hf Hr].
  replace (-1 * n) with (- n) in Hrot by lia. split; [done|].
  rewrite top_two_msbs by done.
  destruct (or_OF_flags f (xorb (Z.testbit r (width T - 1)) (Z.testbit r (width T - 2))) Hf) as [E1 E2].
  split_and!; [done|by rewrite E1|by rewrite E2].
Qed.

(** ROL and ROR are rotations of the [w] bits: bit [i] of the result is
    bit [i - n] (or [i + n]) modulo [w] of the operand. ROL turns [n mod 32]
    times and ROR [n] times; CF is the bit that came round last (clear when
    nothing turned), OF says whether CF and the top bit (ROL) or the two top
    bits (ROR) differ. A rotation by [n] and one back by [n] cancel. *)
Lemma rotates_correct T v n :
  alu_width T -> in_range T v -> 0 <= n ->
  let w := width T in
  (let '(f, r) := do_rol T v n in
   let cf := negb (n mod 32 =? 0) && Z.testbit r 0 in
   rotated w (n mod 32) v r /\ rotated_flags T f r cf (xorb cf (Z.testbit r (w - 1)))) /\
  (let '(f, r) := do_ror T v n in
   rotated w (- n) v r /\
   rotated_flags T f r (negb (n =? 0) && Z.testbit r (w - 1))
     (xorb (Z.testbit r (w - 1)) (Z.testbit r (w - 2)))) /\
  (n < 32 -> (do_ror T (do_rol T v n).2 n).2 = v /\ (do_rol T (do_ror T v n).2 n).2 = v).
Proof.
  intros HT Hv Hn w. assert (Hw : 0 < width T) by by destruct HT as [->| ->].
  split_and!; [by apply do_rol_eq|by apply do_ror_eq|]. intros Hlt.
  pose proof (do_rol_eq T v n HT Hv) as H1. pose proof (do_ror_eq T v n HT Hv Hn) as H2.
  destruct (do_rol T v n) as [f1 r1], (do_ror T v n) as [f2 r2].
  destruct H1 as (H1&Hr1&_), H2 as (H2&Hr2&_). cbn [snd].
  pose proof (do_ror_eq T r1 n HT Hr1 Hn) as H3. pose proof (do_rol_eq T r2 n HT Hr2) as H4.
  destruct (do_ror T r1 n) as [f3 r3], (do_rol T r2 n) as [f4 r4]. cbn [snd].
  destruct H3 as [H3 _], H4 as [H4 _].
  rewrite Z.mod_small in H1, H4 by lia.
  pose proof (rotated_0 w v Hw (alu_range T v HT Hv)) as H0. split.
  - apply (rotated_unique w (n + - n) 0 v); [done|f_equal; lia| |done]. by eapply rotated_trans.
  - apply (rotated_unique w (- n + n) 0 v); [done|f_equal; lia| |done]. by eapply rotated_trans.
Qed.

(** ** [rcl] and [rcr] *)

Definition rcl_turn (T : ctype) : Z * Z -> Z * Z := fun '(flags, v) =>
  let carry_bit_set := nz (flags .& CF) in
  let flags := replace_CF (nz (v .& sign_bit T)) flags in
  let v := cast T (v .<< 1) in
  (flags, cast T (v + Z.b2z carry_bit_set)).

Definition rcr_turn (T : ctype) : Z * Z -> Z * Z := fun '(flags, v) =>
  let carry_bit_set := nz (flags .& CF) in
  let flags := u16 (flags .& ~. CF) in
  let lsb := cast T (v .& 1) in
  let v := cast T (v .>> 1) in
  let v := cast T (v + (cast T (Z.b2z carry_bit_set) .<< (bits T - 1))) in
  (or_flag (nz lsb) CF flags, v).

(** The carry above the value. *)
Definition with_carry (T : ctype) (y : Z * Z) : Z := Z.b2z (nz (y.1 .& CF)) * 2 ^ width T + y.2.

Lemma with_carry_range T y :
  alu_width T -> in_range T y.2 -> 0 <= with_carry T y < 2 ^ (width T + 1).
Proof.
  intros HT Hy. pose proof (alu_range T y.2 HT Hy). unfold with_carry.
  destruct HT as [->| ->], (nz _); cbn [Z.b2z]; alu_consts;
    [change (2 ^ (8 + 1)) with 512|change (2 ^ (8 + 1)) with 512|
     change (2 ^ (16 + 1)) with 131072|change (2 ^ (16 + 1)) with 131072]; lia.
Qed.

Lemma rcl_turn_rotates T y :
  alu_width T -> turning T y ->
  turning T (rcl_turn T y) /\
  rotated (width T + 1) 1 (with_carry T y) (with_carry T (rcl_turn T y)).
Proof.
  intros HT Hy. destruct y as [f v]. pose proof Hy as [Hf Hv].
  pose proof (with_carry_range T (f, v) HT Hv) as HW. pose proof (alu_range T v HT Hv) as Hr.
  cbn [fst snd] in *. assert (Hw : 0 < width T) by by destruct HT as [->| ->].
  unfold rcl_turn. rewrite nz_sign, turn_up by done. split.
  - split; [by eapply replace_CF_turning|]. cbn [snd]. rewrite <- turn_up by done. apply cast_in_range.
  - pose proof (rotated_up (width T + 1) _ ltac:(lia) HW) as H.
    rewrite top_bit_div in H by (done || lia). rewrite Z.add_simpl_r in H.
    unfold with_carry in *. cbn [fst snd] in *. rewrite replace_CF_CF, top_bit_div by done.
    set (c := Z.b2z (nz (f .& CF))) in *.
    replace ((c * 2 ^ width T + v) mod 2 ^ width T) with v in H
      by (rewrite Z.add_comm, Z.mod_add, Z.mod_small; lia).
    replace ((c * 2 ^ width T + v) / 2 ^ width T) with c in H
      by (rewrite Z.div_add_l, Z.div_small; lia).
    clearbody c. eapply eq_ind; [exact H|].
    destruct HT as [->| ->]; alu_consts; zlia.
Qed.

Lemma rcr_turn_rotates T y :
  alu_width T -> turning T y ->
  turning T (rcr_turn T y) /\
  rotated (width T + 1) (-1) (with_carry T y) (with_carry T (rcr_turn T y)).
Proof.
  intros HT Hy. destruct y as [f v]. pose proof Hy as [Hf Hv].
  pose proof (with_carry_range T (f, v) HT Hv) as HW. pose proof (alu_range T v HT Hv) as Hr.
  cbn [fst snd] in *. assert (Hw : 0 < width T) by by destruct HT as [->| ->].
  unfold rcr_turn. rewrite turn_down, nz_lsb by done.
  change (or_flag (Z.testbit v 0) CF (u16 (f .& ~. CF))) with (replace_CF (Z.testbit v 0) f). split.
  - split; [by eapply replace_CF_turning|]. cbn [snd]. rewrite <- turn_down by done. apply cast_in_range.
  - pose proof (rotated_down (width T + 1) _ ltac:(lia) HW) as H. rewrite low_bit in H.
    rewrite Z.add_simpl_r in H.
    unfold with_carry in *. cbn [fst snd] in *. rewrite replace_CF_CF, low_bit by done.
    set (c := Z.b2z (nz (f .& CF))) in *. clearbody c. eapply eq_ind; [exact H|].
    destruct HT as [->| ->]; alu_consts; zlia.
Qed.

Lemma turning_carry T v (c : bool) : in_range T v -> turning T ((if c then CF else 0), v).
Proof. intros Hv. split; [destruct c; [by right|by left]|done]. Qed.

Lemma with_carry_start T v (c : bool) :
  with_carry T ((if c then CF else 0), v) = Z.b2z c * 2 ^ width T + v.
Proof. by destruct c. Qed.

Lemma with_carry_inj T y y' :
  alu_width T -> in_range T y.2 -> in_range T y'.2 -> with_carry T y = with_carry T y' ->
  nz (y.1 .& CF) = nz (y'.1 .& CF) /\ y.2 = y'.2.
Proof.
  intros HT H1 H2 E. pose proof (alu_range T _ HT H1). pose proof (alu_range T _ HT H2).
  unfold with_carry in E. destruct (nz (y.1 .& CF)), (nz (y'.1 .& CF)); cbn [Z.b2z] in E; (split; [|lia]); lia || done.
Qed.

(** The states of a rotate through the carry by [n], before its OF. *)
Lemma through_carry_loop T d turn v (c : bool) n :
  alu_width T -> in_range T v ->
  (forall y, turning T y -> turning T (turn y) /\
     rotated (width T + 1) d (with_carry T y) (with_carry T (turn y))) ->
  let y := for_count (n mod 32) turn ((if c then CF else 0), v) in
  turning T y /\
  rotated (width T + 1) (d * (n mod 32)) (Z.b2z c * 2 ^ width T + v) (with_carry T y).
Proof.
  intros HT Hv Hturn. rewrite <- with_carry_start.
  apply (rotated_loop (width T + 1) d (turning T) (with_carry T) turn); auto using turning_carry.
  - by destruct HT as [->| ->].
  - by apply Z.mod_pos_bound.
  - by apply with_carry_range.
Qed.

(** A value and a carry, rotated together [n] places up. *)
Definition rotated_through (T : ctype) (n v : Z) (c : bool) (f r : Z) : Prop :=
  in_range T r /\ rotated (width T + 1) n (Z.b2z c * 2 ^ width T + v) (with_carry T (f, r)).

Lemma do_rcl_eq T v n c :
  alu_width T -> in_range T v ->
  let '(f, r) := do_rcl T v n c in
  rotated_through T (n mod 32) v c f r /\
  nz (f .& OF) = xorb (nz (f .& CF)) (Z.testbit r (width T - 1)).
Proof.
  intros HT Hv. unfold do_rcl. rewrite count_mod. fold (rcl_turn T).
  destruct (through_carry_loop T 1 (rcl_turn T) v c n HT Hv) as [Ht Hrot].
  { intros y. by apply rcl_turn_rotates. }
  destruct (for_count (n mod 32) (rcl_turn T) _) as [f r]. destruct Ht as [Hf Hr]. cbn [fst snd] in *.
  rewrite nz_sign by done.
  destruct (or_OF_flags f (xorb (nz (f .& CF)) (Z.testbit r (width T - 1))) Hf) as [E1 E2].
  rewrite Z.mul_1_l in Hrot. split; [split; [done|]|by rewrite E1, E2].
  unfold with_carry in *. cbn [fst snd] in *. by rewrite E1.
Qed.

Lemma do_rcr_eq T v n c :
  alu_width T -> in_range T v ->
  let '(f, r) := do_rcr T v n c in
  rotated_through T (- (n mod 32)) v c f r /\
  nz (f .& OF) = xorb (Z.testbit r (width T - 1)) (Z.testbit r (width T - 2)).
Proof.
  intros HT Hv. unfold do_rcr. rewrite count_mod. fold (rcr_turn T).
  destruct (through_carry_loop T (-1) (rcr_turn T) v c n HT Hv) as [Ht Hrot].
  { intros y. by apply rcr_turn_rotates. }
  destruct (for_count (n mod 32) (rcr_turn T) _) as [f r]. destruct Ht as [Hf Hr]. cbn [fst snd] in *.
  rewrite top_two_msbs by done.
  destruct (or_OF_flags f (xorb (Z.testbit r (width T - 1)) (Z.testbit r (width T - 2))) Hf) as [E1 E2].
  replace (-1 * (n mod 32)) with (- (n mod 32)) in Hrot by lia.
  split; [split; [done|]|by rewrite E2].
  unfold with_carry in *. cbn [fst snd] in *. by rewrite E1.
Qed.

Lemma rotated_through_back T n k v c f r f' r' :
  alu_width T -> in_range T v -> n + k = 0 ->
  rotated_through T n v c f r -> rotated_through T k r (nz (f .& CF)) f' r' ->
  r' = v /\ nz (f' .& CF) = c.
Proof.
  intros HT Hv Hk [Hr H1] [Hr' H2].
  assert (Hw : 0 < width T) by by destruct HT as [->| ->].
  assert (E : with_carry T (f', r') = with_carry T ((if c then CF else 0), v)).
  { rewrite with_carry_start. apply (rotated_unique (width T + 1) (n + k) 0
      (Z.b2z c * 2 ^ width T + v)); [lia|by rewrite Hk| |].
    - eapply rotated_trans; [lia|exact H1|exact H2].
    - apply rotated_0; [lia|]. rewrite <- with_carry_start. by apply with_carry_range. }
  destruct (with_carry_inj T (f', r') ((if c then CF else 0), v) HT Hr' Hv E) as [E1 E2].
  cbn [fst snd] in *. split; [done|]. rewrite E1. by destruct c.
Qed.

(** RCL and RCR rotate the [w + 1] bits of the carry flag and the operand
    together, [n mod 32] places: the outgoing CF and the result are the bits
    of [CF : v] moved round. OF compares CF with the top bit (RCL), or the two
    top bits (RCR). Either one undoes the other, carry included. *)
Lemma rotates_through_carry T v n c :
  alu_width T -> in_range T v ->
  let w := width T in
  (let '(f, r) := do_rcl T v n c in
   rotated_through T (n mod 32) v c f r /\
   nz (f .& OF) = xorb (nz (f .& CF)) (Z.testbit r (w - 1)) /\
   (do_rcr T r n (nz (f .& CF))).2 = v /\ nz ((do_rcr T r n (nz (f .& CF))).1 .& CF) = c) /\
  (let '(f, r) := do_rcr T v n c in
   rotated_through T (- (n mod 32)) v c f r /\
   nz (f .& OF) = xorb (Z.testbit r (w - 1)) (Z.testbit r (w - 2)) /\
   (do_rcl T r n (nz (f .& CF))).2 = v /\ nz ((do_rcl T r n (nz (f .& CF))).1 .& CF) = c).
Proof.
  intros HT Hv w.
  pose proof (do_rcl_eq T v n c HT Hv) as H1. pose proof (do_rcr_eq T v n c HT Hv) as H2.
  destruct (do_rcl T v n c) as [f1 r1], (do_rcr T v n c) as [f2 r2].
  destruct H1 as (H1&Hf1), H2 as (H2&Hf2).
  pose proof (do_rcr_eq T r1 n (nz (f1 .& CF)) HT (proj1 H1)) as H3.
  pose proof (do_rcl_eq T r2 n (nz (f2 .& CF)) HT (proj1 H2)) as H4.
  destruct (do_rcr T r1 n _) as [f3 r3], (do_rcl T r2 n _) as [f4 r4]. cbn [fst snd].
  destruct H3 as [H3 _], H4 as [H4 _].
  pose proof (rotated_through_back T (n mod 32) (- (n mod 32)) v c f1 r1 f3 r3 HT Hv ltac:(lia) H1 H3) as [??].
  pose proof (rotated_through_back T (- (n mod 32)) (n mod 32) v c f2 r2 f4 r4 HT Hv ltac:(lia) H2 H4) as [??].
  split; (split; [done|]); by split_and!.
Qed.

(** C12. Shifts and rotates, at 8 and at 16 bits. By one or more, SHL multiplies by
    [2 ^ n] modulo the width, SHR divides the unsigned value and SAR the signed
    one, rounding down; CF is the last bit shifted out (none is left once the
    count passes the width), ZF, PF and SF describe the result, and OF says that
    the two top bits differ (SHL), the sign (SHR) or nothing (SAR). ROL and ROR are
    rotations of the [w] bits: bit [i] of the result is bit [i - n] (or [i + n])
    modulo [w] of the operand, CF is the bit that came round last (clear when
    nothing turned), OF compares CF with the top bit (ROL) or the two top bits
    (ROR). RCL and RCR rotate the [w + 1] bits of the carry flag and the operand
    together, [n mod 32] places. A rotation by [n] and one back by [n] cancel,
    the carry included. *)
Theorem shifts_and_rotates T v n c :
  alu_width T -> in_range T v -> 0 <= n ->
  let w := width T in
  let s := signed w v in
  (1 <= n ->
   (let '(f, r) := do_shl T v n in
    r = (v * 2 ^ n) mod 2 ^ w /\
    shifted T f r (Z.testbit v (w - n)) (xorb (Z.testbit v (w - 1)) (Z.testbit v (w - 2)))) /\
   (let '(f, r) := do_shr T v n in
    r = v / 2 ^ n /\ shifted T f r (Z.testbit v (n - 1)) (Z.testbit v (w - 1))) /\
   (let '(f, r) := do_sar T v n in
    r = (s / 2 ^ n) mod 2 ^ w /\ shifted T f r (Z.testbit s (n - 1)) false)) /\
  ((let '(f, r) := do_rol T v n in
    let cf := negb (n mod 32 =? 0) && Z.testbit r 0 in
    rotated w (n mod 32) v r /\ rotated_flags T f r cf (xorb cf (Z.testbit r (w - 1)))) /\
   (let '(f, r) := do_ror T v n in
    rotated w (- n) v r /\
    rotated_flags T f r (negb (n =? 0) && Z.testbit r (w - 1))
      (xorb (Z.testbit r (w - 1)) (Z.testbit r (w - 2)))) /\
   (n < 32 -> (do_ror T (do_rol T v n).2 n).2 = v /\ (do_rol T (do_ror T v n).2 n).2 = v)) /\
  (let '(f, r) := do_rcl T v n c in
   rotated_through T (n mod 32) v c f r /\
   nz (f .& OF) = xorb (nz (f .& CF)) (Z.testbit r (w - 1)) /\
   (do_rcr T r n (nz (f .& CF))).2 = v /\ nz ((do_rcr T r n (nz (f .& CF))).1 .& CF) = c) /\
  (let '(f, r) := do_rcr T v n c in
   rotated_through T (- (n mod 32)) v c f r /\
   nz (f .& OF) = xorb (Z.testbit r (w - 1)) (Z.testbit r (w - 2)) /\
   (do_rcl T r n (nz (f .& CF))).2 = v /\ nz ((do_rcl T r n (nz (f .& CF))).1 .& CF) = c).
Proof.
  intros HT Hv Hn w s. split; [by apply shifts_eq|].
  split; [by apply rotates_correct|by apply rotates_through_carry].
Qed.

(** ** Witnesses *)

(** 0x81 shifted by one and rotated by three, and 0x81 through a set carry. *)
Lemma shifts_and_rotates_witness :
  do_shl uint8_t 0x81 1 = (CF .| OF, 0x02) /\
  (let '(f, r) := do_shl uint8_t 0x81 1 in
   r = (0x81 * 2 ^ 1) mod 2 ^ width uint8_t /\
   shifted uint8_t f r (Z.testbit 0x81 (width uint8_t - 1))
     (xorb (Z.testbit 0x81 (width uint8_t - 1)) (Z.testbit 0x81 (width uint8_t - 2)))) /\
  do_rol uint16_t 0x8001 3 = (0, 0x000c) /\
  (do_ror uint16_t (do_rol uint16_t 0x8001 3).2 3).2 = 0x8001 /\
  do_rcl uint16_t 0x8001 3 true = (0, 0x000e) /\
  (do_rcr uint16_t 0x000e 3 false).2 = 0x8001.
Proof.
  split; [reflexivity|]. split.
  - destruct (shifts_and_rotates uint8_t 0x81 1 true) as [H _]; [by left|done|lia|]. by apply H.
  - destruct (shifts_and_rotates uint16_t 0x8001 3 true) as (_ & (_ & _ & Hback) & Hrcl & _); [by right|done|lia|].
    assert (E : do_rcl uint16_t 0x8001 3 true = (0, 0x000e)) by reflexivity.
    rewrite E in Hrcl. split; [reflexivity|]. split; [by apply Hback|]. split; [exact E|]. apply Hrcl.
Defined.
