(* ===== verification/InsnControl.v ===== *)
(** * Control transfer: [jmp.cpp], [loop.cpp], [loope.cpp], [loopnz.cpp],
    [call.cpp], [ret.cpp], [int.cpp], [bound.cpp], [esc.cpp], [hlt.cpp],
    [wait.cpp], [enter.cpp] and [leave.cpp] of [sim/cppmodel/instructions]. *)
From S2P Require Import Prelude Config MainMemory Registers ErrorState IOPorts Machine ModRM Core Alu.

Section control_instructions.
Context {CFG : Config} {D : Type} {IOP : IOPorts D}.

(** ** Jumps *)

(** The body of a taken short jump, which every conditional jump repeats. *)
Definition take_jump (displacement : Z) : emu D unit :=
  ip ← registers_get IP ;
  n ← gets instr_length ;
  registers_set IP (u64 (ip + displacement + n)) ;;
  modify (set_jump_taken true).

Definition jmpe9 : emu D unit :=
  displacement ← s16 <$> fetch_16bit ;
  take_jump displacement.

Definition jmpea : emu D unit :=
  ip ← fetch_16bit ;
  cs ← fetch_16bit ;
  registers_set IP ip ;;
  registers_set CS cs ;;
  modify (set_jump_taken true).

Definition jmpeb : emu D unit :=
  displacement ← s8 <$> fetch_byte ;
  take_jump displacement.

Definition je74 : emu D unit :=
  displacement ← s8 <$> fetch_byte ;
  zf ← registers_get_flag ZF ;
  if zf : bool then take_jump displacement else mret ().

Definition jl7c : emu D unit :=
  displacement ← s8 <$> fetch_byte ;
  of_ ← registers_get_flag OF ;
  sf ← registers_get_flag SF ;
  if xorb of_ sf : bool then take_jump displacement else mret ().

Definition jle7e : emu D unit :=
  displacement ← s8 <$> fetch_byte ;
  of_ ← registers_get_flag OF ;
  sf ← registers_get_flag SF ;
  zf ← registers_get_flag ZF ;
  if xorb of_ sf || zf : bool then take_jump displacement else mret ().

Definition jb72 : emu D unit :=
  displacement ← s8 <$> fetch_byte ;
  cf ← registers_get_flag CF ;
  if cf : bool then take_jump displacement else mret ().

Definition jbe76 : emu D unit :=
  displacement ← s8 <$> fetch_byte ;
  cf ← registers_get_flag CF ;
  zf ← registers_get_flag ZF ;
  if cf || zf : bool then take_jump displacement else mret ().

Definition jp7a : emu D unit :=
  displacement ← s8 <$> fetch_byte ;
  pf ← registers_get_flag PF ;
  if pf : bool then take_jump displacement else mret ().

Definition jo70 : emu D unit :=
  displacement ← s8 <$> fetch_byte ;
  of_ ← registers_get_flag OF ;
  if of_ : bool then take_jump displacement else mret ().

Definition js78 : emu D unit :=
  displacement ← s8 <$> fetch_byte ;
  sf ← registers_get_flag SF ;
  if sf : bool then take_jump displacement else mret ().

Definition jne75 : emu D unit :=
  displacement ← s8 <$> fetch_byte ;
  zf ← registers_get_flag ZF ;
  if negb zf : bool then take_jump displacement else mret ().

Definition jnl7d : emu D unit :=
  displacement ← s8 <$> fetch_byte ;
  sf ← registers_get_flag SF ;
  of_ ← registers_get_flag OF ;
  if negb (xorb sf of_) : bool then take_jump displacement else mret ().

Definition jnle7f : emu D unit :=
  displacement ← s8 <$> fetch_byte ;
  sf ← registers_get_flag SF ;
  of_ ← registers_get_flag OF ;
  zf ← registers_get_flag ZF ;
  if negb (xorb sf of_ || zf) : bool then take_jump displacement else mret ().

Definition jnb73 : emu D unit :=
  displacement ← s8 <$> fetch_byte ;
  cf ← registers_get_flag CF ;
  if negb cf : bool then take_jump displacement else mret ().

Definition jnbe77 : emu D unit :=
  displacement ← s8 <$> fetch_byte ;
  cf ← registers_get_flag CF ;
  zf ← registers_get_flag ZF ;
  if negb (cf || zf) : bool then take_jump displacement else mret ().

Definition jnp7b : emu D unit :=
  displacement ← s8 <$> fetch_byte ;
  pf ← registers_get_flag PF ;
  if negb pf : bool then take_jump displacement else mret ().

Definition jno71 : emu D unit :=
  displacement ← s8 <$> fetch_byte ;
  of_ ← registers_get_flag OF ;
  if negb of_ : bool then take_jump displacement else mret ().

Definition jns79 : emu D unit :=
  displacement ← s8 <$> fetch_byte ;
  sf ← registers_get_flag SF ;
  if negb sf : bool then take_jump displacement else mret ().

Definition jmpff_intra : emu D unit :=
  ip ← read_data uint16_t false ;
  registers_set IP ip ;;
  modify (set_jump_taken true).

Definition jmpff_inter : emu D unit :=
  ty ← rm_type ;
  if bool_decide (ty = OP_REG) then mret ()
  else
    cs_ip ← read_data uint32_t false ;
    registers_set IP (cs_ip .& 0xffff) ;;
    registers_set CS ((cs_ip .>> 16) .& 0xffff) ;;
    modify (set_jump_taken true).

Definition jcxze3 : emu D unit :=
  displacement ← s8 <$> fetch_byte ;
  cx ← registers_get CX ;
  if cx =? 0 then take_jump displacement else mret ().

(** ** Loops *)

Definition loope2 : emu D unit :=
  displacement ← (fun b => s16 (s8 b)) <$> fetch_byte ;
  cx ← registers_get CX ;
  registers_set CX (cx - 1) ;;
  cx ← registers_get CX ;
  if negb (cx =? 0) then
    ip ← registers_get IP ;
    n ← gets instr_length ;
    registers_set IP (u64 (ip + n + displacement)) ;;
    modify (set_jump_taken true)
  else mret ().

Definition loopee1 : emu D unit :=
  displacement ← (fun b => s16 (s8 b)) <$> fetch_byte ;
  cx ← registers_get CX ;
  registers_set CX (cx - 1) ;;
  cx ← registers_get CX ;
  zf ← registers_get_flag ZF ;
  if negb (cx =? 0) && zf then
    ip ← registers_get IP ;
    n ← gets instr_length ;
    registers_set IP (u64 (ip + n + displacement)) ;;
    modify (set_jump_taken true)
  else mret ().

Definition loopnze0 : emu D unit :=
  displacement ← (fun b => s16 (s8 b)) <$> fetch_byte ;
  cx ← registers_get CX ;
  registers_set CX (cx - 1) ;;
  cx ← registers_get CX ;
  zf ← registers_get_flag ZF ;
  if negb (cx =? 0) && negb zf then
    ip ← registers_get IP ;
    n ← gets instr_length ;
    registers_set IP (u64 (ip + n + displacement)) ;;
    modify (set_jump_taken true)
  else mret ().

(** ** Calls and returns *)

Definition calle8 : emu D unit :=
  displacement ← fetch_16bit ;
  ip ← registers_get IP ;
  n ← gets instr_length ;
  push_word (u64 (ip + n)) ;;
  ip ← registers_get IP ;
  n ← gets instr_length ;
  registers_set IP (u64 (ip + n + displacement)) ;;
  modify (set_jump_taken true).

Definition callff_intra : emu D unit :=
  displacement ← read_data uint16_t false ;
  ip ← registers_get IP ;
  n ← gets instr_length ;
  push_word (u64 (ip + n)) ;;
  registers_set IP displacement ;;
  modify (set_jump_taken true).

Definition callff_inter : emu D unit :=
  ty ← rm_type ;
  if bool_decide (ty = OP_REG) then mret ()
  else
    cs ← registers_get CS ;
    push_word cs ;;
    ip ← registers_get IP ;
    n ← gets instr_length ;
    push_word (u64 (ip + n)) ;;
    cs_ip ← read_data uint32_t false ;
    registers_set IP (cs_ip .& 0xffff) ;;
    registers_set CS ((cs_ip .>> 16) .& 0xffff) ;;
    modify (set_jump_taken true).

Definition call9a : emu D unit :=
  new_ip ← fetch_16bit ;
  new_cs ← fetch_16bit ;
  cs ← registers_get CS ;
  push_word cs ;;
  ip ← registers_get IP ;
  n ← gets instr_length ;
  push_word (u64 (ip + n)) ;;
  registers_set CS new_cs ;;
  registers_set IP new_ip ;;
  modify (set_jump_taken true).

Definition retc3 : emu D unit :=
  ip ← pop_word ;
  registers_set IP ip ;;
  modify (set_jump_taken true).

Definition retc2 : emu D unit :=
  displacement ← fetch_16bit ;
  ip ← pop_word ;
  registers_set IP ip ;;
  sp ← registers_get SP ;
  registers_set SP (sp + displacement) ;;
  modify (set_jump_taken true).

Definition retcb : emu D unit :=
  ip ← pop_word ;
  cs ← pop_word ;
  registers_set IP ip ;;
  registers_set CS cs ;;
  modify (set_jump_taken true).

Definition retca : emu D unit :=
  displacement ← fetch_16bit ;
  ip ← pop_word ;
  cs ← pop_word ;
  registers_set IP ip ;;
  registers_set CS cs ;;
  sp ← registers_get SP ;
  registers_set SP (sp + displacement) ;;
  modify (set_jump_taken true).

Definition iretcf : emu D unit :=
  ip ← pop_word ;
  cs ← pop_word ;
  flags ← pop_word ;
  registers_set IP ip ;;
  registers_set CS cs ;;
  registers_set_flags flags 0xffff ;;
  modify (set_jump_taken true).

(** ** Software interrupts *)

Definition intcc : emu D unit :=
  flags ← registers_get_flags ;
  push_word flags ;;
  cs ← registers_get CS ;
  push_word cs ;;
  ip ← registers_get IP ;
  n ← gets instr_length ;
  push_word (ip + n) ;;
  let flags := u16 (flags .& ~. (IF .| TF)) in
  registers_set_flags flags (IF .| TF) ;;
  new_cs ← mem_read uint16_t (VEC_INT + 2) ;
  new_ip ← mem_read uint16_t (VEC_INT + 0) ;
  registers_set CS new_cs ;;
  registers_set IP new_ip ;;
  modify (set_jump_taken true).

Definition intcd : emu D unit :=
  flags ← registers_get_flags ;
  int_num ← fetch_byte ;
  push_word flags ;;
  cs ← registers_get CS ;
  push_word cs ;;
  ip ← registers_get IP ;
  n ← gets instr_length ;
  push_word (ip + n) ;;
  let flags := u16 (flags .& ~. (IF .| TF)) in
  registers_set_flags flags (IF .| TF) ;;
  new_cs ← mem_read uint16_t (int_num * 4 + 2) ;
  new_ip ← mem_read uint16_t (int_num * 4 + 0) ;
  registers_set CS new_cs ;;
  registers_set IP new_ip ;;
  modify (set_jump_taken true).

Definition intoce : emu D unit :=
  flags ← registers_get_flags ;
  if negb (nz (flags .& OF)) then mret ()
  else
    push_word flags ;;
    cs ← registers_get CS ;
    push_word cs ;;
    ip ← registers_get IP ;
    n ← gets instr_length ;
    push_word (ip + n) ;;
    let flags := u16 (flags .& ~. (IF .| TF)) in
    registers_set_flags flags (IF .| TF) ;;
    new_cs ← mem_read uint16_t (VEC_OVERFLOW + 2) ;
    new_ip ← mem_read uint16_t (VEC_OVERFLOW + 0) ;
    registers_set CS new_cs ;;
    registers_set IP new_ip ;;
    modify (set_jump_taken true).

(** [decode] without [set_width]: the width is the previous instruction's. *)
Definition bound62 : emu D unit :=
  decode ;;
  ty ← rm_type ;
  if bool_decide (ty = OP_REG) then invalid_opcode
  else
    segment ← get_segment false ;
    base ← registers_get segment ;
    ea ← effective_address ;
    let p32 := get_phys_addr base ea in
    lower ← s16 <$> mem_read uint16_t p32 ;
    upper ← s16 <$> mem_read uint16_t (p32 + 2) ;
    v ← s16 <$> (reg ≫= registers_get) ;
    if (lower <=? v) && (v <=? upper) then mret ()
    else
      flags ← registers_get_flags ;
      push_word flags ;;
      cs ← registers_get CS ;
      push_word cs ;;
      ip ← registers_get IP ;
      n ← gets instr_length ;
      push_word (ip + n) ;;
      let flags := u16 (flags .& ~. (IF .| TF)) in
      registers_set_flags flags (IF .| TF) ;;
      new_cs ← mem_read uint16_t (VEC_BOUND + 2) ;
      new_ip ← mem_read uint16_t (VEC_BOUND + 0) ;
      registers_set CS new_cs ;;
      registers_set IP new_ip ;;
      modify (set_jump_taken true).

Definition escd8 : emu D unit :=
  decode ;;
  if negb S80X86_TRAP_ESCAPE then mret ()
  else
    flags ← registers_get_flags ;
    push_word flags ;;
    cs ← registers_get CS ;
    push_word cs ;;
    ip ← registers_get IP ;
    push_word ip ;;
    let flags := u16 (flags .& ~. (IF .| TF)) in
    registers_set_flags flags (IF .| TF) ;;
    new_cs ← mem_read uint16_t (VEC_ESCAPE + 2) ;
    new_ip ← mem_read uint16_t (VEC_ESCAPE + 0) ;
    registers_set CS new_cs ;;
    registers_set IP new_ip ;;
    modify (set_jump_taken true).

Definition hltf4 : emu D unit := mret ().

Definition wait9b : emu D unit := mret ().

(** ** Stack frames *)

Definition leavec9 : emu D unit :=
  (registers_get BP ≫= registers_set SP) ;;
  (pop_word ≫= registers_set BP).

(** The [for (int i = 1; i < nest; ++i)] loop, [turns] of it. *)
Fixpoint enter_loop (turns : nat) : emu D unit :=
  match turns with
  | O => mret ()
  | S turns =>
      bp ← registers_get BP ;
      registers_set BP (bp - 2) ;;
      ss ← registers_get SS ;
      bp ← registers_get BP ;
      v ← mem_read uint16_t (get_phys_addr ss bp) ;
      push_word v ;;
      enter_loop turns
  end.

Definition enterc8 : emu D unit :=
  size ← fetch_16bit ;
  nest ← (fun b => b .& 0x1f) <$> fetch_byte ;
  (registers_get BP ≫= push_word) ;;
  frame_temp ← registers_get SP ;
  enter_loop (Z.to_nat (nest - 1)) ;;
  (if negb (nest =? 0) then push_word frame_temp else mret ()) ;;
  registers_set BP frame_temp ;;
  sp ← registers_get SP ;
  registers_set SP (sp - size).

End control_instructions.
