(* ===== verification/InsnString.v ===== *)
(** * String instructions: [movs.cpp], [cmps.cpp], [scas.cpp], [lods.cpp],
    [stos.cpp], [ins.cpp] and [outs.cpp] of [sim/cppmodel/instructions]. Each is
    its lambda and the call of [do_rep] on it. *)
From S2P Require Import Prelude Config MainMemory Registers ErrorState IOPorts Machine ModRM Core Alu.

Section string_instructions.
Context {CFG : Config} {D : Type} {IOP : IOPorts D}.

(** [[]() { return false; }]. *)
Definition never : emu D bool := mret false.

Definition scasb : emu D unit :=
  es ← registers_get ES ;
  di ← registers_get DI ;
  v ← mem_read uint8_t (get_phys_addr es di) ;
  a ← registers_get AL ;
  '(flags, _) ← do_sub uint8_t a v 0 ;
  registers_set_flags flags (OF .| SF .| ZF .| CF .| PF .| AF) ;;
  df ← registers_get_flag DF ;
  if df : bool then
    di ← registers_get DI ;
    registers_set DI (di - 1)
  else
    di ← registers_get DI ;
    registers_set DI (di + 1).

Definition scasbae : emu D unit := do_rep scasb string_rep_complete.

Definition scasw : emu D unit :=
  es ← registers_get ES ;
  di ← registers_get DI ;
  v ← mem_read uint16_t (get_phys_addr es di) ;
  a ← registers_get AX ;
  '(flags, _) ← do_sub uint16_t a v 0 ;
  registers_set_flags flags (OF .| SF .| ZF .| CF .| PF .| AF) ;;
  df ← registers_get_flag DF ;
  if df : bool then
    di ← registers_get DI ;
    registers_set DI (di - 2)
  else
    di ← registers_get DI ;
    registers_set DI (di + 2).

Definition scasbaf : emu D unit := do_rep scasw string_rep_complete.

Definition movsb : emu D unit :=
  segment ← get_segment false ;
  seg ← registers_get segment ;
  si ← registers_get SI ;
  v ← mem_read uint8_t (get_phys_addr seg si) ;
  es ← registers_get ES ;
  di ← registers_get DI ;
  mem_write uint8_t (get_phys_addr es di) v ;;
  df ← registers_get_flag DF ;
  if df : bool then
    di ← registers_get DI ;
    registers_set DI (di - 1) ;;
    si ← registers_get SI ;
    registers_set SI (si - 1)
  else
    di ← registers_get DI ;
    registers_set DI (di + 1) ;;
    si ← registers_get SI ;
    registers_set SI (si + 1).

Definition movsba4 : emu D unit := do_rep movsb never.

Definition movsw : emu D unit :=
  segment ← get_segment false ;
  seg ← registers_get segment ;
  si ← registers_get SI ;
  v ← mem_read uint16_t (get_phys_addr seg si) ;
  es ← registers_get ES ;
  di ← registers_get DI ;
  mem_write uint16_t (get_phys_addr es di) v ;;
  df ← registers_get_flag DF ;
  if df : bool then
    di ← registers_get DI ;
    registers_set DI (di - 2) ;;
    si ← registers_get SI ;
    registers_set SI (si - 2)
  else
    di ← registers_get DI ;
    registers_set DI (di + 2) ;;
    si ← registers_get SI ;
    registers_set SI (si + 2).

Definition movswa5 : emu D unit := do_rep movsw never.

Definition cmpsb : emu D unit :=
  segment ← get_segment false ;
  seg ← registers_get segment ;
  si ← registers_get SI ;
  s ← mem_read uint8_t (get_phys_addr seg si) ;
  es ← registers_get ES ;
  di ← registers_get DI ;
  d ← mem_read uint8_t (get_phys_addr es di) ;
  '(flags, _) ← do_sub uint8_t s d 0 ;
  registers_set_flags flags (OF .| SF .| ZF .| AF .| CF .| PF) ;;
  df ← registers_get_flag DF ;
  if df : bool then
    di ← registers_get DI ;
    registers_set DI (di - 1) ;;
    si ← registers_get SI ;
    registers_set SI (si - 1)
  else
    di ← registers_get DI ;
    registers_set DI (di + 1) ;;
    si ← registers_get SI ;
    registers_set SI (si + 1).

Definition cmpsba6 : emu D unit := do_rep cmpsb string_rep_complete.

Definition cmpsw : emu D unit :=
  segment ← get_segment false ;
  seg ← registers_get segment ;
  si ← registers_get SI ;
  s ← mem_read uint16_t (get_phys_addr seg si) ;
  es ← registers_get ES ;
  di ← registers_get DI ;
  d ← mem_read uint16_t (get_phys_addr es di) ;
  '(flags, _) ← do_sub uint16_t s d 0 ;
  registers_set_flags flags (OF .| SF .| ZF .| AF .| CF .| PF) ;;
  df ← registers_get_flag DF ;
  if df : bool then
    di ← registers_get DI ;
    registers_set DI (di - 2) ;;
    si ← registers_get SI ;
    registers_set SI (si - 2)
  else
    di ← registers_get DI ;
    registers_set DI (di + 2) ;;
    si ← registers_get SI ;
    registers_set SI (si + 2).

Definition cmpswa7 : emu D unit := do_rep cmpsw string_rep_complete.

Definition lodsb : emu D unit :=
  segment ← get_segment false ;
  seg ← registers_get segment ;
  si ← registers_get SI ;
  v ← mem_read uint8_t (get_phys_addr seg si) ;
  registers_set AL v ;;
  df ← registers_get_flag DF ;
  if df : bool then
    si ← registers_get SI ;
    registers_set SI (si - 1)
  else
    si ← registers_get SI ;
    registers_set SI (si + 1).

Definition lodsbac : emu D unit := do_rep lodsb never.

Definition lodsw : emu D unit :=
  segment ← get_segment false ;
  seg ← registers_get segment ;
  si ← registers_get SI ;
  v ← mem_read uint16_t (get_phys_addr seg si) ;
  registers_set AX v ;;
  df ← registers_get_flag DF ;
  if df : bool then
    si ← registers_get SI ;
    registers_set SI (si - 2)
  else
    si ← registers_get SI ;
    registers_set SI (si + 2).

Definition lodswad : emu D unit := do_rep lodsw never.

Definition stosb : emu D unit :=
  v ← registers_get AL ;
  es ← registers_get ES ;
  di ← registers_get DI ;
  mem_write uint8_t (get_phys_addr es di) v ;;
  registers_set AL v ;;
  df ← registers_get_flag DF ;
  if df : bool then
    di ← registers_get DI ;
    registers_set DI (di - 1)
  else
    di ← registers_get DI ;
    registers_set DI (di + 1).

Definition stosbaa : emu D unit := do_rep stosb never.

Definition stosw : emu D unit :=
  v ← registers_get AX ;
  es ← registers_get ES ;
  di ← registers_get DI ;
  mem_write uint16_t (get_phys_addr es di) v ;;
  df ← registers_get_flag DF ;
  if df : bool then
    di ← registers_get DI ;
    registers_set DI (di - 2)
  else
    di ← registers_get DI ;
    registers_set DI (di + 2).

Definition stoswab : emu D unit := do_rep stosw never.

Definition outsb : emu D unit :=
  ds ← registers_get DS ;
  si ← registers_get SI ;
  v ← mem_read uint8_t (get_phys_addr ds si) ;
  dx ← registers_get DX ;
  write_io8 dx v ;;
  df ← registers_get_flag DF ;
  if df : bool then
    si ← registers_get SI ;
    registers_set SI (si - 1)
  else
    si ← registers_get SI ;
    registers_set SI (si + 1).

Definition outsb6e : emu D unit := do_rep outsb never.

Definition outsw : emu D unit :=
  ds ← registers_get DS ;
  si ← registers_get SI ;
  v ← mem_read uint16_t (get_phys_addr ds si) ;
  dx ← registers_get DX ;
  write_io16 dx v ;;
  df ← registers_get_flag DF ;
  if df : bool then
    si ← registers_get SI ;
    registers_set SI (si - 2)
  else
    si ← registers_get SI ;
    registers_set SI (si + 2).

Definition outsw6f : emu D unit := do_rep outsw never.

Definition insb : emu D unit :=
  dx ← registers_get DX ;
  v ← read_io8 dx ;
  es ← registers_get ES ;
  di ← registers_get DI ;
  mem_write uint8_t (get_phys_addr es di) v ;;
  df ← registers_get_flag DF ;
  if df : bool then
    di ← registers_get DI ;
    registers_set DI (di - 1)
  else
    di ← registers_get DI ;
    registers_set DI (di + 1).

Definition insb6c : emu D unit := do_rep insb never.

Definition insw : emu D unit :=
  dx ← registers_get DX ;
  v ← read_io16 dx ;
  es ← registers_get ES ;
  di ← registers_get DI ;
  mem_write uint16_t (get_phys_addr es di) v ;;
  df ← registers_get_flag DF ;
  if df : bool then
    di ← registers_get DI ;
    registers_set DI (di - 2)
  else
    di ← registers_get DI ;
    registers_set DI (di + 2).

Definition insw6d : emu D unit := do_rep insw never.

End string_instructions.
