(* ===== verification/Emulate.v ===== *)
(** * Instruction decoding and the step: [emulate_insn], [step] and the opcode
    groups of [sim/cppmodel/Emulate.cpp]. *)
From S2P Require Import Prelude Config MainMemory Registers ErrorState IOPorts Machine ModRM Core Alu.
From S2P Require Import InsnData InsnAlu InsnBcd InsnMulDiv InsnShift InsnControl InsnString.

Section emulate.
Context {CFG : Config} {D : Type} {IOP : IOPorts D}.

(** ** Opcode groups: the operation is the [reg] field of the ModR/M byte *)

Definition push_inc_jmp_call_ff : emu D unit :=
  set_width OP_WIDTH_16 ;;
  decode ;;
  n ← raw_reg ;
  if n =? 6 then pushff
  else if n =? 0 then incff
  else if n =? 1 then decff
  else if n =? 2 then callff_intra
  else if n =? 3 then callff_inter
  else if n =? 4 then jmpff_intra
  else if n =? 5 then jmpff_inter
  else invalid_opcode.

Definition neg_mul_not_test_div_f6 : emu D unit :=
  set_width OP_WIDTH_8 ;;
  decode ;;
  n ← raw_reg ;
  if n =? 0x2 then notf6
  else if n =? 0x3 then negf6
  else if n =? 0x4 then mulf6
  else if n =? 0x5 then imulf6
  else if (n =? 0x0) || (n =? 1) then testf6
  else if n =? 0x6 then divf6
  else if n =? 0x7 then idivf6
  else mret ().

Definition neg_mul_not_test_div_f7 : emu D unit :=
  set_width OP_WIDTH_16 ;;
  decode ;;
  n ← raw_reg ;
  if n =? 0x2 then notf7
  else if n =? 0x3 then negf7
  else if n =? 0x4 then mulf7
  else if n =? 0x5 then imulf7
  else if (n =? 0x0) || (n =? 1) then testf7
  else if n =? 0x6 then divf7
  else if n =? 0x7 then idivf7
  else mret ().

Definition shiftc0 : emu D unit :=
  set_width OP_WIDTH_8 ;;
  decode ;;
  n ← raw_reg ;
  if (n =? 4) || (n =? 6) then shlc0
  else if n =? 5 then shrc0
  else if n =? 7 then sarc0
  else if n =? 0 then rolc0
  else if n =? 2 then rclc0
  else if n =? 3 then rcrc0
  else if n =? 1 then rorc0
  else mret ().

Definition shiftc1 : emu D unit :=
  set_width OP_WIDTH_16 ;;
  decode ;;
  n ← raw_reg ;
  if (n =? 4) || (n =? 6) then shlc1
  else if n =? 5 then shrc1
  else if n =? 7 then sarc1
  else if n =? 0 then rolc1
  else if n =? 2 then rclc1
  else if n =? 3 then rcrc1
  else if n =? 1 then rorc1
  else mret ().

Definition shiftd0 : emu D unit :=
  set_width OP_WIDTH_8 ;;
  decode ;;
  n ← raw_reg ;
  if (n =? 4) || (n =? 6) then shld0
  else if n =? 5 then shrd0
  else if n =? 7 then sard0
  else if n =? 0 then rold0
  else if n =? 2 then rcld0
  else if n =? 3 then rcrd0
  else if n =? 1 then rord0
  else mret ().

Definition shiftd1 : emu D unit :=
  set_width OP_WIDTH_16 ;;
  decode ;;
  n ← raw_reg ;
  if (n =? 4) || (n =? 6) then shld1
  else if n =? 5 then shrd1
  else if n =? 7 then sard1
  else if n =? 0 then rold1
  else if n =? 2 then rcld1
  else if n =? 3 then rcrd1
  else if n =? 1 then rord1
  else mret ().

Definition shiftd2 : emu D unit :=
  set_width OP_WIDTH_8 ;;
  decode ;;
  n ← raw_reg ;
  if (n =? 4) || (n =? 6) then shld2
  else if n =? 5 then shrd2
  else if n =? 7 then sard2
  else if n =? 0 then rold2
  else if n =? 2 then rcld2
  else if n =? 1 then rord2
  else if n =? 3 then rcrd2
  else mret ().

Definition shiftd3 : emu D unit :=
  set_width OP_WIDTH_16 ;;
  decode ;;
  n ← raw_reg ;
  if (n =? 4) || (n =? 6) then shld3
  else if n =? 5 then shrd3
  else if n =? 7 then sard3
  else if n =? 0 then rold3
  else if n =? 2 then rcld3
  else if n =? 1 then rord3
  else if n =? 3 then rcrd3
  else mret ().

(** ** The opcode [switch] *)

(** The cases that run an instruction; the switch's [default] only prints a
    warning, and the prefixes are [process_prefix]. *)
Definition execute_opcode (opcode : Z) : emu D unit :=
  match opcode with
  | 0x00 => add00
  | 0x01 => add01
  | 0x02 => add02
  | 0x03 => add03
  | 0x04 => add04
  | 0x05 => add05
  | 0x06 => pushsr
  | 0x07 => popsr
  | 0x08 => or08
  | 0x09 => or09
  | 0x0a => or0a
  | 0x0b => or0b
  | 0x0c => or0c
  | 0x0d => or0d
  | 0x0e => pushsr
  | 0x0f => invalid_opcode
  | 0x10 => adc10
  | 0x11 => adc11
  | 0x12 => adc12
  | 0x13 => adc13
  | 0x14 => adc14
  | 0x15 => adc15
  | 0x16 => pushsr
  | 0x17 => popsr
  | 0x18 => sbb18
  | 0x19 => sbb19
  | 0x1a => sbb1a
  | 0x1b => sbb1b
  | 0x1c => sbb1c
  | 0x1d => sbb1d
  | 0x1e => pushsr
  | 0x1f => popsr
  | 0x20 => and20
  | 0x21 => and21
  | 0x22 => and22
  | 0x23 => and23
  | 0x24 => and24
  | 0x25 => and25
  | 0x27 => daa27
  | 0x28 => sub28
  | 0x29 => sub29
  | 0x2a => sub2a
  | 0x2b => sub2b
  | 0x2c => sub2c
  | 0x2d => sub2d
  | 0x2f => das2f
  | 0x30 => xor30
  | 0x31 => xor31
  | 0x32 => xor32
  | 0x33 => xor33
  | 0x34 => xor34
  | 0x35 => xor35
  | 0x37 => aaa37
  | 0x38 => cmp38
  | 0x39 => cmp39
  | 0x3a => cmp3a
  | 0x3b => cmp3b
  | 0x3c => cmp3c
  | 0x3d => cmp3d
  | 0x3f => aas3f
  | 0x40 | 0x41 | 0x42 | 0x43 | 0x44 | 0x45 | 0x46 | 0x47 => inc40_47
  | 0x48 | 0x49 | 0x4a | 0x4b | 0x4c | 0x4d | 0x4e | 0x4f => dec48_4f
  | 0x50 | 0x51 | 0x52 | 0x53 | 0x54 | 0x55 | 0x56 | 0x57 => push50_57
  | 0x58 | 0x59 | 0x5a | 0x5b | 0x5c | 0x5d | 0x5e | 0x5f => pop58_5f
  | 0x60 => pusha60
  | 0x61 => popa61
  | 0x62 => bound62
  | 0x63 | 0x64 | 0x65 | 0x66 | 0x67 => invalid_opcode
  | 0x68 => push68
  | 0x69 => imul69
  | 0x6a => push6a
  | 0x6b => imul6b
  | 0x6c => insb6c
  | 0x6d => insw6d
  | 0x6e => outsb6e
  | 0x6f => outsw6f
  | 0x70 => jo70
  | 0x71 => jno71
  | 0x72 => jb72
  | 0x73 => jnb73
  | 0x74 => je74
  | 0x75 => jne75
  | 0x76 => jbe76
  | 0x77 => jnbe77
  | 0x78 => js78
  | 0x79 => jns79
  | 0x7a => jp7a
  | 0x7b => jnp7b
  | 0x7c => jl7c
  | 0x7d => jnl7d
  | 0x7e => jle7e
  | 0x7f => jnle7f
  | 0x80 => add_adc_sub_sbb_cmp_xor_or_and_80
  | 0x81 => add_adc_sub_sbb_cmp_xor_or_and_81
  | 0x82 => add_adc_sub_sbb_cmp_82
  | 0x83 => add_adc_sub_sbb_cmp_83
  | 0x84 => test84
  | 0x85 => test85
  | 0x86 => xchg86
  | 0x87 => xchg87
  | 0x88 => mov88
  | 0x89 => mov89
  | 0x8a => mov8a
  | 0x8b => mov8b
  | 0x8c => mov8c
  | 0x8d => lea8d
  | 0x8e => mov8e
  | 0x8f => pop8f
  | 0x90 | 0x91 | 0x92 | 0x93 | 0x94 | 0x95 | 0x96 | 0x97 => xchg90_97
  | 0x98 => cbw98
  | 0x99 => cwd99
  | 0x9a => call9a
  | 0x9b => wait9b
  | 0x9c => pushf9c
  | 0x9d => popf9d
  | 0x9e => sahf9e
  | 0x9f => lahf9f
  | 0xa0 => mova0
  | 0xa1 => mova1
  | 0xa2 => mova2
  | 0xa3 => mova3
  | 0xa4 => movsba4
  | 0xa5 => movswa5
  | 0xa6 => cmpsba6
  | 0xa7 => cmpswa7
  | 0xa8 => testa8
  | 0xa9 => testa9
  | 0xaa => stosbaa
  | 0xab => stoswab
  | 0xac => lodsbac
  | 0xad => lodswad
  | 0xae => scasbae
  | 0xaf => scasbaf
  | 0xb0 | 0xb1 | 0xb2 | 0xb3 | 0xb4 | 0xb5 | 0xb6 | 0xb7 => movb0_b7
  | 0xb8 | 0xb9 | 0xba | 0xbb | 0xbc | 0xbd | 0xbe | 0xbf => movb8_bf
  | 0xc0 => shiftc0
  | 0xc1 => shiftc1
  | 0xc2 => retc2
  | 0xc3 => retc3
  | 0xc4 => lesc4
  | 0xc5 => ldsc5
  | 0xc6 => movc6
  | 0xc7 => movc7
  | 0xc8 => enterc8
  | 0xc9 => leavec9
  | 0xca => retca
  | 0xcb => retcb
  | 0xcc => intcc
  | 0xcd => intcd
  | 0xce => intoce
  | 0xcf => iretcf
  | 0xd0 => shiftd0
  | 0xd1 => shiftd1
  | 0xd2 => shiftd2
  | 0xd3 => shiftd3
  | 0xd4 => aamd4
  | 0xd5 => aadd5
  | 0xd6 => setalcd6
  | 0xd7 => xlatd7
  | 0xd8 | 0xd9 | 0xda | 0xdb | 0xdc | 0xdd | 0xde | 0xdf => escd8
  | 0xe0 => loopnze0
  | 0xe1 => loopee1
  | 0xe2 => loope2
  | 0xe3 => jcxze3
  | 0xe4 => ine4
  | 0xe5 => ine5
  | 0xe6 => oute6
  | 0xe7 => oute7
  | 0xe8 => calle8
  | 0xe9 => jmpe9
  | 0xea => jmpea
  | 0xeb => jmpeb
  | 0xec => inec
  | 0xed => ined
  | 0xee => outee
  | 0xef => outef
  | 0xf1 => invalid_opcode
  | 0xf4 => hltf4
  | 0xf5 => cmcf5
  | 0xf6 => neg_mul_not_test_div_f6
  | 0xf7 => neg_mul_not_test_div_f7
  | 0xf8 => clcf8
  | 0xf9 => stcf9
  | 0xfa => clifa
  | 0xfb => stifb
  | 0xfc => cldfc
  | 0xfd => stdfd
  | 0xfe => inc_dec_fe
  | 0xff => push_inc_jmp_call_ff
  | _ => mret ()
  end.

(** The prefix cases of the switch: [true] when the opcode is one. *)
Definition process_prefix (opcode : Z) : emu D bool :=
  match opcode with
  | 0xf0 => mret true
  | 0x26 => set_override_segment_to ES ;; mret true
  | 0x2e => set_override_segment_to CS ;; mret true
  | 0x36 => set_override_segment_to SS ;; mret true
  | 0x3e => set_override_segment_to DS ;; mret true
  | 0xf2 =>
      modify (set_rep_mode REPNE) ;; modify (set_has_rep_prefix true) ;; mret true
  | 0xf3 =>
      modify (set_rep_mode REPE) ;; modify (set_has_rep_prefix true) ;; mret true
  | _ => mret false
  end.

(** The [do ... while (processing_prefixes)] loop, for at most [fuel] opcode
    bytes. *)
Fixpoint opcode_loop (fuel : nat) : emu D unit :=
  match fuel with
  | O => throw OutOfFuel
  | S fuel =>
      b ← fetch_byte ;
      modify (set_opcode b) ;;
      processing_prefixes ← process_prefix b ;
      if processing_prefixes : bool then opcode_loop fuel else execute_opcode b
  end.

Definition emulate_insn (fuel : nat) : emu D Z :=
  modify (set_instr_length 0) ;;
  modify (set_default_segment_overriden false) ;;
  modify (set_has_rep_prefix false) ;;
  ModRMDecoder.clear ;;
  modify (set_jump_taken false) ;;
  modify (set_ext_int_inhibit false) ;;
  opcode_loop fuel ;;
  n ← gets instr_length ;
  (if 16 <=? n then
     modify (set_instr_length (n mod 16)) ;;
     invalid_opcode
   else mret ()) ;;
  taken ← gets jump_taken ;
  n ← gets instr_length ;
  (if negb taken then
     ip ← registers_get IP ;
     registers_set IP (ip + n)
   else mret ()) ;;
  gets instr_length.

(** ** The step *)

Definition step (fuel : nat) : emu D Z :=
  tf ← registers_get_flag TF ;
  modify (set_tf_was_set tf) ;;
  nmi ← gets nmi_pending ;
  inhibit ← gets ext_int_inhibit ;
  irq ← gets pending_irq ;
  ifl ← registers_get_flag IF ;
  if nmi && negb inhibit then
    handle_nmi ;;
    mret 0
  else if nz irq && negb inhibit && ifl then
    handle_irq ;;
    mret 0
  else
    len ← emulate_insn fuel ;
    nmi ← gets nmi_pending ;
    inhibit ← gets ext_int_inhibit ;
    irq ← gets pending_irq ;
    ifl ← registers_get_flag IF ;
    (if nmi && negb inhibit then handle_nmi
     else if nz irq && negb inhibit && ifl then handle_irq
     else if negb inhibit then single_step
     else mret ()) ;;
    mret len.

(** [EmulatorPimpl::reset]. *)
Definition reset : emu D unit :=
  modify (fun m => set_registers (RegisterFile.reset (registers m)) m) ;;
  modify (set_opcode 0) ;;
  modify (set_instr_length 0) ;;
  modify (set_nmi_pending false) ;;
  modify (set_ext_int_inhibit false) ;;
  modify (set_pending_irq 0).

(** [EmulatorPimpl::has_trapped]. *)
Definition has_trapped : emu D bool :=
  int_cs ← mem_read uint16_t (VEC_INT + 2) ;
  int_ip ← mem_read uint16_t (VEC_INT + 0) ;
  cs ← registers_get CS ;
  ip ← registers_get IP ;
  mret ((cs =? int_cs) && (ip =? int_ip)).

End emulate.
