(* ===== verification/StepSafe.v ===== *)
(** * Every step keeps the machine well formed

    Safety of the instructions and of the step; termination of the prefix
    loop. *)
From S2P Require Import Prelude Config MainMemory Registers ErrorState IOPorts Machine ModRM Core Alu.
From S2P Require Import Safety Decoder CoreSafe Bench.
From S2P Require Import InsnData InsnAlu InsnBcd InsnMulDiv InsnShift InsnControl InsnString Emulate.

Section instructions.
#[local] Set Default Proof Using "Type*".
Context {CFG : Config} {D : Type} {IOP : IOPorts D} {SAFE : IOPortsSafe D}.
Abbreviation safe := (Safety.safe (D := D)).

Lemma safe_enter_loop n Φ : safe anything Φ (enter_loop n) (fun _ => True) Φ.
Proof. induction n; cbn [enter_loop]; safe_insn. Qed.

#[local] Hint Resolve safe_enter_loop : safe.

Lemma safe_opcodes_00 op :
  0 <= op < 64 -> safe anything any (execute_opcode op) (fun _ => True) any.
Proof. intros. enum_from op 0 64%nat; cbn [execute_opcode]; safe_insn. Qed.

Lemma safe_opcodes_40 op :
  64 <= op < 128 -> safe anything any (execute_opcode op) (fun _ => True) any.
Proof. intros. enum_from op 64 64%nat; cbn [execute_opcode]; safe_insn. Qed.

Lemma safe_opcodes_80 op :
  128 <= op < 192 -> safe anything any (execute_opcode op) (fun _ => True) any.
Proof. intros. enum_from op 128 64%nat; cbn [execute_opcode]; safe_insn. Qed.

Lemma safe_opcodes_c0 op :
  192 <= op < 256 -> safe anything any (execute_opcode op) (fun _ => True) any.
Proof. intros. enum_from op 192 64%nat; cbn [execute_opcode]; safe_insn. Qed.

Lemma safe_execute_opcode op :
  in_range uint8_t op -> safe anything any (execute_opcode op) (fun _ => True) any.
Proof.
  intros Hop.
  destruct (Z.lt_ge_cases op 64); [apply safe_opcodes_00; cpp_lia|].
  destruct (Z.lt_ge_cases op 128); [apply safe_opcodes_40; cpp_lia|].
  destruct (Z.lt_ge_cases op 192); [apply safe_opcodes_80|apply safe_opcodes_c0]; cpp_lia.
Qed.
End instructions.

(** ** The prefix loop *)

Section prefixes.
#[local] Set Default Proof Using "Type*".
Context {CFG : Config} {D : Type} {IOP : IOPorts D}.
Implicit Types m : machine D.

Definition is_prefix (b : Z) : bool :=
  bool_decide (b ∈ [0xf0; 0x26; 0x2e; 0x36; 0x3e; 0xf2; 0xf3]).

(** The opcode fetched next. *)
Definition next_byte m : Z := code_byte m (instr_length m).

(** Fetching and recording the opcode. *)
Definition fetched m : machine D :=
  set_opcode (next_byte m) (set_instr_length (u64 (instr_length m + 1)) m).

(** What a prefix records. *)
Definition after_prefix (b : Z) m : machine D :=
  match b with
  | 0x26 => set_override_segment ES (set_default_segment_overriden true m)
  | 0x2e => set_override_segment CS (set_default_segment_overriden true m)
  | 0x36 => set_override_segment SS (set_default_segment_overriden true m)
  | 0x3e => set_override_segment DS (set_default_segment_overriden true m)
  | 0xf2 => set_has_rep_prefix true (set_rep_mode REPNE m)
  | 0xf3 => set_has_rep_prefix true (set_rep_mode REPE m)
  | _ => m
  end.

Lemma is_prefix_cases (P : Z -> Prop) b :
  P 0xf0 -> P 0x26 -> P 0x2e -> P 0x36 -> P 0x3e -> P 0xf2 -> P 0xf3 ->
  is_prefix b = true -> P b.
Proof.
  intros H1 H2 H3 H4 H5 H6 H7 Hb. apply bool_decide_eq_true in Hb.
  repeat (apply elem_of_cons in Hb as [->|Hb]; [done|]). set_solver.
Qed.

Lemma after_no_prefix b m : is_prefix b = false -> after_prefix b m = m.
Proof.
  intros Hb. unfold is_prefix in Hb. rewrite bool_decide_eq_false in Hb.
  unfold after_prefix. repeat case_match; try done; destruct Hb; set_solver.
Qed.

Lemma process_prefix_eq b m : process_prefix b m = Ok (is_prefix b) (after_prefix b m).
Proof.
  destruct (is_prefix b) eqn:E.
  - revert E. apply (is_prefix_cases (fun b => process_prefix b m = Ok true (after_prefix b m)));
      reflexivity.
  - rewrite after_no_prefix by done. unfold is_prefix in E. rewrite bool_decide_eq_false in E.
    unfold process_prefix. repeat case_match; try done; destruct E; set_solver.
Qed.

Lemma after_prefix_frame b m :
  mem (after_prefix b m) = mem m /\ registers (after_prefix b m) = registers m /\
  instr_length (after_prefix b m) = instr_length m /\
  modrm_decoder (after_prefix b m) = modrm_decoder m /\
  opcode (after_prefix b m) = opcode m /\ pending_irq (after_prefix b m) = pending_irq m.
Proof.
  destruct (is_prefix b) eqn:E; [|by rewrite after_no_prefix].
  revert E.
  apply (is_prefix_cases (fun b =>
    mem (after_prefix b m) = mem m /\ registers (after_prefix b m) = registers m /\
    instr_length (after_prefix b m) = instr_length m /\
    modrm_decoder (after_prefix b m) = modrm_decoder m /\
    opcode (after_prefix b m) = opcode m /\ pending_irq (after_prefix b m) = pending_irq m));
    by repeat split.
Qed.

Lemma wf_fetched m : wf m -> wf (fetched m).
Proof.
  intros Hm. pose proof (code_byte_range m (instr_length m) Hm). unfold fetched, next_byte.
  destruct Hm. split; msimpl; auto with cpp.
Qed.

Lemma wf_after_prefix b m : wf m -> wf (after_prefix b m).
Proof.
  intros [H1 H2 H3 H4 H5 H6 H7]. destruct (after_prefix_frame b m) as (E1&E2&E3&E4&E5&E6).
  split; rewrite ?E1, ?E2, ?E3, ?E4, ?E5, ?E6; done.
Qed.

Lemma opcode_loop_eq fuel m :
  wf m ->
  opcode_loop (S fuel) m =
    if is_prefix (next_byte m)
    then opcode_loop fuel (after_prefix (next_byte m) (fetched m))
    else execute_opcode (next_byte m) (fetched m).
Proof.
  intros Hm. cbn [opcode_loop]. run. rewrite fetch_byte_eq by done. run.
  rewrite process_prefix_eq. unfold next_byte, fetched in *.
  destruct (is_prefix _) eqn:E; [done|]. by rewrite after_no_prefix.
Qed.

(** *** Termination *)

(** Some byte within [fuel] of the next one is no prefix. *)
Definition prefixes_end (fuel : nat) m : Prop :=
  exists i, 0 <= i < Z.of_nat fuel /\ is_prefix (code_byte m (instr_length m + i)) = false.

Lemma code_byte_frame m m' i :
  mem m' = mem m -> registers m' = registers m -> code_byte m' i = code_byte m i.
Proof. intros Hm Hr. unfold code_byte. by rewrite Hm, Hr. Qed.

Lemma prefixes_end_step fuel m :
  prefixes_end (S fuel) m -> is_prefix (next_byte m) = true ->
  prefixes_end fuel (after_prefix (next_byte m) (fetched m)).
Proof.
  intros (i & Hi & Hp) Hn.
  destruct (after_prefix_frame (next_byte m) (fetched m)) as (E1 & E2 & E3 & _).
  assert (i <> 0) as Hi0.
  { intros ->. rewrite Z.add_0_r in Hp. unfold next_byte in Hn. congruence. }
  exists (i - 1). split; [lia|]. rewrite E3, (code_byte_frame (fetched m)) by done.
  unfold fetched; msimpl. rewrite <- code_byte_u64, u64_add_l, code_byte_u64.
  change (is_prefix (code_byte m (instr_length m + 1 + (i - 1))) = false).
  by replace (instr_length m + 1 + (i - 1)) with (instr_length m + i) by lia.
Qed.
End prefixes.

Section loop_safe.
#[local] Set Default Proof Using "Type*".
Context {CFG : Config} {D : Type} {IOP : IOPorts D} {SAFE : IOPortsSafe D}.
Implicit Types m : machine D.

Lemma safe_opcode_loop fuel m :
  inv any m -> prefixes_end fuel m ->
  wp (opcode_loop fuel) (fun _ m' => inv any m') allowed m.
Proof.
  revert m. induction fuel as [|fuel IH]; intros m [Hm _] Hp.
  { exfalso. destruct Hp as (i & Hi & _). lia. }
  unfold wp. rewrite opcode_loop_eq by done. destruct (is_prefix (next_byte m)) eqn:E.
  - apply IH; [|by apply prefixes_end_step].
    split; [|done]. by apply wf_after_prefix, wf_fetched.
  - eapply wp_mono; [eapply safe_execute_opcode|intros ? ? (_ & ? & _); done|done].
    + by apply code_byte_range.
    + split; [|done]. by apply wf_fetched.
Qed.

(** Whatever the fuel, the loop stops with nothing worse than having spent it. *)
Lemma safe_opcode_loop_fuel fuel m :
  inv any m ->
  wp (opcode_loop fuel) (fun _ m' => inv any m') (fun e => allowed e \/ e = OutOfFuel) m.
Proof.
  revert m. induction fuel as [|fuel IH]; intros m [Hm _].
  { apply wp_throw. by right. }
  unfold wp. rewrite opcode_loop_eq by done. destruct (is_prefix (next_byte m)) eqn:E.
  - apply IH. split; [|done]. by apply wf_after_prefix, wf_fetched.
  - eapply wp_mono; [eapply safe_execute_opcode|intros ? ? (_ & ? & _); done|by left].
    + by apply code_byte_range.
    + split; [|done]. by apply wf_fetched.
Qed.

(** More fuel changes nothing once the loop ends. *)
Lemma opcode_loop_more fuel fuel' m :
  wf m -> prefixes_end fuel m -> (fuel <= fuel')%nat ->
  opcode_loop fuel' m = opcode_loop fuel m.
Proof.
  revert fuel' m. induction fuel as [|fuel IH]; intros fuel' m Hm Hp Hle.
  { exfalso. destruct Hp as (i & Hi & _). lia. }
  destruct fuel' as [|fuel']; [lia|]. rewrite !opcode_loop_eq by done.
  destruct (is_prefix (next_byte m)) eqn:E; [|done].
  apply IH; [by apply wf_after_prefix, wf_fetched|by apply prefixes_end_step|lia].
Qed.

(** A code segment of prefixes keeps the loop going for ever. *)
Lemma opcode_loop_diverges fuel m :
  wf m -> (forall i, 0 <= i < Z.of_nat fuel -> is_prefix (code_byte m (instr_length m + i)) = true) ->
  opcode_loop fuel m = Err OutOfFuel.
Proof.
  revert m. induction fuel as [|fuel IH]; intros m Hm Hp; [done|].
  assert (Hn : is_prefix (next_byte m) = true).
  { specialize (Hp 0 ltac:(lia)). by rewrite Z.add_0_r in Hp. }
  rewrite opcode_loop_eq, Hn by done. apply IH; [by apply wf_after_prefix, wf_fetched|].
  intros i Hi. destruct (after_prefix_frame (next_byte m) (fetched m)) as (E1 & E2 & E3 & _).
  rewrite E3, (code_byte_frame (fetched m)) by done.
  unfold fetched; msimpl. rewrite <- code_byte_u64, u64_add_l, code_byte_u64.
  change (is_prefix (code_byte m (instr_length m + 1 + i)) = true).
  rewrite <- Z.add_assoc. apply Hp. lia.
Qed.
End loop_safe.

(** ** The step *)

Section step_safe.
#[local] Set Default Proof Using "Type*".
Context {CFG : Config} {D : Type} {IOP : IOPorts D} {SAFE : IOPortsSafe D}.
Implicit Types m : machine D.

(** Enough opcode bytes to go round the whole of memory. *)
Definition enough_fuel (fuel : nat) : Prop := Memory.MEMORY_SIZE <= Z.of_nat fuel.

(** Memory is not all prefixes. *)
Definition has_opcode m : Prop :=
  exists a, 0 <= a < Memory.MEMORY_SIZE /\ is_prefix (Memory.byte_at (mem m) a) = false.

Lemma prefixes_end_intro fuel m :
  enough_fuel fuel -> wf m -> instr_length m = 0 -> has_opcode m -> prefixes_end fuel m.
Proof.
  intros Hf Hm Hn (a & Ha & Hp). unfold enough_fuel, Memory.MEMORY_SIZE in *.
  pose proof (RegisterFile.get_range (registers m) CS (wf_registers m Hm)) as Hcs.
  pose proof (RegisterFile.get_range (registers m) IP (wf_registers m Hm)) as Hip.
  change (RegisterFile.gpr_type CS) with uint16_t in Hcs.
  change (RegisterFile.gpr_type IP) with uint16_t in Hip. rewrite in_u16 in Hcs, Hip.
  set (cs := RegisterFile.get (registers m) CS) in *.
  set (ip := RegisterFile.get (registers m) IP) in *.
  exists ((a - (16 * cs + ip)) mod 1048576). split.
  { pose proof (Z.mod_pos_bound (a - (16 * cs + ip)) 1048576). lia. }
  unfold code_byte. fold cs ip. rewrite Hn, <- Hp. do 2 f_equal.
  set (k := (a - (16 * cs + ip)) mod 1048576).
  assert (Hk : 0 <= k < 1048576) by by apply Z.mod_pos_bound.
  rewrite Z.add_0_l, (cast_id uint64_t) by cpp_lia.
  rewrite get_phys_addr_eq by cpp_lia. unfold Memory.MEMORY_SIZE, k. zlia.
Qed.

(** What follows the loop: the length check and the advance of IP. *)
Definition finish_insn : emu D Z :=
  n ← gets instr_length ;
  (if 16 <=? n then
     modify (set_instr_length (n mod 16)) ;;
     invalid_opcode
   else mret ()) ;;
  taken ← gets jump_taken ;
  n ← gets instr_length ;
  (if negb taken then
     ip ← registers_get IP ;
     registers_set IP (ip + n)
   else mret ()) ;;
  gets instr_length.

Lemma safe_finish_insn : safe anything any finish_insn (in_range uint64_t) any.
Proof.
  unfold finish_insn.
  eapply (safe_bind _ _ any _ _ _ (in_range uint64_t)).
  { apply safe_gets. by intros m [[] _]. }
  intros n Hn. eapply (safe_bind _ _ any _ _ _ (fun _ => True)).
  { destruct (16 <=? n); [|by apply safe_ret].
    apply (safe_bind _ _ any _ _ _ (fun _ => True)); [|intros; apply safe_invalid_opcode].
    apply safe_modify; [|done..]. intros m Hm. apply wf_set_instr_length_mod; [done|cpp_lia]. }
  intros _ _. eapply (safe_bind _ _ any _ _ _ (fun _ => True)); [by apply safe_gets|].
  intros taken _. eapply (safe_bind _ _ any _ _ _ (fun _ => True)); [by apply safe_gets|].
  intros n' _. eapply (safe_bind _ _ any _ _ _ (fun _ => True)); [safe_auto|].
  intros _ _. apply safe_gets. by intros m [[] _].
Qed.

Lemma emulate_insn_eq fuel m :
  emulate_insn fuel m =
    (opcode_loop fuel ;; finish_insn)
      (set_ext_int_inhibit false (set_jump_taken false
         (set_modrm_decoder (set_mrm_is_decoded false (modrm_decoder m))
            (set_has_rep_prefix false (set_default_segment_overriden false
               (set_instr_length 0 m)))))).
Proof using IOP. reflexivity. Qed.

(** The instruction: from a well-formed state, [emulate_insn] returns. *)
Lemma safe_emulate_insn fuel m :
  enough_fuel fuel -> inv any m -> has_opcode m ->
  wp (emulate_insn fuel) (fun n m' => in_range uint64_t n /\ inv any m') allowed m.
Proof.
  intros Hf Hm Ho. unfold wp. rewrite emulate_insn_eq.
  set (m0 := set_ext_int_inhibit _ _).
  assert (Hm0 : inv any m0) by (split; [by destruct Hm as [[] _]|done]).
  apply wp_bind. eapply wp_mono; [apply safe_opcode_loop; [done|]| |done].
  { by apply prefixes_end_intro; [|apply Hm0|..]. }
  intros [] m1 Hm1. eapply wp_mono; [by apply safe_finish_insn| |done].
  intros n m2 (Hn & Hm2 & _). done.
Qed.

(** Taking whatever interrupt is due. *)
Lemma safe_step_interrupt m :
  inv any m ->
  wp (nmi ← gets nmi_pending ;
      inhibit ← gets ext_int_inhibit ;
      irq ← gets pending_irq ;
      ifl ← registers_get_flag IF ;
      (if nmi && negb inhibit then handle_nmi
       else if nz irq && negb inhibit && ifl then handle_irq
       else if negb inhibit then single_step
       else mret ())) (fun _ m' => inv any m') allowed m.
Proof.
  intros Hm. do 4 apply wp_bind, wp_gets.
  destruct (nmi_pending m && negb (ext_int_inhibit m)).
  { eapply wp_mono; [by apply (safe_handle_nmi any)|by intros ? ? (_ & ? & _)|done]. }
  destruct (nz (pending_irq m)) eqn:Hp; cbn [andb].
  1: destruct (negb _ && _); [by apply safe_handle_irq; [|by apply nz_true]|].
  all: destruct (negb _); [|by apply wp_ret].
  all: eapply wp_mono; [by apply (safe_single_step any)|by intros ? ? (_ & ? & _)|done].
Qed.

Lemma step_eq fuel m :
  step fuel m =
    (tf ← registers_get_flag TF ;
     modify (set_tf_was_set tf) ;;
     if nmi_pending m && negb (ext_int_inhibit m) then handle_nmi ;; mret 0
     else if nz (pending_irq m) && negb (ext_int_inhibit m) &&
             RegisterFile.get_flag (registers m) IF then handle_irq ;; mret 0
     else
       len ← emulate_insn fuel ;
       (nmi ← gets nmi_pending ;
        inhibit ← gets ext_int_inhibit ;
        irq ← gets pending_irq ;
        ifl ← registers_get_flag IF ;
        (if nmi && negb inhibit then handle_nmi
         else if nz irq && negb inhibit && ifl then handle_irq
         else if negb inhibit then single_step
         else mret ())) ;;
       mret len) m.
Proof.
  unfold step. run. destruct (nmi_pending m && _); [done|].
  destruct (nz _ && _ && _); [done|]. run. by destruct (emulate_insn _ _).
Qed.

Lemma wf_set_tf b m : inv any m -> inv any (set_tf_was_set b m).
Proof. by intros [[] _]. Qed.

(** A step, given that its instruction, if it runs one, is well behaved. *)
Lemma safe_step_gen fuel (E : error -> Prop) m :
  (forall e, allowed e -> E e) -> inv any m ->
  (forall b, wp (emulate_insn fuel) (fun n m' => in_range uint64_t n /\ inv any m') E
               (set_tf_was_set b m)) ->
  wp (step fuel) (fun n m' => in_range uint64_t n /\ inv any m') E m.
Proof.
  intros HE Hm Hi. unfold wp at 1. rewrite step_eq. apply wp_bind, wp_gets, wp_bind, wp_modify.
  set (m0 := set_tf_was_set _ m). assert (Hm0 : inv any m0) by by apply wf_set_tf.
  destruct (nmi_pending m && _).
  { apply wp_bind. eapply wp_mono; [by apply (safe_handle_nmi any)| |done].
    intros [] m1 (_ & Hm1 & _). by apply wp_ret. }
  destruct (nz (pending_irq m)) eqn:Hp; cbn [andb].
  1: destruct (negb _ && _).
  { apply wp_bind. eapply wp_mono; [apply safe_handle_irq; [done|by apply nz_true]| |done].
    intros [] m1 Hm1. by apply wp_ret. }
  all: apply wp_bind; eapply wp_mono; [apply Hi|intros n m1 [Hn Hm1]|done].
  all: apply wp_bind; eapply wp_mono; [by apply safe_step_interrupt| |done].
  all: intros [] m2 Hm2; by apply wp_ret.
Qed.

(** C1. A step from any well-formed state, whatever the opcode bytes, ends in
    a well-formed state and returns an instruction length, provided memory is
    not made of prefix bytes only: the prefix loop ends, no assertion of the
    decoder or of the register file fails, every [GPR] is an enumerator, REP
    loops end. The only other outcomes are an access past the end of RAM,
    [INT_MIN / -1] and a device's own error. *)
Theorem step_safe fuel m :
  enough_fuel fuel -> wf m -> has_opcode m ->
  wp (step fuel) (fun n m' => in_range uint64_t n /\ wf m')
    (fun e => e = AssertMemory \/ e = SignedOverflow \/ e = DeviceError) m.
Proof.
  intros Hf Hm Ho.
  eapply wp_mono; [apply (safe_step_gen fuel allowed)|by intros n m' [? []]|by intros e].
  - done.
  - by split.
  - intros b. apply safe_emulate_insn; [done|by apply wf_set_tf; split|done].
Qed.
End step_safe.

(** [INC AX] at 0000:0100. *)
Lemma step_safe_witness :
  let m := bench [0x40] 0 [] [] 0 in
  wp (step (Z.to_nat Memory.MEMORY_SIZE)) (fun n m' => in_range uint64_t n /\ wf m')
    (fun e => e = AssertMemory \/ e = SignedOverflow \/ e = DeviceError) m.
Proof.
  apply step_safe.
  - unfold enough_fuel. rewrite Z2Nat.id; [done|by vm_compute].
  - wf_bench.
  - exists 0x100. split; [done|by vm_compute].
Defined.
