(* ===== verification/AluTable.v ===== *)
(** * The two-operand instructions as one table

    The 48 opcodes [00rrr0ff] and the immediate groups are one instruction,
    with the operation in three bits and the form of the operands in three
    more; what it computes is integer arithmetic. *)
From S2P Require Import Prelude Config MainMemory Registers ErrorState IOPorts Machine ModRM Core.
From S2P Require Import Safety Decoder CoreSafe DecoderProps Bench Alu AluProps InsnAlu Emulate.

(** ** The abstract instruction *)

Inductive alu_op := ADD | OR | ADC | SBB | AND | SUB | XOR | CMP.
Inductive alu_form := EbGb | EvGv | GbEb | GvEv | ALIb | AXIv.

#[export] Instance alu_op_eq_dec : EqDecision alu_op.
Proof. solve_decision. Defined.

(** The six status flags of a result. *)
Record status := mk_status {
  st_af : bool; st_cf : bool; st_sf : bool; st_zf : bool; st_pf : bool; st_of : bool
}.

Definition status_word (s : status) : Z :=
  status_flags 0 (st_af s) (st_cf s) (st_sf s) (st_zf s) (st_pf s) (st_of s).

(** The result and the flags: unsigned carry, signed overflow, and so on. *)
Definition sem_add (w a b c : Z) : Z * status :=
  let r := (a + b + c) mod 2 ^ w in
  let s := signed w a + signed w b + c in
  (r, mk_status (16 <=? a mod 16 + b mod 16 + c) (2 ^ w <=? a + b + c) (2 ^ (w - 1) <=? r)
        (r =? 0) (even_ones r) ((s <? - 2 ^ (w - 1)) || (2 ^ (w - 1) <=? s))).
Definition sem_sub (w a b c : Z) : Z * status :=
  let r := (a - b - c) mod 2 ^ w in
  let s := signed w a - signed w b - c in
  (r, mk_status (a mod 16 <? b mod 16 + c) (a <? b + c) (2 ^ (w - 1) <=? r)
        (r =? 0) (even_ones r) ((s <? - 2 ^ (w - 1)) || (2 ^ (w - 1) <=? s))).
Definition sem_logic (w r : Z) : Z * status :=
  (r, mk_status false false (2 ^ (w - 1) <=? r) (r =? 0) (even_ones r) false).

Definition alu_sem (o : alu_op) (w a b : Z) (cf : bool) : Z * status :=
  match o with
  | ADD => sem_add w a b 0
  | ADC => sem_add w a b (Z.b2z cf)
  | SUB | CMP => sem_sub w a b 0
  | SBB => sem_sub w a b (Z.b2z cf)
  | OR => sem_logic w (a .| b)
  | AND => sem_logic w (a .& b)
  | XOR => sem_logic w (a .^ b)
  end.

(** AF survives the logic operations. *)
Definition flag_mask (o : alu_op) : Z :=
  match o with
  | OR | AND | XOR => OF .| SF .| ZF .| CF .| PF
  | _ => OF .| SF .| ZF .| AF .| CF .| PF
  end.

Definition form_type (f : alu_form) : ctype :=
  match f with EbGb | GbEb | ALIb => uint8_t | EvGv | GvEv | AXIv => uint16_t end.
Definition form_width (f : alu_form) : OperandWidth :=
  match f with EbGb | GbEb | ALIb => OP_WIDTH_8 | EvGv | GvEv | AXIv => OP_WIDTH_16 end.

Section table.
Context {CFG : Config} {D : Type} {IOP : IOPorts D}.
Implicit Types m : machine D.

(** Decode, then the r/m operand and the register one. *)
Definition modrm_operands {X} (w : OperandWidth) (T : ctype) (k : Z -> Z -> emu D X) : emu D X :=
  set_width w ;;
  decode ;;
  v1 ← read_data T false ;
  r ← reg ;
  v2 ← cast T <$> registers_get r ;
  k v1 v2.

(** Destination and source, then the rest of the instruction. *)
Definition operands (f : alu_form) (k : Z -> Z -> emu D unit) : emu D unit :=
  match f with
  | EbGb | EvGv => modrm_operands (form_width f) (form_type f) (fun e g => k e g)
  | GbEb | GvEv => modrm_operands (form_width f) (form_type f) (fun e g => k g e)
  | ALIb => a ← registers_get AL ; i ← fetch_byte ; k a i
  | AXIv => a ← registers_get AX ; i ← fetch_16bit ; k a i
  end.

Definition write_operand (f : alu_form) (r : Z) : emu D unit :=
  match f with
  | EbGb | EvGv => write_data (form_type f) r false
  | GbEb | GvEv => dst ← reg ; registers_set dst r
  | ALIb => registers_set AL r
  | AXIv => registers_set AX r
  end.

(** Compute, set the flags, write back unless comparing. *)
Definition alu_finish (o : alu_op) (w a b : Z) (write : Z -> emu D unit) : emu D unit :=
  cf ← registers_get_flag CF ;
  let '(r, st) := alu_sem o w a b cf in
  registers_set_flags (status_word st) (flag_mask o) ;;
  if bool_decide (o = CMP) then mret () else write r.

Definition alu_insn (o : alu_op) (f : alu_form) : emu D unit :=
  operands f (fun a b => alu_finish o (width (form_type f)) a b (write_operand f)).

#[export] Instance alu_op_inhabited : Inhabited alu_op := populate ADD.

(** The encoding: bits 5 to 3 the operation, bits 2 to 0 the form. *)
Definition alu_ops : list alu_op := [ADD; OR; ADC; SBB; AND; SUB; XOR; CMP].
Definition alu_forms : list alu_form := [EbGb; EvGv; GbEb; GvEv; ALIb; AXIv].


(** ** Flags *)

(** Only the bits under the mask matter to [set_flags]. *)
Lemma set_flags_ext rf v v' mask :
  RegisterFile.wf rf ->
  (forall i, 0 <= i < 16 -> Z.testbit mask i = true -> Z.testbit v i = Z.testbit v' i) ->
  RegisterFile.set_flags rf v mask = RegisterFile.set_flags rf v' mask.
Proof.
  intros Hrf H. unfold RegisterFile.set_flags.
  set (k := u16 (u16 (u16 mask .& ~. RegisterFile.reserved_mask) .& RegisterFile.valid_mask)).
  assert (E : u16 v .& k = u16 v' .& k); [|by rewrite E].
  apply Z.bits_inj'. intros i Hi. unfold k.
  repeat (rewrite ?Z.land_spec; rewrite ?cast_u_testbit by done).
  change (width uint16_t) with 16. destruct (Z.ltb_spec i 16); [|done]. cbn [andb].
  destruct (Z.testbit mask i) eqn:E; [by rewrite H by (done || lia)|].
  by rewrite !andb_false_r.
Qed.

(** The status flags read back from the word do not depend on the old ones,
    and AF only matters under a mask that has it. *)
Lemma set_status_flags rf old af s mask :
  RegisterFile.wf rf ->
  (forall i, 0 <= i < 16 -> Z.testbit mask i = true -> Z.testbit status_mask i = true) ->
  (Z.testbit mask 4 = true -> af = st_af s) ->
  RegisterFile.set_flags rf
    (status_flags old af (st_cf s) (st_sf s) (st_zf s) (st_pf s) (st_of s)) mask =
  RegisterFile.set_flags rf (status_word s) mask.
Proof.
  intros Hrf Hm Haf. apply set_flags_ext; [done|]. intros i Hi Hmi. unfold status_word.
  rewrite !status_flags_testbit, Hm by (done || lia). cbn [negb]. rewrite !andb_false_r.
  destruct (Z.eqb_spec i 4) as [->|]; [by rewrite Haf|]. by rewrite !andb_false_r.
Qed.

(** ** Composition under the invariant *)

Lemma bind_ext_safe {X} A Φ Ψ (c : emu D X) P (f g : X -> emu D unit) m :
  safe A Φ c P Ψ -> inv Φ m ->
  (forall a m, P a -> inv Ψ m -> f a m = g a m) ->
  (c ≫= f) m = (c ≫= g) m.
Proof.
  intros Hc Hm H. specialize (Hc m Hm). unfold wp in Hc. rewrite !run_bind.
  destruct (c m) as [a m'|e]; [|done]. apply H; apply Hc.
Qed.

Definition named_type (w : OperandWidth) : ctype :=
  match w with OP_WIDTH_8 => uint8_t | OP_WIDTH_16 => uint16_t end.

Lemma modrm_operands_ext w (k k' : Z -> Z -> emu D unit) m :
  wf m ->
  (forall a b m, in_range (named_type w) a -> in_range (named_type w) b -> inv decoded m ->
     k a b m = k' a b m) ->
  modrm_operands w (named_type w) k m = modrm_operands w (named_type w) k' m.
Proof.
  intros Hm H. unfold modrm_operands.
  eapply bind_ext_safe; [apply (safe_set_width anything any)|by split|intros _ m1 _ Hm1].
  eapply bind_ext_safe; [apply (safe_decode anything)|done|intros _ m2 _ Hm2].
  eapply bind_ext_safe; [apply (safe_read_data anything decoded), entails_refl|done|intros v1 m3 Hv1 Hm3].
  eapply bind_ext_safe; [apply (safe_reg anything decoded), entails_refl|done|intros r m4 _ Hm4].
  eapply bind_ext_safe; [|done|intros v2 m5 Hv2 Hm5; by apply H].
  eapply safe_fmap; [apply (safe_registers_get anything)|]. intros x _. apply cast_in_range.
Qed.

(** ** The tail of each handler: compute, set the flags, write *)

(** [write] as [alu_finish] calls it. *)
Definition writes (o : alu_op) (write : Z -> emu D unit) (r : Z) : emu D unit :=
  if bool_decide (o = CMP) then mret () else write r.

Lemma alu_tail o w a b (fr : emu D (Z * Z)) fl (g : Z -> Z) mask (tail write : Z -> emu D unit) m :
  wf m ->
  let s := alu_sem o w a b (RegisterFile.get_flag (registers m) CF) in
  fr m = Ok (fl, fst s) m ->
  mask = flag_mask o ->
  (forall i, 0 <= i < 16 -> Z.testbit (flag_mask o) i = true ->
     Z.testbit (g fl) i = Z.testbit (status_word (snd s)) i) ->
  (forall m, wf m -> tail (fst s) m = writes o write (fst s) m) ->
  ('(flags, result) ← fr ; registers_set_flags (g flags) mask ;; tail result) m =
    alu_finish o w a b write m.
Proof.
  intros Hm s Hf -> Hg Ht. unfold alu_finish. run. rewrite Hf. fold s. destruct s as [r st].
  run. rewrite (set_flags_ext _ (g fl) (status_word st)) by (apply Hm || done).
  apply Ht. apply wf_set_registers; [done|]. by apply RegisterFile.wf_set_flags, Hm.
Qed.

Lemma get_CF m : wf m ->
  nz (RegisterFile.get_flags (registers m) .& CF) = RegisterFile.get_flag (registers m) CF.
Proof. intros Hm. by rewrite RegisterFile.get_flags_eq by apply Hm. Qed.

Lemma b2z_range b : 0 <= Z.b2z b <= 1.
Proof. by destruct b. Qed.

(** The bits that [status_word] and the computed flags share. *)
Lemma status_word_testbit old af s i :
  0 <= i -> Z.testbit status_mask i = true -> i <> 4 ->
  Z.testbit (status_flags old af (st_cf s) (st_sf s) (st_zf s) (st_pf s) (st_of s)) i =
    Z.testbit (status_word s) i.
Proof.
  intros Hi Hs H4. unfold status_word. rewrite !status_flags_testbit, Hs by done. cbn [negb].
  rewrite !andb_false_r. replace (i =? 4) with false by (symmetry; by apply Z.eqb_neq).
  by rewrite !andb_false_r.
Qed.

Lemma status_word_testbit_af old s i :
  0 <= i -> Z.testbit status_mask i = true ->
  Z.testbit (status_flags old (st_af s) (st_cf s) (st_sf s) (st_zf s) (st_pf s) (st_of s)) i =
    Z.testbit (status_word s) i.
Proof.
  intros Hi Hs. unfold status_word. rewrite !status_flags_testbit, Hs by done. cbn [negb].
  by rewrite !andb_false_r.
Qed.

(** Clearing CF and OF, which a logic operation has clear, changes nothing. *)
Lemma clear_cf_of old af sf zf pf i :
  0 <= i < 16 ->
  Z.testbit (u16 (status_flags old af false sf zf pf false .& ~. (CF .| OF))) i =
    Z.testbit (status_flags old af false sf zf pf false) i.
Proof.
  intros Hi. rewrite cast_u_testbit, Z.land_spec, Z.lnot_spec by (done || lia).
  change (width uint16_t) with 16. rewrite status_flags_testbit by lia.
  replace (i <? 16) with true by (symmetry; apply Z.ltb_lt; lia). cbn [andb].
  enum_below i 16%nat; cbn; by rewrite ?andb_false_r, ?andb_true_r.
Qed.

Lemma alu_tail_add o T a b c mask (tail write : Z -> emu D unit) m :
  wf m -> alu_width T -> in_range T a -> in_range T b ->
  (o = ADD /\ c = 0) \/ (o = ADC /\ c = Z.b2z (RegisterFile.get_flag (registers m) CF)) ->
  mask = flag_mask ADD ->
  (forall r m, in_range T r -> wf m -> tail r m = write r m) ->
  ('(flags, result) ← do_add T a b c ; registers_set_flags flags mask ;; tail result) m =
    alu_finish o (width T) a b write m.
Proof.
  intros Hm HT Ha Hb Ho -> Ht. assert (Hc : 0 <= c <= 1).
  { destruct Ho as [[_ ->]|[_ ->]]; [lia|apply b2z_range]. }
  assert (Hs : alu_sem o (width T) a b (RegisterFile.get_flag (registers m) CF) =
               sem_add (width T) a b c) by by destruct Ho as [[-> ->]|[-> ->]].
  apply (alu_tail _ _ _ _ _
    (add_flags (width T) (RegisterFile.get_flags (registers m)) a b c) id); [done| | | |].
  - rewrite Hs. by apply do_add_eq.
  - by destruct Ho as [[-> _]|[-> _]].
  - rewrite Hs. intros i Hi Hmask. apply (status_word_testbit_af _ (snd (sem_add _ a b c)));
      [lia|]. by destruct Ho as [[-> _]|[-> _]]; enum_below i 16%nat.
  - rewrite Hs. intros m' Hm'. cbn [fst sem_add]. rewrite Ht; [|rewrite <- cast_alu by done; apply cast_in_range|done].
    unfold writes. by destruct Ho as [[-> _]|[-> _]].
Qed.

Lemma alu_tail_sub o T a b c mask (tail write : Z -> emu D unit) m :
  wf m -> alu_width T -> in_range T a -> in_range T b ->
  ((o = SUB \/ o = CMP) /\ c = 0) \/
    (o = SBB /\ c = Z.b2z (RegisterFile.get_flag (registers m) CF)) ->
  mask = flag_mask SUB ->
  (forall r m, in_range T r -> wf m -> tail r m = writes o write r m) ->
  ('(flags, result) ← do_sub T a b c ; registers_set_flags flags mask ;; tail result) m =
    alu_finish o (width T) a b write m.
Proof.
  intros Hm HT Ha Hb Ho -> Ht. assert (Hc : 0 <= c <= 1).
  { destruct Ho as [[_ ->]|[_ ->]]; [lia|apply b2z_range]. }
  assert (Hs : alu_sem o (width T) a b (RegisterFile.get_flag (registers m) CF) =
               sem_sub (width T) a b c) by by destruct Ho as [[[->| ->] ->]|[-> ->]].
  apply (alu_tail _ _ _ _ _
    (sub_flags (width T) (RegisterFile.get_flags (registers m)) a b c) id); [done| | | |].
  - rewrite Hs. by apply do_sub_eq.
  - by destruct Ho as [[[->| ->] _]|[-> _]].
  - rewrite Hs. intros i Hi Hmask. apply (status_word_testbit_af _ (snd (sem_sub _ a b c)));
      [lia|]. by destruct Ho as [[[->| ->] _]|[-> _]]; enum_below i 16%nat.
  - rewrite Hs. intros m' Hm'. cbn [fst sem_sub].
    apply Ht; [rewrite <- cast_alu by done; apply cast_in_range|done].
Qed.

Definition op_of_logic (l : logic_op) : alu_op :=
  match l with LXor => XOR | LOr => OR | LAnd => AND end.

Lemma alu_tail_logic l T a b mask (tail write : Z -> emu D unit) m :
  wf m -> alu_width T -> in_range T a -> in_range T b ->
  mask = flag_mask XOR ->
  (forall r m, in_range T r -> wf m -> tail r m = write r m) ->
  ('(flags, result) ← do_logic l T a b ;
   registers_set_flags (u16 (flags .& ~. (CF .| OF))) mask ;; tail result) m =
    alu_finish (op_of_logic l) (width T) a b write m.
Proof.
  intros Hm HT Ha Hb -> Ht. destruct (do_logic_eq l T a b m) as (af & E & Hr); [done..|].
  assert (Hs : alu_sem (op_of_logic l) (width T) a b (RegisterFile.get_flag (registers m) CF) =
               sem_logic (width T) (logic l a b)) by by destruct l.
  eapply (alu_tail _ _ _ _ _ _ (fun flags => u16 (flags .& ~. (CF .| OF)))); [done| | | |].
  - rewrite Hs. exact E.
  - by destruct l.
  - rewrite Hs. intros i Hi Hmask. rewrite clear_cf_of by done.
    assert (Z.testbit status_mask i = true /\ i <> 4) as [??].
    { destruct l; enum_below i 16%nat; try discriminate Hmask; by split. }
    apply (status_word_testbit _ _ (snd (sem_logic _ _))); [lia|done..].
  - rewrite Hs. intros m' Hm'. cbn [fst sem_logic]. rewrite Ht by done. by destruct l.
Qed.

(** ** The opcodes *)

Lemma mask8 r : in_range uint8_t r -> r .& 0xff = r.
Proof. intros Hr. rewrite (land_mask 8) by done. apply Z.mod_small, Hr. Qed.

Lemma mask16 r : in_range uint16_t r -> r .& 0xffff = r.
Proof. intros Hr. rewrite (land_mask 16) by done. apply Z.mod_small, Hr. Qed.

(** The carry that ADC and SBB read. *)
Lemma get_flags_CF (k : bool -> emu D unit) m :
  wf m ->
  (fl ← registers_get_flags ; k (nz (fl .& CF))) m =
    k (RegisterFile.get_flag (registers m) CF) m.
Proof. intros Hm. run. by rewrite get_CF. Qed.

Definition alu_opcode (o : alu_op) (f : alu_form) : Z :=
  8 * match o with ADD => 0 | OR => 1 | ADC => 2 | SBB => 3 | AND => 4 | SUB => 5 | XOR => 6 | CMP => 7 end +
  match f with EbGb => 0 | EvGv => 1 | GbEb => 2 | GvEv => 3 | ALIb => 4 | AXIv => 5 end.

Lemma sem_add_comm w a b c : sem_add w a b c = sem_add w b a c.
Proof.
  unfold sem_add. rewrite (Z.add_comm a b), (Z.add_comm (a mod 16)).
  by rewrite (Z.add_comm (signed w a)).
Qed.

Lemma alu_sem_comm o w a b cf :
  o <> SUB -> o <> SBB -> o <> CMP -> alu_sem o w a b cf = alu_sem o w b a cf.
Proof.
  intros H1 H2 H3. destruct o; try done; cbn [alu_sem];
    (apply sem_add_comm || (f_equal; auto using Z.lor_comm, Z.land_comm, Z.lxor_comm)).
Qed.

Lemma alu_finish_comm o w a b write m :
  o <> SUB -> o <> SBB -> o <> CMP ->
  alu_finish o w a b write m = alu_finish o w b a write m.
Proof. intros. unfold alu_finish. run. by rewrite alu_sem_comm. Qed.


Lemma alu_tail_cmp T a b mask (write : Z -> emu D unit) m :
  wf m -> alu_width T -> in_range T a -> in_range T b -> mask = flag_mask SUB ->
  ('(flags, result) ← do_sub T a b 0 ; registers_set_flags flags mask) m =
    alu_finish CMP (width T) a b write m.
Proof.
  intros Hm HT Ha Hb Hk.
  rewrite <- (alu_tail_sub CMP T a b 0 mask (fun _ => mret ())); auto.
Qed.

End table.

(** ** The 48 opcodes *)

(** The write of the result: masked or not. *)
Ltac alu_write :=
  intros ? ? ? ?; cbv beta; rewrite ?mask8, ?mask16 by done; reflexivity.

(** Read the operands on both sides; [tail] finishes, at type [T], from a
    well-formed state [Hm]. *)
Ltac alu_modrm Hm w tail :=
  refine (modrm_operands_ext w _ _ _ Hm _); intros ? ? ? ? ? [? _]; cbv beta; tail.
Ltac fetch8 := apply (safe_fetch_byte anything any).
Ltac fetch16 := apply (safe_fetch_16bit anything any).
Ltac alu_immediate Hm fetch tail :=
  eapply bind_ext_safe; [apply (safe_registers_get anything any)|by split|intros ? ? ? ?];
  eapply bind_ext_safe; [fetch|eassumption|intros ? ? ? [? _]]; cbv beta; tail.

Ltac alu_handlers f Hm tail8 tail16 tail8r tail16r :=
  destruct f; cbn [alu_opcode Z.mul Z.add Pos.mul Pos.add Pos.succ execute_opcode];
  [ alu_modrm Hm OP_WIDTH_8 tail8 | alu_modrm Hm OP_WIDTH_16 tail16
  | alu_modrm Hm OP_WIDTH_8 tail8r | alu_modrm Hm OP_WIDTH_16 tail16r
  | alu_immediate Hm ltac:(fetch8) tail8
  | alu_immediate Hm ltac:(fetch16) tail16 ].

(** The carry that ADC and SBB read first. *)
Ltac read_carry :=
  rewrite run_bind, run_registers_get_flags; cbv beta iota zeta; rewrite get_CF by done.

Tactic Notation "tail_by" uconstr(lem) := apply lem; [done|by left|done|done|auto|done|alu_write].
Tactic Notation "tail_by16" uconstr(lem) := apply lem; [done|by right|done|done|auto|done|alu_write].

Section opcodes.
Context {CFG : Config} {D : Type} {IOP : IOPorts D}.
Implicit Types m : machine D.

Lemma alu_insn_add f m : wf m -> execute_opcode (alu_opcode ADD f) m = alu_insn ADD f m.
Proof.
  intros Hm.
  alu_handlers f Hm ltac:(tail_by (alu_tail_add ADD uint8_t)) ltac:(tail_by16 (alu_tail_add ADD uint16_t))
    ltac:(rewrite <- alu_finish_comm by done; tail_by (alu_tail_add ADD uint8_t))
    ltac:(rewrite <- alu_finish_comm by done; tail_by16 (alu_tail_add ADD uint16_t)).
Qed.

Lemma alu_insn_adc f m : wf m -> execute_opcode (alu_opcode ADC f) m = alu_insn ADC f m.
Proof.
  intros Hm.
  alu_handlers f Hm
    ltac:(read_carry; tail_by (alu_tail_add ADC uint8_t))
    ltac:(read_carry; tail_by16 (alu_tail_add ADC uint16_t))
    ltac:(rewrite <- alu_finish_comm by done; read_carry; tail_by (alu_tail_add ADC uint8_t))
    ltac:(rewrite <- alu_finish_comm by done; read_carry; tail_by16 (alu_tail_add ADC uint16_t)).
Qed.

Lemma alu_insn_sub f m : wf m -> execute_opcode (alu_opcode SUB f) m = alu_insn SUB f m.
Proof.
  intros Hm.
  alu_handlers f Hm ltac:(tail_by (alu_tail_sub SUB uint8_t)) ltac:(tail_by16 (alu_tail_sub SUB uint16_t))
    ltac:(tail_by (alu_tail_sub SUB uint8_t)) ltac:(tail_by16 (alu_tail_sub SUB uint16_t)).
Qed.

Lemma alu_insn_sbb f m : wf m -> execute_opcode (alu_opcode SBB f) m = alu_insn SBB f m.
Proof.
  intros Hm.
  alu_handlers f Hm
    ltac:(read_carry; tail_by (alu_tail_sub SBB uint8_t))
    ltac:(read_carry; tail_by16 (alu_tail_sub SBB uint16_t))
    ltac:(read_carry; tail_by (alu_tail_sub SBB uint8_t))
    ltac:(read_carry; tail_by16 (alu_tail_sub SBB uint16_t)).
Qed.

Lemma alu_insn_cmp f m : wf m -> execute_opcode (alu_opcode CMP f) m = alu_insn CMP f m.
Proof.
  intros Hm.
  alu_handlers f Hm
    ltac:(apply (alu_tail_cmp uint8_t); [done|by left|done..])
    ltac:(apply (alu_tail_cmp uint16_t); [done|by right|done..])
    ltac:(apply (alu_tail_cmp uint8_t); [done|by left|done..])
    ltac:(apply (alu_tail_cmp uint16_t); [done|by right|done..]).
Qed.

Ltac tail_logic l := apply (alu_tail_logic l uint8_t); [done|by left|done|done|done|alu_write].
Ltac tail_logic16 l := apply (alu_tail_logic l uint16_t); [done|by right|done|done|done|alu_write].

Lemma alu_insn_logic l f m :
  wf m -> execute_opcode (alu_opcode (op_of_logic l) f) m = alu_insn (op_of_logic l) f m.
Proof.
  intros Hm.
  destruct l; cbn [op_of_logic];
  [ alu_handlers f Hm ltac:(tail_logic LXor) ltac:(tail_logic16 LXor)
      ltac:(rewrite <- alu_finish_comm by done; tail_logic LXor)
      ltac:(rewrite <- alu_finish_comm by done; tail_logic16 LXor)
  | alu_handlers f Hm ltac:(tail_logic LOr) ltac:(tail_logic16 LOr)
      ltac:(rewrite <- alu_finish_comm by done; tail_logic LOr)
      ltac:(rewrite <- alu_finish_comm by done; tail_logic16 LOr)
  | alu_handlers f Hm ltac:(tail_logic LAnd) ltac:(tail_logic16 LAnd)
      ltac:(rewrite <- alu_finish_comm by done; tail_logic LAnd)
      ltac:(rewrite <- alu_finish_comm by done; tail_logic16 LAnd) ].
Qed.

(** The 48 opcodes [00rrr0ff] are one instruction: bits 5 to 3 select ADD,
    OR, ADC, SBB, AND, SUB, XOR or CMP, bits 2 to 0 the operands; from any
    well-formed state the handler of the opcode and the abstract instruction,
    whose result and flags are integer arithmetic, end in the same state. *)
Lemma alu_opcode_table o f m :
  wf m -> execute_opcode (alu_opcode o f) m = alu_insn o f m.
Proof.
  destruct o; auto using alu_insn_add, alu_insn_adc, alu_insn_sub, alu_insn_sbb, alu_insn_cmp.
  - apply (alu_insn_logic LOr).
  - apply (alu_insn_logic LAnd).
  - apply (alu_insn_logic LXor).
Qed.

(** ** The immediate groups *)

(** The operation of the [reg] field on an r/m operand and an immediate. *)
Definition alu_group_insn (w : OperandWidth) (immediate : emu D Z) : emu D unit :=
  set_width w ;;
  decode ;;
  a ← read_data (named_type w) false ;
  b ← immediate ;
  n ← raw_reg ;
  alu_finish (alu_ops !!! Z.to_nat n) (width (named_type w)) a b
    (fun r => write_data (named_type w) r false).

(** The immediate of each opcode: a byte, a word, a sign-extended byte. *)
Definition alu_group (op : Z) : emu D unit :=
  match op with
  | 0x81 => alu_group_insn OP_WIDTH_16 fetch_16bit
  | 0x83 => alu_group_insn OP_WIDTH_16 ((fun b => u16 (s8 b)) <$> fetch_byte)
  | _ => alu_group_insn OP_WIDTH_8 fetch_byte
  end.

(** What the three handlers do with their operands. *)
Definition group_tail (T : ctype) (k v1 v2 : Z) : emu D unit :=
  n ← raw_reg ;
  fl ← registers_get_flags ;
  let carry_in := if (n =? 2) || (n =? 3) then nz (fl .& CF) else false in
  let update_mask := u16 (OF .| SF .| ZF .| CF .| PF .| AF) in
  '(flags, result, update_mask) ←
    (if (n =? 0) || (n =? 2) then
       '(flags, result) ← do_add T v1 v2 (Z.b2z carry_in) ;
       mret (flags, result, update_mask)
     else if n =? 6 then
       '(flags, result) ← do_xor T v1 v2 ;
       mret (u16 (flags .& ~. (CF .| OF)), result, u16 (update_mask .& ~. AF))
     else if n =? 1 then
       '(flags, result) ← do_or T v1 v2 ;
       mret (u16 (flags .& ~. (CF .| OF)), result, u16 (update_mask .& ~. AF))
     else if n =? 4 then
       '(flags, result) ← do_and T v1 v2 ;
       mret (u16 (flags .& ~. (CF .| OF)), result, u16 (update_mask .& ~. AF))
     else
       '(flags, result) ← do_sub T v1 v2 (Z.b2z carry_in) ;
       mret (flags, result, update_mask)) ;
  registers_set_flags flags update_mask ;;
  if negb (n =? 7) then write_data T (result .& k) false else mret ().

Lemma flatten (c : emu D (Z * Z)) g mask (tail : Z -> emu D unit) m :
  ('(flags, result, mask) ← ('(flags, result) ← c ; mret (g flags, result, mask)) ;
   registers_set_flags flags mask ;; tail result) m =
  ('(flags, result) ← c ; registers_set_flags (g flags) mask ;; tail result) m.
Proof. rewrite !run_bind. by destruct (c m) as [[]|]. Qed.

Lemma group_tail_eq T k a b m :
  wf m -> inv decoded m -> alu_width T -> in_range T a -> in_range T b ->
  (forall r, in_range T r -> r .& k = r) ->
  group_tail T k a b m =
    (n ← raw_reg ;
     alu_finish (alu_ops !!! Z.to_nat n) (width T) a b (fun r => write_data T r false)) m.
Proof.
  intros Hm [_ [Hd _]] HT Ha Hb Hk. unfold group_tail. rewrite !run_bind, raw_reg_eq by done.
  pose proof (field_reg_range (mrm_modrm (modrm_decoder m))) as Hn.
  rewrite run_bind, run_registers_get_flags. cbv beta iota zeta. rewrite get_CF by done.
  remember (field_reg (mrm_modrm (modrm_decoder m))) as n eqn:E. clear E.
  assert (Hw : forall r m, in_range T r -> wf m ->
    write_data T (r .& k) false m = write_data (D := D) T r false m)
    by (intros r m' Hr _; by rewrite Hk).
  enum_below n 8%nat; cbv beta; cbn [Z.eqb Pos.eqb orb negb].
  - etransitivity; [refine (flatten _ id _ (fun _ => mret ()) m)|].
    apply (alu_tail_sub CMP T a b 0); auto.
  - etransitivity; [refine (flatten _ (fun f => u16 (f .& ~. (CF .| OF))) _ _ m)|].
    by apply (alu_tail_logic LXor T a b).
  - etransitivity; [refine (flatten _ id _ _ m)|]. apply (alu_tail_sub SUB T a b 0); auto.
  - etransitivity; [refine (flatten _ (fun f => u16 (f .& ~. (CF .| OF))) _ _ m)|].
    by apply (alu_tail_logic LAnd T a b).
  - etransitivity; [refine (flatten _ id _ _ m)|]. apply (alu_tail_sub SBB T a b); auto.
  - etransitivity; [refine (flatten _ id _ _ m)|]. apply (alu_tail_add ADC T a b); auto.
  - etransitivity; [refine (flatten _ (fun f => u16 (f .& ~. (CF .| OF))) _ _ m)|].
    by apply (alu_tail_logic LOr T a b).
  - etransitivity; [refine (flatten _ id _ _ m)|]. apply (alu_tail_add ADD T a b); auto.
Qed.

Lemma alu_group_insn_eq w k imm m :
  wf m -> k = 2 ^ width (named_type w) - 1 ->
  safe anything decoded imm (in_range (named_type w)) decoded ->
  (set_width w ;;
   decode ;;
   v1 ← read_data (named_type w) false ;
   v2 ← imm ;
   group_tail (named_type w) k v1 v2) m = alu_group_insn w imm m.
Proof.
  intros Hm Hk Himm. unfold alu_group_insn.
  eapply bind_ext_safe; [apply (safe_set_width anything any)|by split|intros _ m1 _ Hm1].
  eapply bind_ext_safe; [apply (safe_decode anything)|done|intros _ m2 _ Hm2].
  eapply bind_ext_safe; [apply (safe_read_data anything decoded), entails_refl|done|].
  intros v1 m3 Hv1 Hm3. eapply bind_ext_safe; [exact Himm|done|intros v2 m4 Hv2 Hm4].
  apply group_tail_eq; [apply Hm4|done|by destruct w; [left|right]|done|done|].
  intros r Hr. subst k. destruct w; [by apply mask8|by apply mask16].
Qed.

Lemma sign_extend_byte b : in_range uint8_t b -> sign_extend int16_t uint8_t b = s8 b.
Proof.
  intros Hb. apply Z.eqb_eq, (forall_below_spec 256
    (fun b => sign_extend int16_t uint8_t b =? s8 b)); [by vm_compute|done].
Qed.

(** The operations convert their operands to [uint16_t]. *)
Lemma group_tail_u16 T k a b : group_tail T k a (u16 b) = group_tail T k a b.
Proof. unfold group_tail, do_add, do_sub, do_xor, do_or, do_and. by rewrite !cast_idemp. Qed.

(** The immediate groups 0x80 to 0x83 are the same table: the [reg] field
    selects the operation, on the r/m operand and an immediate byte (0x80 and
    its alias 0x82), word (0x81) or sign-extended byte (0x83). *)
Lemma alu_group_table op m :
  wf m -> 0x80 <= op <= 0x83 -> execute_opcode op m = alu_group op m.
Proof.
  intros Hm Hop. enum_from op 0x80 4%nat.
  - unfold alu_group. transitivity
      ((set_width OP_WIDTH_16 ;; decode ;; v1 ← read_data uint16_t false ;
        v2 ← (fun b => u16 (s8 b)) <$> fetch_byte ; group_tail uint16_t 0xffff v1 v2) m).
    2: { apply (alu_group_insn_eq OP_WIDTH_16); [done|done|].
         eapply safe_fmap; [apply safe_fetch_byte|]. intros ? _. apply cast_in_range. }
    eapply bind_ext_safe; [apply (safe_set_width anything any)|by split|intros _ m1 _ Hm1].
    eapply bind_ext_safe; [apply (safe_decode anything)|done|intros _ m2 _ Hm2].
    eapply bind_ext_safe; [apply (safe_read_data anything decoded), entails_refl|done|].
    intros v1 m3 _ [Hm3 _]. rewrite !run_bind, !run_fmap, fetch_byte_eq by done.
    rewrite group_tail_u16, sign_extend_byte by by apply code_byte_range. reflexivity.
  - apply (alu_group_insn_eq OP_WIDTH_8); [done|done|apply safe_fetch_byte].
  - apply (alu_group_insn_eq OP_WIDTH_16); [done|done|apply safe_fetch_16bit].
  - apply (alu_group_insn_eq OP_WIDTH_8); [done|done|apply safe_fetch_byte].
Qed.

(** C7. The ALU opcodes are one table. The 48 opcodes [00rrr0ff] are one
    instruction: bits 5 to 3 select ADD, OR, ADC, SBB, AND, SUB, XOR or CMP,
    bits 2 to 0 the operands. The immediate groups 0x80 to 0x83 are the same
    table: the [reg] field selects the operation, on the r/m operand and an
    immediate byte (0x80 and its alias 0x82), word (0x81) or sign-extended
    byte (0x83). From any well-formed state the handler of the opcode and the
    abstract instruction, whose result and flags are integer arithmetic, end
    in the same state. *)
Theorem alu_tables m :
  wf m ->
  (forall o f, execute_opcode (alu_opcode o f) m = alu_insn o f m) /\
  (forall op, 0x80 <= op <= 0x83 -> execute_opcode op m = alu_group op m).
Proof. intros Hm. split; [intros o f; by apply alu_opcode_table|intros op; by apply alu_group_table]. Qed.
End opcodes.

(** [sbb %al,0x10(%bx)] with the carry set; [adc $-1,%cx] in its short form. *)
Lemma alu_tables_witness :
  (let m := bench [0x47; 0x10] 0x2010 [0x80] [(BX, 0x2000); (AX, 0x01)] CF in
   execute_opcode (alu_opcode SBB EbGb) m = alu_insn SBB EbGb m) /\
  (let m := bench [0xd1; 0xff] 0 [] [(CX, 0x1234)] CF in
   execute_opcode 0x83 m = alu_group 0x83 m).
Proof.
  split; intros m.
  - destruct (alu_tables m) as [H _]; [wf_bench|]. apply H.
  - destruct (alu_tables m) as [_ H]; [wf_bench|]. by apply H.
Defined.
