(* ===== verification/ControlProps.v ===== *)
(** * Control transfer: interrupts, calls, jumps *)
From S2P Require Import Prelude Config MainMemory Registers ErrorState IOPorts Machine ModRM Core.
From S2P Require Import Safety Decoder CoreSafe Stack Bench InsnData InsnMulDiv InsnControl Emulate StepSafe.

Section entry.
Context {CFG : Config} {D : Type} {IOP : IOPorts D}.
Implicit Types m : machine D.

(** ** One interrupt entry *)

(** FLAGS, CS and the return address go on the stack, IF and TF are cleared,
    CS:IP come from the vector table. *)
Definition interrupt_entry (vec ret : Z) : emu D unit :=
  flags ← registers_get_flags ;
  push_word flags ;;
  cs ← registers_get CS ;
  push_word cs ;;
  push_word ret ;;
  registers_set_flags (u16 (flags .& ~. (IF .| TF))) (IF .| TF) ;;
  new_cs ← mem_read uint16_t (vec + 2) ;
  new_ip ← mem_read uint16_t (vec + 0) ;
  registers_set CS new_cs ;;
  registers_set IP new_ip ;;
  modify (set_jump_taken true).

(** The address of the next instruction, and that of this one. *)
Definition next_ip m : Z := RegisterFile.get (registers m) IP + instr_length m.
Definition this_ip m : Z := RegisterFile.get (registers m) IP.

(** What a push leaves alone, whether or not the word fits. *)
Lemma push_word_frame v m m' :
  wf m -> push_word v m = Ok tt m' ->
  wf m' /\ instr_length m' = instr_length m /\
  RegisterFile.get (registers m') IP = RegisterFile.get (registers m) IP.
Proof.
  intros Hm H. assert (Hi : inv any m) by by split.
  pose proof (safe_push_word (fun r => RegisterFile.overlap SP r) any v eq_refl m Hi) as Hs.
  unfold wp in Hs. rewrite H in Hs. destruct Hs as (_ & [Hm' _] & Hr).
  split; [done|]. split; [|by apply Hr].
  revert H. unfold push_word, mem_write. run.
  destruct (Memory.write _ _ _ _); cbn [from_option]; [|discriminate].
  unfold mret, M_ret. msimpl. by intros [= <-].
Qed.

Lemma bind_push {X} v (k k' : emu D X) m :
  wf m ->
  (forall m', wf m' -> instr_length m' = instr_length m ->
     RegisterFile.get (registers m') IP = RegisterFile.get (registers m) IP -> k m' = k' m') ->
  (push_word v ;; k) m = (push_word v ;; k') m.
Proof.
  intros Hm H. rewrite !run_bind. destruct (push_word v m) as [[] m'|] eqn:E; [|done].
  destruct (push_word_frame v m m' Hm E) as (? & ? & ?). by apply H.
Qed.

(** The two shapes of the handlers' code: the return address is that of the
    next instruction, or this one's. IP is read after two pushes, which do not
    change it. *)
Definition entry_next (vec : Z) : emu D unit :=
  flags ← registers_get_flags ;
  push_word flags ;;
  cs ← registers_get CS ;
  push_word cs ;;
  ip ← registers_get IP ;
  n ← gets instr_length ;
  push_word (ip + n) ;;
  let flags := u16 (flags .& ~. (IF .| TF)) in
  registers_set_flags flags (IF .| TF) ;;
  new_cs ← mem_read uint16_t (vec + 2) ;
  new_ip ← mem_read uint16_t (vec + 0) ;
  registers_set CS new_cs ;;
  registers_set IP new_ip ;;
  modify (set_jump_taken true).

Definition entry_this {X} (vec : Z) (k : emu D X) : emu D X :=
  flags ← registers_get_flags ;
  push_word flags ;;
  cs ← registers_get CS ;
  push_word cs ;;
  ip ← registers_get IP ;
  push_word ip ;;
  let flags := u16 (flags .& ~. (IF .| TF)) in
  registers_set_flags flags (IF .| TF) ;;
  new_cs ← mem_read uint16_t (vec + 2) ;
  new_ip ← mem_read uint16_t (vec + 0) ;
  registers_set CS new_cs ;;
  registers_set IP new_ip ;;
  modify (set_jump_taken true) ;;
  k.

Lemma entry_next_eq vec m : wf m -> entry_next vec m = interrupt_entry vec (next_ip m) m.
Proof.
  intros Hm. unfold entry_next, interrupt_entry. rewrite !(run_bind registers_get_flags).
  rewrite run_registers_get_flags. apply bind_push; [done|]. intros m1 Hm1 Hl1 Hi1.
  rewrite !(run_bind (registers_get CS)), run_registers_get.
  apply bind_push; [done|]. intros m2 Hm2 Hl2 Hi2.
  rewrite (run_bind (registers_get IP)), run_registers_get, (run_bind (gets _)), run_gets.
  replace (next_ip m) with (RegisterFile.get (registers m2) IP + instr_length m2); [done|].
  unfold next_ip. congruence.
Qed.

Lemma entry_this_eq {X} vec (k : emu D X) m :
  wf m -> entry_this vec k m = (interrupt_entry vec (this_ip m) ;; k) m.
Proof.
  intros Hm. unfold entry_this, interrupt_entry.
  rewrite (run_bind registers_get_flags), run_registers_get_flags.
  rewrite (run_bind (registers_get_flags ≫= _)), (run_bind registers_get_flags),
    run_registers_get_flags, <- (run_bind _ (fun _ => k)).
  rewrite (bind_assoc (push_word _)). apply bind_push; [done|]. intros m1 Hm1 Hl1 Hi1.
  rewrite (run_bind (registers_get CS)), run_registers_get.
  rewrite (run_bind (registers_get CS ≫= _)), (run_bind (registers_get CS)),
    run_registers_get, <- (run_bind _ (fun _ => k)).
  rewrite (bind_assoc (push_word _)). apply bind_push; [done|]. intros m2 Hm2 Hl2 Hi2.
  rewrite (run_bind (registers_get IP)), run_registers_get.
  replace (this_ip m) with (RegisterFile.get (registers m2) IP) by (unfold this_ip; congruence).
  rewrite (bind_assoc (push_word _)), !(run_bind (push_word _)).
  destruct (push_word _ m2) as [[] m3|]; [|done]. run.
  destruct (mem_read uint16_t (vec + 2) _) as [? m4|]; [|done]. run.
  destruct (mem_read uint16_t (vec + 0) _) as [? m5|]; [|done]. by run.
Qed.

Lemma interrupt_entries_eq m :
  wf m ->
  intcc m = interrupt_entry VEC_INT (next_ip m) m /\
  intcd m =
    (let m1 := set_instr_length (u64 (instr_length m + 1)) m in
     interrupt_entry (4 * code_byte m (instr_length m)) (next_ip m1) m1) /\
  intoce m =
    (if RegisterFile.get_flag (registers m) OF
     then interrupt_entry VEC_OVERFLOW (next_ip m) m else Ok tt m) /\
  invalid_opcode m = interrupt_entry VEC_INVALID_OPCODE (next_ip m) m /\
  single_step m =
    (if tf_was_set m && negb (ext_int_inhibit m)
     then interrupt_entry VEC_SINGLE_STEP (this_ip m) m else Ok tt m) /\
  handle_nmi m =
    (let m1 := set_nmi_pending false m in
     (interrupt_entry VEC_NMI (this_ip m1) ;; single_step) m1) /\
  (pending_irq m <> 0 ->
   handle_irq m =
     match call_device (inta_handler (pending_irq m)) (fun _ => []) (set_pending_irq 0 m) with
     | Ok _ m1 => (interrupt_entry (pending_irq m * 4) (this_ip m1) ;; single_step) m1
     | Err e => Err e
     end).
Proof.
  intros Hm. split_and!.
  - exact (entry_next_eq VEC_INT m Hm).
  - cbv zeta. rewrite <- entry_next_eq by by apply wf_set_instr_length. unfold intcd, entry_next.
    rewrite !(run_bind registers_get_flags), !run_registers_get_flags.
    rewrite (run_bind fetch_byte), fetch_byte_eq, Z.mul_comm by done. reflexivity.
  - rewrite <- entry_next_eq by done. unfold intoce, entry_next.
    rewrite !(run_bind registers_get_flags), !run_registers_get_flags.
    replace (nz (RegisterFile.get_flags (registers m) .& OF))
      with (RegisterFile.get_flag (registers m) OF) by by rewrite RegisterFile.get_flags_eq by apply Hm.
    by destruct (RegisterFile.get_flag _ _).
  - exact (entry_next_eq VEC_INVALID_OPCODE m Hm).
  - unfold single_step. rewrite run_bind, run_gets, run_bind, run_gets.
    destruct (tf_was_set m); [|reflexivity]. destruct (ext_int_inhibit m); [reflexivity|].
    cbn [negb orb andb].
    change (modify (set_jump_taken true))
      with (modify (set_jump_taken (D := D) true) ;; mret ()) at 1.
    etransitivity; [exact (entry_this_eq VEC_SINGLE_STEP (mret ()) m Hm)|].
    rewrite run_bind. by destruct (interrupt_entry _ _ m) as [[]|].
  - unfold handle_nmi. rewrite run_bind, run_modify. cbv zeta.
    refine (entry_this_eq VEC_NMI single_step _ _). by destruct Hm.
  - intros Hp. unfold handle_irq. rewrite run_bind, run_gets, run_bind.
    rewrite assert_ok by by apply nz_true. rewrite run_bind, run_modify, run_bind.
    destruct (call_device _ _ _) as [[] m1|] eqn:E; [|done].
    refine (entry_this_eq _ single_step _ _). revert E. unfold call_device.
    destruct (inta_handler _ _); [|discriminate]. cbn [foldl]. intros [= _ <-]. by destruct Hm.
Qed.

(** C8. Every interrupt enters the same way, and they differ only in the
    vector and in the return address: INT 3, INT n, INTO (when OF is set) and
    an invalid opcode return to the next instruction; the single-step trap
    (when TF was set and interrupts are not inhibited), NMI and IRQ return to
    CS:IP, the last two clear their request first and end in [single_step]. *)
Theorem interrupt_entries m :
  wf m ->
  intcc m = interrupt_entry VEC_INT (next_ip m) m /\
  intcd m =
    (let m1 := set_instr_length (u64 (instr_length m + 1)) m in
     interrupt_entry (4 * code_byte m (instr_length m)) (next_ip m1) m1) /\
  intoce m =
    (if RegisterFile.get_flag (registers m) OF
     then interrupt_entry VEC_OVERFLOW (next_ip m) m else Ok tt m) /\
  invalid_opcode m = interrupt_entry VEC_INVALID_OPCODE (next_ip m) m /\
  single_step m =
    (if tf_was_set m && negb (ext_int_inhibit m)
     then interrupt_entry VEC_SINGLE_STEP (this_ip m) m else Ok tt m) /\
  handle_nmi m =
    (let m1 := set_nmi_pending false m in
     (interrupt_entry VEC_NMI (this_ip m1) ;; single_step) m1) /\
  (pending_irq m <> 0 ->
   handle_irq m =
     match call_device (inta_handler (pending_irq m)) (fun _ => []) (set_pending_irq 0 m) with
     | Ok _ m1 => (interrupt_entry (pending_irq m * 4) (this_ip m1) ;; single_step) m1
     | Err e => Err e
     end).
Proof. apply interrupt_entries_eq. Qed.

(** ** What an entry does *)

(** Three words fit below the stack pointer. *)
Definition frame_fits m : Prop :=
  word_fits (stack_addr (registers m) (-2)) /\ word_fits (stack_addr (registers m) (-4)) /\
  word_fits (stack_addr (registers m) (-6)).

(** The state after the three pushes. *)
Definition framed (ret : Z) m : machine D :=
  pushed ret (pushed (RegisterFile.get (registers m) CS)
    (pushed (RegisterFile.get_flags (registers m)) m)).

Lemma wf_framed_parts m :
  wf m -> frame_fits m ->
  let m1 := pushed (RegisterFile.get_flags (registers m)) m in
  let m2 := pushed (RegisterFile.get (registers m) CS) m1 in
  wf m1 /\ wf m2 /\
  stack_addr (registers m1) (-2) = stack_addr (registers m) (-4) /\
  stack_addr (registers m2) (-2) = stack_addr (registers m) (-6) /\
  RegisterFile.get (registers m1) CS = RegisterFile.get (registers m) CS.
Proof.
  intros Hm (H1 & H2 & H3) m1 m2.
  assert (Hm1 : wf m1) by by apply wf_pushed.
  assert (A1 : stack_addr (registers m1) (-2) = stack_addr (registers m) (-4))
    by by apply stack_addr_pushed.
  assert (Hm2 : wf m2) by (apply wf_pushed; [done|by rewrite A1]).
  split_and!; [done|done|done| |by apply get_pushed].
  unfold m2. rewrite stack_addr_pushed by done. by apply stack_addr_pushed.
Qed.

Lemma push_frame_eq {X} ret (k : emu D X) m :
  wf m -> frame_fits m ->
  (push_word (RegisterFile.get_flags (registers m)) ;;
   cs ← registers_get CS ;
   push_word cs ;;
   push_word ret ;;
   k) m = k (framed ret m) /\ wf (framed ret m).
Proof.
  intros Hm Hf. destruct (wf_framed_parts m Hm Hf) as (Hm1 & Hm2 & A1 & A2 & E1).
  destruct Hf as (H1 & H2 & H3). unfold framed. split; [|apply wf_pushed; [done|by rewrite A2]].
  rewrite run_bind, push_word_eq, run_bind, run_registers_get, E1 by done.
  rewrite run_bind, push_word_eq by (done || by rewrite A1).
  by rewrite run_bind, push_word_eq by (done || by rewrite A2).
Qed.

Lemma framed_mem ret m :
  wf m -> frame_fits m ->
  mem (framed ret m) =
    put16 (put16 (put16 (mem m)
      (stack_addr (registers m) (-2)) (RegisterFile.get_flags (registers m)))
      (stack_addr (registers m) (-4)) (RegisterFile.get (registers m) CS))
      (stack_addr (registers m) (-6)) ret.
Proof.
  intros Hm Hf. destruct (wf_framed_parts m Hm Hf) as (_ & _ & A1 & A2 & _).
  unfold framed. by rewrite <- A2, <- A1.
Qed.

Lemma framed_get ret m r :
  wf m -> frame_fits m -> RegisterFile.overlap SP r = false ->
  RegisterFile.get (registers (framed ret m)) r = RegisterFile.get (registers m) r.
Proof.
  intros Hm Hf Hr. destruct (wf_framed_parts m Hm Hf) as (Hm1 & Hm2 & _).
  unfold framed. by rewrite !get_pushed.
Qed.

Lemma framed_stack_addr ret m k :
  wf m -> frame_fits m ->
  stack_addr (registers (framed ret m)) k = stack_addr (registers m) (k - 6).
Proof.
  intros Hm Hf. destruct (wf_framed_parts m Hm Hf) as (Hm1 & Hm2 & _).
  unfold framed. rewrite !stack_addr_pushed by done. f_equal. lia.
Qed.

Lemma framed_SP ret m :
  wf m -> frame_fits m ->
  RegisterFile.get (registers (framed ret m)) SP = u16 (RegisterFile.get (registers m) SP - 6).
Proof.
  intros Hm Hf. destruct (wf_framed_parts m Hm Hf) as (Hm1 & Hm2 & _).
  unfold framed. rewrite !SP_pushed by done. cpp_lia.
Qed.

Lemma framed_flags ret m :
  RegisterFile.get_flags (registers (framed ret m)) = RegisterFile.get_flags (registers m).
Proof. unfold framed. by rewrite !flags_pushed. Qed.

(** The words of the frame, from the bottom; every other byte is as it was. *)
Lemma framed_words ret m :
  wf m -> frame_fits m ->
  let mm := mem (framed ret m) in
  word_at mm (stack_addr (registers m) (-6)) = u16 ret /\
  word_at mm (stack_addr (registers m) (-4)) = RegisterFile.get (registers m) CS /\
  word_at mm (stack_addr (registers m) (-2)) = RegisterFile.get_flags (registers m) /\
  forall b,
    (forall k, k = -2 \/ k = -4 \/ k = -6 ->
       b < stack_addr (registers m) k \/ stack_addr (registers m) k + 2 <= b) ->
    Memory.byte_at mm b = Memory.byte_at (mem m) b.
Proof.
  intros Hm Hf. pose proof (framed_mem ret m Hm Hf) as M. destruct Hf as (H1 & H2 & H3).
  pose proof (wf_registers m Hm) as Hrf. pose proof (RegisterFile.get_range _ CS Hrf) as Hcs.
  assert (Hmem : Memory.wf (mem m)) by apply Hm.
  cbv zeta. rewrite M. split_and!.
  - apply word_at_put16_eq; auto using wf_put16; try apply stack_addr_range.
    repeat apply wf_put16; done || apply stack_addr_range.
  - rewrite word_at_put16_ne by (apply stack_words_disjoint; done || lia).
    rewrite word_at_put16_eq by (done || apply wf_put16 || apply stack_addr_range;
      done || apply stack_addr_range).
    by apply cast_id.
  - do 2 rewrite word_at_put16_ne by (apply stack_words_disjoint; done || lia).
    rewrite word_at_put16_eq by (done || apply stack_addr_range).
    apply cast_id, RegisterFile.get_flags_range.
  - intros b Hb. rewrite !byte_at_put16_ne by (apply Hb; auto). done.
Qed.

(** The state after the entry. *)
Definition entered (vec ret : Z) m : machine D :=
  let m4 := set_registers (RegisterFile.set_flags (registers (framed ret m))
              (u16 (RegisterFile.get_flags (registers m) .& ~. (IF .| TF))) (IF .| TF))
              (framed ret m) in
  let m5 := set_registers (RegisterFile.set (registers m4) CS (word_at (mem m4) (vec + 2))) m4 in
  set_jump_taken true
    (set_registers (RegisterFile.set (registers m5) IP (word_at (mem m4) vec)) m5).

Lemma interrupt_entry_eq vec ret m :
  wf m -> frame_fits m -> 0 <= vec -> word_fits (vec + 2) ->
  interrupt_entry vec ret m = Ok tt (entered vec ret m).
Proof.
  intros Hm Hf Hv Hw. unfold interrupt_entry.
  rewrite run_bind, run_registers_get_flags.
  match goal with |- (push_word _ ≫= _) m = _ => idtac end.
  etransitivity; [exact (proj1 (push_frame_eq ret _ m Hm Hf))|].
  pose proof (proj2 (push_frame_eq ret (mret ()) m Hm Hf)) as Hm3.
  rewrite run_bind, run_registers_set_flags.
  set (m4 := set_registers _ _).
  assert (Hm4 : wf m4) by (apply wf_set_registers, RegisterFile.wf_set_flags; apply Hm3).
  rewrite run_bind, mem_read16_eq by (done || lia). rewrite Z.add_0_r.
  rewrite run_bind, mem_read16_eq by (done || lia || (unfold word_fits in *; lia)).
  rewrite !run_bind, !run_registers_set, !run_bind, !run_registers_set, run_modify. reflexivity.
Qed.

Lemma entered_flags vec ret m i :
  wf m -> frame_fits m -> 0 <= i ->
  Z.testbit (RegisterFile.get_flags (registers (entered vec ret m))) i =
    Z.testbit (RegisterFile.get_flags (registers m)) i && negb ((i =? 9) || (i =? 8)).
Proof.
  intros Hm Hf Hi. pose proof (proj2 (push_frame_eq ret (mret ()) m Hm Hf)) as Hm3.
  unfold entered. msimpl. rewrite !RegisterFile.get_flags_set.
  rewrite (RegisterFile.get_flags_eq (RegisterFile.set_flags _ _ _))
    by apply RegisterFile.wf_set_flags, Hm3.
  rewrite RegisterFile.set_flags_testbit by (apply Hm3 || done).
  rewrite <- (RegisterFile.get_flags_eq (registers (framed ret m))) by apply Hm3.
  rewrite framed_flags, cast_u_testbit, Z.land_spec, Z.lnot_spec by done.
  pose proof (RegisterFile.get_flags_range (registers m)) as Hr.
  change (width uint16_t) with 16. destruct (Z.lt_ge_cases i 16).
  - enum_below i 16%nat; cbn; by rewrite ?andb_false_r, ?andb_true_r.
  - rewrite (testbit_high 16 _ i Hr) by done.
    destruct (_ && Z.testbit (IF .| TF) i); [by rewrite andb_false_r|done].
Qed.

(** C9. An interrupt entry, when the stack frame and the vector lie inside
    RAM: FLAGS, CS and the return address are stored at SS:SP-2, -4 and -6 and
    nothing else in memory changes, SP goes down by six, IF and TF are clear
    and the other flags as they were, CS:IP is the vector, every other
    register is kept. *)
Theorem interrupt_entry_effect vec ret m :
  wf m -> frame_fits m -> 0 <= vec -> word_fits (vec + 2) ->
  exists m',
    interrupt_entry vec ret m = Ok tt m' /\
    RegisterFile.get (registers m') CS = word_at (mem m') (vec + 2) /\
    RegisterFile.get (registers m') IP = word_at (mem m') vec /\
    RegisterFile.get (registers m') SP = u16 (RegisterFile.get (registers m) SP - 6) /\
    (forall r, RegisterFile.overlap SP r = false -> r <> CS -> r <> IP ->
       RegisterFile.get (registers m') r = RegisterFile.get (registers m) r) /\
    (forall i, 0 <= i -> Z.testbit (RegisterFile.get_flags (registers m')) i =
       Z.testbit (RegisterFile.get_flags (registers m)) i && negb ((i =? 9) || (i =? 8))) /\
    word_at (mem m') (stack_addr (registers m) (-6)) = u16 ret /\
    word_at (mem m') (stack_addr (registers m) (-4)) = RegisterFile.get (registers m) CS /\
    word_at (mem m') (stack_addr (registers m) (-2)) = RegisterFile.get_flags (registers m) /\
    (forall b,
      (forall k, k = -2 \/ k = -4 \/ k = -6 ->
         b < stack_addr (registers m) k \/ stack_addr (registers m) k + 2 <= b) ->
      Memory.byte_at (mem m') b = Memory.byte_at (mem m) b).
Proof.
  intros Hm Hf Hv Hw. exists (entered vec ret m).
  pose proof (proj2 (push_frame_eq ret (mret ()) m Hm Hf)) as Hm3.
  pose proof (framed_words ret m Hm Hf) as Hwords. cbv zeta in Hwords.
  destruct Hwords as (W1 & W2 & W3 & W4).
  set (rf := RegisterFile.set_flags (registers (framed ret m))
              (u16 (RegisterFile.get_flags (registers m) .& ~. (IF .| TF))) (IF .| TF)).
  assert (Hrf : RegisterFile.wf rf) by apply RegisterFile.wf_set_flags, Hm3.
  assert (Hmm : Memory.wf (mem (framed ret m))) by apply Hm3.
  split; [by apply interrupt_entry_eq|]. unfold entered. msimpl. fold rf.
  split_and!; try done.
  - rewrite !RegisterFile.get_set_word by auto using RegisterFile.wf_set.
    rewrite decide_False, decide_True by done. by apply cast_id, word_at_range.
  - rewrite !RegisterFile.get_set_word by auto using RegisterFile.wf_set.
    rewrite decide_True by done. by apply cast_id, word_at_range.
  - rewrite !RegisterFile.get_set_word by auto using RegisterFile.wf_set.
    rewrite !decide_False by done. unfold rf. rewrite RegisterFile.get_set_flags.
    by apply framed_SP.
  - intros r Hr HCS HIP.
    rewrite !RegisterFile.get_set_ne by
      (auto using RegisterFile.wf_set; destruct r; done || congruence).
    unfold rf. rewrite RegisterFile.get_set_flags. by apply framed_get.
  - intros i Hi. by apply (entered_flags vec ret m i).
Qed.

(** ** IRET *)

(** The three pops. *)
Lemma pop_frame_eq {X} (k : Z -> Z -> Z -> emu D X) m :
  wf m ->
  word_fits (stack_addr (registers m) 0) -> word_fits (stack_addr (registers m) 2) ->
  word_fits (stack_addr (registers m) 4) ->
  (ip ← pop_word ; cs ← pop_word ; flags ← pop_word ; k ip cs flags) m =
    k (word_at (mem m) (stack_addr (registers m) 0)) (word_at (mem m) (stack_addr (registers m) 2))
      (word_at (mem m) (stack_addr (registers m) 4)) (popped (popped (popped m))).
Proof.
  intros Hm H0 H2 H4. assert (Hm1 : wf (popped m)) by by apply wf_popped.
  assert (Hm2 : wf (popped (popped m))) by by apply wf_popped.
  assert (A1 : stack_addr (registers (popped m)) 0 = stack_addr (registers m) 2)
    by by rewrite stack_addr_popped.
  assert (A2 : stack_addr (registers (popped (popped m))) 0 = stack_addr (registers m) 4)
    by by rewrite !stack_addr_popped.
  rewrite run_bind, pop_word_eq, run_bind, pop_word_eq, run_bind, pop_word_eq by
    (done || rewrite ?A1, ?A2; done).
  by rewrite A1, A2.
Qed.

(** The registers and the stack an entry leaves. *)
Lemma entered_get vec ret m r :
  wf m -> frame_fits m -> RegisterFile.overlap SP r = false -> r <> CS -> r <> IP ->
  RegisterFile.get (registers (entered vec ret m)) r = RegisterFile.get (registers m) r.
Proof.
  intros Hm Hf Hr HCS HIP. pose proof (proj2 (push_frame_eq ret (mret ()) m Hm Hf)) as Hm3.
  unfold entered. msimpl.
  rewrite !RegisterFile.get_set_ne by
    (auto using RegisterFile.wf_set, RegisterFile.wf_set_flags, wf_registers;
     destruct r; done || congruence).
  rewrite RegisterFile.get_set_flags. by apply framed_get.
Qed.

Lemma wf_entered vec ret m : wf m -> frame_fits m -> wf (entered vec ret m).
Proof.
  intros Hm Hf. pose proof (proj2 (push_frame_eq ret (mret ()) m Hm Hf)) as Hm3.
  assert (Hrf := wf_registers _ Hm3).
  set (f := u16 (RegisterFile.get_flags (registers m) .& ~. (IF .| TF))).
  assert (H4 : wf (set_registers (RegisterFile.set_flags (registers (framed ret m)) f (IF .| TF))
                     (framed ret m)))
    by (apply wf_set_registers; [done|by apply RegisterFile.wf_set_flags]).
  unfold entered. fold f. set (m4 := set_registers _ (framed ret m)) in *. cbv zeta.
  set (m5 := set_registers _ m4).
  assert (H5 : wf m5) by (apply wf_set_registers, RegisterFile.wf_set; apply H4).
  assert (H6 : wf (set_registers (RegisterFile.set (registers m5) IP (word_at (mem m4) vec)) m5))
    by (apply wf_set_registers, RegisterFile.wf_set; apply H5).
  by destruct H6.
Qed.

Lemma entered_SP vec ret m :
  wf m -> frame_fits m ->
  RegisterFile.get (registers (entered vec ret m)) SP = u16 (RegisterFile.get (registers m) SP - 6).
Proof.
  intros Hm Hf. pose proof (proj2 (push_frame_eq ret (mret ()) m Hm Hf)) as Hm3.
  unfold entered. msimpl.
  rewrite !RegisterFile.get_set_ne by
    (auto using RegisterFile.wf_set, RegisterFile.wf_set_flags, wf_registers).
  rewrite RegisterFile.get_set_flags. by apply framed_SP.
Qed.

Lemma entered_stack_addr vec ret m k :
  wf m -> frame_fits m ->
  stack_addr (registers (entered vec ret m)) k = stack_addr (registers m) (k - 6).
Proof.
  intros Hm Hf. unfold stack_addr. rewrite entered_SP, entered_get by done.
  f_equal. cpp_lia.
Qed.

Lemma popped_get m r :
  wf m -> RegisterFile.overlap SP r = false ->
  RegisterFile.get (registers (popped m)) r = RegisterFile.get (registers m) r.
Proof. intros Hm Hr. apply RegisterFile.get_set_ne; [apply Hm|done]. Qed.

Lemma popped3_SP m :
  wf m ->
  RegisterFile.get (registers (popped (popped (popped m)))) SP =
    u16 (RegisterFile.get (registers m) SP + 6).
Proof.
  intros Hm. assert (forall m, wf m -> RegisterFile.get (registers (popped m)) SP =
    u16 (RegisterFile.get (registers m) SP + 2)) as H.
  { intros m' Hm'. apply (RegisterFile.get_set_eq _ SP), Hm'. }
  rewrite !H by auto using wf_popped. cpp_lia.
Qed.

(** The state IRET leaves. *)
Definition returned (ip cs flags : Z) m : machine D :=
  set_jump_taken true
    (set_registers
       (RegisterFile.set_flags
          (RegisterFile.set (RegisterFile.set (registers m) IP ip) CS cs) flags 0xffff) m).

Lemma iretcf_eq m :
  wf m ->
  word_fits (stack_addr (registers m) 0) -> word_fits (stack_addr (registers m) 2) ->
  word_fits (stack_addr (registers m) 4) ->
  iretcf m =
    Ok tt (returned (word_at (mem m) (stack_addr (registers m) 0))
             (word_at (mem m) (stack_addr (registers m) 2))
             (word_at (mem m) (stack_addr (registers m) 4)) (popped (popped (popped m)))).
Proof.
  intros Hm H0 H2 H4. unfold iretcf.
  etransitivity; [exact (pop_frame_eq _ m Hm H0 H2 H4)|]. reflexivity.
Qed.

(** C10. IRET undoes an interrupt entry: run right after it, IRET comes back
    to the return address with CS, FLAGS, SP and every other register as they
    were before the interrupt, and memory changed in the stack frame only. *)
Theorem iret_undoes_entry vec ret m :
  wf m -> frame_fits m -> 0 <= vec -> word_fits (vec + 2) ->
  exists m1 m2,
    interrupt_entry vec ret m = Ok tt m1 /\ iretcf m1 = Ok tt m2 /\
    RegisterFile.get (registers m2) IP = u16 ret /\
    (forall r, r <> IP ->
       RegisterFile.get (registers m2) r = RegisterFile.get (registers m) r) /\
    RegisterFile.get_flags (registers m2) = RegisterFile.get_flags (registers m) /\
    (forall b,
      (forall k, k = -2 \/ k = -4 \/ k = -6 ->
         b < stack_addr (registers m) k \/ stack_addr (registers m) k + 2 <= b) ->
      Memory.byte_at (mem m2) b = Memory.byte_at (mem m) b).
Proof.
  intros Hm Hf Hv Hw.
  destruct (framed_words ret m Hm Hf) as (W6 & W4 & W2 & Wb).
  pose proof (wf_entered vec ret m Hm Hf) as Hm1.
  assert (A : forall k, stack_addr (registers (entered vec ret m)) k = stack_addr (registers m) (k - 6))
    by (intros; by apply entered_stack_addr).
  assert (Emem : mem (entered vec ret m) = mem (framed ret m)) by done.
  pose proof (entered_SP vec ret m Hm Hf) as ESP.
  pose proof (fun r => entered_get vec ret m r Hm Hf) as Eget.
  pose proof (interrupt_entry_eq vec ret m Hm Hf Hv Hw) as E.
  revert Hm1 A Emem ESP Eget E. generalize (entered vec ret m). intros m1 Hm1 A Emem ESP Eget E.
  exists m1. eexists. split; [exact E|].
  pose proof Hf as (F2 & F4 & F6). split; [apply iretcf_eq; rewrite ?A; done|].
  rewrite !A, Emem. change (0 - 6) with (-6). change (2 - 6) with (-4). change (4 - 6) with (-2).
  rewrite W6, W4, W2. unfold returned. msimpl.
  assert (Hp : wf (popped (popped (popped m1)))) by auto using wf_popped.
  assert (Hprf := wf_registers _ Hp).
  pose proof (RegisterFile.get_range _ CS (wf_registers m Hm)) as Hcs.
  split_and!.
  - rewrite RegisterFile.get_set_flags, !RegisterFile.get_set_word by
      auto using RegisterFile.wf_set.
    rewrite decide_False, decide_True by done. apply cast_idemp.
  - intros r Hr. rewrite RegisterFile.get_set_flags.
    destruct (decide (r = CS)) as [->|HCS].
    { rewrite RegisterFile.get_set_eq by auto using RegisterFile.wf_set. by apply cast_id. }
    rewrite !RegisterFile.get_set_ne by
      (auto using RegisterFile.wf_set; destruct r; done || congruence).
    destruct (decide (r = SP)) as [->|HSP].
    + rewrite popped3_SP, ESP by done.
      pose proof (get_SP_range (registers m) (wf_registers m Hm)). cpp_lia.
    + assert (RegisterFile.overlap SP r = false) by by destruct r.
      rewrite !popped_get by auto using wf_popped. by apply Eget.
  - apply RegisterFile.set_all_flags; [auto using RegisterFile.wf_set|apply Hm].
  - unfold popped. msimpl. by rewrite Emem.
Qed.
End entry.

(** INT 3 from 0000:0100 with an odd mix of flags, stack at 2000:0100. *)
Lemma frame_fits_bench :
  let m := bench [0xcc] 12 [0x34; 0x12; 0x00; 0xf0] [] (CF .| IF .| TF) in frame_fits m.
Proof. by vm_compute. Qed.

Lemma interrupt_entries_witness :
  let m := bench [0xcc] 12 [0x34; 0x12; 0x00; 0xf0] [] (CF .| IF .| TF) in
  intcc m = interrupt_entry VEC_INT (next_ip m) m.
Proof. intros m. destruct (interrupt_entries m) as (H & _); [wf_bench|exact H]. Defined.

Lemma interrupt_entry_effect_witness :
  let m := bench [0xcc] 12 [0x34; 0x12; 0x00; 0xf0] [] (CF .| IF .| TF) in
  exists m',
    interrupt_entry 12 0x101 m = Ok tt m' /\
    RegisterFile.get (registers m') CS = word_at (mem m') (12 + 2) /\
    RegisterFile.get (registers m') IP = word_at (mem m') 12.
Proof.
  intros m. destruct (interrupt_entry_effect 12 0x101 m) as (m' & ? & ? & ? & _);
    [wf_bench|by apply frame_fits_bench|done|by vm_compute|by exists m'].
Defined.

Lemma iret_undoes_entry_witness :
  let m := bench [0xcc] 12 [0x34; 0x12; 0x00; 0xf0] [] (CF .| IF .| TF) in
  exists m1 m2,
    interrupt_entry 12 0x101 m = Ok tt m1 /\ iretcf m1 = Ok tt m2 /\
    RegisterFile.get (registers m2) IP = u16 0x101.
Proof.
  intros m. destruct (iret_undoes_entry 12 0x101 m) as (m1 & m2 & ? & ? & ? & _);
    [wf_bench|by apply frame_fits_bench|done|by vm_compute|by exists m1, m2].
Defined.
