(* ===== verification/JumpProps.v ===== *)
(** * Conditional jumps and loops *)
From S2P Require Import Prelude Config MainMemory Registers ErrorState IOPorts Machine ModRM Core.
From S2P Require Import Safety Decoder CoreSafe Bench InsnControl Emulate.

Section jumps.
Context {CFG : Config} {D : Type} {IOP : IOPorts D}.
Implicit Types m : machine D.

(** The tested condition of opcodes 0x70 to 0x7f: eight conditions, each
    followed by its negation. *)
Definition base_condition (n : Z) (rf : RegisterFile.t) : bool :=
  let cf := RegisterFile.get_flag rf CF in
  let zf := RegisterFile.get_flag rf ZF in
  let sf := RegisterFile.get_flag rf SF in
  let of_ := RegisterFile.get_flag rf OF in
  let pf := RegisterFile.get_flag rf PF in
  match n with
  | 0 => of_ | 1 => cf | 2 => zf | 3 => cf || zf
  | 4 => sf | 5 => pf | 6 => xorb sf of_ | _ => xorb sf of_ || zf
  end.

Definition condition (n : Z) (rf : RegisterFile.t) : bool :=
  xorb (Z.odd n) (base_condition (n / 2) rf).

(** The state after the displacement byte is fetched, and after a jump by [d]. *)
Definition after_byte m : machine D := set_instr_length (u64 (instr_length m + 1)) m.
Definition jumped (d : Z) m : machine D :=
  set_jump_taken true
    (set_registers
       (RegisterFile.set (registers m) IP
          (u64 (RegisterFile.get (registers m) IP + d + instr_length m))) m).

Lemma take_jump_eq d m : take_jump d m = Ok tt (jumped d m).
Proof. unfold take_jump. by run. Qed.

(** Fetch a displacement, read flags, jump or not. *)
Lemma jump_if {X} (f : Z -> X) (k : X -> emu D unit) m :
  wf m -> ((f <$> fetch_byte) ≫= k) m = k (f (code_byte m (instr_length m))) (after_byte m).
Proof. intros Hm. by rewrite run_bind, run_fmap, fetch_byte_eq. Qed.

(** The new IP, modulo 64 KiB. *)
Lemma jumped_IP d m :
  wf m ->
  RegisterFile.get (registers (jumped d m)) IP =
    (RegisterFile.get (registers m) IP + instr_length m + d) mod 65536.
Proof.
  intros Hm. unfold jumped. msimpl. rewrite RegisterFile.get_set_eq by apply Hm.
  change (RegisterFile.gpr_type IP) with uint16_t. cpp_lia.
Qed.

(** Opcode 0x70+n jumps exactly when condition n holds: O, B, Z, BE, S,
    P, L, LE for even n, and the opposite for the odd opcode after it. The
    target is the next instruction plus the sign-extended displacement,
    modulo 64 KiB; a jump not taken only moves past the displacement; flags
    and the other registers are untouched either way. *)
Lemma conditional_jumps n m :
  wf m -> 0 <= n < 16 ->
  let m1 := after_byte m in
  let d := s8 (code_byte m (instr_length m)) in
  execute_opcode (0x70 + n) m =
    Ok tt (if condition n (registers m) then jumped d m1 else m1) /\
  RegisterFile.get (registers (jumped d m1)) IP =
    (RegisterFile.get (registers m) IP + instr_length m1 + d) mod 65536 /\
  (forall r, r <> IP ->
     RegisterFile.get (registers (jumped d m1)) r = RegisterFile.get (registers m) r) /\
  RegisterFile.get_flags (registers (jumped d m1)) = RegisterFile.get_flags (registers m).
Proof.
  intros Hm Hn m1 d. split_and!.
  - unfold condition.
    enum_below n 16%nat;
      match goal with
      | |- execute_opcode ?e _ = _ => let v := eval vm_compute in e in change e with v
      end; cbn [execute_opcode];
      match goal with |- ?h _ = _ => let f := head_of h in unfold f end;
      rewrite jump_if by done; fold m1 d;
      run; change (registers m1) with (registers m);
      match goal with
      | |- context [xorb (Z.odd ?k) (base_condition ?q ?rf)] =>
          let c := eval cbv -[RegisterFile.get_flag CF ZF SF OF PF registers orb xorb negb] in
            (xorb (Z.odd k) (base_condition q rf)) in
          change (xorb (Z.odd k) (base_condition q rf)) with c
      end; unfold xorb, negb, orb;
      repeat match goal with
      | |- context [RegisterFile.get_flag ?r ?f] => destruct (RegisterFile.get_flag r f)
      end; first [exact (take_jump_eq d m1)|reflexivity].
  - by rewrite jumped_IP by by apply wf_set_instr_length.
  - intros r Hr. apply RegisterFile.get_set_ne; [apply Hm|by destruct r].
  - apply RegisterFile.get_flags_set.
Qed.

(** CX less one. *)
Definition count_down m : machine D :=
  set_registers (RegisterFile.set (registers m) CX (RegisterFile.get (registers m) CX - 1)) m.

(** The extra condition of LOOPNE, LOOPE and LOOP. *)
Definition loop_condition (op : Z) (zf : bool) : bool :=
  match op with 0xe0 => negb zf | 0xe1 => zf | _ => true end.

Lemma s16_s8 b : s16 (s8 b) = s8 b.
Proof. cpp_lia. Qed.

(** LOOPNE (0xe0), LOOPE (0xe1) and LOOP (0xe2) take one from CX, modulo
    64 KiB and without touching the flags, and jump while CX is not zero and
    ZF agrees; JCXZ (0xe3) jumps when CX is zero and changes nothing. *)
Lemma loops op m :
  wf m -> 0xe0 <= op <= 0xe3 ->
  let m1 := after_byte m in
  let d := s8 (code_byte m (instr_length m)) in
  let cx := RegisterFile.get (registers m) CX in
  let zf := RegisterFile.get_flag (registers m) ZF in
  (op <> 0xe3 ->
   RegisterFile.get (registers (count_down m1)) CX = (cx - 1) mod 65536 /\
   execute_opcode op m =
     Ok tt (if negb ((cx - 1) mod 65536 =? 0) && loop_condition op zf
            then jumped d (count_down m1) else count_down m1)) /\
  (op = 0xe3 -> execute_opcode op m = Ok tt (if cx =? 0 then jumped d m1 else m1)).
Proof.
  intros Hm Hop m1 d cx zf.
  assert (Hcx : RegisterFile.get (registers (count_down m1)) CX = (cx - 1) mod 65536).
  { unfold count_down. msimpl. by rewrite RegisterFile.get_set_eq by apply Hm. }
  assert (Hzf : RegisterFile.get_flag (registers (count_down m1)) ZF = zf).
  { unfold RegisterFile.get_flag, count_down. msimpl. by rewrite RegisterFile.flags_set. }
  assert (Hj : forall d m, Ok tt (set_jump_taken true (set_registers (RegisterFile.set (registers m)
      IP (u64 (RegisterFile.get (registers m) IP + instr_length m + d))) m)) = Ok tt (jumped d m)).
  { intros d' m'. unfold jumped. do 5 f_equal. lia. }
  split; intros Ho; [split; [done|]|]; enum_from op 0xe0 4%nat; try done; cbn [execute_opcode];
    match goal with |- ?h _ = _ => let f := head_of h in unfold f end;
    rewrite jump_if by done; rewrite ?s16_s8; fold m1 d; rewrite run_bind, run_registers_get.
  4: { change (RegisterFile.get (registers m1) CX) with cx.
       destruct (cx =? 0); [exact (take_jump_eq d m1)|done]. }
  all: rewrite run_bind, run_registers_set; fold (count_down m1);
    rewrite run_bind, run_registers_get, Hcx;
    rewrite ?(run_bind (registers_get_flag _)), ?run_registers_get_flag, ?Hzf;
    cbn [loop_condition]; rewrite ?andb_true_r;
    destruct (negb _ && _) || destruct (negb _); [|done]; run; apply Hj.
Qed.

(** C11. The short jumps. Opcode 0x70+n jumps exactly when condition n holds:
    O, B, Z, BE, S, P, L, LE for even n, and the opposite for the odd opcode
    after it. LOOPNE (0xe0), LOOPE (0xe1) and LOOP (0xe2) take one from CX,
    modulo 64 KiB and without touching the flags, and jump while CX is not
    zero and ZF agrees; JCXZ (0xe3) jumps when CX is zero. The target is the
    next instruction plus the sign-extended displacement, modulo 64 KiB; a
    jump not taken only moves past the displacement; flags and the other
    registers are untouched either way. *)
Theorem short_jumps m :
  wf m ->
  let m1 := after_byte m in
  let d := s8 (code_byte m (instr_length m)) in
  let cx := RegisterFile.get (registers m) CX in
  let zf := RegisterFile.get_flag (registers m) ZF in
  (forall n, 0 <= n < 16 ->
    execute_opcode (0x70 + n) m = Ok tt (if condition n (registers m) then jumped d m1 else m1)) /\
  (forall op, 0xe0 <= op <= 0xe2 ->
    execute_opcode op m =
      Ok tt (if negb ((cx - 1) mod 65536 =? 0) && loop_condition op zf
             then jumped d (count_down m1) else count_down m1)) /\
  execute_opcode 0xe3 m = Ok tt (if cx =? 0 then jumped d m1 else m1) /\
  RegisterFile.get (registers (count_down m1)) CX = (cx - 1) mod 65536 /\
  RegisterFile.get (registers (jumped d m1)) IP =
    (RegisterFile.get (registers m) IP + instr_length m1 + d) mod 65536 /\
  (forall r, r <> IP ->
     RegisterFile.get (registers (jumped d m1)) r = RegisterFile.get (registers m) r) /\
  RegisterFile.get_flags (registers (jumped d m1)) = RegisterFile.get_flags (registers m).
Proof.
  intros Hm m1 d cx zf. destruct (conditional_jumps 0 m Hm ltac:(lia)) as (_ & Hjumped).
  split_and!; try apply Hjumped.
  - intros n Hn. by apply conditional_jumps.
  - intros op Hop. apply loops; [done|lia..].
  - apply (loops 0xe3); [done|lia|done].
  - apply (loops 0xe0); [done|lia..].
Qed.
End jumps.

(** JLE with SF <> OF, and LOOPE counting down from 1. *)
Lemma short_jumps_witness :
  (let m := bench [0xfe] 0 [] [] SF in
   execute_opcode (0x70 + 14) m = Ok tt (jumped (-2) (after_byte m))) /\
  (let m := bench [0xfe] 0 [] [(CX, 1)] ZF in
   execute_opcode 0xe1 m = Ok tt (count_down (after_byte m))).
Proof.
  split; intros m; destruct (short_jumps m) as (Hj & Hl & _); [wf_bench| |wf_bench|].
  - rewrite Hj by done. reflexivity.
  - rewrite Hl by done. reflexivity.
Defined.
