(* ===== verification/ShiftTable.v ===== *)
(** * The shift and rotate groups as one table

    The opcodes 0xC0, 0xC1 and 0xD0 to 0xD3 are one instruction: the width is
    in bit 0, the source of the count in the others, and the [reg] field
    selects one of seven operations, whose results and flags are arithmetic
    on the [w] (or, through the carry, [w + 1]) bits. *)
From S2P Require Import Prelude Config MainMemory Registers ErrorState IOPorts Machine ModRM Core.
From S2P Require Import Safety Decoder CoreSafe DecoderProps Bench Alu AluProps InsnShift ShiftProps.
From S2P Require Import Emulate AluTable.

(** ** The abstract instruction *)

Inductive shift_op := ROL | ROR | RCL | RCR | SHL | SHR | SAR.
Inductive shift_count := ByOne | ByImmediate | ByCL.

#[export] Instance shift_op_inhabited : Inhabited shift_op := populate ROL.

(** [reg] field 6 is an alias of SHL. *)
Definition shift_ops : list shift_op := [ROL; ROR; RCL; RCR; SHL; SHR; SHL; SAR].

(** The [w] bits of [v] moved up [k] places round the end. *)
Definition rotl (w k v : Z) : Z :=
  let k := k mod w in (v * 2 ^ k) mod 2 ^ w + v / 2 ^ (w - k).

(** The result, CF and OF of [n] turns, [n] at least 1. *)
Definition shift_sem (o : shift_op) (w v n : Z) (c : bool) : Z * bool * bool :=
  let top r := Z.testbit r (w - 1) in
  let top2 r := xorb (top r) (Z.testbit r (w - 2)) in
  match o with
  | ROL => let r := rotl w (n mod 32) v in
           let cf := negb (n mod 32 =? 0) && Z.testbit r 0 in (r, cf, xorb cf (top r))
  | ROR => let r := rotl w (- n) v in (r, top r, top2 r)
  | RCL => let x := rotl (w + 1) (n mod 32) (Z.b2z c * 2 ^ w + v) in
           let r := x mod 2 ^ w in (r, Z.testbit x w, xorb (Z.testbit x w) (top r))
  | RCR => let x := rotl (w + 1) (- (n mod 32)) (Z.b2z c * 2 ^ w + v) in
           let r := x mod 2 ^ w in (r, Z.testbit x w, top2 r)
  | SHL => ((v * 2 ^ n) mod 2 ^ w, Z.testbit v (w - n), top2 v)
  | SHR => (v / 2 ^ n, Z.testbit v (n - 1), top v)
  | SAR => ((signed w v / 2 ^ n) mod 2 ^ w, Z.testbit (signed w v) (n - 1), false)
  end.

(** Rotates leave ZF, PF and SF alone; OF is only set by the shifts by one. *)
Definition shift_mask (o : shift_op) (s : shift_count) : Z :=
  match o with ROL | ROR | RCL | RCR => CF | _ => CF .| ZF .| PF .| SF end .|
  match s with ByOne => OF | _ => 0 end.

(** ** Rotation in closed form *)

Lemma rotl_rotated w k v : 0 < w -> 0 <= v < 2 ^ w -> rotated w k v (rotl w k v).
Proof.
  intros Hw Hv. unfold rotl. pose proof (Z.mod_pos_bound k w Hw) as Hk.
  set (j := k mod w) in *.
  assert (E : (v * 2 ^ j) mod 2 ^ w = v mod 2 ^ (w - j) * 2 ^ j).
  { replace w with (w - j + j) at 1 by lia. rewrite Z.pow_add_r by lia. apply Zmult_mod_distr_r. }
  assert (Hlow : 0 <= v / 2 ^ (w - j) < 2 ^ j).
  { split; [apply Z.div_pos; lia|]. apply Z.div_lt_upper_bound; [lia|].
    rewrite <- Z.pow_add_r by lia. replace (w - j + j) with w by lia. lia. }
  rewrite E. split.
  - pose proof (Z.mod_pos_bound v (2 ^ (w - j)) ltac:(lia)) as Hm.
    assert (Hp : 2 ^ w = 2 ^ (w - j) * 2 ^ j) by (rewrite <- Z.pow_add_r by lia; f_equal; lia).
    nia.
  - intros i Hi. rewrite testbit_concat by lia.
    assert (Hmod : forall x, 0 <= x < w -> (i - k) mod w = (i - k) mod w -> x = (i - j) mod w -> x = (i - k) mod w).
    { intros x _ _ ->. unfold j. apply Zminus_mod_idemp_r. }
    destruct (Z.ltb_spec i j).
    + rewrite Z.div_pow2_bits by lia. f_equal. apply Hmod; [lia|done|].
      apply (Z.mod_unique_pos _ _ (-1)); lia.
    + rewrite Z.mod_pow2_bits_low by lia. f_equal. apply Hmod; [lia|done|].
      symmetry. apply Z.mod_small. lia.
Qed.

Lemma rotated_rotl w k v r : 0 < w -> 0 <= v < 2 ^ w -> rotated w k v r -> r = rotl w k v.
Proof.
  intros Hw Hv H. eapply rotated_unique; [exact Hw|reflexivity|exact H|]. by apply rotl_rotated.
Qed.

Lemma with_carry_parts T f r x :
  alu_width T -> in_range T r -> with_carry T (f, r) = x ->
  r = x mod 2 ^ width T /\ nz (f .& CF) = Z.testbit x (width T).
Proof.
  intros HT Hr <-. pose proof (alu_range T r HT Hr) as Hr'. unfold with_carry. cbn [fst snd].
  assert (0 <= width T) by by destruct HT as [->| ->].
  split.
  - rewrite Z.add_comm, Z.mod_add by lia. symmetry. by apply Z.mod_small.
  - rewrite testbit_concat by lia. zcmp. rewrite Z.sub_diag. by destruct (nz _).
Qed.

(** ** The loops of the code compute the table *)

Definition do_shift (o : shift_op) (T : ctype) (v n : Z) (c : bool) : Z * Z :=
  match o with
  | ROL => do_rol T v n | ROR => do_ror T v n
  | RCL => do_rcl T v n c | RCR => do_rcr T v n c
  | SHL => do_shl T v n | SHR => do_shr T v n | SAR => do_sar T v n
  end.

(** The flags a shift by [s] updates. *)
Definition shift_status (w r : Z) (cf of_ : bool) : status :=
  mk_status false cf (Z.testbit r (w - 1)) (r =? 0) (even_ones r) of_.

Definition agree (mask f g : Z) : Prop :=
  forall i, 0 <= i < 16 -> Z.testbit mask i = true -> Z.testbit f i = Z.testbit g i.

Lemma status_word_bit s i :
  Z.testbit (status_word s) i =
    (st_af s && (i =? 4)) || (st_cf s && (i =? 0)) || (st_sf s && (i =? 7)) ||
    (st_zf s && (i =? 6)) || (st_pf s && (i =? 2)) || (st_of s && (i =? 11)).
Proof.
  destruct (Z.neg_nonneg_cases i) as [Hi|Hi].
  - rewrite Z.testbit_neg_r by done. zcmp. by rewrite !andb_false_r.
  - unfold status_word. rewrite status_flags_testbit by done.
    by rewrite Z.bits_0, andb_false_r, andb_false_l, orb_false_l.
Qed.

Lemma rotate_agree T f r cf of_ s o :
  shift_mask o s .| (CF .| OF) = CF .| OF ->
  rotated_flags T f r cf of_ ->
  agree (shift_mask o s) f (status_word (shift_status (width T) r cf of_)).
Proof.
  intros Hmask (_ & HC & HO) i Hi Hb.
  rewrite (nz_land_bit _ CF 0) in HC by done. rewrite (nz_land_bit _ OF 11) in HO by done.
  assert (i = 0 \/ i = 11) as Hcases.
  { apply (f_equal (fun x => Z.testbit x i)) in Hmask. rewrite Z.lor_spec, Hb in Hmask.
    symmetry in Hmask. enum_below i 16%nat; try discriminate Hmask; auto. }
  rewrite status_word_bit. unfold shift_status. cbn [st_af st_cf st_sf st_zf st_pf st_of].
  destruct Hcases as [->| ->]; rewrite ?HC, ?HO; cbn; by rewrite ?andb_true_r, ?andb_false_r, ?orb_false_r.
Qed.

Lemma shift_agree T f r cf of_ s o :
  shifted T f r cf of_ ->
  agree (shift_mask o s) f (status_word (shift_status (width T) r cf of_)).
Proof.
  intros (HC & HZ & HP & HS & HO) i Hi Hb.
  rewrite (nz_land_bit _ CF 0) in HC by done. rewrite (nz_land_bit _ ZF 6) in HZ by done.
  rewrite (nz_land_bit _ PF 2) in HP by done. rewrite (nz_land_bit _ SF 7) in HS by done.
  rewrite (nz_land_bit _ OF 11) in HO by done.
  assert (i = 0 \/ i = 2 \/ i = 6 \/ i = 7 \/ i = 11) as Hcases.
  { destruct o, s; enum_below i 16%nat; try discriminate Hb; auto. }
  rewrite status_word_bit. unfold shift_status. cbn [st_af st_cf st_sf st_zf st_pf st_of].
  destruct Hcases as [->|[->|[->|[->| ->]]]]; rewrite ?HC, ?HZ, ?HP, ?HS, ?HO; cbn;
    by rewrite ?andb_true_r, ?andb_false_r, ?orb_false_r.
Qed.

(** One operation of [n] turns: the value, and flags that agree under the mask. *)
Lemma do_shift_eq o s T v n c :
  alu_width T -> in_range T v -> 1 <= n ->
  let '(f, r) := do_shift o T v n c in
  let '(r', cf, of_) := shift_sem o (width T) v n c in
  r = r' /\ in_range T r /\ agree (shift_mask o s) f (status_word (shift_status (width T) r' cf of_)).
Proof.
  intros HT Hv Hn. assert (Hw : 0 < width T) by by destruct HT as [->| ->].
  pose proof (alu_range T v HT Hv) as Hr.
  assert (Hn0 : (n =? 0) = false) by (apply Z.eqb_neq; lia).
  assert (HW : forall b : bool, 0 <= Z.b2z b * 2 ^ width T + v < 2 ^ (width T + 1)).
  { intros b. rewrite <- with_carry_start. by apply with_carry_range. }
  pose proof (shifts_eq T v n HT Hv Hn) as (Hl & Hr' & Ha).
  destruct o; cbn [do_shift shift_sem].
  - pose proof (do_rol_eq T v n HT Hv) as H. destruct (do_rol T v n) as [f r]. destruct H as [H1 H2].
    apply rotated_rotl in H1; [|done..]. rewrite <- H1.
    split_and!; [done|apply H2|by destruct s; apply rotate_agree].
  - pose proof (do_ror_eq T v n HT Hv ltac:(lia)) as H. destruct (do_ror T v n) as [f r]. destruct H as [H1 H2].
    apply rotated_rotl in H1; [|done..]. rewrite Hn0 in H2. cbn [negb andb] in H2. rewrite <- H1.
    split_and!; [done|apply H2|by destruct s; apply rotate_agree].
  - pose proof (do_rcl_eq T v n c HT Hv) as H. destruct (do_rcl T v n c) as [f r]. destruct H as [[Hi H1] H2].
    apply rotated_rotl in H1; [|lia|done]. destruct (with_carry_parts _ _ _ _ HT Hi H1) as [E1 E2].
    rewrite <- E1, <- E2. split_and!; [done..|].
    by destruct s; (apply rotate_agree; [done|split_and!]).
  - pose proof (do_rcr_eq T v n c HT Hv) as H. destruct (do_rcr T v n c) as [f r]. destruct H as [[Hi H1] H2].
    apply rotated_rotl in H1; [|lia|done]. destruct (with_carry_parts _ _ _ _ HT Hi H1) as [E1 E2].
    rewrite <- E1, <- E2. split_and!; [done..|].
    by destruct s; (apply rotate_agree; [done|split_and!]).
  - destruct (do_shl T v n) as [f r]. destruct Hl as [-> H2].
    split_and!; [done|rewrite <- cast_alu by done; apply cast_in_range|by apply shift_agree].
  - destruct (do_shr T v n) as [f r]. destruct Hr' as [-> H2].
    split_and!; [done| |by apply shift_agree].
    assert (0 <= v / 2 ^ n < 2 ^ width T).
    { split; [apply Z.div_pos; lia|]. apply Z.div_lt_upper_bound; [lia|].
      assert (1 <= 2 ^ n) by (apply (Z.pow_le_mono_r 2 0); lia). nia. }
    by destruct HT as [->| ->].
  - destruct (do_sar T v n) as [f r]. destruct Ha as [-> H2].
    split_and!; [done|rewrite <- cast_alu by done; apply cast_in_range|by apply shift_agree].
Qed.

Section shift_table.
Context {CFG : Config} {D : Type} {IOP : IOPorts D}.
Implicit Types m : machine D.

(** How many turns: one, the low five bits of an immediate byte, or all of CL. *)
Definition count_of (s : shift_count) : emu D Z :=
  match s with
  | ByOne => mret 1
  | ByImmediate => (fun b => b mod 32) <$> fetch_byte
  | ByCL => registers_get CL
  end.

(** Write the result, then the flags. *)
Definition shift_finish (o : shift_op) (s : shift_count) (T : ctype) (v n : Z) : emu D unit :=
  cf ← registers_get_flag CF ;
  let '(r, cf', of_) := shift_sem o (width T) v n cf in
  write_data T r false ;;
  registers_set_flags (status_word (shift_status (width T) r cf' of_)) (shift_mask o s).

(** No turns, no effect. *)
Definition shift_insn (w : OperandWidth) (s : shift_count) : emu D unit :=
  set_width w ;;
  decode ;;
  k ← raw_reg ;
  v ← read_data (named_type w) false ;
  n ← count_of s ;
  if n =? 0 then mret ()
  else shift_finish (shift_ops !!! Z.to_nat k) s (named_type w) v n.

Definition shift_opcode (w : OperandWidth) (s : shift_count) : Z :=
  match s with ByImmediate => 0xc0 | ByOne => 0xd0 | ByCL => 0xd2 end +
  match w with OP_WIDTH_8 => 0 | OP_WIDTH_16 => 1 end.

(** The last three statements of every handler. *)
Lemma shift_tail o s T v n m c mask :
  inv decoded m -> alu_width T -> in_range T v -> 1 <= n ->
  c = RegisterFile.get_flag (registers m) CF -> mask = shift_mask o s ->
  (let '(flags, v) := do_shift o T v n c in
   write_data T v false ;; registers_set_flags flags mask) m =
  shift_finish o s T v n m.
Proof.
  intros Hm HT Hv Hn -> ->. unfold shift_finish. rewrite run_bind, run_registers_get_flag.
  pose proof (do_shift_eq o s T v n (RegisterFile.get_flag (registers m) CF) HT Hv Hn) as H.
  destruct (do_shift _ _ _ _ _) as [f r], (shift_sem _ _ _ _ _) as [[r' cf] of_].
  destruct H as (-> & _ & H).
  eapply bind_ext_safe; [apply (safe_write_data decoded), entails_refl|done|].
  intros _ m1 _ [Hm1 _]. run. f_equal. f_equal. apply set_flags_ext; [apply Hm1|exact H].
Qed.

(** Decoding and the choice of a row are shared. *)
Lemma shift_group w s (f : Z -> emu D unit) m :
  wf m ->
  (forall k v m, 0 <= k < 8 -> inv decoded m -> in_range (named_type w) v ->
     f k m = (v ← read_data (named_type w) false ;
              n ← count_of s ;
              if n =? 0 then mret ()
              else shift_finish (shift_ops !!! Z.to_nat k) s (named_type w) v n) m) ->
  (set_width w ;; decode ;; k ← raw_reg ; f k) m = shift_insn w s m.
Proof.
  intros Hm H. unfold shift_insn.
  eapply bind_ext_safe; [apply (safe_set_width anything any)|by split|intros _ m1 _ Hm1].
  eapply bind_ext_safe; [apply (safe_decode anything)|done|intros _ m2 _ Hm2].
  rewrite !run_bind, raw_reg_eq by apply Hm2. apply (H _ 0); [apply field_reg_range|done|].
  by destruct w.
Qed.

(** The three shapes of a handler, after the row is chosen. *)
Definition shift_code (o : shift_op) (s : shift_count) (T : ctype) : emu D unit :=
  let shift v n : emu D unit :=
    cf ← registers_get_flag CF ;
    let '(flags, v) := do_shift o T v n cf in
    write_data T v false ;;
    registers_set_flags flags (shift_mask o s) in
  v ← read_data T false ;
  match s with
  | ByOne => shift v 1
  | ByImmediate =>
      count ← fetch_byte ; if count .& 0x1f =? 0 then mret () else shift v (count .& 0x1f)
  | ByCL => cl ← registers_get CL ; if cl =? 0 then mret () else shift v cl
  end.

Lemma shift_code_tail o s T v n m :
  inv decoded m -> alu_width T -> in_range T v -> 0 <= n -> n <> 0 ->
  (cf ← registers_get_flag CF ;
   let '(flags, v) := do_shift o T v n cf in
   write_data T v false ;; registers_set_flags flags (shift_mask o s)) m =
  shift_finish o s T v n m.
Proof.
  intros Hm HT Hv Hn Hn0. rewrite run_bind, run_registers_get_flag.
  apply shift_tail; done || lia.
Qed.

Lemma shift_code_eq o s T m :
  inv decoded m -> alu_width T ->
  shift_code o s T m =
  (v ← read_data T false ; n ← count_of s ;
   if n =? 0 then mret () else shift_finish o s T v n) m.
Proof.
  intros Hm HT.
  eapply bind_ext_safe; [apply (safe_read_data anything decoded), entails_refl|done|].
  intros v m1 Hv Hm1. destruct s; cbn [count_of].
  - rewrite (run_bind (mret 1)), run_ret. by apply shift_code_tail.
  - rewrite (run_bind fetch_byte), (run_bind (_ <$> _)), run_fmap, fetch_byte_eq by apply Hm1.
    rewrite count_mod. destruct (Z.eqb_spec (code_byte m1 (instr_length m1) mod 32) 0); [done|].
    apply shift_code_tail; [|done|done|by apply Z.mod_pos_bound|done].
    split; [by apply wf_set_instr_length, Hm1|apply Hm1].
  - eapply bind_ext_safe; [apply (safe_registers_get anything decoded)|done|].
    intros n m2 Hn Hm2. change (RegisterFile.gpr_type CL) with uint8_t in Hn.
    destruct (Z.eqb_spec n 0); [done|]. apply shift_code_tail; (done || cpp_lia).
Qed.

(** The rows of the dispatch tables. *)
Definition shift_rows (w : OperandWidth) (s : shift_count) : list (emu D unit) :=
  match w, s with
  | OP_WIDTH_8, ByOne => [rold0; rord0; rcld0; rcrd0; shld0; shrd0; shld0; sard0]
  | OP_WIDTH_16, ByOne => [rold1; rord1; rcld1; rcrd1; shld1; shrd1; shld1; sard1]
  | OP_WIDTH_8, ByImmediate => [rolc0; rorc0; rclc0; rcrc0; shlc0; shrc0; shlc0; sarc0]
  | OP_WIDTH_16, ByImmediate => [rolc1; rorc1; rclc1; rcrc1; shlc1; shrc1; shlc1; sarc1]
  | OP_WIDTH_8, ByCL => [rold2; rord2; rcld2; rcrd2; shld2; shrd2; shld2; sard2]
  | OP_WIDTH_16, ByCL => [rold3; rord3; rcld3; rcrd3; shld3; shrd3; shld3; sard3]
  end.

Lemma shift_rows_code w s k m :
  0 <= k < 8 ->
  nth (Z.to_nat k) (shift_rows w s) (mret ()) m = shift_code (shift_ops !!! Z.to_nat k) s (named_type w) m.
Proof. intros Hk. destruct w, s; enum_below k 8%nat; reflexivity. Qed.

Lemma shift_dispatch w s m :
  wf m ->
  execute_opcode (shift_opcode w s) m =
  (set_width w ;; decode ;; k ← raw_reg ; nth (Z.to_nat k) (shift_rows w s) (mret ())) m.
Proof.
  intros Hm.
  destruct w, s;
    (eapply bind_ext_safe; [apply (safe_set_width anything any)|by split|intros _ m1 _ Hm1];
     eapply bind_ext_safe; [apply (safe_decode anything)|done|intros _ m2 _ Hm2];
     rewrite !run_bind, raw_reg_eq by apply Hm2;
     pose proof (field_reg_range (mrm_modrm (modrm_decoder m2))) as Hk;
     remember (field_reg (mrm_modrm (modrm_decoder m2))) as k eqn:E; clear E;
     enum_below k 8%nat; reflexivity).
Qed.

(** C13. The opcodes 0xC0, 0xC1 and 0xD0 to 0xD3 are one instruction: from any
    well-formed state the handler that the [reg] field selects ends in the
    same state as the abstract shift or rotate, whose operand is read once,
    whose count is one, the low five bits of an immediate, or the whole of
    CL, whose result and carry are arithmetic on the bits of the operand, and
    which does nothing at all when the count is zero. *)
Theorem shift_group_table w s m :
  wf m -> execute_opcode (shift_opcode w s) m = shift_insn w s m.
Proof.
  intros Hm. rewrite shift_dispatch by done. apply shift_group; [done|].
  clear m Hm. intros k _ m Hk Hm _. rewrite shift_rows_code by done.
  apply shift_code_eq; [done|]. by destruct w; [left|right].
Qed.
End shift_table.

(** [rcl %cl,%ax] with the carry set and a count past the width. *)
Lemma shift_group_table_witness :
  let m := bench [0xd0] 0 [] [(AX, 0x8421); (CX, 0x14)] CF in
  execute_opcode (shift_opcode OP_WIDTH_16 ByCL) m = shift_insn OP_WIDTH_16 ByCL m.
Proof. intros m. apply shift_group_table. wf_bench. Defined.
