(* ===== verification/StringProps.v ===== *)
(** * Repeated string instructions as block operations

    REP STOSB fills, REP MOVSB copies byte by byte, REPNE SCASB searches:
    closed forms of whole loops, from one lemma on [rep_loop]. *)
From S2P Require Import Prelude Config MainMemory Registers ErrorState IOPorts Machine ModRM Core.
From S2P Require Import Safety Decoder CoreSafe Stack DecoderProps Bench Alu AluProps InsnString Emulate.
From S2P Require Import AluTable.

#[local] Set Warnings "-clear-no-such-hyp".

(** ** Bytes of memory *)

Section bytes.
Context {CFG : Config} {D : Type}.
Implicit Types m : machine D.

(** The memory with the byte at [a] replaced. *)
Definition put8 (mm : Memory.t) (a v : Z) : Memory.t :=
  Memory.mk (Memory.cells (Memory.store 1 mm a (u8 v))) true.

Lemma byte_at_put8 mm a v b :
  Memory.byte_at (put8 mm a v) b = if decide (a = b) then u8 v else Memory.byte_at mm b.
Proof.
  unfold put8. change (Memory.byte_at (Memory.mk (Memory.cells ?x) true)) with (Memory.byte_at x).
  cbn [Memory.store]. rewrite Memory.byte_at_set_byte. case_decide; [cpp_lia|done].
Qed.

Lemma mem_read8_eq a m :
  wf m -> 0 <= a < Memory.MEMORY_SIZE ->
  (mem_read uint8_t a : emu D Z) m = Ok (Memory.byte_at (mem m) a) m.
Proof.
  intros Hm Ha. apply mem_read_Some. rewrite (cast_id uint32_t).
  - apply read_byte; [apply Hm|lia].
  - unfold Memory.MEMORY_SIZE in Ha. cpp_lia.
Qed.

Lemma mem_write8_eq a v m :
  0 <= a < Memory.MEMORY_SIZE ->
  (mem_write uint8_t a v : emu D unit) m = Ok tt (set_mem (put8 (mem m) a v) m).
Proof.
  intros Ha. unfold mem_write. run. unfold Memory.MEMORY_SIZE in Ha.
  rewrite (cast_id uint32_t) by cpp_lia. by rewrite Memory.write_Some by (cbn; unfold Memory.MEMORY_SIZE; lia).
Qed.

Lemma wf_put8 mm a v : Memory.wf mm -> 0 <= a < Memory.MEMORY_SIZE -> Memory.wf (put8 mm a v).
Proof.
  intros Hm Ha. apply (Memory.wf_store 1 mm a (u8 v)); [done|lia|lia].
Qed.
End bytes.

(** ** The loop *)

Section loop.
Context {CFG : Config} {D : Type} {IOP : IOPorts D}.
Implicit Types m : machine D.

(** A turn: the primitive, then one less in CX. *)
Definition turn (primitive : emu D unit) : emu D unit :=
  primitive ;;
  cx ← registers_get CX ;
  registers_set CX (cx - 1).

(** The loop from a state described by [I 0]: it makes turns until the count
    is used up or [stops] says so, and [I] indexes the states between turns. *)
Lemma rep_loop_indexed primitive stop (I : Z -> machine D -> Prop) (stops : Z -> bool) n j :
  (forall k m, 0 <= k <= n -> I k m -> RegisterFile.get (registers m) CX = n - k) ->
  (forall k m, 0 <= k < n -> I k m -> exists m', turn primitive m = Ok tt m' /\ I (k + 1) m') ->
  (forall k m, 0 < k <= n -> I k m -> stop m = Ok (stops k) m) ->
  0 <= j <= n -> (forall k, 0 < k < j -> stops k = false) ->
  j = n \/ (0 < j /\ stops j = true) ->
  forall fuel m, n <= Z.of_nat fuel -> I 0 m ->
  exists m', rep_loop fuel primitive stop m = Ok tt m' /\ I j m'.
Proof.
  intros Hcx Hturn Hstop Hj Hno Hend.
  assert (forall fuel k m, n - k <= Z.of_nat fuel -> 0 <= k <= j -> (0 < k -> k = j -> j = n) -> I k m ->
    exists m', rep_loop fuel primitive stop m = Ok tt m' /\ I j m') as H.
  { induction fuel as [|fuel IH]; intros k m Hf Hk Hkj HI; cbn [rep_loop];
      rewrite run_bind, run_registers_get, (Hcx k) by (done || lia);
      destruct (Z.eqb_spec (n - k) 0) as [E|E]; try lia.
    1,2: exists m; split; [done|]; by replace j with k by lia.
    assert (Hkn : k < j) by (destruct Hend as [->|[? _]]; lia).
    destruct (Hturn k m ltac:(lia) HI) as (m1 & Ht & HI1). unfold turn in Ht.
    rewrite run_bind. rewrite run_bind in Ht. destruct (primitive m) as [[] m0|]; [|done].
    rewrite run_bind, run_registers_get in Ht. rewrite run_bind, run_registers_get, run_bind.
    cbv beta iota in *. rewrite Ht. rewrite run_bind, (Hstop (k + 1)) by (done || lia).
    destruct (stops (k + 1)) eqn:Es.
    - exists m1. split; [done|]. replace j with (k + 1); [done|].
      destruct (Z.eq_dec (k + 1) j); [done|]. rewrite Hno in Es by lia. done.
    - apply (IH (k + 1)); [lia|lia| |done]. intros _ <-. destruct Hend as [|[_ Hs]]; [done|].
      by rewrite Hs in Es. }
  intros fuel m Hf HI. apply (H fuel 0); [lia|lia|lia|done].
Qed.

Lemma do_rep_indexed primitive stop (I : Z -> machine D -> Prop) (stops : Z -> bool) n j m :
  has_rep_prefix m = true -> RegisterFile.get (registers m) CX = n -> I 0 m ->
  (forall k m, 0 <= k <= n -> I k m -> RegisterFile.get (registers m) CX = n - k) ->
  (forall k m, 0 <= k < n -> I k m -> exists m', turn primitive m = Ok tt m' /\ I (k + 1) m') ->
  (forall k m, 0 < k <= n -> I k m -> stop m = Ok (stops k) m) ->
  0 <= j <= n -> (forall k, 0 < k < j -> stops k = false) ->
  j = n \/ (0 < j /\ stops j = true) ->
  exists m', do_rep primitive stop m = Ok tt m' /\ I j m'.
Proof.
  intros Hrep Hn H0 Hcx Hturn Hstop Hj Hno Hend. unfold do_rep.
  rewrite run_bind, run_gets, Hrep. cbn [negb]. rewrite run_bind, run_registers_get, Hn.
  eapply rep_loop_indexed; try done. lia.
Qed.
End loop.

(** ** The states between turns *)

Section block.
Context {CFG : Config} {D : Type} {IOP : IOPorts D}.
Implicit Types m : machine D.

(** [m'] is [m0] with another memory, other 16-bit registers and other flags. *)
Record block_state (m0 m' : machine D) (mm : Memory.t) (words : GPR -> Z) (fl : Z) : Prop := {
  bs_wf : wf m';
  bs_mem : mem m' = mm;
  bs_words r : RegisterFile.is_byte r = false -> RegisterFile.get (registers m') r = words r;
  bs_flags : RegisterFile.flags (registers m') = fl;
  bs_rest : set_mem (mem m0) (set_registers (registers m0) m') = m0;
}.

Lemma get_AL rf : RegisterFile.wf rf -> RegisterFile.get rf AL = RegisterFile.get rf AX mod 256.
Proof. intros Hrf. by rewrite (RegisterFile.get_by_word rf AL). Qed.

Lemma block_state_other m0 m' mm words fl r :
  wf m0 -> block_state m0 m' mm words fl ->
  words (RegisterFile.parent r) = RegisterFile.get (registers m0) (RegisterFile.parent r) ->
  RegisterFile.get (registers m') r = RegisterFile.get (registers m0) r.
Proof.
  intros Hm0 Hb H. rewrite (RegisterFile.get_by_word (registers m')), (RegisterFile.get_by_word (registers m0))
    by (apply Hm0 || apply (bs_wf _ _ _ _ _ Hb)).
  by rewrite (bs_words _ _ _ _ _ Hb), H by apply RegisterFile.parent_word.
Qed.

(** One way to establish it: new memory, new register file. *)
Lemma block_state_set m0 m mm words fl mm' mm'' rf words' fl' :
  block_state m0 m mm words fl -> Memory.wf mm' -> RegisterFile.wf rf ->
  (forall r, RegisterFile.is_byte r = false -> RegisterFile.get rf r = words' r) ->
  RegisterFile.flags rf = fl' -> mm' = mm'' ->
  block_state m0 (set_registers rf (set_mem mm' m)) mm'' words' fl'.
Proof.
  intros [[] _ _ _ Hr] Hmm Hrf Hw Hf <-. split; [by split|done|done|done|]. exact Hr.
Qed.

(** The direction of the string instructions. *)
Definition dir m : Z := if RegisterFile.get_flag (registers m) DF then -1 else 1.

(** The [k]-th address from a segment and an index register. *)
Definition nth_addr m (seg index : GPR) (k : Z) : Z :=
  get_phys_addr (RegisterFile.get (registers m) seg)
    (u16 (RegisterFile.get (registers m) index + dir m * k)).

Lemma nth_addr_range m seg index k : 0 <= nth_addr m seg index k < Memory.MEMORY_SIZE.
Proof. apply get_phys_addr_range. Qed.

(** [k] turns of an operation on memory. *)
Fixpoint turns (f : Z -> Memory.t -> Memory.t) (k : nat) (mm : Memory.t) : Memory.t :=
  match k with O => mm | S k => f (Z.of_nat k) (turns f k mm) end.

Lemma turns_succ f k mm :
  0 <= k -> turns f (Z.to_nat (k + 1)) mm = f k (turns f (Z.to_nat k) mm).
Proof.
  intros Hk. rewrite Z.add_1_r, Z2Nat.inj_succ by done. cbn [turns]. by rewrite Z2Nat.id.
Qed.

(** The registers after [k] turns: CX counts down, the indices move. *)
Definition stepped m (indices : list GPR) (k : Z) (r : GPR) : Z :=
  if decide (r = CX) then RegisterFile.get (registers m) CX - k
  else if decide (r ∈ indices) then u16 (RegisterFile.get (registers m) r + dir m * k)
  else RegisterFile.get (registers m) r.

Lemma block_state_0 m indices :
  wf m -> (forall r, r ∈ indices -> RegisterFile.is_byte r = false) ->
  block_state m m (mem m) (stepped m indices 0) (RegisterFile.flags (registers m)).
Proof.
  intros Hm Hi. split; [done|done| |done|by destruct m].
  intros r Hr. unfold stepped. repeat case_decide; [subst; lia| |done].
  pose proof (RegisterFile.get_range (registers m) r (wf_registers m Hm)) as H'.
  unfold RegisterFile.gpr_type in H'. rewrite Hr in H'.
  rewrite Z.mul_0_r, Z.add_0_r. symmetry. by apply cast_id.
Qed.

Lemma dir_block m0 m' mm words :
  block_state m0 m' mm words (RegisterFile.flags (registers m0)) ->
  RegisterFile.get_flag (registers m') DF = RegisterFile.get_flag (registers m0) DF.
Proof. intros Hb. unfold RegisterFile.get_flag. by rewrite (bs_flags _ _ _ _ _ Hb). Qed.

Lemma CX_range m : wf m -> 0 <= RegisterFile.get (registers m) CX < 65536.
Proof. intros Hm. apply (RegisterFile.get_range _ CX), Hm. Qed.
End block.

(** ** STOSB *)

Section stos.
Context {CFG : Config} {D : Type} {IOP : IOPorts D}.
Implicit Types m : machine D.

Lemma stosb_turn m :
  wf m ->
  let rf := registers m in
  let rf' := RegisterFile.set rf AL (RegisterFile.get rf AL) in
  let rf' := RegisterFile.set rf' DI (RegisterFile.get rf' DI + dir m) in
  turn stosb m =
    Ok tt (set_registers (RegisterFile.set rf' CX (RegisterFile.get rf' CX - 1))
      (set_mem (put8 (mem m) (get_phys_addr (RegisterFile.get rf ES) (RegisterFile.get rf DI))
                     (RegisterFile.get rf AL)) m)).
Proof.
  intros Hm. unfold turn, stosb, dir. run.
  rewrite mem_write8_eq by apply get_phys_addr_range. run.
  assert (E : forall r v, RegisterFile.get_flag (RegisterFile.set (registers m) r v) DF =
                          RegisterFile.get_flag (registers m) DF).
  { intros. unfold RegisterFile.get_flag. by rewrite RegisterFile.flags_set. }
  rewrite E. by destruct (RegisterFile.get_flag (registers m) DF).
Qed.

Lemma get_set_AL_self rf r :
  RegisterFile.wf rf -> RegisterFile.is_byte r = false ->
  RegisterFile.get (RegisterFile.set rf AL (RegisterFile.get rf AL)) r = RegisterFile.get rf r.
Proof.
  intros Hrf Hr. rewrite RegisterFile.get_set by done. case_decide as Hd; [|done].
  rewrite (RegisterFile.get_view rf r), (RegisterFile.get_view rf AL) by done.
  destruct r; try discriminate. unfold RegisterFile.view, RegisterFile.set_word.
  cbn [RegisterFile.is_byte RegisterFile.is_high RegisterFile.parent]. zlia.
Qed.

(** The registers a turn leaves. *)
Lemma stepped_turn m rf indices k r :
  wf m -> RegisterFile.wf rf -> 0 <= k < RegisterFile.get (registers m) CX ->
  RegisterFile.is_byte r = false ->
  RegisterFile.get rf r =
    (if decide (r = CX) then u16 (stepped m indices k CX - 1)
     else if decide (r ∈ indices) then u16 (stepped m indices k r + dir m)
     else stepped m indices k r) ->
  RegisterFile.get rf r = stepped m indices (k + 1) r.
Proof.
  intros Hm Hrf Hk Hr ->. pose proof (CX_range m Hm). unfold stepped.
  rewrite (decide_True (P := CX = CX)) by done.
  repeat case_decide; try done; [cpp_lia|].
  rewrite Z.mul_add_distr_l, Z.mul_1_r, Z.add_assoc. cpp_lia.
Qed.

Definition stos_state m (k : Z) (m' : machine D) : Prop :=
  block_state m m'
    (turns (fun i mm => put8 mm (nth_addr m ES DI i) (RegisterFile.get (registers m) AL))
       (Z.to_nat k) (mem m))
    (stepped m [DI] k) (RegisterFile.flags (registers m)).

Lemma stos_step m k m1 :
  wf m -> 0 <= k < RegisterFile.get (registers m) CX -> stos_state m k m1 ->
  exists m2, turn stosb m1 = Ok tt m2 /\ stos_state m (k + 1) m2.
Proof.
  intros Hm Hk Hb. pose proof (bs_wf _ _ _ _ _ Hb) as Hm1. eexists. split; [by apply stosb_turn|].
  pose proof (wf_registers _ Hm1) as Hrf.
  assert (Hal : RegisterFile.get (registers m1) AL = RegisterFile.get (registers m) AL)
    by by apply (block_state_other _ _ _ _ _ _ Hm Hb).
  assert (Hes : RegisterFile.get (registers m1) ES = RegisterFile.get (registers m) ES)
    by by apply (bs_words _ _ _ _ _ Hb).
  assert (Hdi : RegisterFile.get (registers m1) DI = stepped m [DI] k DI)
    by by apply (bs_words _ _ _ _ _ Hb).
  eapply block_state_set; [exact Hb| | | | |].
  - apply wf_put8; [apply Hm1|apply get_phys_addr_range].
  - auto 10 using RegisterFile.wf_set.
  - intros r Hr. apply stepped_turn; [done|auto 10 using RegisterFile.wf_set|done..|].
    assert (Hdir : dir m1 = dir m) by (unfold dir; by rewrite (dir_block _ _ _ _ Hb)).
    rewrite Hdir. repeat first [rewrite get_set_AL_self by done
      |rewrite RegisterFile.get_set_word by auto using RegisterFile.wf_set].
    rewrite !(bs_words _ _ _ _ _ Hb) by done.
    clear -Hr. repeat case_decide; subst; done || (exfalso; set_solver).
  - rewrite !RegisterFile.flags_set. apply (bs_flags _ _ _ _ _ Hb).
  - rewrite turns_succ, (bs_mem _ _ _ _ _ Hb), Hal, Hes, Hdi by lia.
    unfold nth_addr, stepped. by rewrite decide_False, decide_True by (done || by left).
Qed.

(** What a finished block operation leaves besides memory. *)
Record block_done m m' (indices : list GPR) : Prop := {
  bd_wf : wf m';
  bd_CX : RegisterFile.get (registers m') CX = 0;
  bd_indices r : r ∈ indices ->
    RegisterFile.get (registers m') r =
      u16 (RegisterFile.get (registers m) r + dir m * RegisterFile.get (registers m) CX);
  bd_others r : RegisterFile.parent r <> CX -> RegisterFile.parent r ∉ indices ->
    RegisterFile.get (registers m') r = RegisterFile.get (registers m) r;
  bd_flags : RegisterFile.get_flags (registers m') = RegisterFile.get_flags (registers m);
  bd_rest : set_mem (mem m) (set_registers (registers m) m') = m;
}.

Lemma block_state_done m m' mm indices :
  wf m -> (forall r, r ∈ indices -> RegisterFile.is_byte r = false /\ r <> CX) ->
  block_state m m' mm (stepped m indices (RegisterFile.get (registers m) CX))
    (RegisterFile.flags (registers m)) ->
  block_done m m' indices.
Proof.
  intros Hm Hi Hb. split.
  - apply (bs_wf _ _ _ _ _ Hb).
  - rewrite (bs_words _ _ _ _ _ Hb) by done. unfold stepped. rewrite decide_True by done. lia.
  - intros r Hr. destruct (Hi r Hr). rewrite (bs_words _ _ _ _ _ Hb) by done.
    unfold stepped. by rewrite decide_False, decide_True.
  - intros r H1 H2. apply (block_state_other _ _ _ _ _ _ Hm Hb). unfold stepped.
    by rewrite !decide_False.
  - unfold RegisterFile.get_flags. by rewrite (bs_flags _ _ _ _ _ Hb).
  - apply (bs_rest _ _ _ _ _ Hb).
Qed.

Lemma byte_at_fill (dst : Z -> Z) v n mm :
  let mm' := turns (fun i mm => put8 mm (dst i) v) n mm in
  (forall i, 0 <= i < Z.of_nat n -> Memory.byte_at mm' (dst i) = u8 v) /\
  (forall a, (forall i, 0 <= i < Z.of_nat n -> dst i <> a) -> Memory.byte_at mm' a = Memory.byte_at mm a).
Proof.
  induction n as [|n [IH1 IH2]]; cbn [turns]; [split; [lia|done]|]. split.
  - intros i Hi. rewrite byte_at_put8. case_decide; [done|]. apply IH1.
    destruct (Z.eq_dec i (Z.of_nat n)); [congruence|lia].
  - intros a Ha. rewrite byte_at_put8, decide_False by (apply Ha; lia). apply IH2. intros i Hi. apply Ha. lia.
Qed.

(** REP STOSB fills: from any well-formed state it returns, having stored
    AL at the CX addresses ES:DI, ES:DI+1, ... (downwards when DF is set, the
    offset wrapping at 64 KiB), and changed no other byte; CX is 0, DI has
    moved past the block, and everything else is as it was. *)
Lemma rep_stosb_fills m :
  wf m -> has_rep_prefix m = true ->
  let n := RegisterFile.get (registers m) CX in
  exists m',
    execute_opcode 0xaa m = Ok tt m' /\
    (forall i, 0 <= i < n ->
       Memory.byte_at (mem m') (nth_addr m ES DI i) = RegisterFile.get (registers m) AL) /\
    (forall a, (forall i, 0 <= i < n -> nth_addr m ES DI i <> a) ->
       Memory.byte_at (mem m') a = Memory.byte_at (mem m) a) /\
    block_done m m' [DI].
Proof.
  intros Hm Hrep n. pose proof (CX_range m Hm) as Hn. fold n in Hn.
  destruct (do_rep_indexed stosb never (stos_state m) (fun _ => false) n n m) as (m' & E & Hb); try done.
  - by apply block_state_0; [|intros ? ->%list_elem_of_singleton].
  - intros k m1 _ Hb. rewrite (bs_words _ _ _ _ _ Hb) by done. unfold stepped. by rewrite decide_True.
  - intros k m1 Hk. by apply stos_step.
  - lia.
  - by left.
  - exists m'. split; [exact E|]. rewrite (bs_mem _ _ _ _ _ Hb).
    destruct (byte_at_fill (nth_addr m ES DI) (RegisterFile.get (registers m) AL) (Z.to_nat n) (mem m)) as [H1 H2].
    rewrite Z2Nat.id in H1, H2 by lia. split_and!; [| |].
    + intros i Hi. rewrite H1 by done. apply (cast_id uint8_t), (RegisterFile.get_range _ AL), Hm.
    + done.
    + eapply block_state_done; [done| |exact Hb]. by intros r ->%list_elem_of_singleton.
Qed.
End stos.

(** ** MOVSB *)

Section movs.
Context {CFG : Config} {D : Type} {IOP : IOPorts D}.
Implicit Types m : machine D.

(** The source segment of a string instruction: DS unless overridden. *)
Definition string_segment m : GPR :=
  if default_segment_overriden m then override_segment m else DS.

Lemma get_segment_undecoded m :
  mrm_is_decoded (modrm_decoder m) = false -> get_segment false m = Ok (string_segment m) m.
Proof.
  intros Hd. unfold get_segment, string_segment, ModRMDecoder.uses_bp_as_base. run.
  destruct (default_segment_overriden m); run; [done|]. by rewrite Hd.
Qed.

(** It runs with no operand decoded, and its source segment is one. *)
Record string_insn m : Prop := {
  si_undecoded : mrm_is_decoded (modrm_decoder m) = false;
  si_segment : string_segment m ∈ [ES; CS; SS; DS];
}.

Lemma block_state_rest m m' mm words fl :
  block_state m m' mm words fl ->
  modrm_decoder m' = modrm_decoder m /\ string_segment m' = string_segment m.
Proof.
  intros Hb. pose proof (bs_rest _ _ _ _ _ Hb) as H.
  split; [by rewrite <- H|]. unfold string_segment. by rewrite <- H.
Qed.

Lemma movsb_turn m :
  wf m -> mrm_is_decoded (modrm_decoder m) = false ->
  let rf := registers m in
  let rf' := RegisterFile.set rf DI (RegisterFile.get rf DI + dir m) in
  let rf' := RegisterFile.set rf' SI (RegisterFile.get rf' SI + dir m) in
  turn movsb m =
    Ok tt (set_registers (RegisterFile.set rf' CX (RegisterFile.get rf' CX - 1))
      (set_mem (put8 (mem m) (get_phys_addr (RegisterFile.get rf ES) (RegisterFile.get rf DI))
         (Memory.byte_at (mem m) (get_phys_addr (RegisterFile.get rf (string_segment m))
                                    (RegisterFile.get rf SI)))) m)).
Proof.
  intros Hm Hd. unfold turn, movsb, dir. rewrite !run_bind, get_segment_undecoded by done.
  run. rewrite mem_read8_eq by (done || apply get_phys_addr_range). run.
  rewrite mem_write8_eq by apply get_phys_addr_range. run.
  by destruct (RegisterFile.get_flag (registers m) DF); run.
Qed.

Definition movs_state m (k : Z) (m' : machine D) : Prop :=
  block_state m m'
    (turns (fun i mm => put8 mm (nth_addr m ES DI i)
                          (Memory.byte_at mm (nth_addr m (string_segment m) SI i)))
       (Z.to_nat k) (mem m))
    (stepped m [SI; DI] k) (RegisterFile.flags (registers m)).

Lemma segment_word r : r ∈ [ES; CS; SS; DS] ->
  RegisterFile.is_byte r = false /\ r <> CX /\ r ∉ [SI; DI].
Proof.
  intros Hr. assert (r = ES \/ r = CS \/ r = SS \/ r = DS) as Hcases by set_solver.
  destruct Hcases as [->|[->|[->| ->]]]; split_and!; done || set_solver.
Qed.

Lemma movs_step m k m1 :
  wf m -> string_insn m -> 0 <= k < RegisterFile.get (registers m) CX -> movs_state m k m1 ->
  exists m2, turn movsb m1 = Ok tt m2 /\ movs_state m (k + 1) m2.
Proof.
  intros Hm [Hd Hs] Hk Hb. pose proof (bs_wf _ _ _ _ _ Hb) as Hm1.
  destruct (block_state_rest _ _ _ _ _ Hb) as [Hdec Hseg].
  destruct (segment_word _ Hs) as (Hs1 & Hs2 & Hs3).
  eexists. split; [apply movsb_turn; [done|by rewrite Hdec]|].
  pose proof (wf_registers _ Hm1) as Hrf. rewrite Hseg.
  eapply block_state_set; [exact Hb| | | | |].
  - apply wf_put8; [apply Hm1|apply get_phys_addr_range].
  - auto 10 using RegisterFile.wf_set.
  - intros r Hr. apply stepped_turn; [done|auto 10 using RegisterFile.wf_set|done..|].
    assert (Hdir : dir m1 = dir m) by (unfold dir; by rewrite (dir_block _ _ _ _ Hb)).
    rewrite Hdir. rewrite !RegisterFile.get_set_word by auto 10 using RegisterFile.wf_set.
    rewrite !(bs_words _ _ _ _ _ Hb) by done.
    clear -Hr. repeat case_decide; subst; done || (exfalso; set_solver).
  - rewrite !RegisterFile.flags_set. apply (bs_flags _ _ _ _ _ Hb).
  - rewrite turns_succ, (bs_mem _ _ _ _ _ Hb) by lia.
    rewrite !(bs_words _ _ _ _ _ Hb) by done. unfold nth_addr, stepped.
    rewrite (decide_False (P := ES = CX)), (decide_False (P := DI = CX)), (decide_False (P := SI = CX)),
      (decide_False (P := string_segment m = CX)), (decide_False (P := string_segment m ∈ _)),
      (decide_False (P := ES ∈ _)), !decide_True by (done || set_solver). done.
Qed.

(** Different offsets of a segment are different addresses. *)
Lemma nth_addr_inj m seg index i j :
  0 <= i < 65536 -> 0 <= j < 65536 -> nth_addr m seg index i = nth_addr m seg index j -> i = j.
Proof.
  intros Hi Hj. unfold nth_addr, get_phys_addr.
  assert (Hd : dir m = 1 \/ dir m = -1) by (unfold dir; case_match; auto).
  generalize (RegisterFile.get (registers m) seg), (RegisterFile.get (registers m) index).
  intros s x. set (b := u32 (u32 (u16 s) .<< 4)).
  assert (Hb : 0 <= b <= 0xffff0).
  { unfold b. rewrite Z.shiftl_mul_pow2 by done. change (2 ^ 4) with 16. cpp_lia. }
  clearbody b. change (1 * 1024 * 1024) with 1048576. rewrite !u32_mod, !u16_mod.
  destruct Hd as [-> | ->]; intros; zlia.
Qed.

(** Copying in order moves a block when no write hits a byte still to be read. *)
Lemma byte_at_copy (dst src : Z -> Z) N mm :
  (forall i j, 0 <= i < Z.of_nat N -> 0 <= j < Z.of_nat N -> dst i = dst j -> i = j) ->
  (forall i j, 0 <= i < j -> j < Z.of_nat N -> dst i <> src j) ->
  forall n, (n <= N)%nat ->
  let mm' := turns (fun i mm => put8 mm (dst i) (Memory.byte_at mm (src i))) n mm in
  (forall i, 0 <= i < Z.of_nat n -> Memory.byte_at mm' (dst i) = u8 (Memory.byte_at mm (src i))) /\
  (forall a, (forall i, 0 <= i < Z.of_nat n -> dst i <> a) -> Memory.byte_at mm' a = Memory.byte_at mm a).
Proof.
  intros Hinj Hsafe. induction n as [|n IH]; cbn [turns]; intros Hn; [split; [lia|done]|].
  destruct (IH ltac:(lia)) as [IH1 IH2]. split.
  - intros i Hi. rewrite byte_at_put8. case_decide as Hd.
    + apply Hinj in Hd as <-; [|lia..]. f_equal. apply IH2. intros j Hj. apply Hsafe; lia.
    + apply IH1. destruct (Z.eq_dec i (Z.of_nat n)) as [->|]; [done|lia].
  - intros a Ha. rewrite byte_at_put8, decide_False by (apply Ha; lia). apply IH2. intros i Hi. apply Ha. lia.
Qed.

(** REP MOVSB copies CX bytes from SI in DS (or the overriding segment) to
    ES:DI, one at a time in the direction of DF. Whenever no destination is a
    source still to be read (so for disjoint blocks, and for overlapping ones
    in the right direction) the destination ends as a copy of the original
    source, and no other byte changes. CX is 0, SI and DI have moved past the
    blocks, everything else is as it was; the instruction always returns. *)
Lemma rep_movsb_copies m :
  wf m -> string_insn m -> has_rep_prefix m = true ->
  let n := RegisterFile.get (registers m) CX in
  let dst := nth_addr m ES DI in
  let src := nth_addr m (string_segment m) SI in
  exists m',
    execute_opcode 0xa4 m = Ok tt m' /\
    mem m' = turns (fun i mm => put8 mm (dst i) (Memory.byte_at mm (src i))) (Z.to_nat n) (mem m) /\
    ((forall i j, 0 <= i < j -> j < n -> dst i <> src j) ->
     (forall i, 0 <= i < n -> Memory.byte_at (mem m') (dst i) = Memory.byte_at (mem m) (src i)) /\
     (forall a, (forall i, 0 <= i < n -> dst i <> a) ->
        Memory.byte_at (mem m') a = Memory.byte_at (mem m) a)) /\
    block_done m m' [SI; DI].
Proof.
  intros Hm Hi Hrep n dst src. pose proof (CX_range m Hm) as Hn. fold n in Hn.
  destruct (do_rep_indexed movsb never (movs_state m) (fun _ => false) n n m) as (m' & E & Hb); try done.
  - apply block_state_0; [done|]. by intros ? [->| ->%list_elem_of_singleton]%elem_of_cons.
  - intros k m1 _ Hb. rewrite (bs_words _ _ _ _ _ Hb) by done. unfold stepped. by rewrite decide_True.
  - intros k m1 Hk. by apply movs_step.
  - lia.
  - by left.
  - exists m'. split; [exact E|]. split; [apply (bs_mem _ _ _ _ _ Hb)|].
    rewrite (bs_mem _ _ _ _ _ Hb). split.
    + intros Hsafe. destruct (byte_at_copy dst src (Z.to_nat n) (mem m)) with (n := Z.to_nat n) as [H1 H2].
      * intros i j Hi' Hj'. apply nth_addr_inj; lia.
      * intros i j ??. apply Hsafe; lia.
      * done.
      * rewrite Z2Nat.id in H1, H2 by lia. split; [|done]. intros i Hi'.
        etransitivity; [exact (H1 i Hi')|]. rewrite u8_mod. apply Z.mod_small, Memory.byte_at_range, Hm.
    + eapply block_state_done; [done| |exact Hb].
      by intros r [->| ->%list_elem_of_singleton]%elem_of_cons.
Qed.

(** C14. REP STOSB fills and REP MOVSB copies. From any well-formed state REP
    STOSB returns, having stored AL at the CX addresses ES:DI, ES:DI+1, ...
    (downwards when DF is set, the offset wrapping at 64 KiB), and changed no
    other byte. REP MOVSB copies CX bytes from SI in DS (or the overriding
    segment) to ES:DI, one at a time in the direction of DF: whenever no
    destination is a source still to be read (so for disjoint blocks, and for
    overlapping ones in the right direction) the destination ends as a copy of the
    original source, and no other byte changes. Both leave CX zero, DI (and
    SI) past the block, and everything else as it was. *)
Theorem rep_fills_and_copies m :
  wf m -> has_rep_prefix m = true ->
  let n := RegisterFile.get (registers m) CX in
  let dst := nth_addr m ES DI in
  let src := nth_addr m (string_segment m) SI in
  (exists m',
    execute_opcode 0xaa m = Ok tt m' /\
    (forall i, 0 <= i < n -> Memory.byte_at (mem m') (dst i) = RegisterFile.get (registers m) AL) /\
    (forall a, (forall i, 0 <= i < n -> dst i <> a) -> Memory.byte_at (mem m') a = Memory.byte_at (mem m) a) /\
    block_done m m' [DI]) /\
  (string_insn m -> exists m',
    execute_opcode 0xa4 m = Ok tt m' /\
    mem m' = turns (fun i mm => put8 mm (dst i) (Memory.byte_at mm (src i))) (Z.to_nat n) (mem m) /\
    ((forall i j, 0 <= i < j -> j < n -> dst i <> src j) ->
     (forall i, 0 <= i < n -> Memory.byte_at (mem m') (dst i) = Memory.byte_at (mem m) (src i)) /\
     (forall a, (forall i, 0 <= i < n -> dst i <> a) ->
        Memory.byte_at (mem m') a = Memory.byte_at (mem m) a)) /\
    block_done m m' [SI; DI]).
Proof. intros Hm Hrep n dst src. split; [by apply rep_stosb_fills|intros Hi; by apply rep_movsb_copies]. Qed.
End movs.

(** ** SCASB *)

Section scas.
Context {CFG : Config} {D : Type} {IOP : IOPorts D}.
Implicit Types m : machine D.

(** The [i]-th byte searched. *)
Definition scanned m (i : Z) : Z := Memory.byte_at (mem m) (nth_addr m ES DI i).

(** The flags of comparing AL with the [i]-th byte. *)
Definition compared m (i : Z) : Z :=
  RegisterFile.flags (RegisterFile.set_flags (registers m)
    (status_word (snd (sem_sub 8 (RegisterFile.get (registers m) AL) (scanned m i) 0)))
    (flag_mask CMP)).

(** REPE stops after the first difference, REPNE after the first match. *)
Definition hit m (i : Z) : bool :=
  let equal := scanned m i =? RegisterFile.get (registers m) AL in
  match rep_mode m with REPNE => equal | REPE => negb equal end.

Lemma set_flags_again rf rf1 v mask :
  RegisterFile.wf rf -> RegisterFile.wf rf1 ->
  (forall i, 0 <= i -> Z.testbit RegisterFile.valid_mask i && Z.testbit mask i = false ->
     Z.testbit (RegisterFile.flags rf1) i = Z.testbit (RegisterFile.flags rf) i) ->
  RegisterFile.flags (RegisterFile.set_flags rf1 v mask) =
  RegisterFile.flags (RegisterFile.set_flags rf v mask).
Proof.
  intros Hrf Hrf1 H. apply Z.bits_inj'. intros i Hi.
  rewrite !RegisterFile.set_flags_testbit by done.
  destruct (_ && _) eqn:E; [done|]. by apply H.
Qed.

Definition scas_flags m (k : Z) : Z :=
  if k =? 0 then RegisterFile.flags (registers m) else compared m (k - 1).

(** The flags between turns differ from the first ones in the status bits only. *)
Lemma scas_flags_outside m k i :
  wf m -> 0 <= i -> Z.testbit RegisterFile.valid_mask i && Z.testbit (flag_mask CMP) i = false ->
  Z.testbit (scas_flags m k) i = Z.testbit (RegisterFile.flags (registers m)) i.
Proof.
  intros Hm Hi H. unfold scas_flags, compared. destruct (k =? 0); [done|].
  rewrite RegisterFile.set_flags_testbit by (done || apply Hm). by rewrite H.
Qed.

Lemma scas_flags_ZF m k :
  wf m -> 0 < k ->
  Z.testbit (scas_flags m k) 6 = (scanned m (k - 1) =? RegisterFile.get (registers m) AL).
Proof.
  intros Hm Hk. unfold scas_flags, compared. destruct (Z.eqb_spec k 0); [lia|].
  rewrite RegisterFile.set_flags_testbit by (done || apply Hm).
  change (Z.testbit RegisterFile.valid_mask 6 && Z.testbit (flag_mask CMP) 6) with true.
  cbv iota. unfold status_word. rewrite status_flags_testbit by done. cbn [st_zf snd sem_sub].
  cbn [Z.eqb Pos.eqb]. rewrite !andb_false_r, !orb_false_r, !orb_false_l, andb_true_r.
  assert (Ha : in_range uint8_t (RegisterFile.get (registers m) AL))
    by apply (RegisterFile.get_range _ AL), Hm.
  pose proof (Memory.byte_at_range (mem m) (nth_addr m ES DI (k - 1)) (wf_mem m Hm)) as Hb.
  fold (scanned m (k - 1)) in Hb. change (2 ^ 8) with 256. cpp_unfold. zdecide.
Qed.

(** The state after the comparison of one turn. *)
Definition after_scas m : RegisterFile.t :=
  RegisterFile.set_flags (registers m)
    (status_word (snd (sem_sub 8 (RegisterFile.get (registers m) AL)
       (Memory.byte_at (mem m)
          (get_phys_addr (RegisterFile.get (registers m) ES) (RegisterFile.get (registers m) DI))) 0)))
    (flag_mask CMP).

Lemma DF_set_flags rf v :
  RegisterFile.wf rf ->
  RegisterFile.get_flag (RegisterFile.set_flags rf v (flag_mask CMP)) DF = RegisterFile.get_flag rf DF.
Proof.
  intros Hrf. change DF with (1 .<< 10). rewrite !RegisterFile.get_flag_testbit by done.
  by rewrite RegisterFile.set_flags_testbit.
Qed.

Lemma scasb_turn m :
  wf m ->
  let rf := after_scas m in
  let rf' := RegisterFile.set rf DI (RegisterFile.get rf DI + dir m) in
  turn scasb m =
    Ok tt (set_registers (RegisterFile.set rf' CX (RegisterFile.get rf' CX - 1)) m).
Proof.
  intros Hm. unfold turn, scasb, dir. run.
  rewrite mem_read8_eq by (done || apply get_phys_addr_range).
  set (b := Memory.byte_at _ _). rewrite run_bind, run_registers_get. cbv beta iota. rewrite run_bind.
  assert (Hb : in_range uint8_t b) by (apply in_u8, Memory.byte_at_range, Hm).
  assert (Ha : in_range uint8_t (RegisterFile.get (registers m) AL))
    by apply (RegisterFile.get_range _ AL), Hm.
  rewrite (do_sub_eq uint8_t _ b 0 m (or_introl eq_refl) Ha Hb ltac:(lia)).
  run. change (OF .| SF .| ZF .| CF .| PF .| AF) with (flag_mask CMP).
  unfold sub_flags. change (width uint8_t) with 8.
  set (s := snd (sem_sub 8 (RegisterFile.get (registers m) AL) b 0)).
  assert (E : forall old, RegisterFile.set_flags (registers m)
      (status_flags old (st_af s) (st_cf s) (st_sf s) (st_zf s) (st_pf s) (st_of s)) (flag_mask CMP) =
    after_scas m).
  { intros old. apply set_status_flags; [apply Hm| |done]. intros i Hi. by enum_below i 16%nat. }
  pose proof (E (RegisterFile.get_flags (registers m))) as E'. unfold s, sem_sub in E'.
  cbn [snd st_af st_cf st_sf st_zf st_pf st_of] in E'. rewrite E'.
  unfold after_scas at 1. rewrite DF_set_flags by apply Hm.
  by destruct (RegisterFile.get_flag (registers m) DF); run.
Qed.

Definition scas_state m (k : Z) (m' : machine D) : Prop :=
  block_state m m' (mem m) (stepped m [DI] k) (scas_flags m k).

Lemma scas_dir m k m1 : wf m -> scas_state m k m1 -> dir m1 = dir m.
Proof.
  intros Hm Hb. unfold dir. change DF with (1 .<< 10).
  rewrite !RegisterFile.get_flag_testbit, (bs_flags _ _ _ _ _ Hb) by done.
  by rewrite scas_flags_outside.
Qed.

Lemma scas_step m k m1 :
  wf m -> 0 <= k < RegisterFile.get (registers m) CX -> scas_state m k m1 ->
  exists m2, turn scasb m1 = Ok tt m2 /\ scas_state m (k + 1) m2.
Proof.
  intros Hm Hk Hb. pose proof (bs_wf _ _ _ _ _ Hb) as Hm1.
  pose proof (wf_registers _ Hm1) as Hrf.
  eexists. split; [by apply scasb_turn|]. rewrite (scas_dir m k m1) by done.
  assert (Hal : RegisterFile.get (registers m1) AL = RegisterFile.get (registers m) AL)
    by by apply (block_state_other _ _ _ _ _ _ Hm Hb).
  assert (Hbyte : Memory.byte_at (mem m1) (get_phys_addr (RegisterFile.get (registers m1) ES)
                    (RegisterFile.get (registers m1) DI)) = scanned m k).
  { rewrite (bs_mem _ _ _ _ _ Hb), !(bs_words _ _ _ _ _ Hb) by done. unfold scanned, nth_addr, stepped.
    rewrite (decide_False (P := ES = CX)), (decide_False (P := DI = CX)), (decide_False (P := ES ∈ _)),
      decide_True by (done || set_solver). done. }
  assert (Ha : RegisterFile.wf (after_scas m1)) by by apply RegisterFile.wf_set_flags.
  replace m1 with (set_mem (mem m1) m1) at 2 by by destruct m1.
  eapply block_state_set; [exact Hb|apply Hm1| | | |apply (bs_mem _ _ _ _ _ Hb)].
  - auto 10 using RegisterFile.wf_set.
  - intros r Hr. apply stepped_turn; [done|auto 10 using RegisterFile.wf_set|done..|].
    rewrite !RegisterFile.get_set_word by auto 10 using RegisterFile.wf_set.
    unfold after_scas. rewrite !RegisterFile.get_set_flags, !(bs_words _ _ _ _ _ Hb) by done.
    clear -Hr. repeat case_decide; subst; done || (exfalso; set_solver).
  - rewrite !RegisterFile.flags_set. unfold scas_flags at 1.
    destruct (Z.eqb_spec (k + 1) 0); [lia|]. rewrite Z.add_simpl_r. unfold compared, after_scas.
    rewrite Hal, Hbyte. apply set_flags_again; [apply Hm|done|]. intros i Hi Hout.
    rewrite (bs_flags _ _ _ _ _ Hb). by apply scas_flags_outside.
Qed.

Lemma scas_stop m k m1 :
  wf m -> 0 < k -> scas_state m k m1 -> string_rep_complete m1 = Ok (hit m (k - 1)) m1.
Proof.
  intros Hm Hk Hb. unfold string_rep_complete. run.
  assert (Hmode : rep_mode m1 = rep_mode m) by by rewrite <- (bs_rest _ _ _ _ _ Hb).
  assert (Hzf : RegisterFile.get_flag (registers m1) ZF =
                (scanned m (k - 1) =? RegisterFile.get (registers m) AL)).
  { change ZF with (1 .<< 6). rewrite RegisterFile.get_flag_testbit, (bs_flags _ _ _ _ _ Hb) by done.
    by apply scas_flags_ZF. }
  rewrite Hmode, Hzf. unfold hit. destruct (rep_mode m), (_ =? _); done.
Qed.

(** The first index below [n] where a test holds, if any. *)
Lemma first_below (P : Z -> bool) n :
  0 <= n -> exists j, 0 <= j <= n /\ (forall i, 0 <= i < j - 1 -> P i = false) /\
    ((j = n /\ (0 < j -> P (j - 1) = false)) \/ (0 < j /\ P (j - 1) = true)).
Proof.
  revert n. apply natlike_ind.
  - exists 0. split_and!; [lia..|]. left. split; [done|lia].
  - intros n Hn (j & Hj & Hno & Hend). destruct Hend as [[-> Hl]|[Hj' Hl]].
    + exists (Z.succ n). split_and!; [lia..| |].
      * intros i Hi. destruct (Z.eq_dec i (n - 1)) as [->|]; [apply Hl; lia|apply Hno; lia].
      * replace (Z.succ n - 1) with n by lia. destruct (P n) eqn:E; [right; lia|left; by split].
    + exists j. split_and!; [lia..|done|]. by right.
Qed.

(** C15. REPE and REPNE SCASB search the CX bytes from ES:DI for the first one
    that differs from (REPE) or equals (REPNE) AL, and always return. They stop
    after the [j]-th byte, the first hit if there is one and the last byte
    otherwise: CX is less by [j], DI has moved by [j], the flags are those of
    comparing AL with the last byte looked at (and are untouched when CX was
    0), memory and everything else are as they were. *)
Theorem rep_scasb_searches m :
  wf m -> has_rep_prefix m = true ->
  let n := RegisterFile.get (registers m) CX in
  exists j m',
    execute_opcode 0xae m = Ok tt m' /\ 0 <= j <= n /\
    (forall i, 0 <= i < j - 1 -> hit m i = false) /\
    (j = n \/ (0 < j /\ hit m (j - 1) = true)) /\
    wf m' /\ mem m' = mem m /\
    RegisterFile.get (registers m') CX = n - j /\
    RegisterFile.get (registers m') DI = u16 (RegisterFile.get (registers m) DI + dir m * j) /\
    (forall r, RegisterFile.parent r ∉ [CX; DI] ->
       RegisterFile.get (registers m') r = RegisterFile.get (registers m) r) /\
    RegisterFile.flags (registers m') =
      (if j =? 0 then RegisterFile.flags (registers m) else compared m (j - 1)) /\
    set_mem (mem m) (set_registers (registers m) m') = m.
Proof.
  intros Hm Hrep n. pose proof (CX_range m Hm) as Hn. fold n in Hn.
  destruct (first_below (hit m) n ltac:(lia)) as (j & Hj & Hno & Hend).
  destruct (do_rep_indexed scasb string_rep_complete (scas_state m) (fun k => hit m (k - 1)) n j m)
    as (m' & E & Hb); try done.
  - by apply block_state_0; [|intros ? ->%list_elem_of_singleton].
  - intros k m1 _ Hb. rewrite (bs_words _ _ _ _ _ Hb) by done. unfold stepped. by rewrite decide_True.
  - intros k m1 Hk. by apply scas_step.
  - intros k m1 Hk. apply scas_stop; [done|lia].
  - intros k Hk. apply Hno. lia.
  - destruct Hend as [[-> _]|?]; [by left|by right].
  - exists j, m'. split; [exact E|]. pose proof (bs_words _ _ _ _ _ Hb) as Hw.
    split_and!; [lia..|done| |apply (bs_wf _ _ _ _ _ Hb)|apply (bs_mem _ _ _ _ _ Hb)| | | | |].
    + destruct Hend as [[-> _]|?]; [by left|by right].
    + rewrite Hw by done. unfold stepped. by rewrite decide_True.
    + rewrite Hw by done. unfold stepped. by rewrite decide_False, decide_True by (done || by left).
    + intros r Hr. apply (block_state_other _ _ _ _ _ _ Hm Hb). unfold stepped.
      rewrite !decide_False; [done|set_solver..].
    + apply (bs_flags _ _ _ _ _ Hb).
    + apply (bs_rest _ _ _ _ _ Hb).
Qed.
End scas.

(** ** Witnesses *)

(** REP STOSB of three bytes, backwards, wrapping round the segment. *)
Definition stos_bench : machine unit :=
  set_has_rep_prefix true (bench [] 0 [] [(CX, 3); (DI, 1); (ES, 0x3000); (AX, 0x5a)] DF).

Lemma wf_set_has_rep_prefix b (m : machine unit) : wf m -> wf (set_has_rep_prefix b m).
Proof. by intros []. Qed.

(** REP MOVSB of two bytes with an ES override. *)
Definition movs_bench : machine unit :=
  set_default_segment_overriden true (set_override_segment ES (set_has_rep_prefix true
    (bench [] 0x30010 [7; 8] [(CX, 2); (DI, 0x20); (SI, 0x10); (ES, 0x3000)] 0))).

Lemma rep_fills_and_copies_witness :
  nth_addr stos_bench ES DI 2 = 0x3ffff /\
  (exists m', execute_opcode 0xaa stos_bench = Ok tt m' /\ block_done stos_bench m' [DI]) /\
  (exists m', execute_opcode 0xa4 movs_bench = Ok tt m' /\ block_done movs_bench m' [SI; DI]).
Proof.
  split; [by vm_compute|]. split.
  - destruct (rep_fills_and_copies stos_bench) as [(m' & H1 & _ & _ & H2) _].
    + apply wf_set_has_rep_prefix. wf_bench.
    + reflexivity.
    + exists m'. by split.
  - destruct (rep_fills_and_copies movs_bench) as [_ H].
    + assert (wf (bench [] 0x30010 [7; 8] [(CX, 2); (DI, 0x20); (SI, 0x10); (ES, 0x3000)] 0)) as [] by wf_bench.
      by split.
    + reflexivity.
    + destruct H as (m' & H1 & _ & _ & H2); [split; [reflexivity|by left]|]. exists m'. by split.
Defined.

(** REPNE SCASB, the length of a string. *)
Definition scas_bench : machine unit :=
  set_rep_mode REPNE (set_has_rep_prefix true
    (bench [] 0x30000 [0x61; 0x62; 0] [(CX, 0xffff); (DI, 0); (ES, 0x3000); (AX, 0)] 0)).

Lemma rep_scasb_searches_witness :
  hit scas_bench 2 = true /\
  exists j m', execute_opcode 0xae scas_bench = Ok tt m' /\
    RegisterFile.get (registers m') CX = 0xffff - j.
Proof.
  split; [by vm_compute|].
  destruct (rep_scasb_searches scas_bench) as (j & m' & H1 & _ & _ & _ & _ & _ & H2 & _).
  - assert (wf (bench [] 0x30000 [0x61; 0x62; 0] [(CX, 0xffff); (DI, 0); (ES, 0x3000); (AX, 0)] 0)) as [] by wf_bench.
    by split.
  - reflexivity.
  - exists j, m'. by split.
Defined.
