(* ===== verification/StackProps.v ===== *)
(** * The stack as a list of words

    [push_word] and [pop_word] refine a list; calls and returns, PUSHA and
    POPA, ENTER and LEAVE are pairs that restore it. *)
From S2P Require Import Prelude Config MainMemory Registers ErrorState IOPorts Machine ModRM Core.
From S2P Require Import Safety Decoder CoreSafe Stack DecoderProps Bench InsnData InsnControl Emulate.

#[local] Set Warnings "-clear-no-such-hyp".

Section stack_list.
Context {CFG : Config} {D : Type} {IOP : IOPorts D}.
Implicit Types m : machine D.

(** The words from SS:SP upwards are [l]; at most the 64 KiB of the segment. *)
Record stack_is m (l : list Z) : Prop := {
  st_length : Z.of_nat (length l) <= 0x7fff;
  st_words i v : l !! i = Some v ->
    word_fits (stack_addr (registers m) (2 * Z.of_nat i)) /\
    word_at (mem m) (stack_addr (registers m) (2 * Z.of_nat i)) = v;
}.

(** The next [n] words below SS:SP do not run past the end of RAM. *)
Definition room (n : nat) m : Prop :=
  forall k, (k < n)%nat -> word_fits (stack_addr (registers m) (-2 * (Z.of_nat k + 1))).

Lemma room_1 n m : room (S n) m -> word_fits (stack_addr (registers m) (-2)).
Proof. intros H. by apply (H 0%nat); lia. Qed.

Lemma room_pushed n v m : wf m -> room (S n) m -> room n (pushed v m).
Proof.
  intros Hm H k Hk. rewrite stack_addr_pushed by done.
  replace (-2 * (Z.of_nat k + 1) - 2) with (-2 * (Z.of_nat (S k) + 1)) by lia. apply H. lia.
Qed.

Lemma room_le n n' m : (n' <= n)%nat -> room n m -> room n' m.
Proof. intros Hn H k Hk. apply H. lia. Qed.

Lemma stack_is_nil m : stack_is m [].
Proof. split; [done|]. intros i v. by rewrite lookup_nil. Qed.

(** It only looks at SS, SP and memory. *)
Lemma stack_is_ext m m' l :
  stack_is m l -> mem m' = mem m ->
  RegisterFile.get (registers m') SS = RegisterFile.get (registers m) SS ->
  RegisterFile.get (registers m') SP = RegisterFile.get (registers m) SP ->
  stack_is m' l.
Proof.
  intros [Hl Hw] Hmem Hss Hsp. split; [done|]. intros i v Hv. specialize (Hw i v Hv).
  unfold stack_addr in *. by rewrite Hmem, Hss, Hsp.
Qed.

Lemma stack_is_pushed v m l :
  wf m -> stack_is m l -> Z.of_nat (length l) < 0x7fff ->
  word_fits (stack_addr (registers m) (-2)) -> stack_is (pushed v m) (u16 v :: l).
Proof.
  intros Hm [_ Hw] Hl Hr. split; [cbn [length]; lia|]. intros i x Hx.
  rewrite stack_addr_pushed by done. destruct i as [|i].
  - injection Hx as <-. split; [done|]. apply word_at_put16_eq; [apply Hm|apply stack_addr_range|done].
  - apply lookup_lt_Some in Hx as Hi. cbn [length] in Hi. cbn [lookup list_lookup] in Hx.
    destruct (Hw i x Hx) as [Hf Hv].
    replace (2 * Z.of_nat (S i) - 2) with (2 * Z.of_nat i) by lia. split; [done|].
    unfold pushed. msimpl. rewrite word_at_put16_ne; [done|].
    apply stack_words_disjoint; [apply Hm|lia|done|done].
Qed.

Lemma stack_is_top m v l :
  stack_is m (v :: l) ->
  word_fits (stack_addr (registers m) 0) /\ word_at (mem m) (stack_addr (registers m) 0) = v.
Proof. intros [_ Hw]. by apply (Hw 0%nat). Qed.

Lemma stack_is_popped m v l : wf m -> stack_is m (v :: l) -> stack_is (popped m) l.
Proof.
  intros Hm [Hl Hw]. split; [cbn [length] in Hl; lia|]. intros i x Hx.
  rewrite stack_addr_popped by done.
  replace (2 * Z.of_nat i + 2) with (2 * Z.of_nat (S i)) by lia. by apply (Hw (S i)).
Qed.

Lemma pop_word_stack m v l :
  wf m -> stack_is m (v :: l) -> pop_word m = Ok v (popped m).
Proof. intros Hm Hs. destruct (stack_is_top _ _ _ Hs) as [Hf <-]. by apply pop_word_eq. Qed.

(** C16. The stack is a list of words: pushing conses the word (modulo 2^16)
    and popping takes the head off, whatever the contents, wherever SP wraps;
    nothing else of the machine changes but SP, and the one word of memory
    that was pushed. *)
Theorem stack_refines_list m l :
  wf m -> stack_is m l ->
  (forall v, Z.of_nat (length l) < 0x7fff -> room 1 m ->
   exists m', push_word v m = Ok tt m' /\ wf m' /\ stack_is m' (u16 v :: l) /\
     set_mem (mem m) (set_registers (registers m) m') = m /\
     (forall r, RegisterFile.overlap SP r = false ->
        RegisterFile.get (registers m') r = RegisterFile.get (registers m) r) /\
     RegisterFile.get_flags (registers m') = RegisterFile.get_flags (registers m) /\
     (forall b, b < stack_addr (registers m) (-2) \/ stack_addr (registers m) (-2) + 2 <= b ->
        Memory.byte_at (mem m') b = Memory.byte_at (mem m) b)) /\
  (forall v l', l = v :: l' ->
   exists m', pop_word m = Ok v m' /\ wf m' /\ stack_is m' l' /\
     set_registers (registers m) m' = m /\
     (forall r, RegisterFile.overlap SP r = false ->
        RegisterFile.get (registers m') r = RegisterFile.get (registers m) r) /\
     RegisterFile.get_flags (registers m') = RegisterFile.get_flags (registers m)).
Proof.
  intros Hm Hs. split.
  - intros v Hl Hr%room_1. exists (pushed v m). split; [by apply push_word_eq|].
    split_and!; [by apply wf_pushed|by apply stack_is_pushed|by destruct m| |apply flags_pushed|].
    + intros r. by apply get_pushed.
    + intros b. apply byte_at_put16_ne.
  - intros v l' ->. exists (popped m). split; [by eapply pop_word_stack|].
    split_and!; [by apply wf_popped|by eapply stack_is_popped|by destruct m| |].
    + intros r. apply RegisterFile.get_set_ne, Hm.
    + apply RegisterFile.get_flags_set.
Qed.

(** ** Several words at once *)

Definition pushed_list (vs : list Z) m : machine D := foldl (fun m v => pushed v m) m vs.

Lemma pushed_list_props vs m :
  wf m -> room (length vs) m ->
  wf (pushed_list vs m) /\
  (forall r, RegisterFile.overlap SP r = false ->
     RegisterFile.get (registers (pushed_list vs m)) r = RegisterFile.get (registers m) r) /\
  RegisterFile.get (registers (pushed_list vs m)) SP =
    u16 (RegisterFile.get (registers m) SP - 2 * Z.of_nat (length vs)) /\
  RegisterFile.get_flags (registers (pushed_list vs m)) = RegisterFile.get_flags (registers m) /\
  set_mem (mem m) (set_registers (registers m) (pushed_list vs m)) = m /\
  (forall l, stack_is m l -> Z.of_nat (length vs + length l) <= 0x7fff ->
     stack_is (pushed_list vs m) (rev_append (u16 <$> vs) l)).
Proof.
  revert m. induction vs as [|v vs IH]; intros m Hm Hr; cbn [pushed_list foldl length fmap list_fmap rev_append].
  - split_and!; try done; [|by destruct m]. rewrite Z.mul_0_r, Z.sub_0_r.
    symmetry. apply cast_id, get_SP_range, Hm.
  - pose proof (room_1 _ _ Hr) as Hf.
    destruct (IH (pushed v m)) as (H1 & H2 & H3 & H4 & H5 & H6); [by apply wf_pushed|by apply room_pushed|].
    fold (pushed_list vs (pushed v m)). split_and!; [done| | | | |].
    + intros r Ho. rewrite H2 by done. by apply get_pushed.
    + rewrite H3, SP_pushed by done. cpp_lia.
    + by rewrite H4, flags_pushed.
    + transitivity (set_mem (mem m) (set_registers (registers m)
        (set_mem (mem (pushed v m)) (set_registers (registers (pushed v m)) (pushed_list vs (pushed v m)))))).
      { done. }
      rewrite H5. by destruct m.
    + intros l Hs Hl. apply H6; [apply stack_is_pushed; done || lia|cbn [length] in *; lia].
Qed.

(** A push between other statements. *)
Lemma run_push {X} v (k : emu D X) m :
  wf m -> room 1 m -> (push_word v ;; k) m = k (pushed v m).
Proof. intros Hm Hr%room_1. by rewrite run_bind, push_word_eq. Qed.

Lemma run_push_reg {X} r (k : emu D X) m :
  wf m -> room 1 m ->
  ((registers_get r ≫= push_word) ;; k) m = k (pushed (RegisterFile.get (registers m) r) m).
Proof. intros Hm Hr%room_1. by rewrite run_bind, run_bind, run_registers_get, push_word_eq. Qed.

(** ** Popping into a register *)

Definition popped_into (r : GPR) (v : Z) m : machine D :=
  set_registers (RegisterFile.set (registers (popped m)) r v) m.

Lemma wf_popped_into r v m : wf m -> wf (popped_into r v m).
Proof. intros Hm. apply wf_set_registers; [done|]. by apply RegisterFile.wf_set, RegisterFile.wf_set, Hm. Qed.

Lemma get_popped_into r v m r' :
  wf m -> RegisterFile.is_byte r = false -> RegisterFile.is_byte r' = false ->
  RegisterFile.get (registers (popped_into r v m)) r' =
    if decide (r = r') then u16 v
    else if decide (SP = r') then u16 (RegisterFile.get (registers m) SP + 2)
    else RegisterFile.get (registers m) r'.
Proof.
  intros Hm Hr Hr'. unfold popped_into, popped. msimpl.
  by rewrite !RegisterFile.get_set_word by (done || apply RegisterFile.wf_set, Hm || apply Hm).
Qed.

Lemma set_registers_popped_into rf r v m :
  set_registers rf (popped_into r v m) = set_registers rf m.
Proof. done. Qed.

Lemma set_registers_popped rf m : set_registers rf (popped m) = set_registers rf m.
Proof. done. Qed.

Lemma mem_popped_into r v m : mem (popped_into r v m) = mem m.
Proof. done. Qed.

Lemma flags_popped_into r v m :
  RegisterFile.get_flags (registers (popped_into r v m)) = RegisterFile.get_flags (registers m).
Proof. unfold popped_into, popped. msimpl. by rewrite !RegisterFile.get_flags_set. Qed.

Lemma flags_popped m : RegisterFile.get_flags (registers (popped m)) = RegisterFile.get_flags (registers m).
Proof. apply RegisterFile.get_flags_set. Qed.

Lemma stack_is_popped_into r m v l :
  wf m -> RegisterFile.is_byte r = false -> r <> SP -> r <> SS ->
  stack_is m (v :: l) -> stack_is (popped_into r v m) l.
Proof.
  intros Hm Hr H1 H2 Hs. eapply stack_is_ext; [by eapply stack_is_popped|done|..].
  - rewrite get_popped_into, decide_False by done. unfold popped. msimpl.
    by rewrite RegisterFile.get_set_word by (done || apply Hm).
  - rewrite get_popped_into, decide_False by done. unfold popped. msimpl.
    by rewrite RegisterFile.get_set_word by (done || apply Hm).
Qed.

Lemma run_pop_into {X} r (k : emu D X) m v l :
  wf m -> stack_is m (v :: l) ->
  ((pop_word ≫= registers_set r) ;; k) m = k (popped_into r v m).
Proof. intros Hm Hs. rewrite run_bind, run_bind. by rewrite (pop_word_stack m v l). Qed.

Lemma run_pop_last r m v l :
  wf m -> stack_is m (v :: l) -> (pop_word ≫= registers_set r) m = Ok tt (popped_into r v m).
Proof. intros Hm Hs. by rewrite run_bind, (pop_word_stack m v l). Qed.
End stack_list.

(** ** PUSHA and POPA *)

Section pusha.
Context {CFG : Config} {D : Type} {IOP : IOPorts D}.
Implicit Types m : machine D.

(** The words PUSHA pushes, first to last. *)
Definition pusha_words m : list Z :=
  (fun r => RegisterFile.get (registers m) r) <$> [AX; CX; DX; BX; SP; BP; SI; DI].

(** Registers pushed one after the other. *)
Definition push_regs (rs : list GPR) (k : emu D unit) : emu D unit :=
  foldr (fun r k => (registers_get r ≫= push_word) ;; k) k rs.

Definition regs_of m (rs : list GPR) : list Z := RegisterFile.get (registers m) <$> rs.

Lemma regs_of_ext m m' rs :
  Forall (fun r => RegisterFile.overlap SP r = false) rs ->
  (forall r, RegisterFile.overlap SP r = false ->
     RegisterFile.get (registers m') r = RegisterFile.get (registers m) r) ->
  regs_of m' rs = regs_of m rs.
Proof.
  intros Hrs H. apply list_fmap_ext. intros i r Hr. apply H.
  exact (Forall_lookup_1 _ _ _ _ Hrs Hr).
Qed.

Lemma push_regs_eq rs k m :
  wf m -> room (length rs) m -> Forall (fun r => RegisterFile.overlap SP r = false) rs ->
  push_regs rs k m = k (pushed_list (regs_of m rs) m).
Proof.
  revert m. induction rs as [|r rs IH]; intros m Hm Hr Hrs; [done|].
  inversion_clear Hrs as [|?? H Hrs'].
  change (push_regs (r :: rs) k) with ((registers_get r ≫= push_word) ;; push_regs rs k).
  rewrite run_push_reg by (done || by eapply room_le; [|exact Hr]; cbn; lia).
  rewrite IH by (done || by apply wf_pushed, room_1 with (1 := Hr) || by apply room_pushed).
  by rewrite (regs_of_ext m) by (done || (intros; by apply get_pushed)).
Qed.

Lemma room_pushed_list vs n m :
  wf m -> room (length vs + n) m -> room n (pushed_list vs m).
Proof.
  revert m. induction vs as [|v vs IH]; intros m Hm Hr; [done|]. cbn [pushed_list foldl].
  apply IH; [apply wf_pushed, room_1 with (1 := Hr); done|by apply room_pushed].
Qed.

Lemma pushed_list_app vs vs' m : pushed_list (vs ++ vs') m = pushed_list vs' (pushed_list vs m).
Proof. apply foldl_app. Qed.

Lemma pusha60_eq m :
  wf m -> room 8 m -> pusha60 m = Ok tt (pushed_list (pusha_words m) m).
Proof.
  intros Hm Hr. unfold pusha60. rewrite run_bind, run_registers_get. cbv beta iota.
  set (sp := RegisterFile.get (registers m) SP). set (low := [AX; CX; DX; BX]). set (high := [BP; SI]).
  transitivity (push_regs low (push_word sp ;; push_regs high (registers_get DI ≫= push_word)) m);
    [reflexivity|].
  rewrite push_regs_eq by (done || (by eapply room_le; [|exact Hr]; cbn; lia) || by repeat constructor).
  set (m1 := pushed_list (regs_of m low) m).
  destruct (pushed_list_props (regs_of m low) m Hm) as (Hm1 & Hg1 & _);
    [by eapply room_le; [|exact Hr]; cbn; lia|]. fold m1 in Hm1, Hg1.
  assert (Hr1 : room 4 m1) by by apply room_pushed_list.
  rewrite run_push by (done || by eapply room_le; [|exact Hr1]; lia).
  assert (Hm2 : wf (pushed sp m1)) by (by apply wf_pushed; [|eapply room_1]).
  assert (Hr2 : room 3 (pushed sp m1)) by by apply room_pushed.
  assert (Hg2 : forall r, RegisterFile.overlap SP r = false ->
    RegisterFile.get (registers (pushed sp m1)) r = RegisterFile.get (registers m) r).
  { intros r Ho. rewrite get_pushed by done. by apply Hg1. }
  rewrite push_regs_eq by (done || (by eapply room_le; [|exact Hr2]; cbn; lia) || by repeat constructor).
  rewrite (regs_of_ext m) by (done || by repeat constructor).
  set (m3 := pushed_list _ (pushed sp m1)).
  destruct (pushed_list_props (regs_of m high) (pushed sp m1) Hm2) as (Hm3 & Hg3 & _);
    [by eapply room_le; [|exact Hr2]; cbn; lia|]. fold m3 in Hm3, Hg3.
  assert (Hr3 : room 1 m3) by by apply room_pushed_list.
  rewrite run_bind, run_registers_get, push_word_eq by (done || by eapply room_1).
  rewrite Hg3, Hg2 by done. reflexivity.
Qed.

Lemma get_word_id rf r :
  RegisterFile.wf rf -> RegisterFile.is_byte r = false ->
  u16 (RegisterFile.get rf r) = RegisterFile.get rf r.
Proof.
  intros Hrf Hr. apply cast_id. pose proof (RegisterFile.get_range rf r Hrf) as H.
  unfold RegisterFile.gpr_type in H. by rewrite Hr in H.
Qed.

(** Popping into a register keeps the rest of the stack. *)
Lemma popped_into_next r v m l :
  wf m -> stack_is m (v :: l) -> RegisterFile.is_byte r = false -> r <> SP -> r <> SS ->
  wf (popped_into r v m) /\ stack_is (popped_into r v m) l.
Proof. intros. split; [by apply wf_popped_into|by apply stack_is_popped_into]. Qed.

Lemma popa61_eq m di si bp sp bx dx cx ax l :
  wf m -> stack_is m (di :: si :: bp :: sp :: bx :: dx :: cx :: ax :: l) ->
  let m3 := popped_into BP bp (popped_into SI si (popped_into DI di m)) in
  let m7 := popped_into CX cx (popped_into DX dx (popped_into BX bx (popped m3))) in
  popa61 m = Ok tt (popped_into AX ax m7).
Proof.
  intros Hm Hs m3 m7. unfold popa61.
  destruct (popped_into_next DI di m _ Hm Hs) as [Hm1 Hs1]; [done..|].
  destruct (popped_into_next SI si _ _ Hm1 Hs1) as [Hm2 Hs2]; [done..|].
  destruct (popped_into_next BP bp _ _ Hm2 Hs2) as [Hm3 Hs3]; [done..|].
  pose proof (wf_popped _ Hm3) as Hm4. pose proof (stack_is_popped _ _ _ Hm3 Hs3) as Hs4.
  destruct (popped_into_next BX bx _ _ Hm4 Hs4) as [Hm5 Hs5]; [done..|].
  destruct (popped_into_next DX dx _ _ Hm5 Hs5) as [Hm6 Hs6]; [done..|].
  destruct (popped_into_next CX cx _ _ Hm6 Hs6) as [Hm7 Hs7]; [done..|].
  rewrite (run_pop_into DI _ m di _ Hm Hs), (run_pop_into SI _ _ si _ Hm1 Hs1),
    (run_pop_into BP _ _ bp _ Hm2 Hs2).
  rewrite run_bind, (pop_word_stack _ sp _ Hm3 Hs3).
  rewrite (run_pop_into BX _ _ bx _ Hm4 Hs4), (run_pop_into DX _ _ dx _ Hm5 Hs5),
    (run_pop_into CX _ _ cx _ Hm6 Hs6).
  exact (run_pop_last AX _ ax _ Hm7 Hs7).
Qed.

(** The registers POPA leaves. *)
Lemma popa61_get m di si bp bx dx cx ax r :
  wf m -> RegisterFile.is_byte r = false ->
  let m3 := popped_into BP bp (popped_into SI si (popped_into DI di m)) in
  let m7 := popped_into CX cx (popped_into DX dx (popped_into BX bx (popped m3))) in
  RegisterFile.get (registers (popped_into AX ax m7)) r =
    match r with
    | AX => u16 ax | CX => u16 cx | DX => u16 dx | BX => u16 bx
    | BP => u16 bp | SI => u16 si | DI => u16 di
    | SP => u16 (RegisterFile.get (registers m) SP + 16)
    | r => RegisterFile.get (registers m) r
    end.
Proof.
  intros Hm Hr m3 m7.
  assert (Hm3 : wf m3) by by do 3 apply wf_popped_into.
  assert (Hp : forall q, RegisterFile.is_byte q = false ->
    RegisterFile.get (registers (popped m3)) q =
      if decide (SP = q) then u16 (RegisterFile.get (registers m3) SP + 2)
      else RegisterFile.get (registers m3) q).
  { intros q Hq. unfold popped. msimpl. by rewrite RegisterFile.get_set_word by (done || apply Hm3). }
  assert (wf (popped m3)) by by apply wf_popped.
  unfold m7. rewrite !get_popped_into by (done || by repeat apply wf_popped_into).
  rewrite !Hp by done. unfold m3. rewrite !get_popped_into by (done || by repeat apply wf_popped_into).
  destruct r; try discriminate; repeat first [rewrite decide_False by done|rewrite decide_True by done];
    try done. cpp_lia.
Qed.

(** PUSHA followed by POPA changes no register and no flag, SP included:
    PUSHA stores the eight words AX, CX, DX, BX, the original SP, BP, SI, DI
    below SS:SP, the last on top, and POPA puts them back, skipping the
    stored SP. *)
Lemma pusha_popa_round_trip m :
  wf m -> room 8 m ->
  exists m1 m2,
    execute_opcode 0x60 m = Ok tt m1 /\ execute_opcode 0x61 m1 = Ok tt m2 /\
    stack_is m1 (regs_of m [DI; SI; BP; SP; BX; DX; CX; AX]) /\
    RegisterFile.get (registers m1) SP = u16 (RegisterFile.get (registers m) SP - 16) /\
    (forall r, RegisterFile.get (registers m2) r = RegisterFile.get (registers m) r) /\
    RegisterFile.get_flags (registers m2) = RegisterFile.get_flags (registers m) /\
    mem m2 = mem m1 /\ set_mem (mem m) (set_registers (registers m) m2) = m.
Proof.
  intros Hm Hr. set (m1 := pushed_list (pusha_words m) m).
  destruct (pushed_list_props (pusha_words m) m Hm Hr) as (Hm1 & Hg & Hsp & Hfl & Hrest & Hst).
  fold m1 in Hm1, Hg, Hsp, Hfl, Hrest, Hst.
  assert (Hs : stack_is m1 (regs_of m [DI; SI; BP; SP; BX; DX; CX; AX])).
  { specialize (Hst [] (stack_is_nil m) ltac:(done)).
    cbv [pusha_words fmap list_fmap rev_append] in Hst.
    rewrite !get_word_id in Hst by (done || apply Hm). exact Hst. }
  assert (Hm2 : forall di si bp bx dx cx ax, wf (popped_into AX ax (popped_into CX cx
    (popped_into DX dx (popped_into BX bx (popped (popped_into BP bp
      (popped_into SI si (popped_into DI di m1))))))))).
  { intros. do 4 apply wf_popped_into. apply wf_popped. by do 3 apply wf_popped_into. }
  exists m1. eexists. split; [by apply pusha60_eq|]. split; [exact (popa61_eq m1 _ _ _ _ _ _ _ _ [] Hm1 Hs)|].
  split_and!; [done|exact Hsp| | | |].
  - match goal with |- forall r, RegisterFile.get (registers ?m2) r = _ =>
      assert (Hw : forall r, RegisterFile.is_byte r = false ->
        RegisterFile.get (registers m2) r = RegisterFile.get (registers m) r)
    end.
    { intros r Hb. rewrite popa61_get by done. rewrite ?get_word_id by (done || apply Hm).
      destruct r; try discriminate; try reflexivity; try by apply Hg.
      rewrite Hsp, <- (get_word_id (registers m) SP) by (done || apply Hm).
      change (length (pusha_words m)) with 8%nat. cpp_lia. }
    intros r. etransitivity; [exact (RegisterFile.get_by_word _ r (wf_registers _ (Hm2 _ _ _ _ _ _ _)))|].
    rewrite Hw by apply RegisterFile.parent_word. symmetry. apply RegisterFile.get_by_word, Hm.
  - by rewrite !flags_popped_into, flags_popped, !flags_popped_into.
  - by rewrite !mem_popped_into.
  - by rewrite !set_registers_popped_into, set_registers_popped, !set_registers_popped_into.
Qed.
End pusha.

(** ** Calls and returns *)

Section calls.
Context {CFG : Config} {D : Type} {IOP : IOPorts D}.
Implicit Types m : machine D.

(** Popping [k] words at once by moving SP. *)
Definition moved_SP (n : Z) m : machine D :=
  set_registers (RegisterFile.set (registers m) SP (RegisterFile.get (registers m) SP + n)) m.

Lemma stack_is_moved m vs l :
  wf m -> stack_is m (vs ++ l) -> stack_is (moved_SP (2 * Z.of_nat (length vs)) m) l.
Proof.
  intros Hm [Hl Hw]. rewrite length_app in Hl. split; [lia|]. intros i x Hx.
  assert (Hx' : (vs ++ l) !! (length vs + i)%nat = Some x).
  { rewrite lookup_app_r by lia. by rewrite Nat.add_comm, Nat.add_sub. }
  specialize (Hw _ _ Hx'). unfold moved_SP. msimpl. rewrite stack_addr_set_SP by apply Hm.
  unfold stack_addr in Hw.
  replace (RegisterFile.get (registers m) SP + 2 * Z.of_nat (length vs) + 2 * Z.of_nat i)
    with (RegisterFile.get (registers m) SP + 2 * Z.of_nat (length vs + i)) by lia. exact Hw.
Qed.

(** Control goes to CS:IP with a word list on the stack; the registers in
    [changed] and the flags apart, nothing else has changed. *)
Record transferred m m' (cs ip : Z) (l : list Z) : Prop := {
  tr_wf : wf m';
  tr_stack : stack_is m' l;
  tr_CS : RegisterFile.get (registers m') CS = cs;
  tr_IP : RegisterFile.get (registers m') IP = ip;
  tr_jump : jump_taken m' = true;
  tr_others r : RegisterFile.parent r ∉ [CS; IP; SP] ->
    RegisterFile.get (registers m') r = RegisterFile.get (registers m) r;
  tr_flags : RegisterFile.get_flags (registers m') = RegisterFile.get_flags (registers m);
}.

Lemma transferred_intro m0 m m' cs ip l :
  wf m -> stack_is m l -> mem m' = mem m -> jump_taken m' = true ->
  wf m' ->
  (forall r, RegisterFile.is_byte r = false ->
     RegisterFile.get (registers m') r =
       if decide (r = CS) then cs else if decide (r = IP) then ip
       else RegisterFile.get (registers m) r) ->
  RegisterFile.get_flags (registers m') = RegisterFile.get_flags (registers m0) ->
  wf m0 ->
  (forall r, RegisterFile.is_byte r = false -> r ∉ [CS; IP; SP] ->
     RegisterFile.get (registers m) r = RegisterFile.get (registers m0) r) ->
  transferred m0 m' cs ip l.
Proof.
  intros Hm Hs Hmem Hj Hm' Hr Hf Hm0 Ho. split; try done.
  - eapply stack_is_ext; [exact Hs|done|by rewrite Hr..].
  - by rewrite Hr.
  - by rewrite Hr.
  - intros r Hn. rewrite (RegisterFile.get_by_word (registers m')),
      (RegisterFile.get_by_word (registers m0)) by (apply Hm' || apply Hm0).
    pose proof (RegisterFile.parent_word r) as Hp.
    rewrite Hr, !decide_False by (done || set_solver). by rewrite Ho.
Qed.

(** The offset of the instruction after [k] more bytes. *)
Definition ip_after m (k : Z) : Z := u16 (RegisterFile.get (registers m) IP + instr_length m + k).

(** The word [i] bytes into the rest of the instruction. *)
Definition code_word m (i : Z) : Z :=
  code_byte m (instr_length m + i) + 256 * code_byte m (instr_length m + i + 1).

Ltac words_only :=
  intros; rewrite ?RegisterFile.get_set_word by auto using RegisterFile.wf_set;
  repeat case_decide; subst; done || congruence || set_solver.

Lemma room_set_instr_length n k m : room n m -> room n (set_instr_length k m).
Proof. done. Qed.

Lemma call_near_eq m l :
  wf m -> stack_is m l -> Z.of_nat (length l) < 0x7fff -> room 1 m ->
  exists m1, calle8 m = Ok tt m1 /\
    transferred m m1 (RegisterFile.get (registers m) CS) (u16 (ip_after m 2 + code_word m 0))
      (ip_after m 2 :: l).
Proof.
  intros Hm Hs Hl Hr. unfold calle8. rewrite run_bind, fetch_16bit_eq by done.
  set (m0 := set_instr_length _ m). assert (Hm0 : wf m0) by by apply wf_set_instr_length.
  assert (Hr0 : room 1 m0) by done. assert (Hs0 : stack_is m0 l) by by eapply stack_is_ext.
  rewrite run_bind, run_registers_get, run_bind, run_gets. cbv beta iota.
  rewrite run_push by done. set (ret := u64 _). set (m1 := pushed ret m0).
  assert (Hm1 : wf m1) by (by apply wf_pushed; [|apply room_1 with (1 := Hr0)]).
  pose proof (stack_is_pushed ret m0 l Hm0 Hs0 Hl (room_1 _ _ Hr0)) as Hs1. fold m1 in Hs1.
  assert (Hret : u16 ret = ip_after m 2) by (unfold ret, ip_after, m0; msimpl; cpp_lia).
  rewrite Hret in Hs1. eexists. split; [run; reflexivity|].
  pose proof (wf_registers m1 Hm1) as Hrf.
  eapply (transferred_intro m m1); try done.
  - destruct Hm1. by split; [..|apply RegisterFile.wf_set| | | | |].
  - intros r Hb. cbn [registers set_jump_taken set_registers].
    rewrite RegisterFile.get_set_word by done.
    repeat case_decide; subst; try done; try congruence.
    + unfold m1. rewrite get_pushed by done. unfold code_word, ip_after, m0, pushed. msimpl.
      rewrite Z.add_0_r. generalize (code_byte m (instr_length m)), (code_byte m (instr_length m + 1)).
      intros. cpp_lia.
    + unfold m1. by rewrite get_pushed.
  - intros r Hb Hn. apply (get_pushed ret m0 r Hm0). unfold RegisterFile.overlap.
    apply andb_false_iff. left. apply bool_decide_eq_false. intros E. apply Hn.
    destruct r; try discriminate; set_solver.
Qed.

Lemma call_far_eq m l :
  wf m -> stack_is m l -> Z.of_nat (length l) + 1 < 0x7fff -> room 2 m ->
  exists m1, call9a m = Ok tt m1 /\
    transferred m m1 (u16 (code_word m 2)) (u16 (code_word m 0))
      (ip_after m 4 :: RegisterFile.get (registers m) CS :: l).
Proof.
  intros Hm Hs Hl Hr. unfold call9a. rewrite run_bind, fetch_16bit_eq by done.
  rewrite run_bind, fetch_16bit_eq by by apply wf_set_instr_length.
  set (m0 := set_instr_length _ (set_instr_length _ m)).
  assert (Hm0 : wf m0) by by do 2 apply wf_set_instr_length.
  assert (Hr0 : room 2 m0) by done. assert (Hs0 : stack_is m0 l) by by eapply stack_is_ext.
  rewrite run_bind, run_registers_get. cbv beta iota.
  set (cs := RegisterFile.get (registers m0) CS). rewrite run_push by (done || by eapply room_le; [|exact Hr0]; lia).
  set (m1 := pushed cs m0).
  assert (Hm1 : wf m1) by (by apply wf_pushed; [|apply room_1 with (1 := Hr0)]).
  pose proof (stack_is_pushed cs m0 l Hm0 Hs0 ltac:(lia) (room_1 _ _ Hr0)) as Hs1. fold m1 in Hs1.
  assert (Hr1 : room 1 m1) by by apply room_pushed.
  rewrite run_bind, run_registers_get, run_bind, run_gets. cbv beta iota.
  set (ret := u64 (RegisterFile.get (registers m1) IP + instr_length m1)). rewrite run_push by done. set (m2 := pushed ret m1).
  assert (Hm2 : wf m2) by (by apply wf_pushed; [|apply room_1 with (1 := Hr1)]).
  pose proof (stack_is_pushed ret m1 _ Hm1 Hs1 ltac:(cbn [length]; lia) (room_1 _ _ Hr1)) as Hs2. fold m2 in Hs2.
  assert (Hret : u16 ret = ip_after m 4).
  { unfold ret, ip_after, m1. rewrite get_pushed by done. unfold m0, pushed. msimpl. cpp_lia. }
  assert (Hcs : u16 cs = RegisterFile.get (registers m) CS)
    by (apply (get_word_id (registers m) CS); [apply Hm|done]).
  rewrite Hret, Hcs in Hs2. eexists. split; [run; reflexivity|].
  pose proof (wf_registers m2 Hm2) as Hrf.
  eapply (transferred_intro m m2); try done.
  - destruct Hm2. by split; [..|do 2 apply RegisterFile.wf_set| | | | |].
  - intros r Hb. cbn [registers set_jump_taken set_registers].
    rewrite !RegisterFile.get_set_word by auto using RegisterFile.wf_set.
    assert (E : code_byte m (instr_length m + 2) + 256 * code_byte m (instr_length m + 2 + 1) = code_word m 2) by done.
    repeat case_decide; subst; try done; try congruence.
    + unfold code_word. by rewrite !Z.add_0_r.
    + change (code_byte (set_instr_length _ m)) with (code_byte m). msimpl.
      unfold code_word. by rewrite code_byte_u64, code_byte_u64_1.
  - intros r Hb Hn. assert (Ho : RegisterFile.overlap SP r = false).
    { unfold RegisterFile.overlap. apply andb_false_iff. left. apply bool_decide_eq_false. intros E.
      apply Hn. destruct r; try discriminate; set_solver. }
    unfold m2, m1. by rewrite !get_pushed by done.
Qed.

Lemma stack_is_top_range m v l : wf m -> stack_is m (v :: l) -> u16 v = v.
Proof. intros Hm Hs. destruct (stack_is_top _ _ _ Hs) as [_ <-]. apply cast_id, word_at_range, Hm. Qed.

Lemma get_popped m r :
  wf m -> RegisterFile.is_byte r = false ->
  RegisterFile.get (registers (popped m)) r =
    if decide (SP = r) then u16 (RegisterFile.get (registers m) SP + 2)
    else RegisterFile.get (registers m) r.
Proof. intros Hm Hr. unfold popped. msimpl. by rewrite RegisterFile.get_set_word by (done || apply Hm). Qed.

Lemma get_moved_SP n m r :
  wf m -> RegisterFile.is_byte r = false ->
  RegisterFile.get (registers (moved_SP n m)) r =
    if decide (SP = r) then u16 (RegisterFile.get (registers m) SP + n)
    else RegisterFile.get (registers m) r.
Proof. intros Hm Hr. unfold moved_SP. msimpl. by rewrite RegisterFile.get_set_word by (done || apply Hm). Qed.

Lemma wf_moved_SP n m : wf m -> wf (moved_SP n m).
Proof. intros Hm. apply wf_set_registers; [done|]. by apply RegisterFile.wf_set, Hm. Qed.

Lemma wf_jump rf m : wf m -> RegisterFile.wf rf -> wf (set_jump_taken true (set_registers rf m)).
Proof. by intros [] ?. Qed.

(** What the four returns do to the registers after popping, with [m1] the
    state whose stack is the one they leave. *)
Lemma returned_to m0 m1 rf cs ip l :
  wf m0 -> wf m1 -> stack_is m1 l -> RegisterFile.wf rf ->
  (forall r, RegisterFile.is_byte r = false ->
     RegisterFile.get rf r = if decide (r = CS) then cs else if decide (r = IP) then ip
                             else RegisterFile.get (registers m1) r) ->
  RegisterFile.get_flags rf = RegisterFile.get_flags (registers m0) ->
  (forall r, RegisterFile.is_byte r = false -> r ∉ [CS; IP; SP] ->
     RegisterFile.get (registers m1) r = RegisterFile.get (registers m0) r) ->
  transferred m0 (set_jump_taken true (set_registers rf m1)) cs ip l.
Proof. intros H0 H1 Hs Hrf Hr Hf Ho. eapply (transferred_intro m0 m1); try done. by apply wf_jump. Qed.

Ltac word_cases :=
  repeat match goal with
  | |- context [RegisterFile.get (RegisterFile.set _ _ _) _] =>
      rewrite RegisterFile.get_set_word by auto 10 using RegisterFile.wf_set
  end;
  repeat case_decide; subst; try done; try congruence.

Lemma ret_near_eq m ip l :
  wf m -> stack_is m (ip :: l) ->
  exists m1, retc3 m = Ok tt m1 /\ transferred m m1 (RegisterFile.get (registers m) CS) ip l.
Proof.
  intros Hm Hs. unfold retc3. rewrite run_bind, (pop_word_stack m ip l) by done.
  eexists. split; [reflexivity|]. pose proof (wf_popped m Hm) as Hm1.
  apply (returned_to m (popped m) (RegisterFile.set (registers (popped m)) IP ip)); try done.
  - by eapply stack_is_popped.
  - apply RegisterFile.wf_set, Hm1.
  - intros r Hb. rewrite RegisterFile.get_set_word by (done || apply Hm1).
    rewrite (stack_is_top_range m ip l) by done. word_cases. by rewrite get_popped.
  - intros r Hb Hn. rewrite get_popped, decide_False by (done || set_solver). done.
Qed.

Lemma ret_far_eq m ip cs l :
  wf m -> stack_is m (ip :: cs :: l) ->
  exists m1, retcb m = Ok tt m1 /\ transferred m m1 cs ip l.
Proof.
  intros Hm Hs. unfold retcb. rewrite run_bind, (pop_word_stack m ip (cs :: l)) by done.
  pose proof (wf_popped m Hm) as Hm1. pose proof (stack_is_popped _ _ _ Hm Hs) as Hs1.
  rewrite run_bind, (pop_word_stack (popped m) cs l) by done.
  pose proof (wf_popped _ Hm1) as Hm2. pose proof (stack_is_popped _ _ _ Hm1 Hs1) as Hs2.
  eexists. split; [reflexivity|]. set (m2 := popped (popped m)) in *.
  apply (returned_to m m2 (RegisterFile.set (RegisterFile.set (registers m2) IP ip) CS cs)); try done.
  - apply RegisterFile.wf_set, RegisterFile.wf_set, Hm2.
  - intros r Hb. pose proof (wf_registers _ Hm2).
    rewrite !RegisterFile.get_set_word by auto using RegisterFile.wf_set.
    rewrite (stack_is_top_range m ip (cs :: l)), (stack_is_top_range (popped m) cs l) by done.
    repeat case_decide; subst; try done; congruence.
  - intros r Hb Hn. unfold m2. rewrite !get_popped, !decide_False by (done || set_solver). done.
Qed.

(** RET with an operand also drops that many bytes of arguments. *)
Lemma ret_near_args_eq m ip args l :
  wf m -> stack_is m (ip :: args ++ l) -> code_word m 0 = 2 * Z.of_nat (length args) ->
  exists m1, retc2 m = Ok tt m1 /\ transferred m m1 (RegisterFile.get (registers m) CS) ip l.
Proof.
  intros Hm Hs Hn. unfold retc2. rewrite run_bind, fetch_16bit_eq by done.
  assert (Hd : code_byte m (instr_length m) + 256 * code_byte m (instr_length m + 1) =
               2 * Z.of_nat (length args)) by (rewrite <- Hn; unfold code_word; by rewrite !Z.add_0_r).
  rewrite Hd. set (m0 := set_instr_length _ m).
  assert (Hm0 : wf m0) by by apply wf_set_instr_length.
  assert (Hs0 : stack_is m0 (ip :: args ++ l)) by by eapply stack_is_ext.
  rewrite run_bind, (pop_word_stack m0 ip (args ++ l)) by done.
  pose proof (wf_popped m0 Hm0) as Hm1. pose proof (stack_is_popped _ _ _ Hm0 Hs0) as Hs1.
  pose proof (stack_is_moved _ _ _ Hm1 Hs1) as Hs2.
  set (d := 2 * Z.of_nat (length args)) in *. pose proof (wf_moved_SP d _ Hm1) as Hm2.
  set (m2 := moved_SP d (popped m0)) in *. set (rf1 := RegisterFile.set (registers (popped m0)) IP ip).
  eexists. split; [reflexivity|].
  change (transferred m (set_jump_taken true (set_registers
    (RegisterFile.set rf1 SP (RegisterFile.get rf1 SP + d)) m2)) (RegisterFile.get (registers m) CS) ip l).
  pose proof (wf_registers _ Hm1) as Hrf.
  apply returned_to; try done.
  - by apply RegisterFile.wf_set, RegisterFile.wf_set.
  - intros r Hb. unfold rf1, m2.
    rewrite !RegisterFile.get_set_word, !get_moved_SP, !get_popped by auto using RegisterFile.wf_set.
    rewrite (stack_is_top_range m0 ip (args ++ l)) by done.
    repeat case_decide; subst; try done; congruence.
  - intros r Hb Hnot. unfold m2. rewrite get_moved_SP, !get_popped, !decide_False by (done || set_solver). done.
Qed.

Lemma ret_far_args_eq m ip cs args l :
  wf m -> stack_is m (ip :: cs :: args ++ l) -> code_word m 0 = 2 * Z.of_nat (length args) ->
  exists m1, retca m = Ok tt m1 /\ transferred m m1 cs ip l.
Proof.
  intros Hm Hs Hn. unfold retca. rewrite run_bind, fetch_16bit_eq by done.
  assert (Hd : code_byte m (instr_length m) + 256 * code_byte m (instr_length m + 1) =
               2 * Z.of_nat (length args)) by (rewrite <- Hn; unfold code_word; by rewrite !Z.add_0_r).
  rewrite Hd. set (m0 := set_instr_length _ m).
  assert (Hm0 : wf m0) by by apply wf_set_instr_length.
  assert (Hs0 : stack_is m0 (ip :: cs :: args ++ l)) by by eapply stack_is_ext.
  rewrite run_bind, (pop_word_stack m0 ip (cs :: args ++ l)) by done.
  pose proof (wf_popped m0 Hm0) as Hm1. pose proof (stack_is_popped _ _ _ Hm0 Hs0) as Hs1.
  rewrite run_bind, (pop_word_stack _ cs (args ++ l)) by done.
  pose proof (wf_popped _ Hm1) as Hm2. pose proof (stack_is_popped _ _ _ Hm1 Hs1) as Hs2.
  pose proof (stack_is_moved _ _ _ Hm2 Hs2) as Hs3.
  set (d := 2 * Z.of_nat (length args)) in *. pose proof (wf_moved_SP d _ Hm2) as Hm3.
  set (mp := popped (popped m0)) in *. set (m3 := moved_SP d mp) in *.
  set (rf1 := RegisterFile.set (RegisterFile.set (registers mp) IP ip) CS cs).
  eexists. split; [reflexivity|].
  change (transferred m (set_jump_taken true (set_registers
    (RegisterFile.set rf1 SP (RegisterFile.get rf1 SP + d)) m3)) cs ip l).
  pose proof (wf_registers _ Hm2) as Hrf.
  apply returned_to; try done.
  - by do 3 apply RegisterFile.wf_set.
  - intros r Hb. unfold rf1, m3.
    rewrite !RegisterFile.get_set_word, !get_moved_SP by auto using RegisterFile.wf_set.
    rewrite (stack_is_top_range m0 ip _ Hm0 Hs0), (stack_is_top_range (popped m0) cs _ Hm1 Hs1).
    repeat case_decide; subst; try done; congruence.
  - intros r Hb Hnot. unfold m3, mp. rewrite get_moved_SP, !get_popped, !decide_False by (done || set_solver). done.
Qed.

(** C18. Calls and returns on the list stack: CALL near and far push the
    address of the next instruction (under it CS, when far) and jump; RET and
    RETF pop it back, and with an operand also drop that many bytes of
    arguments. So a return finds the caller whenever the code in between
    leaves the list it was given, whatever it does elsewhere. No other
    register and no flag changes. *)
Theorem calls_and_returns m l :
  wf m -> stack_is m l ->
  let cs := RegisterFile.get (registers m) CS in
  (Z.of_nat (length l) < 0x7fff -> room 1 m ->
   exists m', execute_opcode 0xe8 m = Ok tt m' /\
     transferred m m' cs (u16 (ip_after m 2 + code_word m 0)) (ip_after m 2 :: l)) /\
  (Z.of_nat (length l) + 1 < 0x7fff -> room 2 m ->
   exists m', execute_opcode 0x9a m = Ok tt m' /\
     transferred m m' (u16 (code_word m 2)) (u16 (code_word m 0)) (ip_after m 4 :: cs :: l)) /\
  (forall ip l', l = ip :: l' ->
   exists m', execute_opcode 0xc3 m = Ok tt m' /\ transferred m m' cs ip l') /\
  (forall ip args l', l = ip :: args ++ l' -> code_word m 0 = 2 * Z.of_nat (length args) ->
   exists m', execute_opcode 0xc2 m = Ok tt m' /\ transferred m m' cs ip l') /\
  (forall ip cs' l', l = ip :: cs' :: l' ->
   exists m', execute_opcode 0xcb m = Ok tt m' /\ transferred m m' cs' ip l') /\
  (forall ip cs' args l', l = ip :: cs' :: args ++ l' -> code_word m 0 = 2 * Z.of_nat (length args) ->
   exists m', execute_opcode 0xca m = Ok tt m' /\ transferred m m' cs' ip l').
Proof.
  intros Hm Hs cs. split_and!; intros; subst l || idtac.
  - by apply call_near_eq.
  - by apply call_far_eq.
  - by apply ret_near_eq.
  - by eapply ret_near_args_eq.
  - by apply ret_far_eq.
  - by eapply ret_far_args_eq.
Qed.
End calls.

(** ** ENTER and LEAVE *)

Section frames.
Context {CFG : Config} {D : Type} {IOP : IOPorts D}.
Implicit Types m : machine D.

(** The words from SS:BP upwards are [l]. *)
Definition at_BP m : machine D :=
  set_registers (RegisterFile.set (registers m) SP (RegisterFile.get (registers m) BP)) m.
Definition frame_is m (l : list Z) : Prop := stack_is (at_BP m) l.

(** The words that ENTER copies from the caller's display can be read. *)
Definition display_fits m (n : nat) : Prop :=
  forall i, (i < n)%nat ->
    word_fits (get_phys_addr (RegisterFile.get (registers m) SS)
                 (u16 (RegisterFile.get (registers m) BP - 2 * (Z.of_nat i + 1)))).

(** The [n] words below SS:BP when SS:BP is [k] words up the list [l]: the
    pointers that the caller keeps to the frames around it. *)
Definition display (n k : nat) (l : list Z) : list Z := take n (drop (k - n) l).

Lemma display_app n k v x l :
  (S n <= k)%nat -> (k <= length l)%nat -> l !! (k - 1)%nat = Some x ->
  display n k (v :: l) ++ [x] = display (S n) k l.
Proof.
  intros Hn Hk Hx. unfold display. replace (k - n)%nat with (S (k - S n)) by lia. cbn [drop].
  apply list_eq. intros i. destruct (decide (i < n)%nat).
  - rewrite lookup_app_l by (rewrite length_take, length_drop; lia). by rewrite !lookup_take_lt by lia.
  - rewrite lookup_app_r by (rewrite length_take, length_drop; lia).
    rewrite length_take, length_drop, Nat.min_l by lia. destruct (decide (i = n)) as [->|].
    + rewrite Nat.sub_diag, lookup_take_lt, lookup_drop by lia. cbn. rewrite <- Hx. f_equal. lia.
    + rewrite !lookup_ge_None_2; [done| |cbn; lia]. rewrite length_take, length_drop. lia.
Qed.

(** BP points at the word [k] of the stack. *)
Definition BP_at (k : nat) m : Prop :=
  RegisterFile.get (registers m) BP = u16 (RegisterFile.get (registers m) SP + 2 * Z.of_nat k).

(** Only the [n] words below SS:SP differ in memory. *)
Definition writes_below (n : nat) m m' : Prop :=
  forall b, (forall k, (k < n)%nat ->
      b < stack_addr (registers m) (-2 * (Z.of_nat k + 1)) \/
      stack_addr (registers m) (-2 * (Z.of_nat k + 1)) + 2 <= b) ->
    Memory.byte_at (mem m') b = Memory.byte_at (mem m) b.

Lemma writes_below_step n m m1 m2 :
  writes_below 1 m m1 -> writes_below n m1 m2 ->
  (forall k, stack_addr (registers m1) k = stack_addr (registers m) (k - 2)) ->
  writes_below (S n) m m2.
Proof.
  intros H1 H2 Ha b Hb. rewrite H2, H1; [done| |].
  - intros k Hk. apply Hb. lia.
  - intros k Hk. rewrite Ha. replace (-2 * (Z.of_nat k + 1) - 2) with (-2 * (Z.of_nat (S k) + 1)) by lia.
    apply Hb. lia.
Qed.

Lemma writes_below_pushed v m : writes_below 1 m (pushed v m).
Proof. intros b Hb. apply byte_at_put16_ne. by apply (Hb 0%nat); lia. Qed.

(** The state of one turn of ENTER's loop. *)
Definition copied m : machine D :=
  let m1 := set_registers (RegisterFile.set (registers m) BP (RegisterFile.get (registers m) BP - 2)) m in
  pushed (word_at (mem m) (get_phys_addr (RegisterFile.get (registers m1) SS)
                             (RegisterFile.get (registers m1) BP))) m1.

(** SP and BP apart, nothing but memory has changed. *)
Record framed_from m0 m : Prop := {
  ff_wf : wf m;
  ff_words r : RegisterFile.is_byte r = false -> r ∉ [SP; BP] ->
    RegisterFile.get (registers m) r = RegisterFile.get (registers m0) r;
  ff_flags : RegisterFile.get_flags (registers m) = RegisterFile.get_flags (registers m0);
  ff_rest : set_mem (mem m0) (set_registers (registers m0) m) = m0;
}.

Lemma framed_from_trans m0 m1 m2 : framed_from m0 m1 -> framed_from m1 m2 -> framed_from m0 m2.
Proof.
  intros [H1 H2 H3 H4] [H5 H6 H7 H8]. split; [done| |congruence|].
  - intros r Hr Hn. by rewrite H6, H2.
  - transitivity (set_mem (mem m0) (set_registers (registers m0)
      (set_mem (mem m1) (set_registers (registers m1) m2)))); [done|]. by rewrite H8.
Qed.

(** A well-formed state that differs in SP, BP and memory only. *)
Lemma framed_from_set rf mm m :
  wf m -> RegisterFile.wf rf -> Memory.wf mm ->
  (forall r, RegisterFile.is_byte r = false -> r ∉ [SP; BP] ->
     RegisterFile.get rf r = RegisterFile.get (registers m) r) ->
  RegisterFile.get_flags rf = RegisterFile.get_flags (registers m) ->
  framed_from m (set_mem mm (set_registers rf m)).
Proof. intros Hm Hrf Hmm Hw Hf. split; try done; [by destruct Hm|by destruct m]. Qed.

Lemma copied_props m l :
  wf m -> room 1 m -> stack_is m l -> Z.of_nat (length l) < 0x7fff ->
  framed_from m (copied m) /\
  RegisterFile.get (registers (copied m)) SP = u16 (RegisterFile.get (registers m) SP - 2) /\
  RegisterFile.get (registers (copied m)) BP = u16 (RegisterFile.get (registers m) BP - 2) /\
  (exists v, stack_is (copied m) (v :: l) /\
     forall k, BP_at (S k) m -> (k < length l)%nat -> l !! k = Some v) /\
  (forall n, room (S n) m -> room n (copied m)) /\
  writes_below 1 m (copied m) /\
  (forall k, stack_addr (registers (copied m)) k = stack_addr (registers m) (k - 2)).
Proof.
  intros Hm Hr Hs Hl. unfold copied. set (rf1 := RegisterFile.set (registers m) BP _).
  assert (Hrf1 : RegisterFile.wf rf1) by apply RegisterFile.wf_set, Hm.
  set (m1 := set_registers rf1 m). assert (Hm1 : wf m1) by by apply wf_set_registers.
  assert (Hg : forall r, RegisterFile.is_byte r = false -> RegisterFile.get rf1 r =
     if decide (BP = r) then u16 (RegisterFile.get (registers m) BP - 2)
     else RegisterFile.get (registers m) r).
  { intros r Hb. unfold rf1. by rewrite RegisterFile.get_set_word by (done || apply Hm). }
  assert (Hsa : forall k, stack_addr rf1 k = stack_addr (registers m) k).
  { intros k. unfold stack_addr. by rewrite !Hg by done. }
  assert (Hs1 : stack_is m1 l) by (eapply stack_is_ext; [done|done|by rewrite Hg..]).
  assert (Hr1 : forall n, room n m -> room n m1).
  { intros n H k Hk. cbn [registers m1 set_registers]. rewrite Hsa. by apply H. }
  pose proof (room_1 _ _ (Hr1 _ Hr)) as Hf. set (v := word_at _ _). split_and!.
  - apply (framed_from_set (registers (pushed v m1)) (mem (pushed v m1)) m); [done| | | |].
    + by apply RegisterFile.wf_set.
    + apply wf_put16; [apply Hm|apply stack_addr_range|done].
    + intros r Hb Hn. unfold pushed. cbn [registers m1 set_registers set_mem].
      rewrite RegisterFile.get_set_word, !Hg, !decide_False by (done || set_solver). done.
    + rewrite flags_pushed. apply RegisterFile.get_flags_set.
  - rewrite SP_pushed by done. cbn [registers m1 set_registers]. by rewrite Hg.
  - rewrite get_pushed by done. cbn [registers m1 set_registers]. by rewrite Hg.
  - exists (u16 v). split; [by apply stack_is_pushed|]. intros k Hk Hkl. unfold BP_at in Hk.
    destruct (lookup_lt_is_Some_2 l k Hkl) as [x Hx]. rewrite Hx. f_equal.
    destruct (st_words m l Hs k x Hx) as [Hfit <-].
    assert (Hv : v = word_at (mem m) (stack_addr (registers m) (2 * Z.of_nat k))).
    { unfold v, stack_addr. f_equal. cbn [registers m1 set_registers]. rewrite !Hg by done.
      rewrite decide_False, decide_True, Hk by done. f_equal. cpp_lia. }
    rewrite <- Hv. symmetry. apply cast_id. rewrite Hv. apply word_at_range, Hm.
  - intros n Hn. apply room_pushed; [done|by apply Hr1].
  - intros b Hb. apply byte_at_put16_ne. cbn [registers m1 set_registers]. rewrite Hsa.
    by apply (Hb 0%nat); lia.
  - intros k. rewrite stack_addr_pushed by done. apply Hsa.
Qed.

Lemma copied_eq m :
  wf m -> room 1 m -> display_fits m 1 ->
  forall k, (bp ← registers_get BP ;
   registers_set BP (bp - 2) ;;
   ss ← registers_get SS ;
   bp ← registers_get BP ;
   v ← mem_read uint16_t (get_phys_addr ss bp) ;
   push_word v ;; k) m = (k : emu D unit) (copied m).
Proof.
  intros Hm Hr Hd k. rewrite !run_bind, run_registers_get, run_bind, run_registers_set.
  rewrite run_bind, run_registers_get, run_bind, run_registers_get. cbv beta iota.
  set (rf1 := RegisterFile.set (registers m) BP _).
  assert (Hrf1 : RegisterFile.wf rf1) by apply RegisterFile.wf_set, Hm.
  set (m1 := set_registers rf1 m). assert (Hm1 : wf m1) by by apply wf_set_registers.
  assert (Hg : forall r, RegisterFile.is_byte r = false -> RegisterFile.get rf1 r =
     if decide (BP = r) then u16 (RegisterFile.get (registers m) BP - 2)
     else RegisterFile.get (registers m) r).
  { intros r Hb. unfold rf1. by rewrite RegisterFile.get_set_word by (done || apply Hm). }
  rewrite run_bind, mem_read16_eq; [|done|apply get_phys_addr_range|].
  2: { cbn [registers m1 set_registers]. rewrite !Hg by done. apply (Hd 0%nat). lia. }
  refine (run_push _ k m1 Hm1 _). intros i Hi. cbn [registers m1 set_registers]. unfold stack_addr.
  rewrite !Hg by done. by apply Hr.
Qed.

Lemma enter_loop_eq n m l :
  wf m -> room n m -> display_fits m n -> stack_is m l -> Z.of_nat (n + length l) <= 0x7fff ->
  exists m' vs, enter_loop n m = Ok tt m' /\ framed_from m m' /\ length vs = n /\
    stack_is m' (vs ++ l) /\
    RegisterFile.get (registers m') SP = u16 (RegisterFile.get (registers m) SP - 2 * Z.of_nat n) /\
    (forall k, room (n + k) m -> room k m') /\
    (forall k, BP_at k m -> (n <= k <= length l)%nat -> vs = display n k l) /\
    writes_below n m m' /\
    (forall k, stack_addr (registers m') k = stack_addr (registers m) (k - 2 * Z.of_nat n)).
Proof.
  revert m l. induction n as [|n IH]; intros m l Hm Hr Hd Hs Hl.
  - exists m, []. split_and!; try done.
    + by split; try done; destruct m.
    + rewrite Z.mul_0_r, Z.sub_0_r. symmetry. apply get_word_id; [apply Hm|done].
    + intros k. by rewrite Z.mul_0_r, Z.sub_0_r.
  - cbn [enter_loop]. assert (Hr1 : room 1 m) by by eapply room_le; [|exact Hr]; lia.
    rewrite copied_eq by (done || intros i Hi; apply Hd; lia).
    destruct (copied_props m l Hm Hr1 Hs ltac:(lia)) as (Hf & Hsp & Hbp & (v & Hs1 & Hv) & Hroom & Hw & Hsa).
    destruct (IH (copied m) (v :: l)) as (m' & vs & E & Hf' & Hlen & Hs' & Hsp' & Hroom' & Hvs & Hw' & Hsa').
    + apply Hf.
    + by apply Hroom.
    + intros i Hi. rewrite Hbp, (ff_words _ _ Hf) by (done || set_solver).
      specialize (Hd (S i) ltac:(lia)).
      replace (u16 (u16 (RegisterFile.get (registers m) BP - 2) - 2 * (Z.of_nat i + 1)))
        with (u16 (RegisterFile.get (registers m) BP - 2 * (Z.of_nat (S i) + 1))); [done|].
      rewrite Nat2Z.inj_succ. cpp_lia.
    + done.
    + cbn [length]. lia.
    + exists m', (vs ++ [v]). split_and!; [done|by eapply framed_from_trans| | | | | |by eapply writes_below_step|].
      * rewrite length_app. cbn. lia.
      * by rewrite <- app_assoc.
      * rewrite Hsp', Hsp, Nat2Z.inj_succ. cpp_lia.
      * intros k Hk. by apply Hroom', Hroom.
      * intros k Hk Hnk. destruct k as [|k]; [lia|].
        rewrite (Hvs (S k)) by (cbn [length]; lia || (unfold BP_at in *; rewrite Hbp, Hsp, Hk; cpp_lia)).
        apply display_app; [lia|lia|]. cbn [Nat.sub]. rewrite Nat.sub_0_r. apply Hv; [done|lia].
      * intros k. rewrite Hsa', Hsa. f_equal. lia.
Qed.

(** The end of ENTER: BP is the frame pointer, SP makes room for the locals. *)
Lemma enter_tail m0 m ft size vs bp l :
  framed_from m0 m -> stack_is m (vs ++ bp :: l) ->
  u16 (RegisterFile.get (registers m) SP + 2 * Z.of_nat (length vs)) = u16 ft ->
  let rf := RegisterFile.set (registers m) BP ft in
  let m' := set_registers (RegisterFile.set rf SP (RegisterFile.get rf SP - size)) m in
  framed_from m0 m' /\ frame_is m' (bp :: l) /\
  stack_is (moved_SP size m') (vs ++ bp :: l) /\
  RegisterFile.get (registers m') BP = u16 ft /\
  RegisterFile.get (registers m') SP = u16 (RegisterFile.get (registers m) SP - size).
Proof.
  intros Hf Hs Hft rf m'. pose proof (ff_wf _ _ Hf) as Hm. pose proof (wf_registers _ Hm) as Hrf.
  assert (Hrf' : RegisterFile.wf rf) by by apply RegisterFile.wf_set.
  assert (Hg : forall r, RegisterFile.is_byte r = false -> RegisterFile.get (registers m') r =
    if decide (SP = r) then u16 (RegisterFile.get (registers m) SP - size)
    else if decide (BP = r) then u16 ft
    else RegisterFile.get (registers m) r).
  { intros r Hb. unfold m'. cbn [registers set_registers]. unfold rf.
    by rewrite !RegisterFile.get_set_word by done. }
  split_and!.
  - eapply framed_from_trans; [exact Hf|].
    replace m' with (set_mem (mem m) m') by by destruct m.
    apply framed_from_set; [done|by apply RegisterFile.wf_set|apply Hm| |].
    + intros r Hb Hn. etransitivity; [exact (Hg r Hb)|]. by rewrite !decide_False by set_solver.
    + unfold rf. by rewrite !RegisterFile.get_flags_set.
  - assert (Hm' : wf m') by (apply wf_set_registers; [done|by apply RegisterFile.wf_set]).
    eapply stack_is_ext; [by apply (stack_is_moved m vs)|done|..];
      rewrite get_moved_SP by done; unfold at_BP; cbn [registers set_registers];
      rewrite RegisterFile.get_set_word by (done || apply Hm'); rewrite !Hg by done; [done|].
    rewrite Hft. apply cast_idemp.
  - assert (Hm' : wf m') by (apply wf_set_registers; [done|by apply RegisterFile.wf_set]).
    eapply stack_is_ext; [exact Hs|done|..]; rewrite get_moved_SP, !Hg by done; [done|].
    rewrite decide_True, decide_True by done. pose proof (get_SP_range _ Hrf). cpp_lia.
  - by rewrite Hg.
  - by rewrite Hg.
Qed.

(** What ENTER leaves above the locals: at level 0 the saved BP only; else the
    new frame pointer and the words copied from the display below it. *)
Definition frame_words (nest : nat) (ft : Z) (vs : list Z) : list Z :=
  match nest with O => [] | S _ => ft :: vs end.


(** The first half of ENTER: BP is pushed and the display copied. *)
Lemma enter_copies n m l :
  wf m -> stack_is m l -> room (S n) m -> display_fits m n -> Z.of_nat (S n + length l) <= 0x7fff ->
  let bp := RegisterFile.get (registers m) BP in
  let ft := u16 (RegisterFile.get (registers m) SP - 2) in
  exists m' vs,
    (forall k : Z -> emu D unit,
       ((registers_get BP ≫= push_word) ;; ft ← registers_get SP ; enter_loop n ;; k ft) m = k ft m') /\
    framed_from m m' /\ length vs = n /\ stack_is m' (vs ++ bp :: l) /\
    RegisterFile.get (registers m') SP = u16 (ft - 2 * Z.of_nat n) /\
    (forall k, room (S n + k) m -> room k m') /\
    (forall k, BP_at k m -> (n <= k <= length l)%nat -> vs = display n k l) /\
    writes_below (S n) m m' /\
    (forall k, stack_addr (registers m') k = stack_addr (registers m) (k - 2 * Z.of_nat (S n))).
Proof.
  intros Hm Hs Hr Hd Hl bp ft. assert (Hr1 : room 1 m) by (eapply room_le; [|exact Hr]; lia).
  pose proof (room_1 _ _ Hr) as Hf0. set (m2 := pushed bp m). assert (Hm2 : wf m2) by by apply wf_pushed.
  assert (Hbp : u16 bp = bp) by by apply get_word_id; [apply Hm|].
  assert (Hs2 : stack_is m2 (bp :: l)).
  { pose proof (stack_is_pushed bp m l Hm Hs ltac:(lia) Hf0) as H.
    by rewrite Hbp in H. }
  assert (Hf2 : framed_from m m2).
  { apply (framed_from_set (registers m2) (mem m2) m); [done|apply Hm2|apply Hm2| |apply flags_pushed].
    intros r Hb' Hn. unfold m2, pushed. cbn [registers set_mem set_registers].
    rewrite RegisterFile.get_set_word, decide_False by (done || apply Hm || set_solver). done. }
  assert (Hsp2 : RegisterFile.get (registers m2) SP = ft) by exact (SP_pushed bp m Hm).
  assert (Hbp2 : RegisterFile.get (registers m2) BP = bp) by (by apply get_pushed).
  destruct (enter_loop_eq n m2 (bp :: l)) as (m3 & vs & E & Hf3 & Hlen & Hs3 & Hsp3 & Hroom & Hvs & Hw3 & Hsa3).
  { done. }
  { by apply room_pushed. }
  { intros i Hi. unfold m2. rewrite !get_pushed by done. by apply Hd. }
  { done. }
  { cbn [length]. lia. }
  rewrite Hsp2 in Hsp3. exists m3, vs. split_and!; [|by eapply framed_from_trans|done|done|done| | | |].
  - intros k. rewrite run_push_reg by done. fold bp m2. rewrite run_bind, run_registers_get, Hsp2. cbv beta iota.
    by rewrite run_bind, E.
  - intros k Hk. by apply Hroom, room_pushed.
  - intros k Hk Hnk. rewrite (Hvs (S k)); [| |cbn [length]; lia].
    + unfold display. by replace (S k - n)%nat with (S (k - n)) by lia.
    + unfold BP_at in *. rewrite Hsp2, Hbp2. unfold bp, ft. rewrite Hk. cpp_lia.
  - eapply writes_below_step; [apply writes_below_pushed|exact Hw3|]. intros k. by apply stack_addr_pushed.
  - intros k. rewrite Hsa3. unfold m2. rewrite stack_addr_pushed by done. f_equal. lia.
Qed.

(** The second half: the frame pointer closes the display, and the locals. *)
Lemma enter_finishes nest m l ft size vs bp :
  wf m -> stack_is m (vs ++ bp :: l) -> (nest <> O -> room 1 m) -> in_range uint16_t ft ->
  RegisterFile.get (registers m) SP = u16 (ft - 2 * Z.of_nat (length vs)) ->
  (nest <> O -> Z.of_nat (length (vs ++ bp :: l)) < 0x7fff) -> length vs = (nest - 1)%nat ->
  exists m',
    ((if negb (Z.of_nat nest =? 0) then push_word ft else mret ()) ;;
     registers_set BP ft ;; sp ← registers_get SP ; registers_set SP (sp - size)) m = Ok tt m' /\
    framed_from m m' /\ frame_is m' (bp :: l) /\
    stack_is (moved_SP size m') (frame_words nest ft vs ++ bp :: l) /\
    RegisterFile.get (registers m') BP = ft /\
    RegisterFile.get (registers m') SP = u16 (ft - 2 * Z.of_nat nest - size) /\
    writes_below (match nest with O => 0 | S _ => 1 end) m m'.
Proof.
  intros Hm Hs Hr Hft Hsp Hl Hlen. assert (Hid : u16 ft = ft) by by apply cast_id.
  destruct nest as [|n]; cbn [frame_words];
    [change (negb _) with false|change (negb _) with true]; cbv iota.
  - assert (vs = []) as -> by (by apply length_zero_iff_nil).
    rewrite run_bind, run_ret, run_bind, run_registers_set, run_bind, run_registers_get. cbv beta iota.
    destruct (enter_tail m m ft size [] bp l) as (H1 & H2 & H3 & H4 & H5).
    { by split; try done; destruct m. }
    { done. }
    { rewrite Hsp. cbn [length]. cpp_lia. }
    eexists. split; [reflexivity|]. split_and!; [exact H1|exact H2|exact H3| | |by intros b _].
    + etransitivity; [exact H4|exact Hid].
    + etransitivity; [exact H5|]. rewrite Hsp. cbn [length]. cpp_lia.
  - specialize (Hr ltac:(done)). specialize (Hl ltac:(done)). pose proof (room_1 _ _ Hr) as Hfit.
    rewrite run_push by done. set (m4 := pushed ft m). assert (Hm4 : wf m4) by by apply wf_pushed.
    assert (Hs4 : stack_is m4 ((ft :: vs) ++ bp :: l)).
    { rewrite <- Hid at 1. by apply stack_is_pushed. }
    assert (Hf4 : framed_from m m4).
    { apply (framed_from_set (registers m4) (mem m4) m); [done|apply Hm4|apply Hm4| |apply flags_pushed].
      intros r Hb' Hn. unfold m4, pushed. cbn [registers set_mem set_registers].
      rewrite RegisterFile.get_set_word, decide_False by (done || apply Hm || set_solver). done. }
    assert (Hsp4 : RegisterFile.get (registers m4) SP = u16 (ft - 2 * Z.of_nat (S n))).
    { unfold m4. rewrite SP_pushed, Hsp, Hlen by done. cpp_lia. }
    rewrite run_bind, run_registers_set, run_bind, run_registers_get. cbv beta iota.
    destruct (enter_tail m m4 ft size (ft :: vs) bp l) as (H1 & H2 & H3 & H4 & H5); [done|done| |].
    { rewrite Hsp4. cbn [length]. rewrite Hlen. cpp_lia. }
    eexists. split; [reflexivity|]. split_and!; [exact H1|exact H2|exact H3| | |exact (writes_below_pushed ft m)].
    + etransitivity; [exact H4|exact Hid].
    + etransitivity; [exact H5|]. rewrite Hsp4. cpp_lia.
Qed.

(** ENTER's size and level, fetched. *)
Lemma enter_operands m (k : Z -> Z -> emu D unit) :
  wf m ->
  (size ← fetch_16bit ; nest ← (fun b => b .& 0x1f) <$> fetch_byte ; k size nest) m =
  k (code_word m 0) (code_byte m (instr_length m + 2) mod 32)
    (set_instr_length (u64 (instr_length m + 3)) m).
Proof.
  intros Hm. rewrite run_bind, fetch_16bit_eq by done.
  assert (Hsize : code_byte m (instr_length m) + 256 * code_byte m (instr_length m + 1) = code_word m 0)
    by (unfold code_word; by rewrite !Z.add_0_r).
  rewrite Hsize. assert (Hm1 : wf (set_instr_length (u64 (instr_length m + 2)) m)) by by apply wf_set_instr_length.
  rewrite run_bind, run_fmap, fetch_byte_eq by done.
  change (code_byte (set_instr_length _ m)) with (code_byte m). msimpl.
  rewrite code_byte_u64, (land_mask 5), u64_add_l, <- Z.add_assoc by done. reflexivity.
Qed.

(** What ENTER promises. *)
Record entered_frame m (nest : nat) (l : list Z) m' : Prop := {
  ef_rest : framed_from (set_instr_length (u64 (instr_length m + 3)) m) m';
  ef_BP : RegisterFile.get (registers m') BP = u16 (RegisterFile.get (registers m) SP - 2);
  ef_SP : RegisterFile.get (registers m') SP =
    u16 (RegisterFile.get (registers m) SP - 2 - 2 * Z.of_nat nest - code_word m 0);
  (** The saved BP and the caller's list from SS:BP up. *)
  ef_frame : frame_is m' (RegisterFile.get (registers m) BP :: l);
  (** Above the locals: the new frame pointer, the copied words, the saved BP. *)
  ef_words : exists vs, length vs = (nest - 1)%nat /\
    stack_is (moved_SP (code_word m 0) m')
      (frame_words nest (u16 (RegisterFile.get (registers m) SP - 2)) vs ++
       RegisterFile.get (registers m) BP :: l) /\
    (forall k, BP_at k m -> (nest - 1 <= k <= length l)%nat -> vs = display (nest - 1) k l);
  ef_memory : writes_below (S nest) m m';
}.

Lemma enterc8_eq m l :
  let nest := Z.to_nat (code_byte m (instr_length m + 2) mod 32) in
  wf m -> stack_is m l -> room (S nest) m -> display_fits m (nest - 1) ->
  Z.of_nat (nest + length l) < 0x7fff ->
  exists m', enterc8 m = Ok tt m' /\ entered_frame m nest l m'.
Proof.
  intros nest Hm Hs Hr Hd Hl. unfold enterc8. rewrite enter_operands by done.
  pose proof (Z.mod_pos_bound (code_byte m (instr_length m + 2)) 32 eq_refl) as Hb.
  set (b := code_byte m (instr_length m + 2) mod 32) in *.
  set (m0 := set_instr_length _ m). assert (Hm0 : wf m0) by by apply wf_set_instr_length.
  assert (Hs0 : stack_is m0 l) by by eapply stack_is_ext.
  replace (Z.to_nat (b - 1)) with (nest - 1)%nat by (unfold nest; lia).
  replace b with (Z.of_nat nest) by (unfold nest; lia).
  set (bp := RegisterFile.get (registers m) BP). set (ft := u16 (RegisterFile.get (registers m) SP - 2)).
  destruct (enter_copies (nest - 1) m0 l Hm0 Hs0) as (m3 & vs & E & Hf3 & Hlen & Hs3 & Hsp3 & Hroom & Hvs & Hw3 & Hsa3).
  { eapply room_le; [|exact Hr]. lia. }
  { done. }
  { lia. }
  change (u16 (RegisterFile.get (registers m0) SP - 2)) with ft in *.
  change (RegisterFile.get (registers m0) BP) with bp in *.
  rewrite (E (fun ft => (if negb (Z.of_nat nest =? 0) then push_word ft else mret ()) ;;
     registers_set BP ft ;; sp ← registers_get SP ; registers_set SP (sp - code_word m 0))).
  destruct (enter_finishes nest m3 l ft (code_word m 0) vs bp)
    as (m' & E' & Hf' & Hframe & Hwords & Hbp' & Hsp' & Hw'); try done.
  { apply Hf3. }
  { intros Hn. apply Hroom. eapply room_le; [|exact Hr]. lia. }
  { apply cast_in_range. }
  { by rewrite Hlen. }
  { intros Hn. rewrite length_app, Hlen. cbn [length]. lia. }
  exists m'. split; [exact E'|]. split.
  - by eapply framed_from_trans.
  - exact Hbp'.
  - rewrite Hsp'. unfold ft. cpp_lia.
  - exact Hframe.
  - by exists vs.
  - destruct nest as [|n]; intros i Hi; rewrite Hw'; [by apply Hw3|intros k Hk; lia| |].
    + apply Hw3. intros k Hk. apply Hi. lia.
    + intros k Hk. replace k with O by lia. rewrite Hsa3.
      replace (-2 * (Z.of_nat 0 + 1) - 2 * Z.of_nat (S (S n - 1))) with (-2 * (Z.of_nat (S n) + 1)) by lia.
      apply Hi. lia.
Qed.
Lemma leavec9_eq m bp l :
  wf m -> frame_is m (bp :: l) ->
  leavec9 m = Ok tt (popped_into BP bp (at_BP m)).
Proof.
  intros Hm Hf. unfold leavec9. rewrite run_bind, run_bind, run_registers_get, run_registers_set.
  apply (run_pop_last BP (at_BP m) bp l); [|exact Hf].
  apply wf_set_registers; [done|]. apply RegisterFile.wf_set, Hm.
Qed.

(** ENTER builds a frame, and LEAVE takes one off, whatever is below it. *)
Lemma enter_leave m l :
  wf m ->
  let nest := Z.to_nat (code_byte m (instr_length m + 2) mod 32) in
  let size := code_word m 0 in
  let bp := RegisterFile.get (registers m) BP in
  (stack_is m l -> room (S nest) m -> display_fits m (nest - 1) ->
   Z.of_nat (nest + length l) < 0x7fff ->
   exists m', execute_opcode 0xc8 m = Ok tt m' /\
     entered_frame m nest l m') /\
  (forall saved, frame_is m (saved :: l) ->
   exists m', execute_opcode 0xc9 m = Ok tt m' /\ framed_from m m' /\ mem m' = mem m /\
     stack_is m' l /\ RegisterFile.get (registers m') BP = saved /\
     RegisterFile.get (registers m') SP = u16 (bp + 2)).
Proof.
  intros Hm nest size bp. split; [intros; by apply enterc8_eq|].
  intros saved Hf. exists (popped_into BP saved (at_BP m)). split; [by eapply leavec9_eq|].
  assert (Hm1 : wf (at_BP m)) by (apply wf_set_registers; [done|]; apply RegisterFile.wf_set, Hm).
  assert (Hbp : forall r, RegisterFile.is_byte r = false ->
    RegisterFile.get (registers (at_BP m)) r =
      if decide (SP = r) then u16 bp else RegisterFile.get (registers m) r).
  { intros r Hb. unfold at_BP. cbn [registers set_registers].
    by rewrite RegisterFile.get_set_word by (done || apply Hm). }
  assert (Hid : u16 bp = bp) by (apply (get_word_id (registers m) BP); [apply Hm|done]).
  split_and!.
  - split; [by apply wf_popped_into| | |by destruct m].
    + intros r Hb Hn. rewrite get_popped_into, !Hbp, !decide_False by (done || set_solver). done.
    + rewrite flags_popped_into. apply RegisterFile.get_flags_set.
  - by rewrite mem_popped_into.
  - by apply stack_is_popped_into.
  - rewrite get_popped_into, decide_True by done. by eapply stack_is_top_range.
  - rewrite get_popped_into, decide_False, decide_True, Hbp, decide_True by done. by rewrite Hid.
Qed.

(** C17. What is saved on the stack comes back. PUSHA followed by POPA changes no
    register and no flag, SP included: PUSHA stores the eight words AX, CX, DX,
    BX, the original SP, BP, SI, DI below SS:SP, the last on top, and POPA puts
    them back, skipping the stored SP. ENTER builds a frame and LEAVE removes it.
    ENTER pushes BP; when the nesting level (modulo 32) is not 0 it copies
    [nest - 1] words of the display below SS:BP and pushes the address of the
    new frame; then it points BP at the saved BP and reserves [size] bytes
    below. So above the locals the stack is the new frame pointer, the copied
    words in the order they have in the caller's frame ([display], where SS:BP
    points into the caller's list), the saved BP and the caller's list; memory
    elsewhere is as it was. LEAVE, from any state whose list at SS:BP is a saved
    BP and a rest, puts BP and that list back. No other register and no flag
    changes. *)
Theorem saved_state_comes_back m l :
  wf m ->
  let nest := Z.to_nat (code_byte m (instr_length m + 2) mod 32) in
  let size := code_word m 0 in
  let bp := RegisterFile.get (registers m) BP in
  let frame := u16 (RegisterFile.get (registers m) SP - 2) in
  (room 8 m -> exists m1 m2,
    execute_opcode 0x60 m = Ok tt m1 /\ execute_opcode 0x61 m1 = Ok tt m2 /\
    stack_is m1 (regs_of m [DI; SI; BP; SP; BX; DX; CX; AX]) /\
    RegisterFile.get (registers m1) SP = u16 (RegisterFile.get (registers m) SP - 16) /\
    (forall r, RegisterFile.get (registers m2) r = RegisterFile.get (registers m) r) /\
    RegisterFile.get_flags (registers m2) = RegisterFile.get_flags (registers m) /\
    mem m2 = mem m1 /\ set_mem (mem m) (set_registers (registers m) m2) = m) /\
  (stack_is m l -> room (S nest) m -> display_fits m (nest - 1) ->
   Z.of_nat (nest + length l) < 0x7fff ->
   exists m', execute_opcode 0xc8 m = Ok tt m' /\
     framed_from (set_instr_length (u64 (instr_length m + 3)) m) m' /\
     frame_is m' (bp :: l) /\
     RegisterFile.get (registers m') BP = frame /\
     RegisterFile.get (registers m') SP = u16 (frame - 2 * Z.of_nat nest - size) /\
     (exists copied,
        length copied = (nest - 1)%nat /\
        stack_is (moved_SP size m') (frame_words nest frame copied ++ bp :: l) /\
        (forall k, BP_at k m -> (nest - 1 <= k <= length l)%nat -> copied = display (nest - 1) k l)) /\
     writes_below (S nest) m m') /\
  (forall saved, frame_is m (saved :: l) ->
   exists m', execute_opcode 0xc9 m = Ok tt m' /\ framed_from m m' /\ mem m' = mem m /\
     stack_is m' l /\ RegisterFile.get (registers m') BP = saved /\
     RegisterFile.get (registers m') SP = u16 (bp + 2)).
Proof.
  intros Hm nest size bp frame. destruct (enter_leave m l Hm) as [He Hl].
  split_and!; [by apply pusha_popa_round_trip| |exact Hl].
  intros Hs Hr Hd Hlen. destruct (He Hs Hr Hd Hlen) as (m' & E & [H1 H2 H3 H4 H5 H6]).
  exists m'. split_and!; try done. etransitivity; [exact H3|]. unfold frame. cpp_lia.
Qed.
End frames.

(** ** Witnesses *)

(** Addresses and words of a concrete stack, evaluated. *)
Ltac room_bench :=
  intros k Hk; repeat first [exfalso; clear -Hk; cbn in Hk; lia|destruct k as [|k]; [by vm_compute|]].

Lemma stack_refines_list_witness :
  let m := bench [] 0x20100 [0x34; 0x12] [] 0 in
  (exists m', push_word 7 m = Ok tt m' /\ stack_is m' [7; 0x1234]) /\
  (exists m', pop_word m = Ok 0x1234 m' /\ stack_is m' []).
Proof.
  intros m. assert (Hm : wf m) by wf_bench.
  assert (Hs : stack_is m [0x1234]).
  { split; [done|]. intros i v Hv. destruct i as [|i]; [|discriminate].
    injection Hv as <-. split; by vm_compute. }
  destruct (stack_refines_list m [0x1234] Hm Hs) as [H1 H2]. split.
  - destruct (H1 7) as (m' & E & _ & H & _); [done|room_bench|]. exists m'. by split.
  - destruct (H2 0x1234 [] eq_refl) as (m' & E & _ & H & _). exists m'. by split.
Defined.

(** [call 0x10] at 0000:0100, the opcode byte already fetched. *)
Lemma calls_and_returns_witness :
  let m := set_instr_length 1 (bench [0xe8; 0x10; 0x00] 0 [] [] 0) in
  exists m', execute_opcode 0xe8 m = Ok tt m' /\ stack_is m' [0x103] /\
    RegisterFile.get (registers m') IP = 0x113.
Proof.
  intros m. assert (Hm : wf m) by (apply (wf_set_instr_length 1); wf_bench).
  destruct (calls_and_returns m [] Hm (stack_is_nil m)) as [H _].
  destruct H as (m' & E & H); [done|room_bench|]. exists m'. split; [exact E|].
  split; [exact (tr_stack _ _ _ _ _ H)|exact (tr_IP _ _ _ _ _ H)].
Defined.

(** [pusha] and [popa]; [enter $4,$2] in a frame of two words, the one below BP
    copied from the caller's display. *)
Lemma saved_state_comes_back_witness :
  let m := bench [] 0 [] [(AX, 1); (BX, 2); (DI, 3)] 0 in
  let m0 := set_instr_length 1
    (bench [0xc8; 0x04; 0x00; 0x02] 0x20100 [0x11; 0xaa; 0x22; 0xbb] [(BP, 0x104)] 0) in
  (exists m1 m2, execute_opcode 0x60 m = Ok tt m1 /\ execute_opcode 0x61 m1 = Ok tt m2 /\
    RegisterFile.get (registers m2) DI = 3) /\
  (exists m', execute_opcode 0xc8 m0 = Ok tt m' /\
    stack_is (moved_SP 4 m') [0xfe; 0xbb22; 0x104; 0xaa11; 0xbb22] /\
    RegisterFile.get (registers m') BP = 0xfe /\ RegisterFile.get (registers m') SP = 0xf6).
Proof.
  intros m m0. split.
  - destruct (saved_state_comes_back m []) as [H _]; [wf_bench|].
    destruct H as (m1 & m2 & E1 & E2 & _ & _ & H & _); [room_bench|].
    exists m1, m2. split; [exact E1|]. split; [exact E2|]. by rewrite H.
  - assert (Hm : wf m0) by (apply (wf_set_instr_length 1); wf_bench).
    assert (Hs : stack_is m0 [0xaa11; 0xbb22]).
    { split; [done|]. intros i v Hv. do 2 (destruct i as [|i]; [injection Hv as <-; split; by vm_compute|]).
      discriminate. }
    pose proof (saved_state_comes_back m0 [0xaa11; 0xbb22] Hm) as H. cbv zeta in H.
    assert (E1 : Z.to_nat (code_byte m0 (instr_length m0 + 2) mod 32) = 2%nat) by by vm_compute.
    assert (E2 : code_word m0 0 = 4) by by vm_compute.
    rewrite E1, E2 in H. destruct H as (_ & H & _).
    destruct H as (m' & E & _ & _ & H2 & H3 & (vs & _ & Hw & Hd) & _); [done|room_bench|room_bench|done|].
    exists m'. split; [exact E|]. split; [|by split].
    rewrite (Hd 2%nat) in Hw; [exact Hw|by vm_compute|cbn; lia].
Defined.
