(* ===== verification/StepProps.v ===== *)
(** * The step: when it terminates, and which interrupt it takes

    The prefix loop; the interrupt shadow ([ext_int_inhibit] after an
    instruction, for every opcode); the choice between instruction and
    interrupt. *)
From S2P Require Import Prelude Config MainMemory Registers ErrorState IOPorts Machine ModRM Core Alu.
From S2P Require Import Safety Decoder CoreSafe Stack DecoderProps Bench.
From S2P Require Import InsnData InsnAlu InsnBcd InsnMulDiv InsnShift InsnControl InsnString Emulate.
From S2P Require Import StepSafe ControlProps.

(** ** The interrupt shadow *)

(** The instructions with a shadow: POP and MOV to a segment register, and STI. *)
Definition opens_shadow (op : Z) : bool := bool_decide (op ∈ [0x07; 0x17; 0x1f; 0x8e; 0xfb]).

Create HintDb shadow.

(** *** A member function that leaves the flag alone, and one that sets it *)

Section judgements.
Context {CFG : Config} {D : Type} {IOP : IOPorts D}.

Definition keeps {X} (c : emu D X) : Prop :=
  forall m a m', c m = Ok a m' -> ext_int_inhibit m' = ext_int_inhibit m.
Definition inhibits {X} (c : emu D X) : Prop :=
  forall m a m', c m = Ok a m' -> ext_int_inhibit m' = true.

Lemma keeps_ret {X} (a : X) : keeps (mret a).
Proof. intros m x m'. rewrite run_ret. intros H. by injection H as _ <-. Qed.
Lemma keeps_throw {X} e : keeps (throw e : emu D X).
Proof. by intros m ? ?. Qed.
Lemma keeps_gets {X} (f : machine D -> X) : keeps (gets f).
Proof. intros m x m'. rewrite run_gets. intros H. by injection H as _ <-. Qed.
Lemma keeps_modify (f : machine D -> machine D) :
  (forall m, ext_int_inhibit (f m) = ext_int_inhibit m) -> keeps (modify f).
Proof. intros H m x m'. rewrite run_modify. intros H1. injection H1 as _ <-. apply H. Qed.

Lemma keeps_bind {X Y} (c : emu D X) (f : X -> emu D Y) :
  keeps c -> (forall a, keeps (f a)) -> keeps (c ≫= f).
Proof.
  intros Hc Hf m b m'. rewrite run_bind. destruct (c m) as [a m1|] eqn:E; [|done].
  intros H. by rewrite (Hf a _ _ _ H), (Hc _ _ _ E).
Qed.

Lemma keeps_fmap {X Y} (c : emu D X) (f : X -> Y) : keeps c -> keeps (f <$> c).
Proof.
  intros Hc m b m'. rewrite run_fmap. destruct (c m) as [a m1|] eqn:E; [|done].
  intros H. injection H as _ <-. by apply Hc in E.
Qed.

Lemma keeps_call_device {X} (f : M D X) irqs : keeps (call_device f irqs).
Proof.
  intros m a m'. unfold call_device. destruct (f (devs m)) as [x d|]; [|done]. intros H. injection H as _ <-.
  generalize (irqs x). intros l. set (m1 := set_devs d m).
  change (ext_int_inhibit m) with (ext_int_inhibit m1). clearbody m1. revert m1.
  induction l as [|i l IH]; intros m1; [done|]. cbn [foldl]. by rewrite IH.
Qed.

Lemma inhibits_bind {X Y} (c : emu D X) (f : X -> emu D Y) :
  (forall a, inhibits (f a)) -> inhibits (c ≫= f).
Proof.
  intros Hf m b m'. rewrite run_bind. destruct (c m) as [a m1|]; [|done]. apply Hf.
Qed.

Lemma inhibits_modify : inhibits (modify (set_ext_int_inhibit true)).
Proof. intros m a m'. rewrite run_modify. intros H. by injection H as _ <-. Qed.
End judgements.

#[export] Hint Resolve keeps_ret keeps_throw keeps_gets keeps_call_device : shadow.
#[export] Hint Extern 1 (keeps (modify _)) => (by apply keeps_modify) : shadow.

(** Walk the term: the database for a call that has a lemma, the rules for the
    rest; a function with no lemma is unfolded. *)
Ltac keeps_step :=
  cbv beta iota zeta;
  first
    [ solve [auto 2 with shadow]
    | lazymatch goal with
      | |- keeps (_ ≫= _) => apply keeps_bind; [|intros ?]
      | |- keeps (_ <$> _) => apply keeps_fmap
      | |- keeps (match ?x with _ => _ end) => destruct x
      | |- keeps ?c => let h := head_of c in unfold h
      end ].
Ltac keeps_auto := repeat keeps_step.

Section calls.
Context {CFG : Config} {D : Type} {IOP : IOPorts D}.

Lemma keeps_fetch_byte : keeps (D := D) fetch_byte.
Proof. keeps_auto. Qed.
Lemma keeps_fetch_16bit : keeps (D := D) fetch_16bit.
Proof. keeps_auto. Qed.
Lemma keeps_mem_read T a : keeps (D := D) (mem_read T a).
Proof. keeps_auto. Qed.
Lemma keeps_mem_write T a v : keeps (D := D) (mem_write T a v).
Proof. keeps_auto. Qed.
End calls.
#[export] Hint Resolve keeps_fetch_byte keeps_fetch_16bit keeps_mem_read keeps_mem_write : shadow.

Section decoder_calls.
Context {CFG : Config} {D : Type} {IOP : IOPorts D}.

Lemma keeps_decode : keeps (D := D) decode.
Proof. keeps_auto. Qed.
Lemma keeps_effective_address : keeps (D := D) effective_address.
Proof. keeps_auto. Qed.
Lemma keeps_get_segment b : keeps (D := D) (get_segment b).
Proof. keeps_auto. Qed.
Lemma keeps_rm_reg : keeps (D := D) rm_reg.
Proof. keeps_auto. Qed.
Lemma keeps_reg : keeps (D := D) reg.
Proof. keeps_auto. Qed.
End decoder_calls.
#[export] Hint Resolve keeps_decode keeps_effective_address keeps_get_segment keeps_rm_reg keeps_reg : shadow.

Section shared_calls.
Context {CFG : Config} {D : Type} {IOP : IOPorts D}.

Lemma keeps_read_data T b : keeps (D := D) (read_data T b).
Proof. keeps_auto. Qed.
Lemma keeps_write_data T v b : keeps (D := D) (write_data T v b).
Proof. keeps_auto. Qed.
Lemma keeps_push_word v : keeps (D := D) (push_word v).
Proof. keeps_auto. Qed.
Lemma keeps_pop_word : keeps (D := D) pop_word.
Proof. keeps_auto. Qed.
Lemma keeps_invalid_opcode : keeps (D := D) invalid_opcode.
Proof. keeps_auto. Qed.

Lemma keeps_rep_loop n (c : emu D unit) stop : keeps c -> keeps stop -> keeps (rep_loop n c stop).
Proof. intros Hc Hs. induction n; cbn [rep_loop]; keeps_auto. Qed.
Lemma keeps_do_rep (c : emu D unit) stop : keeps c -> keeps stop -> keeps (do_rep c stop).
Proof. intros Hc Hs. pose proof keeps_rep_loop. unfold do_rep. keeps_auto. Qed.
Lemma keeps_enter_loop n : keeps (D := D) (enter_loop n).
Proof. induction n; cbn [enter_loop]; keeps_auto. Qed.
End shared_calls.
#[export] Hint Resolve keeps_read_data keeps_write_data keeps_push_word keeps_pop_word
  keeps_invalid_opcode keeps_enter_loop : shadow.
#[export] Hint Extern 1 (keeps (do_rep _ _)) => (apply keeps_do_rep; keeps_auto) : shadow.

(** *** The opcodes *)

Section opcodes.
Context {CFG : Config} {D : Type} {IOP : IOPorts D}.

Ltac keeps_opcode := cbn [execute_opcode]; first [done | solve [keeps_auto]].

Lemma keeps_opcodes_00 op : 0 <= op < 64 -> opens_shadow op = false -> keeps (D := D) (execute_opcode op).
Proof. intros Hop. enum_from op 0 64%nat; intros; keeps_opcode. Qed.
Lemma keeps_opcodes_40 op : 64 <= op < 128 -> opens_shadow op = false -> keeps (D := D) (execute_opcode op).
Proof. intros Hop. enum_from op 64 64%nat; intros; keeps_opcode. Qed.
Lemma keeps_opcodes_80 op : 128 <= op < 192 -> opens_shadow op = false -> keeps (D := D) (execute_opcode op).
Proof. intros Hop. enum_from op 128 64%nat; intros; keeps_opcode. Qed.
Lemma keeps_opcodes_c0 op : 192 <= op < 256 -> opens_shadow op = false -> keeps (D := D) (execute_opcode op).
Proof. intros Hop. enum_from op 192 64%nat; intros; keeps_opcode. Qed.

Lemma keeps_execute_opcode op :
  in_range uint8_t op -> opens_shadow op = false -> keeps (D := D) (execute_opcode op).
Proof.
  intros Hop. rewrite in_u8 in Hop.
  destruct (Z.lt_ge_cases op 64); [apply keeps_opcodes_00; lia|].
  destruct (Z.lt_ge_cases op 128); [apply keeps_opcodes_40; lia|].
  destruct (Z.lt_ge_cases op 192); [apply keeps_opcodes_80|apply keeps_opcodes_c0]; lia.
Qed.

Lemma inhibits_execute_opcode op : opens_shadow op = true -> inhibits (D := D) (execute_opcode op).
Proof.
  intros Hop. unfold opens_shadow in Hop. rewrite bool_decide_eq_true in Hop.
  repeat (apply elem_of_cons in Hop as [->|Hop]); [..|by apply elem_of_nil in Hop];
    cbn [execute_opcode]; unfold popsr, mov8e, stifb;
    repeat (cbv beta zeta; first [apply inhibits_modify|apply inhibits_bind; intros ?]).
Qed.
End opcodes.

(** *** The instruction *)

Section instruction.
#[local] Set Default Proof Using "Type*".
Context {CFG : Config} {D : Type} {IOP : IOPorts D}.
Implicit Types m : machine D.

(** The opcode of the instruction at CS:IP: the byte behind its prefixes. *)
Definition opcode_at m (n op : Z) : Prop :=
  exists k, 0 <= k /\ (forall i, 0 <= i < k -> is_prefix (code_byte m (n + i)) = true) /\
    is_prefix op = false /\ code_byte m (n + k) = op.

Lemma keeps_finish_insn : keeps (D := D) finish_insn.
Proof. keeps_auto. Qed.

Lemma after_prefix_inhibit b m : ext_int_inhibit (after_prefix b m) = ext_int_inhibit m.
Proof.
  destruct (is_prefix b) eqn:E; [|by rewrite after_no_prefix].
  revert E. by apply (is_prefix_cases (fun b => ext_int_inhibit (after_prefix b m) = ext_int_inhibit m)).
Qed.

Lemma opcode_loop_inhibit fuel m a m' :
  wf m -> ext_int_inhibit m = false -> opcode_loop fuel m = Ok a m' ->
  exists op, opcode_at m (instr_length m) op /\ ext_int_inhibit m' = opens_shadow op.
Proof.
  revert m. induction fuel as [|fuel IH]; intros m Hm Hi; [done|]. rewrite opcode_loop_eq by done.
  set (b := next_byte m). destruct (is_prefix b) eqn:Hb; intros E.
  - destruct (after_prefix_frame b (fetched m)) as (E1 & E2 & E3 & _).
    destruct (IH (after_prefix b (fetched m))) as (op & (k & Hk & Hp & Hop & Hc) & Hop').
    + by apply wf_after_prefix, wf_fetched.
    + by rewrite after_prefix_inhibit.
    + done.
    + assert (Hcode : forall i, code_byte (after_prefix b (fetched m)) (instr_length (after_prefix b (fetched m)) + i) =
        code_byte m (instr_length m + (i + 1))).
      { intros i. rewrite E3, (code_byte_frame (fetched m)) by done.
        change (code_byte m (u64 (instr_length m + 1) + i) = code_byte m (instr_length m + (i + 1))).
        rewrite <- code_byte_u64, u64_add_l, code_byte_u64. f_equal. lia. }
      exists op. split; [|done]. exists (k + 1). split_and!; [lia| |done|by rewrite <- Hc, Hcode].
      intros i Hik. destruct (Z.eq_dec i 0) as [->|]; [by rewrite Z.add_0_r|].
      replace i with (i - 1 + 1) by lia. rewrite <- Hcode. apply Hp. lia.
  - exists b. split.
    { exists 0. split_and!; [done|intros; lia|done|by rewrite Z.add_0_r]. }
    destruct (opens_shadow b) eqn:Hs; [by apply inhibits_execute_opcode in E|].
    rewrite (keeps_execute_opcode b (code_byte_range m _ Hm) Hs _ _ _ E). exact Hi.
Qed.

(** After an instruction the flag says whether it was one with a shadow,
    whatever it was before. *)
Lemma emulate_insn_inhibit fuel m n m' :
  wf m -> emulate_insn fuel m = Ok n m' ->
  exists op, opcode_at m 0 op /\ ext_int_inhibit m' = opens_shadow op.
Proof.
  intros Hm. rewrite emulate_insn_eq, run_bind. set (m0 := set_ext_int_inhibit _ _).
  destruct (opcode_loop fuel m0) as [a m1|] eqn:E; [|done]. intros H.
  destruct (opcode_loop_inhibit fuel m0 a m1) as (op & Hop & Hi); [by destruct Hm|done|done|].
  exists op. split; [exact Hop|]. by rewrite (keeps_finish_insn _ _ _ H).
Qed.
End instruction.

(** ** Termination *)

Section termination.
#[local] Set Default Proof Using "Type*".
Context {CFG : Config} {D : Type} {IOP : IOPorts D} {SAFE : IOPortsSafe D}.
Implicit Types m : machine D.

(** Either a byte that is no prefix comes up, or there are only prefixes. *)
Lemma prefixes_end_or fuel m :
  prefixes_end fuel m \/
  (forall i, 0 <= i < Z.of_nat fuel -> is_prefix (code_byte m (instr_length m + i)) = true).
Proof using Type.
  induction fuel as [|fuel [(i & Hi & H)|IH]]; [right; lia|left; exists i; split; [lia|done]|].
  destruct (is_prefix (code_byte m (instr_length m + Z.of_nat fuel))) eqn:E.
  - right. intros i Hi. destruct (Z.eq_dec i (Z.of_nat fuel)) as [->|]; [done|apply IH; lia].
  - left. exists (Z.of_nat fuel). split; [lia|done].
Qed.

Lemma prefixes_end_has_opcode fuel m : prefixes_end fuel m -> has_opcode m.
Proof using Type.
  intros (i & Hi & H). eexists. split; [|exact H]. apply get_phys_addr_range.
Qed.

(** The state in which [emulate_insn] enters its loop. *)
Definition insn_start m : machine D :=
  set_ext_int_inhibit false (set_jump_taken false
    (set_modrm_decoder (set_mrm_is_decoded false (modrm_decoder m))
      (set_has_rep_prefix false (set_default_segment_overriden false (set_instr_length 0 m))))).

Lemma wf_insn_start m : wf m -> wf (insn_start m).
Proof using Type. by intros []. Qed.

Lemma emulate_insn_more fuel m :
  enough_fuel fuel -> wf m -> has_opcode m ->
  emulate_insn fuel m = emulate_insn (Z.to_nat Memory.MEMORY_SIZE) m.
Proof.
  intros Hf Hm Ho. rewrite !emulate_insn_eq. fold (insn_start m).
  pose proof (wf_insn_start m Hm) as Hm0.
  assert (H : prefixes_end (Z.to_nat Memory.MEMORY_SIZE) (insn_start m)).
  { apply prefixes_end_intro; [|done..]. unfold enough_fuel. rewrite Z2Nat.id; [done|by vm_compute]. }
  rewrite !run_bind. rewrite (opcode_loop_more (Z.to_nat Memory.MEMORY_SIZE) fuel); [done|done|done|].
  unfold enough_fuel in Hf. lia.
Qed.

Lemma emulate_insn_diverges fuel m :
  wf m -> ~ has_opcode m -> emulate_insn fuel m = Err OutOfFuel.
Proof.
  intros Hm Ho. rewrite emulate_insn_eq. fold (insn_start m). rewrite run_bind.
  rewrite opcode_loop_diverges; [done|by apply wf_insn_start|]. intros i Hi.
  destruct (prefixes_end_or fuel (insn_start m)) as [H|H]; [|by apply H].
  destruct Ho. apply (prefixes_end_has_opcode fuel (insn_start m) H).
Qed.

(** With any fuel, the instruction keeps the invariant or stops with nothing
    worse than having spent it. *)
Lemma safe_emulate_insn_fuel fuel m :
  inv any m ->
  wp (emulate_insn fuel) (fun n m' => in_range uint64_t n /\ inv any m')
    (fun e => allowed e \/ e = OutOfFuel) m.
Proof.
  intros [Hm _]. unfold wp. rewrite emulate_insn_eq. fold (insn_start m).
  apply wp_bind. eapply wp_mono; [apply safe_opcode_loop_fuel; by split; [apply wf_insn_start|]| |done].
  intros [] m1 Hm1. eapply wp_mono; [by apply safe_finish_insn|intros n m2 (Hn & Hm2 & _); done|].
  intros e He. by left.
Qed.

Lemma safe_step_fuel fuel m :
  inv any m ->
  wp (step fuel) (fun n m' => in_range uint64_t n /\ inv any m')
    (fun e => allowed e \/ e = OutOfFuel) m.
Proof.
  intros Hm. apply safe_step_gen; [by left|done|].
  intros b. apply safe_emulate_insn_fuel. by apply wf_set_tf.
Qed.

(** C19. The prefix loop of [emulate_insn], which the code leaves unbounded,
    ends exactly when some byte of the 1 MiB memory is not a prefix: then as
    many turns as there are bytes are enough, more change nothing, and the
    instruction comes to its end or to one of the allowed errors; otherwise
    no number of turns is enough. *)
Theorem prefix_loop_terminates m :
  wf m ->
  (has_opcode m ->
   forall fuel, enough_fuel fuel ->
     emulate_insn fuel m = emulate_insn (Z.to_nat Memory.MEMORY_SIZE) m /\
     emulate_insn fuel m <> Err OutOfFuel) /\
  (~ has_opcode m -> forall fuel, emulate_insn fuel m = Err OutOfFuel).
Proof.
  intros Hm. split.
  - intros Ho fuel Hf. split; [by apply emulate_insn_more|].
    assert (Hi : inv any m) by by split.
    pose proof (safe_emulate_insn fuel m Hf Hi Ho) as H.
    unfold wp in H. intros E. rewrite E in H. destruct H as [|[|]]; discriminate.
  - intros Ho fuel. by apply emulate_insn_diverges.
Qed.
End termination.

(** ** Which interrupt is taken *)

Section priority.
Context {CFG : Config} {D : Type} {IOP : IOPorts D}.
Implicit Types m : machine D.

(** Taking an NMI, from the state that is interrupted. *)
Definition take_nmi m : outcome (machine D) unit :=
  let m1 := set_nmi_pending false m in
  (interrupt_entry VEC_NMI (this_ip m1) ;; single_step) m1.

(** Taking an IRQ: it is acknowledged to the controller first. *)
Definition take_irq m : outcome (machine D) unit :=
  match call_device (inta_handler (pending_irq m)) (fun _ => []) (set_pending_irq 0 m) with
  | Ok _ m1 => (interrupt_entry (pending_irq m * 4) (this_ip m1) ;; single_step) m1
  | Err e => Err e
  end.

Definition nmi_due m : bool := nmi_pending m && negb (ext_int_inhibit m).
Definition irq_due m : bool :=
  nz (pending_irq m) && negb (ext_int_inhibit m) && RegisterFile.get_flag (registers m) IF.

(** What happens between two instructions. *)
Definition between_insns m : outcome (machine D) unit :=
  if nmi_due m then take_nmi m
  else if irq_due m then take_irq m
  else if tf_was_set m && negb (ext_int_inhibit m)
  then interrupt_entry VEC_SINGLE_STEP (this_ip m) m
  else Ok tt m.

Definition and_return {A} (o : outcome (machine D) unit) (a : A) : outcome (machine D) A :=
  match o with Ok _ m => Ok a m | Err e => Err e end.

Context {SAFE : IOPortsSafe D}.

Lemma handle_nmi_eq m : wf m -> handle_nmi m = take_nmi m.
Proof using IOP. intros Hm. destruct (interrupt_entries_eq m Hm) as (_ & _ & _ & _ & _ & H & _). exact H. Qed.

Lemma handle_irq_eq m : wf m -> pending_irq m <> 0 -> handle_irq m = take_irq m.
Proof using IOP. intros Hm. destruct (interrupt_entries_eq m Hm) as (_ & _ & _ & _ & _ & _ & H). exact H. Qed.

Lemma single_step_eq m :
  wf m ->
  single_step m =
    if tf_was_set m && negb (ext_int_inhibit m)
    then interrupt_entry VEC_SINGLE_STEP (this_ip m) m else Ok tt m.
Proof using IOP. intros Hm. destruct (interrupt_entries_eq m Hm) as (_ & _ & _ & _ & H & _). exact H. Qed.

Lemma between_insns_eq m :
  wf m ->
  (nmi ← gets nmi_pending ;
   inhibit ← gets ext_int_inhibit ;
   irq ← gets pending_irq ;
   ifl ← registers_get_flag IF ;
   (if nmi && negb inhibit then handle_nmi
    else if nz irq && negb inhibit && ifl then handle_irq
    else if negb inhibit then single_step
    else mret ())) m = between_insns m.
Proof using IOP.
  intros Hm. rewrite run_bind, run_gets, run_bind, run_gets, run_bind, run_gets, run_bind,
    run_registers_get_flag. cbv beta iota. unfold between_insns, nmi_due, irq_due.
  destruct (nmi_pending m && negb (ext_int_inhibit m)); [by apply handle_nmi_eq|].
  destruct (nz (pending_irq m)) eqn:Hp; cbn [andb].
  1: destruct (negb (ext_int_inhibit m) && RegisterFile.get_flag (registers m) IF);
       [by apply handle_irq_eq; [|by apply nz_true]|].
  all: destruct (ext_int_inhibit m) eqn:Hi; cbn [negb]; [by rewrite andb_false_r|];
    rewrite single_step_eq, Hi by done; done.
Qed.

Lemma step_choice fuel m :
  wf m ->
  let m0 := set_tf_was_set (RegisterFile.get_flag (registers m) TF) m in
  step fuel m =
    if nmi_due m0 then and_return (take_nmi m0) 0
    else if irq_due m0 then and_return (take_irq m0) 0
    else match emulate_insn fuel m0 with
         | Ok n m1 => and_return (between_insns m1) n
         | Err e => Err e
         end.
Proof using SAFE.
  intros Hm m0. assert (Hi : inv any m0) by (apply wf_set_tf; by split).
  rewrite step_eq, run_bind, run_registers_get_flag, run_bind, run_modify. fold m0.
  unfold nmi_due, irq_due. change (nmi_pending m0) with (nmi_pending m).
  change (ext_int_inhibit m0) with (ext_int_inhibit m). change (pending_irq m0) with (pending_irq m).
  change (registers m0) with (registers m).
  destruct (nmi_pending m && negb (ext_int_inhibit m)).
  { rewrite run_bind, handle_nmi_eq by apply Hi. by destruct (take_nmi m0). }
  destruct (nz (pending_irq m)) eqn:Hp; cbn [andb].
  1: destruct (negb (ext_int_inhibit m) && RegisterFile.get_flag (registers m) IF).
  1: { rewrite run_bind, handle_irq_eq by (apply Hi || by apply nz_true). by destruct (take_irq m0). }
  all: rewrite run_bind; pose proof (safe_emulate_insn_fuel fuel m0 Hi) as Hs; unfold wp in Hs;
    destruct (emulate_insn fuel m0) as [n m1|e]; [|done];
    rewrite run_bind, between_insns_eq by apply Hs; by destruct (between_insns m1).
Qed.

(** In the shadow nothing is taken, whatever is pending. *)
Lemma between_insns_inhibited m : ext_int_inhibit m = true -> between_insns m = Ok tt m.
Proof using Type.
  intros Hi. unfold between_insns, nmi_due, irq_due. by rewrite Hi, !andb_false_r.
Qed.

(** C20. What a step does first and last. On entry TF is remembered. A
    non-maskable interrupt wins over an IRQ, an IRQ needs IF, and either is
    taken instead of the instruction, which then counts no byte; neither is
    taken while [ext_int_inhibit] is set. Otherwise the instruction runs, and
    then the same choice is made in the state it leaves, with the single-step
    trap last. The instruction leaves [ext_int_inhibit] set exactly when its
    opcode, the byte behind its prefixes, is STI or loads a segment register
    by POP or MOV ([opens_shadow]), whatever it was before: after those the
    step ends without an interrupt or trap, and the next one runs the
    instruction that follows, whatever is pending; after any other nothing
    holds an interrupt back. *)
Theorem step_interrupts fuel m :
  wf m ->
  let m0 := set_tf_was_set (RegisterFile.get_flag (registers m) TF) m in
  step fuel m =
    (if nmi_due m0 then and_return (take_nmi m0) 0
     else if irq_due m0 then and_return (take_irq m0) 0
     else match emulate_insn fuel m0 with
          | Ok n m1 => and_return (between_insns m1) n
          | Err e => Err e
          end) /\
  (ext_int_inhibit m = true -> nmi_due m0 = false /\ irq_due m0 = false) /\
  (forall n m1, emulate_insn fuel m0 = Ok n m1 ->
     exists op, opcode_at m 0 op /\ ext_int_inhibit m1 = opens_shadow op /\
       (opens_shadow op = true -> between_insns m1 = Ok tt m1)).
Proof using SAFE.
  intros Hm m0. split; [by apply step_choice|]. split.
  - intros Hi. unfold nmi_due, irq_due. change (ext_int_inhibit m0) with (ext_int_inhibit m).
    by rewrite Hi, !andb_false_r.
  - intros n m1 E. assert (Hm0 : wf m0) by by destruct Hm.
    destruct (emulate_insn_inhibit fuel m0 n m1 Hm0 E) as (op & Hop & Hi).
    exists op. split_and!; [exact Hop|exact Hi|]. intros Hs. apply between_insns_inhibited. by rewrite Hi.
Qed.
End priority.

(** ** Witnesses *)

(** A nop with a lock prefix. *)
Lemma prefix_loop_terminates_witness :
  let m := bench [0xf0; 0x90] 0 [] [] 0 in
  emulate_insn (Z.to_nat Memory.MEMORY_SIZE) m <> Err OutOfFuel.
Proof.
  intros m. destruct (prefix_loop_terminates m) as [H _]; [wf_bench|].
  destruct (H ltac:(exists 0x101; split; [done|by vm_compute]) (Z.to_nat Memory.MEMORY_SIZE)) as [_ H1].
  - unfold enough_fuel. rewrite Z2Nat.id; [done|by vm_compute].
  - exact H1.
Defined.

(** An NMI and an IRQ pending together with IF set: the NMI is taken. An NMI
    that comes while STI runs is not taken after it. *)
Lemma step_interrupts_witness :
  let m := set_nmi_pending true (set_pending_irq 9 (bench [0x90] 8 [0; 0; 0; 0xf0] [] IF)) in
  let m' := bench [0xfb; 0x90] 8 [0; 0; 0; 0xf0] [] 0 in
  step 1 m = and_return (take_nmi (set_tf_was_set (RegisterFile.get_flag (registers m) TF) m)) 0 /\
  exists m1, step 1 m' = Ok 1 m1 /\ ext_int_inhibit m1 = true.
Proof.
  intros m m'. assert (Hb : wf (bench [0x90] 8 [0; 0; 0; 0xf0] [] IF)) by wf_bench.
  assert (Hm : wf m) by by destruct Hb.
  assert (E : nmi_due (set_tf_was_set (RegisterFile.get_flag (registers m) TF) m) = true) by by vm_compute.
  split.
  - pose proof (step_interrupts 1 m Hm) as [H _]. cbv zeta in H. rewrite E in H. exact H.
  - assert (Hm' : wf m') by wf_bench. pose proof (step_interrupts 1 m' Hm') as (H & _ & Hs). cbv zeta in *.
    set (m0 := set_tf_was_set _ m') in *.
    destruct (emulate_insn 1 m0) as [n m1|] eqn:Ei.
    + assert (Hn : n = 1 /\ ext_int_inhibit m1 = true).
      { revert Ei. vm_compute. intros Ei. injection Ei as <- <-. done. }
      destruct Hn as [-> Hi]. exists m1. split; [|exact Hi].
      destruct (Hs 1 m1 eq_refl) as (op & _ & Hop & Hbt). rewrite Hop in Hi.
      rewrite H. change (nmi_due m0) with false. change (irq_due m0) with false. cbn iota.
      by rewrite (Hbt Hi).
    + exfalso. revert Ei. by vm_compute.
Defined.
