(* ===== verification/SoftwareCPU.v ===== *)
(** * The CPU object: [sim/cppmodel/SoftwareCPU.h], [class Emulator] of
    [sim/cppmodel/Emulate.{h,cpp}]. *)
From S2P Require Import Prelude Config MainMemory Registers ErrorState IOPorts Machine ModRM Core Emulate SimCPU.

(** [class SoftwareCPU] with its [Emulator]: the memory, the registers and the
    port map are members of [pimpl]. *)
Record cpu (D : Type) := mk_cpu { pimpl : machine D; num_cycles : Z }.
Arguments mk_cpu {D}. Arguments pimpl {D}. Arguments num_cycles {D}.

Section cpu.
Context {CFG : Config} {D : Type} {IOP : IOPorts D}.

(** A member function of the CPU. *)
Definition method A : Type := M (cpu D) A.

(** Running a member function of the emulator. *)
Definition on_pimpl {A} (f : emu D A) : method A := fun c =>
  match f (pimpl c) with
  | Ok a m => Ok a (mk_cpu m (num_cycles c))
  | Err e => Err e
  end.

(** [SoftwareCPU::SoftwareCPU]. The arguments are what the constructors leave
    in the members they do not initialise. *)
Definition SoftwareCPU_create (mem_written : bool) (mrm : ModRMState) (seg : GPR)
    (cycles : Z) (devs : D) : cpu D :=
  mk_cpu
    (mk_machine (Memory.create mem_written) ∅ devs RegisterFile.create 0
       (ModRMDecoder.create (mrm_cached_address mrm) (mrm_addr_is_cached mrm)
          (mrm_is_decoded mrm))
       0 false false seg REPE false false false 0 false)
    cycles.

Definition write_reg (regnum : GPR) (val : Z) : method unit :=
  on_pimpl (registers_set regnum (u16 val)).
Definition read_reg (regnum : GPR) : method Z :=
  u16 <$> on_pimpl (registers_get regnum).

(** [++num_cycles] on an [unsigned long]. *)
Definition count_cycle : method unit := modify (fun c => mk_cpu (pimpl c) (u64 (num_cycles c + 1))).

Definition cpu_step (fuel : nat) : method Z := count_cycle ;; on_pimpl (step fuel).

(** [EmulatorPimpl::step_with_io] and [Emulator::step_with_io]: the callback
    runs the devices for the cycle first; it may use all that the CPU object
    refers to, and the interrupts it raises reach the CPU. *)
Definition pimpl_step_with_io (io_callback : Z -> emu D unit) (cur_cycle_count : Z) (fuel : nat) : emu D Z :=
  io_callback cur_cycle_count ;;
  step fuel.

Definition step_with_io (io_callback : Z -> emu D unit) (fuel : nat) : method Z :=
  count_cycle ;;
  n ← gets num_cycles ;
  on_pimpl (pimpl_step_with_io io_callback n fuel).

(** [SoftwareCPU] inherits the one of [SimCPU], which throws. *)
Definition cycle_cpu_with_io (io_callback : Z -> emu D unit) : method unit := throw NotImplemented.
(** [CPU::debug_detach]. *)
Definition debug_detach : method unit := mret ().

Definition write_flags (val : Z) : method unit := on_pimpl (registers_set_flags (u16 val) 0xffff).
Definition read_flags : method Z := on_pimpl registers_get_flags.
Definition cpu_has_trapped : method bool := on_pimpl has_trapped.
Definition cpu_reset : method unit := on_pimpl reset.

Definition instruction_had_side_effects : method bool :=
  on_pimpl (gets (fun m => Memory.has_written (mem m) || RegisterFile.has_written (registers m))).
Definition clear_side_effects : method unit :=
  on_pimpl (
    modify (fun m => set_registers (RegisterFile.clear_has_written (registers m)) m) ;;
    modify (fun m => set_mem (Memory.clear_has_written (mem m)) m)).

(** [write_mem8], [write_mem16], [write_mem32] and the reads, by the width. *)
Definition write_memT (T : ctype) (segment addr val : Z) : method unit :=
  on_pimpl (mem_write T (get_phys_addr segment (u16 addr)) val).
Definition read_memT (T : ctype) (segment addr : Z) : method Z :=
  on_pimpl (mem_read T (get_phys_addr segment (u16 addr))).
Definition write_mem8 := write_memT uint8_t.
Definition write_mem16 := write_memT uint16_t.
Definition write_mem32 := write_memT uint32_t.
Definition read_mem8 := read_memT uint8_t.
Definition read_mem16 := read_memT uint16_t.
Definition read_mem32 := read_memT uint32_t.

(** ** Ports: the CPU object's own accessors mask the address with [-1] *)

Definition all_port (addr : Z) : Z := u32 (addr .& (-1)).

Definition cpu_write_io8 (addr val : Z) : method unit :=
  let addr := u32 addr in
  on_pimpl (
    ports ← gets io ;
    match ports !! u16 (even_port addr) with
    | None => mret ()
    | Some p =>
        call_device
          (ioport_write8 p (u16 (all_port addr - get_base p)) (addr .& 1) (u8 val)) id ;;
        mret ()
    end).

Definition cpu_write_io16 (addr val : Z) : method unit :=
  let addr := u32 addr in
  on_pimpl (
    ports ← gets io ;
    match ports !! u16 (even_port addr) with
    | None => mret ()
    | Some p =>
        call_device (ioport_write16 p (u16 (all_port addr - get_base p)) (u16 val)) id ;;
        mret ()
    end).

Definition cpu_read_io8 (addr : Z) : method Z :=
  let addr := u32 addr in
  on_pimpl (
    ports ← gets io ;
    match ports !! u16 (even_port addr) with
    | None => mret 0
    | Some p =>
        r ← call_device
              (ioport_read8 p (u16 (all_port addr - get_base p)) (addr .& 1)) snd ;
        mret (u8 (fst r))
    end).

Definition cpu_read_io16 (addr : Z) : method Z :=
  let addr := u32 addr in
  on_pimpl (
    ports ← gets io ;
    match ports !! u16 (even_port addr) with
    | None => mret 0
    | Some p =>
        r ← call_device (ioport_read16 p (u16 (all_port addr - get_base p))) snd ;
        mret (u16 (fst r))
    end).

(** [for (m = 0; m < p->get_num_ports(); ++m) io[p->get_base() + 2 * m] = p]. *)
Definition io_with_port (p : ioport) (ports : gmap Z ioport) : gmap Z ioport :=
  foldl (fun ports m => <[u16 (get_base p + m * 2) := p]> ports) ports
    (seqZ 0 (get_num_ports p)).

Definition add_ioport (p : ioport) : method unit :=
  on_pimpl (modify (fun m => set_io (io_with_port p (io m)) m)).

Definition cpu_raise_nmi : method unit := on_pimpl (modify raise_nmi).
Definition cpu_raise_irq (irq_num : Z) : method unit := on_pimpl (modify (raise_irq irq_num)).
Definition cycle_count : method Z := gets num_cycles.

(** ** What [class CPU] and [class SimCPU] ask for *)

#[export] Instance software_simcpu : SimCPU (cpu D) := {
  memory_of c := mem (pimpl c);
  with_memory mm c := mk_cpu (set_mem mm (pimpl c)) (num_cycles c);
  sim_write_reg := write_reg;
  sim_read_reg := read_reg;
  sim_write_flags := write_flags;
  sim_read_flags := read_flags;
  sim_write_mem8 := write_mem8;
  sim_write_mem16 := write_mem16;
  sim_read_mem8 := read_mem8;
  sim_read_mem16 := read_mem16;
}.

End cpu.
