(* ===== verification/CPUProps.v ===== *)
(** * The CPU object: its invariant over every history, its ports, its archive *)
From S2P Require Import Prelude Config MainMemory Registers ErrorState IOPorts Machine ModRM Core.
From S2P Require Import Safety Decoder CoreSafe Stack DecoderProps Bench Emulate StepSafe ControlProps StepProps.
From S2P Require Import SimCPU SimCPUProps SoftwareCPU.

(** ** Every history keeps the invariant *)

(** The calls a user of the CPU object can make. *)
Inductive event (D : Type) :=
  | Step (fuel : nat)
  | StepWithIO (io_callback : Z -> emu D unit) (fuel : nat)
  | Reset
  | RaiseNmi
  | RaiseIrq (irq_num : Z)
  | WriteReg (r : GPR) (v : Z)
  | ReadReg (r : GPR)
  | WriteFlags (v : Z)
  | ReadFlags
  | WriteMem (T : ctype) (segment addr v : Z)
  | ReadMem (T : ctype) (segment addr : Z)
  | WriteVector8 (segment addr : Z) (v : list Z)
  | ReadVector8 (segment addr : Z) (n : nat)
  | WriteVector16 (segment addr : Z) (v : list Z)
  | ReadVector16 (segment addr : Z) (n : nat)
  | WriteIo8 (addr v : Z)
  | WriteIo16 (addr v : Z)
  | ReadIo8 (addr : Z)
  | ReadIo16 (addr : Z)
  | AddIoport (p : ioport)
  | HasTrapped
  | HadSideEffects
  | ClearSideEffects
  | Save
  | Load (ar : archive).
Arguments Step {D}. Arguments StepWithIO {D}. Arguments Reset {D}. Arguments RaiseNmi {D}.
Arguments RaiseIrq {D}. Arguments WriteReg {D}. Arguments ReadReg {D}. Arguments WriteFlags {D}.
Arguments ReadFlags {D}. Arguments WriteMem {D}. Arguments ReadMem {D}. Arguments WriteVector8 {D}.
Arguments ReadVector8 {D}. Arguments WriteVector16 {D}. Arguments ReadVector16 {D}.
Arguments WriteIo8 {D}. Arguments WriteIo16 {D}. Arguments ReadIo8 {D}. Arguments ReadIo16 {D}.
Arguments AddIoport {D}. Arguments HasTrapped {D}. Arguments HadSideEffects {D}.
Arguments ClearSideEffects {D}. Arguments Save {D}. Arguments Load {D}.

Section history.
#[local] Set Default Proof Using "Type*".
Context {CFG : Config} {D : Type} {IOP : IOPorts D}.
Implicit Types c : cpu D.
Abbreviation method := (SoftwareCPU.method (D := D)).

Definition ignore {A} (f : method A) : method unit := f ;; mret ().

Definition run_event (e : event D) : method unit :=
  match e with
  | Step fuel => ignore (cpu_step fuel)
  | StepWithIO io_callback fuel => ignore (step_with_io io_callback fuel)
  | Reset => cpu_reset
  | RaiseNmi => cpu_raise_nmi
  | RaiseIrq n => cpu_raise_irq n
  | WriteReg r v => write_reg r v
  | ReadReg r => ignore (read_reg r)
  | WriteFlags v => write_flags v
  | ReadFlags => ignore read_flags
  | WriteMem T segment addr v => write_memT T segment addr v
  | ReadMem T segment addr => ignore (read_memT T segment addr)
  | WriteVector8 segment addr v => write_vector8 segment addr v
  | ReadVector8 segment addr n => ignore (read_vector8 segment addr n)
  | WriteVector16 segment addr v => write_vector16 segment addr v
  | ReadVector16 segment addr n => ignore (read_vector16 segment addr n)
  | WriteIo8 addr v => cpu_write_io8 addr v
  | WriteIo16 addr v => cpu_write_io16 addr v
  | ReadIo8 addr => ignore (cpu_read_io8 addr)
  | ReadIo16 addr => ignore (cpu_read_io16 addr)
  | AddIoport p => add_ioport p
  | HasTrapped => ignore cpu_has_trapped
  | HadSideEffects => ignore instruction_had_side_effects
  | ClearSideEffects => clear_side_effects
  | Save => ignore save
  | Load ar => load ar
  end.

(** The callback of [step_with_io] keeps the state well formed or stops with
    one of the listed errors, and an archive holds bytes. *)
Definition valid_event (e : event D) : Prop :=
  match e with
  | StepWithIO io_callback _ =>
      forall n m, wf m -> wp (io_callback n) (fun _ m' => wf m') allowed m
  | Load ar => Memory.wf (ar_mem ar)
  | _ => True
  end.

Inductive cpu_steps : cpu D -> cpu D -> Prop :=
  | steps_refl c : cpu_steps c c
  | steps_event c c1 e c2 :
      cpu_steps c c1 -> valid_event e -> run_event e c1 = Ok tt c2 -> cpu_steps c c2.

Definition method_safe {A} (f : method A) : Prop :=
  forall c, wf (pimpl c) ->
    wp f (fun _ c' => wf (pimpl c')) (fun e => allowed e \/ e = OutOfFuel) c.

Lemma method_ret {A} (a : A) : method_safe (mret a).
Proof. intros c Hc. by apply wp_ret. Qed.

Lemma method_bind {A B} (f : method A) (g : A -> method B) :
  method_safe f -> (forall a, method_safe (g a)) -> method_safe (f ≫= g).
Proof.
  intros Hf Hg c Hc. apply wp_bind. eapply wp_mono; [by apply Hf|intros a c' Hc'; by apply Hg|done].
Qed.

Lemma method_fmap {A B} (f : method A) (g : A -> B) : method_safe f -> method_safe (g <$> f).
Proof. intros Hf c Hc. apply wp_fmap. eapply wp_mono; [by apply Hf|done|done]. Qed.

Lemma method_ignore {A} (f : method A) : method_safe f -> method_safe (ignore f).
Proof. intros Hf. apply method_bind; [done|]. intros _. apply method_ret. Qed.

Lemma method_on_pimpl {A} (f : emu D A) :
  (forall m, wf m -> wp f (fun _ m' => wf m') (fun e => allowed e \/ e = OutOfFuel) m) ->
  method_safe (on_pimpl f).
Proof. intros Hf c Hc. specialize (Hf _ Hc). unfold wp, on_pimpl in *. by destruct (f (pimpl c)). Qed.

Lemma method_safe_emu {A} (f : emu D A) P Φ :
  safe anything any f P Φ -> method_safe (on_pimpl f).
Proof.
  intros Hf. apply method_on_pimpl. intros m Hm. eapply wp_mono; [apply Hf; by split| |by left].
  by intros a m' (_ & [? _] & _).
Qed.

Lemma method_modify f :
  (forall m, wf m -> wf (f m)) -> method_safe (on_pimpl (modify f)).
Proof. intros Hf. apply method_on_pimpl. intros m Hm. apply wp_modify. by apply Hf. Qed.

Lemma method_count : method_safe count_cycle.
Proof. intros c Hc. by apply wp_modify. Qed.

Context {SAFE : IOPortsSafe D}.

Lemma method_step fuel : method_safe (on_pimpl (step fuel)).
Proof.
  apply method_on_pimpl. intros m Hm.
  eapply wp_mono; [apply safe_step_fuel; by split|by intros n m' [_ [? _]]|done].
Qed.

Lemma method_read_memT T segment addr : method_safe (read_memT T segment addr).
Proof using IOP. apply (method_safe_emu _ (in_range T) any), safe_mem_read. Qed.

Lemma method_write_memT T segment addr v : method_safe (write_memT T segment addr v).
Proof using IOP. apply (method_safe_emu _ (fun _ => True) any), safe_mem_write. Qed.

Lemma method_vectors :
  (forall n segment addr i, method_safe (read_vector8_from n segment addr i)) /\
  (forall n segment addr i, method_safe (read_vector16_from n segment addr i)) /\
  (forall v segment addr i, method_safe (write_vector8_from segment addr i v)) /\
  (forall v segment addr i, method_safe (write_vector16_from segment addr i v)).
Proof using IOP.
  split_and!; [intros n; induction n as [|n IH]|intros n; induction n as [|n IH]
              |intros v; induction v as [|x v IH]|intros v; induction v as [|x v IH]];
    intros; try apply method_ret.
  all: apply method_bind; [apply method_read_memT || apply method_write_memT|intros ?].
  1,2: apply method_bind; [apply IH|intros ?; apply method_ret].
  all: apply IH.
Qed.

Lemma method_ports a v :
  method_safe (cpu_write_io8 a v) /\ method_safe (cpu_write_io16 a v) /\
  method_safe (cpu_read_io8 a) /\ method_safe (cpu_read_io16 a).
Proof using SAFE.
  split_and!; apply (method_safe_emu _ (fun _ => True) any); safe_auto.
Qed.

Lemma method_write_reg r v : method_safe (write_reg r v).
Proof using IOP. apply (method_safe_emu _ (fun _ => True) any), safe_registers_set. reflexivity. Qed.

Lemma method_read_reg r : method_safe (read_reg r).
Proof using IOP.
  apply method_fmap, (method_safe_emu _ (fun _ => True) any).
  eapply safe_weaken; [apply safe_registers_get|done|apply entails_refl].
Qed.

Lemma method_save : method_safe save.
Proof using IOP.
  apply method_bind; [intros c Hc; by apply wp_gets|intros mm].
  apply method_bind.
  - induction saved_regs as [|r l IH]; [apply method_ret|].
    apply method_bind; [apply method_read_reg|intros v].
    apply method_bind; [exact IH|intros vs; apply method_ret].
  - intros vs. apply method_bind; [|intros f; apply method_ret].
    apply (method_safe_emu _ (in_range uint16_t) any), safe_registers_get_flags.
Qed.

Lemma method_load ar : Memory.wf (ar_mem ar) -> method_safe (load ar).
Proof using IOP.
  intros Har. apply method_bind; [|intros _; apply method_bind].
  - intros c Hc. apply wp_modify. by destruct Hc.
  - generalize (ar_regs ar). induction saved_regs as [|r l IH]; intros [|v vs]; try apply method_ret.
    apply method_bind; [apply method_write_reg|intros _; apply IH].
  - intros _. apply (method_safe_emu _ (fun _ => True) any), safe_registers_set_flags.
Qed.

Lemma method_step_with_io io_callback fuel :
  (forall n m, wf m -> wp (io_callback n) (fun _ m' => wf m') allowed m) ->
  method_safe (step_with_io io_callback fuel).
Proof.
  intros Hio. apply method_bind; [apply method_count|intros _].
  apply method_bind; [intros c Hc; by apply wp_gets|intros n].
  apply method_on_pimpl. intros m Hm. apply wp_bind.
  eapply wp_mono; [by apply Hio|intros u m' Hm'|by left].
  eapply wp_mono; [apply safe_step_fuel; by split|by intros a m2 [_ [? _]]|done].
Qed.

Lemma method_event e : valid_event e -> method_safe (run_event e).
Proof using SAFE.
  destruct method_vectors as (V1 & V2 & V3 & V4). intros He.
  destruct e; cbn [run_event]; try apply method_ignore.
  - apply method_bind; [apply method_count|intros _; apply method_step].
  - by apply method_step_with_io.
  - apply method_on_pimpl. intros m Hm. do 5 (apply wp_bind, wp_modify). apply wp_modify.
    destruct Hm. split; try done. apply RegisterFile.wf_reset.
  - apply method_modify. by intros m [].
  - apply method_modify. intros m []. split; try done. apply cast_in_range.
  - apply method_write_reg.
  - apply method_read_reg.
  - apply (method_safe_emu _ (fun _ => True) any), safe_registers_set_flags.
  - apply (method_safe_emu _ (in_range uint16_t) any), safe_registers_get_flags.
  - apply method_write_memT.
  - apply method_read_memT.
  - apply V3.
  - apply V1.
  - apply V4.
  - apply V2.
  - by apply (method_ports addr v).
  - by apply (method_ports addr v).
  - by apply (method_ports addr 0).
  - by apply (method_ports addr 0).
  - apply method_modify. by intros m [].
  - apply (method_safe_emu _ (fun _ => True) any). unfold has_trapped. safe_auto.
  - apply (method_safe_emu _ (fun _ => True) any). by apply safe_gets.
  - apply method_on_pimpl. intros m Hm. apply wp_bind, wp_modify, wp_modify.
    destruct Hm as [Hmem ? ? ? ? ? ?]. split; try done. by apply RegisterFile.wf_set_written.
  - apply method_save.
  - by apply method_load.
Qed.

(** C21. Whatever is done with a CPU object from its construction on, in any
    order (steps with or without devices, resets, interrupt requests, register,
    memory and port accesses, new ports, saves and loads), its state is well
    formed; and every next call returns, or stops with an access past the end
    of RAM, [INT_MIN / -1], an error of a device, or, when a step is given too
    little fuel for a run of prefixes, with that. *)
Theorem history_keeps_invariant mem_written mrm seg cycles devs c e :
  in_range uint16_t (mrm_cached_address mrm) ->
  cpu_steps (SoftwareCPU_create mem_written mrm seg cycles devs) c ->
  valid_event e ->
  wf (pimpl c) /\
  wp (run_event e) (fun _ c' => wf (pimpl c')) (fun err => allowed err \/ err = OutOfFuel) c.
Proof using SAFE.
  intros Hmrm Hsteps He. assert (Hc : wf (pimpl c)); [|split; [done|by apply method_event]].
  clear e He. remember (SoftwareCPU_create _ _ _ _ _) as c0 eqn:E0.
  induction Hsteps as [c|c c1 e c2 Hs IH He E].
  - subst c. split; try done. apply RegisterFile.registers_wf_create.
  - pose proof (method_event e He c1 (IH E0)) as H. unfold wp in H. by rewrite E in H.
Qed.
End history.

(** ** Ports *)

Section ports.
Context {CFG : Config} {D : Type} {IOP : IOPorts D}.
Implicit Types c : cpu D.

(** The ports a device claims: [base], [base + 2], ... *)
Definition claims (p : ioport) (a : Z) : Prop :=
  exists i, 0 <= i < get_num_ports p /\ a = u16 (get_base p + i * 2).

Lemma io_with_port_lookup p ports a :
  (claims p a -> io_with_port p ports !! a = Some p) /\
  (~ claims p a -> io_with_port p ports !! a = ports !! a).
Proof.
  unfold io_with_port, claims.
  destruct (Z.le_gt_cases (get_num_ports p) 0) as [Hn|Hn].
  { rewrite seqZ_nil by done. split; [intros (i & ? & _); lia|done]. }
  assert (forall k, 0 <= k ->
    let ports' := foldl (fun ports m => <[u16 (get_base p + m * 2) := p]> ports) ports (seqZ 0 k) in
    ((exists i, 0 <= i < k /\ a = u16 (get_base p + i * 2)) -> ports' !! a = Some p) /\
    (~ (exists i, 0 <= i < k /\ a = u16 (get_base p + i * 2)) -> ports' !! a = ports !! a)) as H;
    [|apply H; lia].
  apply natlike_ind; [split; [intros (i & ? & _); lia|done]|].
  intros k Hk [IH1 IH2]. cbv zeta. replace (Z.succ k) with (k + 1) by lia.
  rewrite seqZ_app, foldl_app, (seqZ_cons _ 1), (seqZ_nil _ (Z.pred 1)) by lia.
  cbn [foldl]. rewrite Z.add_0_l. split.
  - intros (i & Hi & ->). destruct (decide (u16 (get_base p + k * 2) = u16 (get_base p + i * 2))) as [->|Hne].
    + apply lookup_insert_eq.
    + rewrite lookup_insert_ne by done. apply IH1. exists i. split; [|done].
      destruct (Z.eq_dec i k) as [->|]; [done|lia].
  - intros Hno. rewrite lookup_insert_ne.
    + apply IH2. intros (i & Hi & ->). apply Hno. exists i. split; [lia|done].
    + intros <-. apply Hno. exists k. split; [lia|done].
Qed.

(** The even port of an address. *)
Definition port_of (a : Z) : Z := 2 * (a / 2).

Lemma even_port_eq a : 0 <= a < 65536 -> even_port (u32 a) = port_of a.
Proof.
  intros Ha. unfold even_port. rewrite (cast_id _ a) by cpp_lia.
  assert (E : a .& ~. 1 = port_of a); [|rewrite E; apply cast_id; unfold port_of; cpp_lia].
  apply Z.bits_inj'. intros i Hi. rewrite Z.land_spec, Z.lnot_spec by done. unfold port_of.
  destruct (Z.eq_dec i 0) as [->|Hi0].
  - rewrite Z.testbit_even_0. apply andb_false_r.
  - replace i with (Z.succ (i - 1)) by lia. rewrite Z.testbit_even_succ by lia.
    change 2 with (2 ^ 1) at 1. rewrite Z.div_pow2_bits by lia.
    replace (i - 1 + 1) with (Z.succ (i - 1)) by lia.
    change 1 with (2 * 0 + 1) at 1. rewrite (Z.testbit_odd_succ 0) by lia. rewrite Z.bits_0.
    apply andb_true_r.
Qed.

Lemma u16_port_of a : 0 <= a < 65536 -> u16 (port_of a) = port_of a.
Proof. intros Ha. unfold port_of. cpp_lia. Qed.

Lemma all_port_eq a : 0 <= a < 65536 -> all_port (u32 a) = a.
Proof. intros Ha. unfold all_port. rewrite Z.land_m1_r, cast_idemp. cpp_lia. Qed.

Lemma low_bit_of_port a : 0 <= a < 65536 -> u32 a .& 1 = a mod 2.
Proof. intros Ha. rewrite (cast_id _ a) by cpp_lia. by apply (land_mask 1). Qed.

(** The four accesses to a device: the port number within it, and for the
    8-bit ones which half of the 16-bit register. *)
Definition device_read8 (p : ioport) (port a : Z) : emu D Z :=
  r ← call_device (ioport_read8 p (u16 (port - get_base p)) (a mod 2)) snd ; mret (u8 (fst r)).
Definition device_read16 (p : ioport) (port : Z) : emu D Z :=
  r ← call_device (ioport_read16 p (u16 (port - get_base p))) snd ; mret (u16 (fst r)).
Definition device_write8 (p : ioport) (port a v : Z) : emu D unit :=
  call_device (ioport_write8 p (u16 (port - get_base p)) (a mod 2) (u8 v)) id ;; mret ().
Definition device_write16 (p : ioport) (port v : Z) : emu D unit :=
  call_device (ioport_write16 p (u16 (port - get_base p)) (u16 v)) id ;; mret ().

(** C22. The port map. [add_ioport] makes the device answer at [base + 2 i]
    for each of its ports, in place of a device registered there before, and
    changes no other port. IN and OUT at an address reach the device that
    claims its even port, with that port's offset from the base and the low
    bit saying which byte; without a device reads give 0 and writes do
    nothing. The CPU object's own accessors reach the same device, or none,
    with the same results, but what they pass it is the offset of the address
    itself: at an odd address the device gets the odd offset. *)
Theorem port_dispatch p c a v :
  0 <= a < 65536 ->
  let e := port_of a in
  let m1 := set_io (io_with_port p (io (pimpl c))) (pimpl c) in
  let c1 := mk_cpu m1 (num_cycles c) in
  add_ioport p c = Ok tt c1 /\
  (claims p e ->
     read_io8 a m1 = device_read8 p e a m1 /\ read_io16 a m1 = device_read16 p e m1 /\
     write_io8 a v m1 = device_write8 p e a v m1 /\ write_io16 a v m1 = device_write16 p e v m1 /\
     cpu_read_io8 a c1 = on_pimpl (device_read8 p a a) c1 /\
     cpu_read_io16 a c1 = on_pimpl (device_read16 p a) c1 /\
     cpu_write_io8 a v c1 = on_pimpl (device_write8 p a a v) c1 /\
     cpu_write_io16 a v c1 = on_pimpl (device_write16 p a v) c1) /\
  (~ claims p e -> io m1 !! e = io (pimpl c) !! e) /\
  (io m1 !! e = None ->
     read_io8 a m1 = Ok 0 m1 /\ read_io16 a m1 = Ok 0 m1 /\
     write_io8 a v m1 = Ok tt m1 /\ write_io16 a v m1 = Ok tt m1 /\
     cpu_read_io8 a c1 = Ok 0 c1 /\ cpu_read_io16 a c1 = Ok 0 c1 /\
     cpu_write_io8 a v c1 = Ok tt c1 /\ cpu_write_io16 a v c1 = Ok tt c1).
Proof.
  intros Ha e m1 c1. destruct (io_with_port_lookup p (io (pimpl c)) e) as [H1 H2].
  split; [done|]. split; [|split; [exact H2|]].
  - intros Hc. assert (Hio : io m1 !! e = Some p) by by apply H1.
    unfold read_io8, read_io16, write_io8, write_io16, cpu_read_io8, cpu_read_io16, cpu_write_io8,
      cpu_write_io16.
    rewrite !even_port_eq, !u16_port_of, !all_port_eq, !low_bit_of_port by done. fold e.
    split_and!; try (rewrite run_bind, run_gets, Hio; reflexivity);
      unfold on_pimpl; rewrite run_bind, run_gets; cbn [pimpl c1]; rewrite Hio; reflexivity.
  - intros Hio. unfold read_io8, read_io16, write_io8, write_io16, cpu_read_io8, cpu_read_io16,
      cpu_write_io8, cpu_write_io16.
    rewrite !even_port_eq, !u16_port_of by done. fold e.
    split_and!; try (by rewrite run_bind, run_gets, Hio);
      unfold on_pimpl; rewrite run_bind, run_gets; cbn [pimpl c1]; by rewrite Hio.
Qed.
End ports.

(** ** The archive *)

Section archive.
Context {CFG : Config} {D : Type} {IOP : IOPorts D}.
Implicit Types c : cpu D.

Definition cpu_get c (r : GPR) : Z := RegisterFile.get (registers (pimpl c)) r.

Lemma read_reg_eq r c : RegisterFile.wf (registers (pimpl c)) -> read_reg r c = Ok (cpu_get c r) c.
Proof.
  intros Hc. unfold read_reg, on_pimpl, fmap, M_fmap. rewrite run_registers_get.
  destruct c as [m n]. cbn. f_equal.
  apply cast_id. unfold cpu_get. cbn [pimpl] in *.
  pose proof (RegisterFile.get_range (registers m) r Hc) as H.
  unfold RegisterFile.gpr_type in H. revert H.
  generalize (RegisterFile.get (registers m) r). intros v. destruct (RegisterFile.is_byte r); cpp_lia.
Qed.

Lemma save_regs_eq l c : wf (pimpl c) -> save_regs l c = Ok (cpu_get c <$> l) c.
Proof.
  intros Hc. induction l as [|r l IH]; [done|]. cbn [save_regs].
  cbn [sim_read_reg software_simcpu]. unfold mbind, M_bind. by rewrite read_reg_eq, IH by apply Hc.
Qed.

Definition with_registers c (rf : RegisterFile.t) : cpu D :=
  mk_cpu (set_registers rf (pimpl c)) (num_cycles c).

Lemma load_regs_eq l vs c :
  load_regs l vs c = Ok tt (with_registers c (set_all l vs (registers (pimpl c)))).
Proof.
  revert vs c. induction l as [|r l IH]; intros [|v vs] c; try by destruct c as [[] ?].
  cbn [load_regs sim_write_reg software_simcpu]. unfold mbind, M_bind. unfold write_reg at 1, on_pimpl at 1.
  rewrite run_registers_set. rewrite IH. by destruct c as [[] ?].
Qed.

(** An archive round trip: saving is a pure observation, and loading the
    archive of [c] into any other CPU object gives it the memory, every
    register and the flags of [c]; the rest (the pending interrupts, the
    decoder, the port map, the cycle count) stays as it was there, since the
    archive does not hold it. *)
Theorem save_load_round_trip c c' :
  wf (pimpl c) -> wf (pimpl c') ->
  exists ar c2,
    save c = Ok ar c /\ load ar c' = Ok tt c2 /\
    mem (pimpl c2) = mem (pimpl c) /\
    (forall r, cpu_get c2 r = cpu_get c r) /\
    RegisterFile.get_flags (registers (pimpl c2)) = RegisterFile.get_flags (registers (pimpl c)) /\
    num_cycles c2 = num_cycles c' /\
    set_mem (mem (pimpl c')) (set_registers (registers (pimpl c')) (pimpl c2)) = pimpl c'.
Proof.
  intros Hc Hc'. set (rf := registers (pimpl c)). pose proof (wf_registers _ Hc) as Hrf. fold rf in Hrf.
  exists (mk_archive (mem (pimpl c)) (cpu_get c <$> saved_regs) (RegisterFile.get_flags rf)).
  eexists. split.
  { unfold save, mbind, M_bind, gets. rewrite save_regs_eq by done.
    cbn [sim_read_flags software_simcpu]. unfold read_flags, on_pimpl. rewrite run_registers_get_flags.
    by destruct c. }
  pose proof (wf_registers _ Hc') as Hrf'. set (rf0 := registers (pimpl c')) in *.
  split.
  { unfold load, mbind, M_bind, modify. rewrite load_regs_eq.
    cbn [sim_write_flags software_simcpu]. unfold write_flags, on_pimpl. rewrite run_registers_set_flags. reflexivity. }
  cbn [pimpl num_cycles with_registers mem registers set_mem set_registers ar_mem ar_regs ar_flags
    with_memory software_simcpu].
  fold rf0. unfold cpu_get. cbn [pimpl registers set_registers mem set_mem]. fold rf.
  split_and!; [done|intros r; by apply restored_get|by apply restored_flags|done|by destruct (pimpl c')].
Qed.

(** The CPU object keeps the contract; nothing limits the number of accesses. *)
Definition software_shows (n : nat) (m : Memory.t) (rf : RegisterFile.t) c : Prop :=
  RegisterFile.wf rf /\ mem (pimpl c) = m /\ registers (pimpl c) = rf.

#[export] Instance software_laws : SimCPULaws (cpu D).
Proof.
  refine (Build_SimCPULaws _ _ _ software_shows _ _ _ _ _ _ _).
  - by intros n m rf c [H _].
  - by intros n m rf c (_ & H & _).
  - by intros n m m' rf c (H1 & _ & H2).
  - intros n m rf c r (H1 & H2 & H3). exists c. split; [|done]. cbn. rewrite read_reg_eq; unfold cpu_get; by rewrite H3.
  - intros n m rf c r v (H1 & H2 & H3). exists (with_registers c (RegisterFile.set rf r (u16 v))).
    split; [|split; [by apply RegisterFile.wf_set|by destruct c as [[] ?]]].
    cbn [sim_write_reg software_simcpu]. unfold write_reg, on_pimpl. rewrite run_registers_set, H3. by destruct c.
  - intros n m rf c (H1 & H2 & H3). exists c. split; [|done].
    cbn [sim_read_flags software_simcpu]. unfold read_flags, on_pimpl. rewrite run_registers_get_flags, H3. by destruct c.
  - intros n m rf c v (H1 & H2 & H3). exists (with_registers c (RegisterFile.set_flags rf (u16 v) 0xffff)).
    split; [|split; [by apply RegisterFile.wf_set_flags|by destruct c as [[] ?]]].
    cbn [sim_write_flags software_simcpu]. unfold write_flags, on_pimpl. rewrite run_registers_set_flags, H3. by destruct c.
Defined.
End archive.

(** ** Witnesses *)

(** Construction, a port registered, an interrupt request: the next step is fine. *)
Lemma history_keeps_invariant_witness :
  let c0 := SoftwareCPU_create (D := unit) false (mk_modrm OP_WIDTH_8 0 0 false false) DS 0 () in
  exists c, run_event (D := unit) (AddIoport 3%nat) c0 = Ok tt c /\
    wp (run_event (D := unit) (Step 1)) (fun _ c' => wf (pimpl c')) (fun err => allowed err \/ err = OutOfFuel) c.
Proof.
  intros c0. eexists. split; [reflexivity|].
  refine (proj2 (history_keeps_invariant false (mk_modrm OP_WIDTH_8 0 0 false false) DS 0 () _ (Step 1) _ _ I)).
  - by vm_compute.
  - eapply (steps_event _ _ (AddIoport 3%nat)); [apply steps_refl|exact I|reflexivity].
Defined.

(** A device with one 16-bit register at 0x60. *)
#[local] Instance latch : IOPorts Z := {
  get_base _ := 0x60;
  get_num_ports _ := 1;
  ioport_read8 _ _ offs := v ← gets id ; mret ((v .>> (8 * offs)) .& 0xff, []);
  ioport_read16 _ _ := v ← gets id ; mret (v, []);
  ioport_write8 _ _ _ v := modify (fun _ => v) ;; mret [];
  ioport_write16 _ _ v := modify (fun _ => v) ;; mret [];
  inta_handler _ := mret ();
}.

(** Reading the high byte of the latch through the odd port. *)
Lemma port_dispatch_witness :
  let c := mk_cpu (set_io ∅ (mk_machine (Memory.create false) ∅ 0x1234 RegisterFile.create 0
             (ModRMDecoder.create 0 false false) 0 false false DS REPE false false false 0 false)) 0 in
  let m1 := set_io (io_with_port 3%nat (io (pimpl c))) (pimpl c) in
  read_io8 0x61 m1 = device_read8 3%nat 0x60 0x61 m1 /\ device_read8 3%nat 0x60 0x61 m1 = Ok 0x12 m1.
Proof.
  intros c m1. split; [|by vm_compute].
  destruct (port_dispatch 3%nat c 0x61 0 ltac:(done)) as (_ & H1 & _).
  apply H1. exists 0. split; [split; done|reflexivity].
Defined.

(** An archive of a machine with a value in AX, loaded in another one. *)
Lemma save_load_round_trip_witness :
  let c := mk_cpu (bench [0x90] 0 [7] [(AX, 0x1234); (DI, 5)] ZF) 3 in
  let c' := mk_cpu (bench [0xf4] 0 [9] [] 0) 8 in
  exists ar c2, save c = Ok ar c /\ load ar c' = Ok tt c2 /\ cpu_get c2 AX = cpu_get c AX.
Proof.
  intros c c'. destruct (save_load_round_trip c c') as (ar & c2 & H1 & H2 & _ & H3 & _);
    [wf_bench|wf_bench|].
  exists ar, c2. split; [exact H1|]. split; [exact H2|apply H3].
Defined.
