(* ===== verification/Backends.v ===== *)
(** * Two processors behind one interface

    [SoftwareCPU] and [RTLCPU] keep the same contract of [SimCPU]; an archive
    goes from one to the other. *)
From S2P Require Import Prelude Config MainMemory Registers ErrorState IOPorts SimCPU SimCPUProps.
From S2P Require Import VerilogDriver RTLCPU DriverProps RTLProps Bench RTLBench.
From S2P Require Import Machine SoftwareCPU CPUProps.

Section backends.
Context {CFG : Config} {RTL : RTLModel} {DU : DebugUnit}.
Context {D1 : Type} {IOP1 : IOPorts D1} {D2 : Type} {IOP2 : IOPorts D2}.
Context (dv : D2) (patience : nat) (Hpatience : (longest + 2 < patience)%nat).

#[local] Instance rtl_cpu : SimCPU (rtlcpu (D := D2)) := rtlcpu_simcpu patience.
#[local] Instance rtl_laws : SimCPULaws (rtlcpu (D := D2)) := rtlcpu_laws dv patience Hpatience.

(** C23. Archives are transferable between the backends. What [SimCPU::save] makes of
    a [SoftwareCPU], [SimCPU::load] restores in an [RTLCPU] whose debug unit
    waits, and the other way round: both calls return, the memory is that of the
    saved processor, every register (byte registers included) and FLAGS read
    as they did there, and the saved object shows what it showed. The
    circuit gets its registers only through the debug procedures, cycle by cycle, while it may
    read memory ahead. *)
Theorem archives_are_transferable (c : cpu D1) (s : rtlcpu (D := D2)) m rf n :
  RegisterFile.wf (registers (pimpl c)) -> rtl_shows dv (15 + n) m rf s ->
  (exists ar c1 s1 rf1,
    save c = Ok ar c1 /\ mem (pimpl c1) = mem (pimpl c) /\ registers (pimpl c1) = registers (pimpl c) /\
    load ar s = Ok tt s1 /\ rtl_shows dv n (mem (pimpl c)) rf1 s1 /\
    (forall r, RegisterFile.get rf1 r = cpu_get c r) /\
    RegisterFile.get_flags rf1 = RegisterFile.get_flags (registers (pimpl c))) /\
  (exists ar s1 c1,
    save s = Ok ar s1 /\ rtl_shows dv n m rf s1 /\
    load ar c = Ok tt c1 /\ mem (pimpl c1) = m /\
    (forall r, cpu_get c1 r = RegisterFile.get rf r) /\
    RegisterFile.get_flags (registers (pimpl c1)) = RegisterFile.get_flags rf).
Proof using Hpatience.
  intros Hc Hs. set (rfc := registers (pimpl c)) in *. assert (Hrf : RegisterFile.wf rf) by apply Hs.
  assert (Hshow : shows (15 + n) (mem (pimpl c)) rfc c) by done. split.
  - destruct (save_shows n _ _ c Hshow) as (c1 & E1 & H1).
    destruct (load_shows (L := rtl_laws) n (mem (pimpl c)) m rfc rf s Hs) as (s1 & E2 & H2).
    exists (archive_of (mem (pimpl c)) rfc), c1, s1, (restored rfc rf).
    destruct H1 as (_ & M1 & R1). split_and!; [exact E1|exact M1|exact R1|exact E2|exact H2| |by apply restored_flags].
    intros r. by apply restored_get.
  - destruct (save_shows (L := rtl_laws) n _ _ s Hs) as (s1 & E1 & H1).
    destruct (load_shows n m (mem (pimpl c)) rf rfc c Hshow) as (c1 & E2 & H2).
    exists (archive_of m rf), s1, c1. destruct H2 as (_ & M2 & R2).
    split_and!; [exact E1|exact H1|exact E2|exact M2| |rewrite R2; by apply restored_flags].
    intros r. unfold cpu_get. rewrite R2. by apply restored_get.
Qed.
End backends.

(** ** Witnesses *)

Definition circuit_file : RegisterFile.t :=
  RegisterFile.set_flags (set_regs [(AX, 0x1234); (DS, 0x40)] RegisterFile.create) 0x41 0xffff.

Lemma circuit_file_wf : RegisterFile.wf circuit_file.
Proof. by apply RegisterFile.wf_set_flags, wf_set_regs, RegisterFile.registers_wf_create. Qed.

Lemma circuit_patience : (longest (DebugUnit := circuit_unit circuit_file) + 2 < 8)%nat.
Proof. cbn. lia. Qed.

(** AH is written by reading AX and writing it back. *)
Lemma debug_accessors_refine_registers_witness :
  (exists s, rtl_write_reg 8 AH 0x5a (circuit_cpu circuit_file) = Ok tt s /\
    rests (Memory.create false) () (RegisterFile.set circuit_file AH 0x5a) 12 s) /\
  RegisterFile.get (RegisterFile.set circuit_file AH 0x5a) AX = 0x5a34.
Proof.
  split; [|by vm_compute].
  destruct (debug_accessors_refine_registers (Memory.create false) () 8 circuit_patience circuit_file circuit_file_wf) as (_ & Hw & _).
  destruct (Hw AH 0x5a 3 _ (circuit_cpu_rests circuit_file) ltac:(done)) as (cyc & s & Hcyc & E & Hs).
  exists s. split; [exact E|]. change (RegisterFile.set circuit_file AH (u16 0x5a)) with (RegisterFile.set circuit_file AH 0x5a) in Hs.
  destruct Hs as (a & x & t & Hs). assert (cyc = 12) as ->; [|by exists a, x, t].
  pose proof (dr_cycle _ _ _ _ Hs) as Hc. cbn [ready v_cycle] in Hc.
  assert (H : (fun s => cycle_num (drv s)) <$> state_of (rtl_write_reg 8 AH 0x5a (circuit_cpu circuit_file)) = Some 12)
    by by vm_compute.
  rewrite E in H. injection H as H. congruence.
Defined.

(** A machine with a value in AX, and the circuit with another: both ways. *)
Lemma archives_are_transferable_witness :
  let c := mk_cpu (bench [0x90] 0 [7] [(AX, 0x4321); (DI, 5)] ZF) 3 in
  let s := circuit_cpu circuit_file in
  (exists ar c1 s1, save c = Ok ar c1 /\
    load (CPU := rtlcpu_simcpu (IOP := no_devices) 8) ar s = Ok tt s1 /\
    mem (pimpl c1) = mem (pimpl c)) /\
  (exists ar s1 c1, save (CPU := rtlcpu_simcpu (IOP := no_devices) 8) s = Ok ar s1 /\
    load ar c = Ok tt c1 /\ cpu_get c1 AH = 0x12 /\ cpu_get c1 DS = 0x40).
Proof.
  intros c s.
  assert (Hs : rtl_shows () (15 + 0) (Memory.create false) circuit_file s).
  { split; [apply circuit_file_wf|]. exists 3. split; [apply circuit_cpu_rests|by vm_compute]. }
  destruct (archives_are_transferable () 8 circuit_patience c s _ _ 0 ltac:(wf_bench) Hs)
    as [(ar & c1 & s1 & rf1 & E1 & M1 & _ & E2 & _) (ar' & s1' & c1' & E1' & _ & E2' & _ & G & _)].
  split; [exists ar, c1, s1; split; [exact E1|split; [exact E2|exact M1]]|].
  exists ar', s1', c1'. split; [exact E1'|]. split; [exact E2'|]. split; (etransitivity; [apply G|by vm_compute]).
Defined.
