(* ===== verification/MulDivProps.v ===== *)
(** * Multiplication and division as integer arithmetic *)
From S2P Require Import Prelude Config MainMemory Registers ErrorState IOPorts Machine ModRM Core.
From S2P Require Import Safety Decoder CoreSafe Stack Bench Alu AluProps AluTable InsnMulDiv ControlProps.

(** The value of a [w]-bit pattern, unsigned or signed. *)
Definition value_of_bits (sgn : bool) (w x : Z) : Z := if sgn then signed w x else x.

(** ** The two instructions *)

Section muldiv.
Context {CFG : Config} {D : Type} {IOP : IOPorts D}.
Implicit Types m : machine D.

Definition accumulator (T : ctype) : GPR := if bool_decide (T = uint8_t) then AL else AX.

(** A double-width value goes to AX, or to DX:AX. *)
Definition set_double (T : ctype) (p : Z) : emu D unit :=
  if bool_decide (T = uint8_t) then registers_set AX p
  else registers_set AX (p mod 65536) ;; registers_set DX (p / 65536).

Definition get_double (T : ctype) : emu D Z :=
  if bool_decide (T = uint8_t) then registers_get AX
  else
    dx ← registers_get DX ;
    ax ← registers_get AX ;
    mret (dx * 65536 + ax).

(** CF and OF say that the upper half of the pattern is not zero; ZF is cleared. *)
Definition mul_flags (T : ctype) (p : Z) : emu D unit :=
  registers_set_flags (if 2 ^ width T <=? p then CF .| OF else 0) (OF .| CF .| ZF).

Definition mul_insn (T : ctype) (sgn : bool) : emu D unit :=
  v ← read_data T false ;
  a ← registers_get (accumulator T) ;
  let w := width T in
  let p := (value_of_bits sgn w v * value_of_bits sgn w a) mod 2 ^ (2 * w) in
  set_double T p ;;
  mul_flags T p.

(** The three-operand IMUL, by an immediate of the given type. *)
Definition imul_insn (I : ctype) : emu D unit :=
  set_width OP_WIDTH_16 ;;
  decode ;;
  v ← read_data uint16_t false ;
  i ← (if bool_decide (I = uint8_t) then fetch_byte else fetch_16bit) ;
  let p := (signed 16 v * signed (width I) i) mod 2 ^ 32 in
  r ← reg ;
  registers_set r (p mod 65536) ;;
  mul_flags uint16_t p.

Definition set_quotient (T : ctype) (q r : Z) : emu D unit :=
  if bool_decide (T = uint8_t) then registers_set AH r ;; registers_set AL q
  else registers_set DX r ;; registers_set AX q.

(** The quotients that fit the accumulator. *)
Definition fits (sgn : bool) (w q : Z) : bool :=
  if sgn then (- 2 ^ (w - 1) <=? q) && (q <? 2 ^ (w - 1)) else q <? 2 ^ w.

(** Division rounds towards zero and the remainder has the sign of the
    dividend; zero and a quotient that does not fit are a divide error, whose
    return address is the division itself. *)
Definition div_insn (T : ctype) (sgn : bool) : emu D unit :=
  v ← read_data T false ;
  a ← get_double T ;
  let w := width T in
  let d := value_of_bits sgn w v in
  let n := value_of_bits sgn (2 * w) a in
  if (n =? - 2 ^ 31) && (d =? -1) then throw SignedOverflow
  else if negb (d =? 0) && fits sgn w (Z.quot n d) then set_quotient T (Z.quot n d) (Z.rem n d)
  else m ← gets id ; interrupt_entry VEC_DIVIDE_ERROR (this_ip m).

End muldiv.

(** ** Arithmetic *)

Lemma signed_s8 x : 0 <= x < 256 -> s8 x = signed 8 x.
Proof. intros Hx. unfold signed. change (2 ^ (8 - 1)) with 128. change (2 ^ 8) with 256. zcmp; cpp_lia. Qed.
Lemma signed_s16 x : 0 <= x < 65536 -> s16 x = signed 16 x.
Proof.
  intros Hx. unfold signed. change (2 ^ (16 - 1)) with 32768. change (2 ^ 16) with 65536. zcmp; cpp_lia.
Qed.
Lemma signed_s32 x : 0 <= x < 2 ^ 32 -> s32 x = signed 32 x.
Proof.
  intros Hx. unfold signed. change (2 ^ (32 - 1)) with 2147483648. change (2 ^ 32) with 4294967296 in *.
  zcmp; cpp_lia.
Qed.

(** Evaluate the powers of two of the widths. *)
Ltac zpow :=
  repeat match goal with
  | |- context [2 ^ ?e] => let v := eval vm_compute in (2 ^ e) in change (2 ^ e) with v
  end.

Lemma sign_extend_eq Out In w v :
  In = uint8_t \/ In = uint16_t \/ In = int8_t \/ In = int16_t -> Out = int16_t \/ Out = int32_t ->
  width In = w -> w < width Out -> 0 <= v < 2 ^ w -> sign_extend Out In v = signed w v.
Proof.
  intros HI HO <- Hw Hv. unfold sign_extend, signed. rewrite Z.shiftr_div_pow2, Z.shiftl_mul_pow2;
    try (destruct HI as [->|[->|[->| ->]]], HO as [->| ->]; unfold width in *; cbn in *; lia).
  destruct HI as [->|[->|[->| ->]]], HO as [->| ->]; try (unfold width in *; cbn in *; lia);
    clear Hw; revert Hv; unfold width, sizeof; cbn [Z.mul Z.sub Z.add Z.opp Z.pos_sub Pos.pred_double
      Pos.mul Pos.add Pos.sub Pos.sub_mask]; zpow; intros Hv; zcmp; cpp_lia.
Qed.

(** The upper half of a double-width pattern. *)
Lemma upper_half w p :
  0 < w -> 0 <= p < 2 ^ (2 * w) -> nz (p .& (2 ^ (w + w) - 2 ^ w)) = (2 ^ w <=? p).
Proof.
  intros Hw Hp. assert (E : p .& (2 ^ (w + w) - 2 ^ w) = p / 2 ^ w * 2 ^ w).
  { apply Z.bits_inj'. intros i Hi. rewrite Z.land_spec, testbit_field by lia.
    replace (p / 2 ^ w * 2 ^ w) with (p / 2 ^ w * 2 ^ w + 0) by lia.
    rewrite testbit_concat by lia. rewrite Z.bits_0.
    destruct (Z.ltb_spec i w); zcmp; rewrite ?andb_false_r; try done.
    - rewrite Z.div_pow2_bits by lia. rewrite andb_true_r. f_equal. lia.
    - rewrite Z.div_pow2_bits by lia. rewrite (testbit_high (2 * w)); [done|lia|lia]. }
  rewrite E. unfold nz. assert (0 < 2 ^ w) by lia.
  destruct (Z.eqb_spec (p / 2 ^ w * 2 ^ w) 0), (Z.leb_spec (2 ^ w) p); cbn; try done; exfalso.
  - assert (1 <= p / 2 ^ w) by (apply Z.div_le_lower_bound; lia). nia.
  - rewrite Z.div_small in * by lia. lia.
Qed.

(** ** Multiplication *)

Section multiplication.
Context {CFG : Config} {D : Type} {IOP : IOPorts D}.
Implicit Types m : machine D.

Lemma do_mul_eq T v1 v2 m :
  in_range int32_t v1 -> in_range int32_t v2 ->
  exists fl, do_mul T v1 v2 m = Ok (fl, cast T (u32 (v1 * v2))) m.
Proof.
  intros H1 H2. eexists. unfold do_mul, do_alu. rewrite run_bind, run_registers_get_flags.
  unfold mret, M_ret. f_equal. rewrite (surjective_pairing (alu_compute _ _ _ _ _ _)). f_equal.
  change (snd (alu_compute ?T ?o ?f ?a ?b ?c)) with (cast T (u32 (o (u32 a) (u32 b) (u32 c)))).
  unfold op_mul. rewrite !(cast_id int32_t) by auto with cpp. rewrite cast_idemp. f_equal.
  rewrite !u32_mod. symmetry. apply Z.mul_mod. lia.
Qed.

(** The flags of all six: only CF, OF and ZF are looked at. *)
Lemma mul_flags_eq T p b fl m :
  wf m -> b = (2 ^ width T <=? p) ->
  registers_set_flags (or_flag b (CF .| OF) (u16 (fl .& ~. (CF .| OF .| ZF)))) (OF .| CF .| ZF) m =
    mul_flags T p m.
Proof.
  intros Hm ->. unfold mul_flags. rewrite !run_registers_set_flags. do 2 f_equal.
  apply set_flags_ext; [apply Hm|]. intros i Hi Hmask.
  assert (E : Z.testbit (u16 (fl .& ~. (CF .| OF .| ZF))) i = false).
  { rewrite cast_u_testbit, Z.land_spec, Z.lnot_spec by (done || lia).
    rewrite (Z.lor_comm CF OF), Hmask. by rewrite !andb_false_r. }
  unfold or_flag. destruct (_ <=? _).
  - rewrite cast_u_testbit, Z.lor_spec, E by (done || lia).
    change (width uint16_t) with 16. zcmp. by rewrite orb_false_l.
  - by rewrite E, Z.bits_0.
Qed.

Lemma high_half_32 x : (x .>> 16) .& 0xffff = x / 65536 mod 65536.
Proof. rewrite Z.shiftr_div_pow2 by lia. by apply (land_mask 16). Qed.

(** The part of an instruction after its product is known. *)
Lemma product8 b fl p m :
  wf m -> 0 <= p < 65536 -> b = nz (p .& 0xff00) ->
  (registers_set AX p ;;
   registers_set_flags (or_flag b (CF .| OF) (u16 (fl .& ~. (CF .| OF .| ZF)))) (OF .| CF .| ZF)) m =
  (set_double uint8_t p ;; mul_flags uint8_t p) m.
Proof.
  intros Hm Hp ->. unfold set_double. rewrite bool_decide_true by done.
  rewrite !run_bind, run_registers_set. apply mul_flags_eq.
  - apply wf_set_registers; [done|]. apply RegisterFile.wf_set, Hm.
  - exact (upper_half 8 p ltac:(lia) Hp).
Qed.

Lemma product16 b fl p m :
  wf m -> 0 <= p < 2 ^ 32 -> b = nz (p .& 0xffff0000) ->
  (registers_set AX (p .& 0xffff) ;;
   registers_set DX ((p .>> 16) .& 0xffff) ;;
   registers_set_flags (or_flag b (CF .| OF) (u16 (fl .& ~. (CF .| OF .| ZF)))) (OF .| CF .| ZF)) m =
  (set_double uint16_t p ;; mul_flags uint16_t p) m.
Proof.
  intros Hm Hp ->. unfold set_double. rewrite bool_decide_false by done.
  rewrite high_half_32. rewrite (land_mask 16 p 0xffff) by done. change (2 ^ 16) with 65536.
  rewrite (Z.mod_small (p / 65536)) by (change (2 ^ 32) with 4294967296 in Hp; zlia).
  rewrite (run_bind (registers_set AX _ ;; _)). rewrite !(run_bind (registers_set AX _)).
  rewrite run_registers_set. rewrite (run_bind (registers_set DX _)), run_registers_set.
  apply mul_flags_eq.
  - apply wf_set_registers; [apply wf_set_registers; [done|apply RegisterFile.wf_set, Hm]|].
    apply RegisterFile.wf_set, RegisterFile.wf_set, Hm.
  - exact (upper_half 16 p ltac:(lia) Hp).
Qed.
End multiplication.

Section instructions.
#[local] Set Default Proof Using "Type*".
Context {CFG : Config} {D : Type} {IOP : IOPorts D} {SAFE : IOPortsSafe D}.
Implicit Types m : machine D.

(** From the operands on: the product is taken modulo the double width. *)
Lemma product_mod T v a w :
  width T = w -> is_signed T = false -> 0 < w <= 32 ->
  cast T (u32 (v * a)) = (v * a) mod 2 ^ w.
Proof.
  intros <- Hs Hw. unfold cast at 1, wrap_u. rewrite Hs, u32_mod.
  change 4294967296 with (2 ^ 32). replace 32 with (width T + (32 - width T)) by lia.
  rewrite Z.pow_add_r by lia. apply Z.mod_mod_divide. by exists (2 ^ (32 - width T)); lia.
Qed.

Ltac operand := eapply bind_ext_safe;
  [apply (safe_read_data anything decoded), entails_refl|done|intros v m1 Hv [Hm1 Hd1]].

Lemma mulf6_eq m : inv decoded m -> mulf6 m = mul_insn uint8_t false m.
Proof.
  intros Hm. unfold mulf6, mul_insn. operand. unfold accumulator. rewrite bool_decide_true by done.
  rewrite !(run_bind (registers_get AL)), run_registers_get.
  pose proof (RegisterFile.get_range _ AL (wf_registers _ Hm1)) as Ha.
  change (RegisterFile.gpr_type AL) with uint8_t in Ha.
  generalize dependent (RegisterFile.get (registers m1) AL). intros a Ha.
  destruct (do_mul_eq uint16_t v a m1 ltac:(cpp_lia) ltac:(cpp_lia)) as [fl E].
  rewrite run_bind, E. cbn [value_of_bits]. rewrite (product_mod uint16_t _ _ 16) by done.
  apply product8; [done|apply Z.mod_pos_bound; lia|done].
Qed.

Lemma imulf6_eq m : inv decoded m -> imulf6 m = mul_insn uint8_t true m.
Proof.
  intros Hm. unfold imulf6, mul_insn.
  rewrite run_bind, run_registers_get_flags, (fmap_bind (read_data _ _) _ _ m).
  operand. unfold accumulator. rewrite bool_decide_true by done.
  rewrite (fmap_bind (registers_get AL) _ _ m1), !(run_bind (registers_get AL)), run_registers_get.
  pose proof (RegisterFile.get_range _ AL (wf_registers _ Hm1)) as Ha.
  change (RegisterFile.gpr_type AL) with uint8_t in Ha.
  generalize dependent (RegisterFile.get (registers m1) AL). intros a Ha.
  rewrite in_u8 in Hv, Ha. rewrite !(sign_extend_eq _ _ 8) by (done || auto).
  destruct (do_mul_eq int16_t (signed 8 v) (signed 8 a) m1) as [fl' E];
    [rewrite <- signed_s8 by done; cpp_lia..|].
  rewrite run_bind, E. cbn [value_of_bits].
  replace (u16 (cast int16_t _)) with (u16 (u32 (signed 8 v * signed 8 a))) by cpp_lia.
  rewrite (product_mod uint16_t _ _ 16) by done.
  apply product8; [done|apply Z.mod_pos_bound; lia|done].
Qed.

Ltac accumulator_AX :=
  unfold accumulator; rewrite bool_decide_false by done.

Lemma mulf7_eq m : inv decoded m -> mulf7 m = mul_insn uint16_t false m.
Proof.
  intros Hm. unfold mulf7, mul_insn. operand. accumulator_AX.
  rewrite !(run_bind (registers_get AX)), run_registers_get.
  pose proof (RegisterFile.get_range _ AX (wf_registers _ Hm1)) as Ha.
  change (RegisterFile.gpr_type AX) with uint16_t in Ha.
  generalize dependent (RegisterFile.get (registers m1) AX). intros a Ha.
  destruct (do_mul_eq uint32_t v a m1 ltac:(cpp_lia) ltac:(cpp_lia)) as [fl E].
  rewrite run_bind, E. cbn [value_of_bits]. rewrite (product_mod uint32_t _ _ 32) by done.
  apply product16; [done|apply Z.mod_pos_bound; lia|done].
Qed.

(** The product of two signed words fits an [int]. *)
Lemma product_s32 v a :
  0 <= v < 65536 -> 0 <= a < 65536 ->
  u32 (s32 (u32 (signed 16 v * signed 16 a))) = (signed 16 v * signed 16 a) mod 2 ^ 32.
Proof.
  intros Hv Ha. generalize (signed 16 v * signed 16 a). intros p.
  change (2 ^ 32) with 4294967296. cpp_lia.
Qed.

Lemma imulf7_eq m : inv decoded m -> imulf7 m = mul_insn uint16_t true m.
Proof.
  intros Hm. unfold imulf7, mul_insn.
  rewrite run_bind, run_registers_get_flags, (fmap_bind (read_data _ _) _ _ m).
  operand. accumulator_AX.
  rewrite (fmap_bind (registers_get AX) _ _ m1), !(run_bind (registers_get AX)), run_registers_get.
  pose proof (RegisterFile.get_range _ AX (wf_registers _ Hm1)) as Ha.
  change (RegisterFile.gpr_type AX) with uint16_t in Ha.
  generalize dependent (RegisterFile.get (registers m1) AX). intros a Ha.
  rewrite in_u16 in Hv, Ha. rewrite !(sign_extend_eq _ _ 16) by (done || auto).
  destruct (do_mul_eq int32_t (signed 16 v) (signed 16 a) m1) as [fl' E];
    [rewrite <- signed_s16 by done; cpp_lia..|].
  rewrite run_bind, E. cbn [value_of_bits]. rewrite product_s32 by done.
  apply product16; [done|apply Z.mod_pos_bound; lia|done].
Qed.

(** The tail of the three-operand forms. *)
Lemma imul_tail v i m fl :
  inv decoded m -> in_range uint16_t v ->
  - 32768 <= i < 32768 ->
  ('(_, result) ← do_mul int32_t (signed 16 v) i ;
   let result := u32 result in
   let flags := u16 (fl .& ~. (CF .| OF .| ZF)) in
   let flags := or_flag (nz (result .& 0xffff0000)) (CF .| OF) flags in
   r ← reg ;
   registers_set r (result .& 0xffff) ;;
   registers_set_flags flags (OF .| CF .| ZF)) m =
  (let p := (signed 16 v * i) mod 2 ^ 32 in
   r ← reg ;
   registers_set r (p mod 65536) ;;
   mul_flags uint16_t p) m.
Proof.
  intros Hm Hv Hi. rewrite in_u16 in Hv.
  destruct (do_mul_eq int32_t (signed 16 v) i m) as [fl' E];
    [rewrite <- signed_s16 by done; cpp_lia|cpp_lia|].
  rewrite run_bind, E. cbv zeta.
  replace (u32 (s32 (u32 (signed 16 v * i)))) with ((signed 16 v * i) mod 2 ^ 32)
    by (change (2 ^ 32) with 4294967296; cpp_lia).
  set (p := _ mod 2 ^ 32). assert (Hp : 0 <= p < 2 ^ 32) by (apply Z.mod_pos_bound; lia).
  rewrite (land_mask 16 p 0xffff) by done. change (2 ^ 16) with 65536.
  eapply bind_ext_safe; [apply (safe_reg anything decoded), entails_refl|done|].
  intros r m1 _ [Hm1 _]. rewrite !(run_bind (registers_set r _)), run_registers_set.
  apply mul_flags_eq; [apply wf_set_registers; [done|apply RegisterFile.wf_set, Hm1]|].
  exact (upper_half 16 p ltac:(lia) Hp).
Qed.

Ltac imul_operands Hm :=
  eapply bind_ext_safe; [apply (safe_set_width anything any)|by split|intros _ m2 _ Hm2];
  eapply bind_ext_safe; [apply (safe_decode anything)|done|intros _ m3 _ Hm3];
  rewrite run_bind, run_registers_get_flags; cbv beta;
  match goal with |- _ ?m = _ => rewrite (fmap_bind (read_data _ _) _ _ m) end;
  eapply bind_ext_safe;
    [apply (safe_read_data anything decoded), entails_refl|done|intros v m1 Hv Hm1].

Lemma imul69_eq m : wf m -> imul69 m = imul_insn uint16_t m.
Proof.
  intros Hm. unfold imul69, imul_insn. rewrite (bool_decide_false (uint16_t = uint8_t)) by done.
  imul_operands Hm. rewrite (fmap_bind fetch_16bit _ _ m1).
  eapply bind_ext_safe; [apply (safe_fetch_16bit anything decoded)|done|intros i m4 Hi Hm4].
  rewrite in_u16 in Hv, Hi. rewrite !(sign_extend_eq _ _ 16) by (done || auto).
  apply imul_tail; [done|done|]. rewrite <- signed_s16 by done. cpp_lia.
Qed.

Lemma imul6b_eq m : wf m -> imul6b m = imul_insn uint8_t m.
Proof.
  intros Hm. unfold imul6b, imul_insn. rewrite (bool_decide_true (uint8_t = uint8_t)) by done.
  imul_operands Hm. rewrite (fmap_bind fetch_byte _ _ m1).
  eapply bind_ext_safe; [apply (safe_fetch_byte anything decoded)|done|intros i m4 Hi Hm4].
  rewrite in_u16 in Hv. rewrite in_u8 in Hi.
  rewrite (sign_extend_eq _ _ 16), (sign_extend_eq _ _ 8) by (done || auto).
  apply imul_tail; [done|done|]. rewrite <- signed_s8 by done. cpp_lia.
Qed.

(** C26. MUL and IMUL, at 8 and 16 bits and with an immediate: AX, or DX:AX,
    receives the product of the unsigned or the signed values modulo the double
    width (the three-operand forms keep its low word in their register); CF
    and OF say whether the upper half of that pattern has a bit set, ZF is
    cleared, and the other flags are kept. *)
Theorem multiplications m :
  (inv decoded m ->
     mulf6 m = mul_insn uint8_t false m /\ mulf7 m = mul_insn uint16_t false m /\
     imulf6 m = mul_insn uint8_t true m /\ imulf7 m = mul_insn uint16_t true m) /\
  (wf m -> imul69 m = imul_insn uint16_t m /\ imul6b m = imul_insn uint8_t m).
Proof.
  split; intros Hm; split_and!;
    auto using mulf6_eq, mulf7_eq, imulf6_eq, imulf7_eq, imul69_eq, imul6b_eq.
Qed.

(** ** Division *)

Lemma word_pair hi lo :
  0 <= hi < 65536 -> 0 <= lo < 65536 -> u32 (u32 hi .<< 16) .| lo = hi * 65536 + lo.
Proof.
  intros Hh Hl. rewrite (cast_id _ hi) by cpp_lia. rewrite Z.shiftl_mul_pow2 by lia.
  change (2 ^ 16) with 65536. rewrite (cast_id _ (hi * 65536)) by cpp_lia.
  apply Z.bits_inj'. intros i Hi. rewrite Z.lor_spec. change 65536 with (2 ^ 16).
  rewrite testbit_concat by lia. replace (hi * 2 ^ 16) with (hi * 2 ^ 16 + 0) by lia.
  rewrite testbit_concat by lia. rewrite Z.bits_0.
  destruct (Z.ltb_spec i 16); [done|]. by rewrite (testbit_high 16 lo), orb_false_r by lia.
Qed.

(** Both ways out of a division: the registers, or the divide error. *)
Lemma division_tail (traps : bool) T sgn v a (code : emu D unit) m :
  wf m ->
  let w := width T in
  let d := value_of_bits sgn w v in
  let n := value_of_bits sgn (2 * w) a in
  (n =? - 2 ^ 31) && (d =? -1) = false ->
  traps = negb (negb (d =? 0) && fits sgn w (Z.quot n d)) ->
  (traps = false -> code m = set_quotient T (Z.quot n d) (Z.rem n d) m) ->
  (if traps then entry_this VEC_DIVIDE_ERROR (mret ()) else code) m =
  (if (n =? - 2 ^ 31) && (d =? -1) then throw SignedOverflow
   else if negb (d =? 0) && fits sgn w (Z.quot n d)
   then set_quotient T (Z.quot n d) (Z.rem n d)
   else m ← gets id ; interrupt_entry VEC_DIVIDE_ERROR (this_ip m)) m.
Proof.
  intros Hm w d n -> -> Hcode. destruct (negb (d =? 0) && _); cbn [negb]; [by apply Hcode|].
  rewrite entry_this_eq, run_bind by done.
  transitivity (interrupt_entry VEC_DIVIDE_ERROR (this_ip m) m); [|done].
  by destruct (interrupt_entry _ _ m) as [[] ?|].
Qed.

(** Unsigned quotients: the test of the code, and its conversions. *)
Lemma unsigned_quotient w a v :
  0 < w -> 0 <= a < 2 ^ (2 * w) -> 0 < v < 2 ^ w ->
  nz (Z.quot a v .& (2 ^ (w + w) - 2 ^ w)) = (2 ^ w <=? Z.quot a v) /\
  0 <= Z.quot a v /\ 0 <= Z.rem a v < 2 ^ w.
Proof.
  intros Hw Ha Hv.
  assert (0 <= Z.quot a v <= a) by (split; [apply Z.quot_pos; lia|apply Z.quot_le_upper_bound; nia]).
  pose proof (Z.rem_bound_pos a v ltac:(lia) ltac:(lia)).
  split; [apply upper_half; lia|lia].
Qed.

(** The conditions under which an unsigned division traps. *)
Lemma unsigned_traps w a v :
  0 < w -> 0 <= a < 2 ^ (2 * w) -> 0 <= v < 2 ^ w ->
  (v =? 0) || nz (Z.quot a v .& (2 ^ (w + w) - 2 ^ w)) =
    negb (negb (v =? 0) && fits false w (Z.quot a v)).
Proof.
  intros Hw Ha Hv. destruct (Z.eqb_spec v 0) as [|Hv0]; [done|]. cbn [orb negb andb fits].
  destruct (unsigned_quotient w a v) as (-> & _); [done|done|lia|]. by zcmp.
Qed.

Lemma no_overflow sgn T v a :
  T = uint8_t \/ sgn = false -> 0 <= a < 2 ^ (2 * width T) ->
  (value_of_bits sgn (2 * width T) a =? - 2 ^ 31) && (value_of_bits sgn (width T) v =? -1) = false.
Proof.
  intros [-> | ->] Ha; [|cbn [value_of_bits]; zcmp; done].
  revert Ha. unfold value_of_bits, signed, width, sizeof. zpow. intros Ha.
  destruct sgn; zcmp; done.
Qed.

Lemma divf6_eq m : inv decoded m -> divf6 m = div_insn uint8_t false m.
Proof.
  intros Hm. unfold divf6, div_insn. operand. unfold get_double. rewrite bool_decide_true by done.
  rewrite !(run_bind (registers_get AX)), run_registers_get.
  pose proof (RegisterFile.get_range _ AX (wf_registers _ Hm1)) as Ha.
  change (RegisterFile.gpr_type AX) with uint16_t in Ha.
  generalize dependent (RegisterFile.get (registers m1) AX). intros a Ha.
  refine (division_tail _ uint8_t false v a _ m1 Hm1 (no_overflow _ _ _ _ _ _)
            (unsigned_traps 8 a v _ _ _) _); [by left|exact Ha|done|exact Ha|exact Hv|].
  intros [Hv0 Hq]%orb_false_iff. apply Z.eqb_neq in Hv0. rewrite in_u8 in Hv.
  destruct (unsigned_quotient 8 a v) as (E & ? & ?); [done|done|lia|].
  rewrite Hq in E. symmetry in E.
  apply Z.leb_gt in E. change (2 ^ 8) with 256 in *. unfold set_quotient.
  rewrite bool_decide_true, !(cast_id uint8_t) by (done || rewrite in_u8; lia). done.
Qed.

Lemma divf7_eq m : inv decoded m -> divf7 m = div_insn uint16_t false m.
Proof.
  intros Hm. unfold divf7, div_insn. operand. unfold get_double. rewrite bool_decide_false by done.
  rewrite (bind_assoc (registers_get DX) _ _ m1), !(run_bind (registers_get DX)), run_registers_get.
  rewrite (bind_assoc (registers_get AX) _ _ m1), !(run_bind (registers_get AX)), run_registers_get.
  pose proof (RegisterFile.get_range _ AX (wf_registers _ Hm1)) as Ha.
  pose proof (RegisterFile.get_range _ DX (wf_registers _ Hm1)) as Hd.
  change (RegisterFile.gpr_type _) with uint16_t in Ha, Hd. rewrite in_u16 in Ha, Hd.
  rewrite word_pair, (cast_id uint32_t) by (done || cpp_lia). rewrite bind_ret_l.
  set (a := _ * 65536 + _). assert (Hr : 0 <= a < 2 ^ (2 * 16)) by (change (2 ^ (2 * 16)) with 4294967296; unfold a; lia).
  clearbody a. clear Ha Hd.
  refine (division_tail _ uint16_t false v a _ m1 Hm1 (no_overflow _ _ _ _ _ _)
            (unsigned_traps 16 a v _ _ _) _); [by right|exact Hr|done|exact Hr|exact Hv|].
  intros [Hv0 Hq]%orb_false_iff. apply Z.eqb_neq in Hv0. rewrite in_u16 in Hv.
  destruct (unsigned_quotient 16 a v) as (E & ? & ?); [done|done|lia|].
  rewrite Hq in E. symmetry in E.
  apply Z.leb_gt in E. change (2 ^ 16) with 65536 in *. unfold set_quotient.
  rewrite bool_decide_false, !(cast_id uint16_t) by (done || rewrite in_u16; lia). done.
Qed.

(** Signed quotients and remainders fit as much as the code's conversions need. *)
Lemma signed_remainder w n d :
  - 2 ^ (w - 1) <= d < 2 ^ (w - 1) -> d <> 0 -> - 2 ^ (w - 1) <= Z.rem n d < 2 ^ (w - 1).
Proof.
  intros Hd Hd0. pose proof (Z.rem_bound_abs n d Hd0). lia.
Qed.

Lemma signed_traps w n d :
  (d =? 0) || (Z.quot n d <? - 2 ^ (w - 1)) || (2 ^ (w - 1) - 1 <? Z.quot n d) =
    negb (negb (d =? 0) && fits true w (Z.quot n d)).
Proof. unfold fits. destruct (d =? 0); cbn; zcmp; done. Qed.

Lemma idivf6_eq m : inv decoded m -> idivf6 m = div_insn uint8_t true m.
Proof.
  intros Hm. unfold idivf6, div_insn. rewrite (fmap_bind (read_data _ _) _ _ m). operand.
  unfold get_double. rewrite bool_decide_true by done.
  rewrite (fmap_bind (registers_get AX) _ _ m1), !(run_bind (registers_get AX)), run_registers_get.
  pose proof (RegisterFile.get_range _ AX (wf_registers _ Hm1)) as Ha.
  change (RegisterFile.gpr_type AX) with uint16_t in Ha.
  generalize dependent (RegisterFile.get (registers m1) AX). intros a Ha.
  rewrite in_u8 in Hv. rewrite signed_s8, signed_s16 by done.
  refine (division_tail _ uint8_t true v a _ m1 Hm1 (no_overflow _ _ _ _ _ _)
            (signed_traps 8 _ _) _); [by left|exact Ha|].
  intros [[Hv0 Hq1]%orb_false_iff Hq2]%orb_false_iff. apply Z.eqb_neq in Hv0.
  apply Z.ltb_ge in Hq1, Hq2. change (width uint8_t) with 8 in *. change (2 * 8) with 16 in *.
  cbn [value_of_bits] in *.
  assert (- 2 ^ (8 - 1) <= Z.rem (signed 16 a) (signed 8 v) < 2 ^ (8 - 1)).
  { apply signed_remainder; [|done]. rewrite <- signed_s8 by done. zpow. cpp_lia. }
  unfold set_quotient. rewrite bool_decide_true, !(cast_id int8_t); [done|..|done];
    rewrite in_s8; revert Hq1 Hq2 H; zpow; lia.
Qed.

(** [idiv r/m16] is the only division with an overflow of [int]. *)
Lemma idivf7_eq m : inv decoded m -> idivf7 m = div_insn uint16_t true m.
Proof.
  intros Hm. unfold idivf7, div_insn. rewrite (fmap_bind (read_data _ _) _ _ m). operand.
  unfold get_double. rewrite bool_decide_false by done.
  rewrite (bind_assoc (registers_get DX) _ _ m1), !(run_bind (registers_get DX)), run_registers_get.
  rewrite (bind_assoc (registers_get AX) _ _ m1), !(run_bind (registers_get AX)), run_registers_get.
  pose proof (RegisterFile.get_range _ AX (wf_registers _ Hm1)) as Ha.
  pose proof (RegisterFile.get_range _ DX (wf_registers _ Hm1)) as Hd.
  change (RegisterFile.gpr_type _) with uint16_t in Ha, Hd. rewrite in_u16 in Ha, Hd.
  rewrite word_pair by done. rewrite bind_ret_l.
  set (a := _ * 65536 + _). assert (Hr : 0 <= a < 2 ^ 32) by (change (2 ^ 32) with 4294967296; unfold a; lia).
  clearbody a. clear Ha Hd. rewrite in_u16 in Hv. rewrite (signed_s16 v), (signed_s32 a) by done.
  change (width uint16_t) with 16. change (2 * 16) with 32. cbn [value_of_bits].
  unfold int_div. change (-2147483648) with (- 2 ^ 31).
  destruct ((_ =? - 2 ^ 31) && _) eqn:Eo.
  { apply andb_true_iff in Eo as [_ E1%Z.eqb_eq]. rewrite E1. reflexivity. }
  transitivity ((if (signed 16 v =? 0) || (Z.quot (signed 32 a) (signed 16 v) <? - 2 ^ (16 - 1)) ||
                    (2 ^ (16 - 1) - 1 <? Z.quot (signed 32 a) (signed 16 v))
                 then entry_this VEC_DIVIDE_ERROR (mret ())
                 else registers_set DX (s16 (Z.rem (signed 32 a) (signed 16 v))) ;;
                      registers_set AX (s16 (Z.quot (signed 32 a) (signed 16 v)))) m1).
  { rewrite run_bind. change (- 2 ^ (16 - 1)) with (-32768). change (2 ^ (16 - 1) - 1) with 32767.
    destruct (signed 16 v =? 0); [done|]. cbn [orb]. rewrite run_bind. unfold mret at 1, M_ret at 1.
    destruct (_ <? -32768); [done|]. cbn [orb]. reflexivity. }
  refine (eq_trans (division_tail _ uint16_t true v a _ m1 Hm1 Eo (signed_traps 16 _ _) _) _).
  - intros [[Hv0 Hq1]%orb_false_iff Hq2]%orb_false_iff. apply Z.eqb_neq in Hv0.
    apply Z.ltb_ge in Hq1, Hq2.
    assert (- 2 ^ (16 - 1) <= Z.rem (signed 32 a) (signed 16 v) < 2 ^ (16 - 1)).
    { apply signed_remainder; [|done]. rewrite <- signed_s16 by done. zpow. cpp_lia. }
    change (width uint16_t) with 16 in *. change (2 * 16) with 32 in *. cbn [value_of_bits] in *.
    unfold set_quotient. rewrite bool_decide_false, !(cast_id int16_t); [done|..|done];
      rewrite in_s16; revert Hq1 Hq2 H; zpow; lia.
  - change (width uint16_t) with 16. change (2 * 16) with 32. cbn [value_of_bits]. by rewrite Eo.
Qed.

End instructions.

(** ** Witnesses *)

(** [mul %bl] and [idiv %bl] on a machine whose decoder holds their ModR/M byte. *)
Definition muldiv_bench (modrm : Z) (regs : list (GPR * Z)) : machine unit :=
  set_modrm_decoder (mk_modrm OP_WIDTH_8 modrm 0 false true) (bench [] 0 [] regs 0).

Lemma decoded_muldiv_bench modrm regs :
  0xc0 <= modrm < 256 -> inv decoded (muldiv_bench modrm regs).
Proof.
  intros Hm. assert (H : wf (bench [] 0 [] regs 0)) by wf_bench. split.
  - destruct H. split; try done. cbn. rewrite in_u8. lia.
  - split; [done|]. unfold is_mem_operand, muldiv_bench. cbn [modrm_decoder set_modrm_decoder mrm_modrm].
    replace (modrm .& 0xc0) with 0xc0; [done|].
    change 0xc0 with (2 ^ (6 + 2) - 2 ^ 6). apply Z.bits_inj'. intros i Hi.
    rewrite Z.land_spec, testbit_field by lia. zcmp; cbn [andb]; rewrite ?andb_false_r; try done.
    replace modrm with (3 * 2 ^ 6 + (modrm - 192)) by (change (2 ^ 6) with 64; lia).
    rewrite testbit_concat by (change (2 ^ 6) with 64; lia). zcmp. by enum_from i 6 2%nat.
Qed.

Lemma multiplications_witness :
  let m := muldiv_bench 0xe3 [(AX, 0xff); (BX, 0xff)] in
  mulf6 m = mul_insn uint8_t false m /\
  option_map (fun m => RegisterFile.get (registers m) AX) (state_of (mulf6 m)) = Some 0xfe01.
Proof.
  intros m. split; [|by vm_compute].
  destruct (proj1 (multiplications m) (decoded_muldiv_bench 0xe3 _ ltac:(lia))) as [H _]. exact H.
Defined.

