(* ===== verification/StorageProps.v ===== *)
(** * What the register file and the memory promise *)
From S2P Require Import Prelude Config MainMemory Registers.

Section registers.
Context {CFG : Config}.
Import RegisterFile.
Implicit Types rf : RegisterFile.t.

(** The halves of the four general words. *)
Definition halves : list (GPR * GPR * GPR) := [(AX, AH, AL); (CX, CH, CL); (DX, DH, DL); (BX, BH, BL)].

Lemma halves_eq rf w h l : wf rf -> (w, h, l) ∈ halves -> get rf w = 256 * get rf h + get rf l.
Proof.
  intros Hrf Hin. pose proof (reg16_range rf w Hrf) as Hw. rewrite !get_view by done.
  repeat (apply elem_of_cons in Hin as [[= -> -> ->]|Hin];
    [unfold view; cbn [is_byte is_high parent] in *; cbn [GPR_to_int]; cpp_lia|]).
  by apply elem_of_nil in Hin.
Qed.

Lemma set_has_written rf r v :
  has_written (set rf r v) = if decide (r = IP) then has_written rf else false.
Proof. unfold set, has_written. case_decide as H; [by subst r|]. by destruct r. Qed.

(** The architectural flags, and FLAGS as POPF and IRET leave it. *)
Lemma get_flags_testbit rf v mask i :
  wf rf -> 0 <= i ->
  Z.testbit (get_flags (set_flags rf v mask)) i =
    if Z.testbit valid_mask i && Z.testbit mask i then Z.testbit v i else Z.testbit (get_flags rf) i.
Proof.
  intros Hrf Hi. rewrite !get_flags_eq by auto using wf_set_flags. by apply set_flags_testbit.
Qed.

Lemma set_all_get_flags rf v :
  wf rf -> get_flags (set_flags rf v 0xffff) = (v .& valid_mask) .| FLAGS_STUCK_BITS.
Proof.
  intros Hrf. apply Z.bits_inj'. intros i Hi. rewrite get_flags_testbit by done.
  rewrite Z.lor_spec, Z.land_spec. destruct (Z.testbit valid_mask i) eqn:Hv; cbn [andb].
  - rewrite (stuck_valid i), orb_false_r, andb_true_r by done.
    replace (Z.testbit 0xffff i) with true; [done|]. symmetry.
    change 0xffff with (2 ^ (0 + 16) - 2 ^ 0). rewrite testbit_field by lia.
    destruct (Z.lt_ge_cases i 16); [by zcmp|].
    by rewrite (testbit_high 16 valid_mask) in Hv by (done || split; by vm_compute).
  - rewrite get_flags_eq, stuck_testbit by done. by rewrite andb_false_r.
Qed.

(** C28. The register file: a register reads back what was written, cut to
    its width; the byte registers are the halves of AX, BX, CX and DX, and a
    write changes no register it shares no storage with, and no flag. FLAGS:
    an update replaces the architectural flags of its mask and nothing else,
    the reserved bits always read as the configured constants, and no flag
    update touches a register. [has_written], though, is cleared by a write of
    a register other than IP, and set by an update of the flags only. *)
Theorem register_file_laws rf r v mask :
  wf rf ->
  wf (set rf r v) /\ wf (set_flags rf v mask) /\
  get (set rf r v) r = cast (gpr_type r) v /\
  (forall r', overlap r r' = false -> get (set rf r v) r' = get rf r') /\
  (forall w h l, (w, h, l) ∈ halves -> get rf w = 256 * get rf h + get rf l) /\
  get_flags (set rf r v) = get_flags rf /\
  (forall i, 0 <= i -> Z.testbit (get_flags (set_flags rf v mask)) i =
     if Z.testbit valid_mask i && Z.testbit mask i then Z.testbit v i
     else Z.testbit (get_flags rf) i) /\
  get_flags (set_flags rf v 0xffff) = (v .& valid_mask) .| FLAGS_STUCK_BITS /\
  (forall r', get (set_flags rf v mask) r' = get rf r') /\
  has_written (set rf r v) = (if decide (r = IP) then has_written rf else false) /\
  has_written (set_flags rf v mask) = true.
Proof.
  intros Hrf. split_and!; [by apply wf_set|by apply wf_set_flags|by apply get_set_eq| | |
    apply get_flags_set| |by apply set_all_get_flags| |apply set_has_written|done].
  - intros r'. by apply get_set_ne.
  - intros w h l. by apply halves_eq.
  - intros i. by apply get_flags_testbit.
  - intros r'. apply get_set_flags.
Qed.
End registers.

Section memory.
Context {CFG : Config}.
Import Memory.
Implicit Types m : Memory.t.

(** The byte of a stored value at an offset. *)
Lemma byte_at_store n m a v i :
  0 <= i < Z.of_nat n -> byte_at (store n m a v) (a + i) = v / 256 ^ i mod 256.
Proof.
  revert m a v i. induction n as [|n IH]; intros m a v i Hi; [lia|]. cbn [store].
  destruct (Z.eq_dec i 0) as [->|Hi0].
  - rewrite Z.add_0_r, byte_at_store_out, byte_at_set_byte, decide_True by (done || lia).
    by rewrite Z.pow_0_r, Z.div_1_r.
  - replace (a + i) with (a + 1 + (i - 1)) by lia. rewrite IH by lia.
    rewrite Z.div_div by lia. do 2 f_equal. rewrite <- Z.pow_succ_r by lia. f_equal. lia.
Qed.

Lemma read_byte_at m b : wf m -> b < MEMORY_SIZE -> read uint8_t m b = Some (byte_at m b).
Proof.
  intros Hm Hb. rewrite read_Some by (cbn; lia). f_equal.
  change (Z.to_nat (sizeof uint8_t)) with 1%nat. cbn [load].
  pose proof (byte_at_range m b Hm). rewrite Z.mul_0_r, Z.add_0_r. apply cast_id. cpp_lia.
Qed.

Lemma write_None T m a v : write T m a v = None <-> MEMORY_SIZE < a + sizeof T.
Proof.
  unfold write, in_bounds. destruct (Z.leb_spec (a + sizeof T) MEMORY_SIZE); split; done || lia.
Qed.

Lemma read_None T m a : read T m a = None <-> MEMORY_SIZE < a + sizeof T.
Proof.
  unfold read, in_bounds. destruct (Z.leb_spec (a + sizeof T) MEMORY_SIZE); split; done || lia.
Qed.

(** C29. Memory: an access of any width fails exactly when it would run past
    the 1 MiB; a write then reads back (modulo its width), is little-endian,
    changes no byte outside its window and is recorded; a real-mode address is
    [16 * segment + offset] modulo 1 MiB, so a byte access through one never
    fails. *)
Theorem memory_laws T m a v :
  wf m -> 0 <= a -> is_signed T = false ->
  (write T m a v = None <-> MEMORY_SIZE < a + sizeof T) /\
  (read T m a = None <-> MEMORY_SIZE < a + sizeof T) /\
  (forall m', write T m a v = Some m' ->
     wf m' /\ has_written m' = true /\ read T m' a = Some (cast T v) /\
     (forall i, 0 <= i < sizeof T -> read uint8_t m' (a + i) = Some (cast T v / 256 ^ i mod 256)) /\
     (forall T' b, b + sizeof T' <= a \/ a + sizeof T <= b -> read T' m' b = read T' m b)) /\
  (forall segment offset, in_range uint16_t segment -> in_range uint16_t offset ->
     get_phys_addr segment offset = (segment * 16 + offset) mod MEMORY_SIZE /\
     read uint8_t m (get_phys_addr segment offset) <> None).
Proof.
  intros Hm Ha Hs. split_and!; [apply write_None|apply read_None| |].
  - intros m' Hw. assert (Hwf : wf m') by by eapply wf_write.
    split_and!; [done| |by eapply read_write_eq| |intros T' b; by eapply read_write_ne].
    all: assert (Hb : a + sizeof T <= MEMORY_SIZE)
      by (destruct (Z.le_gt_cases (a + sizeof T) MEMORY_SIZE) as [|Hgt]; [done|];
          apply (write_None T m a v) in Hgt; congruence).
    all: rewrite write_Some in Hw by done; injection Hw as <-.
    1: done.
    intros i Hi. rewrite read_byte_at by (done || lia). f_equal.
    apply (byte_at_store (Z.to_nat (sizeof T))). rewrite Z2Nat.id; lia.
  - intros segment offset Hseg Hoff. split; [apply get_phys_addr_eq; cpp_lia|].
    pose proof (get_phys_addr_range segment offset). by rewrite read_byte_at by (done || lia).
Qed.
End memory.

(** ** Witnesses *)

#[local] Existing Instance default_config.

Lemma register_file_laws_witness :
  let rf := RegisterFile.set (RegisterFile.create) AX 0x1234 in
  RegisterFile.get (RegisterFile.set rf AH 0x1ff) AL = RegisterFile.get rf AL.
Proof.
  intros rf. pose proof (register_file_laws rf AH 0x1ff 0
    ltac:(apply RegisterFile.wf_set, RegisterFile.registers_wf_create)) as (_ & _ & _ & H & _).
  by apply H.
Defined.

Lemma memory_laws_witness :
  let m := Memory.create false in
  Memory.read uint16_t m 0xfffff = None.
Proof.
  intros m. destruct (memory_laws uint16_t m 0xfffff 0) as (_ & H & _);
    [apply Memory.wf_create|done|done|].
  by apply H.
Defined.
