(* ===== verification/BcdProps.v ===== *)
(** * Decimal adjustment is decimal arithmetic *)
From S2P Require Import Prelude Config MainMemory Registers ErrorState IOPorts Machine ModRM Core.
From S2P Require Import Safety Decoder CoreSafe Stack Bench Alu AluProps AluTable InsnBcd ControlProps.

(** Two decimal digits in a byte. *)
Definition bcd (n : Z) : Z := 16 * (n / 10) + n mod 10.

(** ** The bits of an updated FLAGS word *)

Section bits.
Implicit Types i x m : Z.

Lemma or_bit x m i : 0 <= i < 16 -> Z.testbit (u16 (x .| m)) i = Z.testbit x i || Z.testbit m i.
Proof.
  intros Hi. rewrite cast_u_testbit, Z.lor_spec by (done || lia).
  change (width uint16_t) with 16. by zcmp.
Qed.

Lemma clear_bit x m i :
  0 <= i < 16 -> Z.testbit (u16 (x .& ~. m)) i = Z.testbit x i && negb (Z.testbit m i).
Proof.
  intros Hi. rewrite cast_u_testbit, Z.land_spec, Z.lnot_spec by (done || lia).
  change (width uint16_t) with 16. by zcmp.
Qed.

Lemma or_flag_bit b f x i :
  0 <= i < 16 -> Z.testbit (or_flag b f x) i = Z.testbit x i || (b && Z.testbit f i).
Proof.
  intros Hi. unfold or_flag. destruct b; [by rewrite or_bit|]. by rewrite orb_false_r.
Qed.
End bits.

Lemma nz_CF x : nz (x .& CF) = Z.testbit x 0.
Proof. by apply nz_land_bit. Qed.
Lemma nz_AF x : nz (x .& AF) = Z.testbit x 4.
Proof. by apply nz_land_bit. Qed.

Create Rewrite HintDb flag_bits.
#[local] Hint Rewrite nz_CF nz_AF : flag_bits.

(** One-bit masks. *)
Lemma bit_of n i : 0 <= n -> 0 <= i -> Z.testbit (1 .<< n) i = (n =? i).
Proof. intros Hn Hi. rewrite Z.shiftl_1_l. by apply Z.pow2_bits_eqb. Qed.
Lemma CF_bit i : 0 <= i -> Z.testbit CF i = (0 =? i). Proof. by apply bit_of. Qed.
Lemma PF_bit i : 0 <= i -> Z.testbit PF i = (2 =? i). Proof. by apply bit_of. Qed.
Lemma AF_bit i : 0 <= i -> Z.testbit AF i = (4 =? i). Proof. by apply bit_of. Qed.
Lemma ZF_bit i : 0 <= i -> Z.testbit ZF i = (6 =? i). Proof. by apply bit_of. Qed.
Lemma SF_bit i : 0 <= i -> Z.testbit SF i = (7 =? i). Proof. by apply bit_of. Qed.
#[local] Hint Rewrite CF_bit PF_bit AF_bit ZF_bit SF_bit using lia : flag_bits.
#[local] Hint Rewrite or_bit clear_bit or_flag_bit using lia : flag_bits.

Lemma high_byte_nz x : 0 <= x < 65536 -> nz (x .& 0xff00) = (256 <=? x).
Proof.
  intros Hx.
  assert (E : x .& 0xff00 = x / 256 * 256).
  { pose proof (replace_low_byte x 0 Hx) as H. rewrite Z.land_0_l, Z.lor_0_r in H. zlia. }
  rewrite E. unfold nz. destruct (Z.eqb_spec (x / 256 * 256) 0); zcmp; try done; exfalso; zlia.
Qed.

(** ** The computations on AL, AF and CF *)

(** The adjustment of a sum: AL, CF, AF. *)
Definition adjust_sum (al : Z) (af cf : bool) : Z * bool * bool :=
  let lo := (9 <? al mod 16) || af in
  let al1 := if lo then (al + 6) mod 256 else al in
  let cf1 := cf || (lo && (256 <=? al + 6)) in
  let hi := (0x9f <? al1) || cf1 in
  ((if hi then al1 + 0x60 else al1) mod 256, hi, lo).

(** The adjustment of a difference. *)
Definition adjust_difference (al : Z) (af cf : bool) : Z * bool * bool :=
  let lo := (9 <? al mod 16) || af in
  let al1 := if lo then (al - 6) mod 256 else al in
  let cf1 := cf || (lo && (al <? 6)) in
  let hi := (0x9f <? al1) || cf1 in
  ((if hi then al1 - 0x60 else al1) mod 256, hi, lo).

Lemma low_nibble x : x .& 0x0f = x mod 16.
Proof. by apply (land_mask 4). Qed.

(** Bits of FLAGS words, down to those of the operands. *)
Ltac flag_bits :=
  autorewrite with flag_bits;
  repeat match goal with |- context [?a =? ?b] =>
    first [ change (a =? b) with true | change (a =? b) with false
          | rewrite (proj2 (Z.eqb_neq a b)) by lia ] end;
  cbn [negb];
  repeat first [rewrite andb_false_r | rewrite andb_true_r | rewrite orb_false_r | rewrite orb_true_r];
  cbn [andb orb].

Lemma daa_compute_eq al flags :
  0 <= al < 256 ->
  let r := daa_compute al flags in
  (fst r mod 256, Z.testbit (snd r) 0, Z.testbit (snd r) 4) =
    adjust_sum al (Z.testbit flags 4) (Z.testbit flags 0) /\
  (forall i, 0 <= i < 16 -> i <> 0 -> i <> 4 -> Z.testbit (snd r) i = Z.testbit flags i).
Proof.
  intros Hal. unfold daa_compute, adjust_sum. rewrite low_nibble, nz_AF.
  destruct (_ || _) eqn:E1; cbn [andb].
  - rewrite low_byte, (cast_id uint16_t (al + 6)), high_byte_nz by cpp_lia.
    rewrite (cast_id uint16_t (_ mod 256)) by cpp_lia. rewrite nz_CF. flag_bits.
    destruct ((159 <? _) || _) eqn:E2; cbn [fst snd]; (split; [|intros i Hi Hi0 Hi4; by flag_bits]).
    + rewrite cast_id by cpp_lia. by flag_bits.
    + apply orb_false_iff in E2 as [_ E2]. flag_bits. by rewrite E2.
  - rewrite nz_CF. flag_bits.
    destruct ((159 <? _) || _) eqn:E2; cbn [fst snd]; (split; [|intros i Hi Hi0 Hi4; by flag_bits]).
    + rewrite cast_id by cpp_lia. by flag_bits.
    + apply orb_false_iff in E2 as [_ E2], E1 as [_ E1]. flag_bits. by rewrite E2.
Qed.

Lemma u16_mod256 x : u16 x mod 256 = x mod 256.
Proof. cpp_lia. Qed.

Lemma das_compute_eq al flags :
  0 <= al < 256 ->
  let r := das_compute al flags in
  (fst r mod 256, Z.testbit (snd r) 0, Z.testbit (snd r) 4) =
    adjust_difference al (Z.testbit flags 4) (Z.testbit flags 0).
Proof.
  intros Hal. unfold das_compute, adjust_difference. rewrite low_nibble, nz_AF.
  destruct (_ || _) eqn:E1; cbn [andb].
  - rewrite low_byte, high_byte_nz by (cpp_unfold; zlia).
    rewrite (cast_id uint16_t (_ mod 256)) by cpp_lia. rewrite nz_CF. flag_bits.
    replace (256 <=? u16 (al - 6)) with (al <? 6) by (cpp_unfold; zcmp; try done; exfalso; zlia).
    rewrite u16_mod256.
    destruct ((159 <? _) || _) eqn:E2; cbn [fst snd]; flag_bits; by rewrite ?u16_mod256.
  - rewrite nz_CF. flag_bits.
    destruct ((159 <? _) || _) eqn:E2; cbn [fst snd]; flag_bits; by rewrite ?u16_mod256.
Qed.

(** The conditions that DAS tests on its 16-bit result hold of the low byte. *)
Definition das_status (x : Z) : bool * bool * bool :=
  (nz (x .& 0x80), x =? 0, negb (builtin_parity x)).
Definition byte_status (x : Z) : bool * bool * bool := (128 <=? x, x =? 0, even_ones x).

Lemma das_status_eq x :
  0 <= x < 256 \/ 0xffa0 <= x < 0x10000 -> das_status x = byte_status (x mod 256).
Proof.
  assert (H : forall_below 256 (fun x => bool_decide (das_status x = byte_status (x mod 256))) = true /\
    forall_below 0x60 (fun x => bool_decide
      (das_status (0xffa0 + x) = byte_status ((0xffa0 + x) mod 256))) = true)
    by (split; vm_compute; reflexivity).
  destruct H as [H1 H2]. intros [Hx|Hx].
  - exact (bool_decide_eq_true_1 _ (forall_below_spec _ _ x H1 Hx)).
  - pose proof (forall_below_spec _ _ (x - 0xffa0) H2 ltac:(lia)) as H.
    apply bool_decide_eq_true_1 in H. by replace (0xffa0 + (x - 0xffa0)) with x in H by lia.
Qed.

Lemma das_compute_range al flags :
  0 <= al < 256 ->
  let x := fst (das_compute al flags) in 0 <= x < 256 \/ 0xffa0 <= x < 0x10000.
Proof.
  intros Hal. unfold das_compute. cbv zeta.
  destruct (_ || nz (flags .& AF)).
  - rewrite low_byte, (cast_id uint16_t (_ mod 256)) by cpp_lia.
    destruct (_ || _); cbn [fst]; cpp_lia.
  - destruct (_ || _); cbn [fst]; cpp_lia.
Qed.

(** SF, ZF and PF are set by the result, and never cleared. *)
Lemma das_compute_status al flags :
  0 <= al < 256 ->
  let r := das_compute al flags in
  let '(sf, zf, pf) := byte_status (fst r mod 256) in
  Z.testbit (snd r) 7 = Z.testbit flags 7 || sf /\
  Z.testbit (snd r) 6 = Z.testbit flags 6 || zf /\
  Z.testbit (snd r) 2 = Z.testbit flags 2 || pf.
Proof.
  intros Hal r. rewrite <- das_status_eq by by apply das_compute_range. unfold das_status, r, das_compute.
  destruct (_ || nz (flags .& AF)); destruct (_ || _); cbn [fst snd]; split_and!; by flag_bits.
Qed.

(** ** Decimal arithmetic, checked on all operands *)

Definition all_operands (n : Z) (f : Z -> Z -> Z -> bool) : bool :=
  forall_below n (fun a => forall_below n (fun b => forall_below 2 (f a b))).

Lemma all_operands_spec n f a b c :
  all_operands n f = true -> 0 <= a < n -> 0 <= b < n -> 0 <= c < 2 -> f a b c = true.
Proof.
  intros H Ha Hb Hc. pose proof (forall_below_spec _ _ a H Ha) as H1.
  pose proof (forall_below_spec _ _ b H1 Hb) as H2. exact (forall_below_spec _ _ c H2 Hc).
Qed.

Definition sum_adjusts (a b c : Z) : bool :=
  let '(s, st) := sem_add 8 (bcd a) (bcd b) c in
  bool_decide (adjust_sum s (st_af st) (st_cf st) =
    (bcd ((a + b + c) mod 100), 100 <=? a + b + c, 10 <=? a mod 10 + b mod 10 + c)).
Definition difference_adjusts (a b c : Z) : bool :=
  let '(s, st) := sem_sub 8 (bcd a) (bcd b) c in
  bool_decide (adjust_difference s (st_af st) (st_cf st) =
    (bcd ((a - b - c) mod 100), a <? b + c, a mod 10 <? b mod 10 + c)).

Lemma sums_adjust : all_operands 100 sum_adjusts = true.
Proof. vm_compute. reflexivity. Qed.
Lemma differences_adjust : all_operands 100 difference_adjusts = true.
Proof. vm_compute. reflexivity. Qed.

(** ** The instructions *)

Section instructions.
Context {CFG : Config} {D : Type} {IOP : IOPorts D}.
Implicit Types m : machine D.

(** AL, CF and AF hold the outcome of an 8-bit addition or subtraction. *)
Definition holds_result (r : Z * status) m : Prop :=
  RegisterFile.get (registers m) AL = fst r /\
  RegisterFile.get_flag (registers m) CF = st_cf (snd r) /\
  RegisterFile.get_flag (registers m) AF = st_af (snd r).

Lemma get_flags_bit m i :
  wf m -> 0 <= i ->
  Z.testbit (RegisterFile.get_flags (registers m)) i = RegisterFile.get_flag (registers m) (1 .<< i).
Proof.
  intros Hm Hi. rewrite RegisterFile.get_flags_eq by apply Hm. by rewrite RegisterFile.get_flag_testbit.
Qed.

(** The flags in [l] have the values given there, all others those of before. *)
Definition flags_change (l : list (Z * bool)) m m' : Prop :=
  forall i, 0 <= i < 16 ->
    RegisterFile.get_flag (registers m') (1 .<< i) =
      match find (fun e => fst e =? 1 .<< i) l with
      | Some (_, b) => b
      | None => RegisterFile.get_flag (registers m) (1 .<< i)
      end.

(** AL, AH and the flags of [l] are the result; nothing else has changed. *)
Definition computes (al ah : Z) (l : list (Z * bool)) m m' : Prop :=
  wf m' /\ set_registers (registers m) m' = m /\
  RegisterFile.get (registers m') AL = al /\ RegisterFile.get (registers m') AH = ah /\
  (forall q, RegisterFile.overlap AX q = false ->
    RegisterFile.get (registers m') q = RegisterFile.get (registers m) q) /\
  flags_change l m m'.

Lemma computes_intro rf fl mask l m al ah :
  wf m -> RegisterFile.wf rf ->
  RegisterFile.flags rf = RegisterFile.flags (registers m) ->
  RegisterFile.get rf AL = al -> RegisterFile.get rf AH = ah ->
  (forall q, RegisterFile.overlap AX q = false ->
    RegisterFile.get rf q = RegisterFile.get (registers m) q) ->
  (forall i, 0 <= i < 16 ->
    (if Z.testbit RegisterFile.valid_mask i && Z.testbit mask i then Z.testbit fl i
     else Z.testbit (RegisterFile.flags (registers m)) i) =
      match find (fun e => fst e =? 1 .<< i) l with
      | Some (_, b) => b
      | None => Z.testbit (RegisterFile.flags (registers m)) i
      end) ->
  computes al ah l m (set_registers (RegisterFile.set_flags rf fl mask) m).
Proof.
  intros Hm Hrf Hfl Hal Hah Hq' Hl.
  split_and!; msimpl; rewrite ?RegisterFile.get_set_flags; try done;
    try by destruct m.
  - apply wf_set_registers; [done|]. by apply RegisterFile.wf_set_flags.
  - intros i Hi. cbn [registers set_registers]. rewrite !RegisterFile.get_flag_testbit by lia.
    rewrite RegisterFile.set_flags_testbit, Hfl by (done || lia). by apply Hl.
Qed.

Definition adjustment (compute : Z -> Z -> Z * Z) m : machine D :=
  let r := compute (RegisterFile.get (registers m) AL) (RegisterFile.get_flags (registers m)) in
  set_registers (RegisterFile.set_flags (RegisterFile.set (registers m) AL (fst r)) (snd r)
    (SF .| ZF .| AF .| CF .| PF)) m.

Lemma daa27_eq m : daa27 m = Ok tt (adjustment daa_compute m).
Proof.
  unfold daa27, adjustment. rewrite run_bind, run_registers_get_flags, run_bind, run_registers_get.
  by destruct (daa_compute _ _) as [r fl].
Qed.

(** A register file is its words, its flags and [written]. *)
Lemma register_file_ext rf rf' :
  RegisterFile.wf rf -> RegisterFile.wf rf' ->
  (forall r, RegisterFile.is_byte r = false -> RegisterFile.reg16 rf r = RegisterFile.reg16 rf' r) ->
  RegisterFile.flags rf = RegisterFile.flags rf' ->
  RegisterFile.written rf = RegisterFile.written rf' -> rf = rf'.
Proof.
  intros [Hl _ _ _] [Hl' _ _ _] H. destruct rf as [l f w], rf' as [l' f' w']. cbn in *.
  intros -> ->. f_equal. apply (list_eq_same_length _ _ 13); [done..|].
  intros i x y Hi Hx Hy. apply list_lookup_total_correct in Hx as <-, Hy as <-.
  do 13 (destruct i as [|i]; [first [exact (H AX eq_refl)|exact (H CX eq_refl)|exact (H DX eq_refl)
    |exact (H BX eq_refl)|exact (H SP eq_refl)|exact (H BP eq_refl)|exact (H SI eq_refl)
    |exact (H DI eq_refl)|exact (H ES eq_refl)|exact (H CS eq_refl)|exact (H SS eq_refl)
    |exact (H DS eq_refl)|exact (H IP eq_refl)]|]). lia.
Qed.

(** AH is written back as it was. *)
Lemma set_AL_AH rf v :
  RegisterFile.wf rf ->
  RegisterFile.set (RegisterFile.set rf AL v) AH (RegisterFile.get rf AH) = RegisterFile.set rf AL v.
Proof.
  intros Hrf. apply register_file_ext; auto using RegisterFile.wf_set.
  intros r Hr. rewrite !RegisterFile.reg16_set by auto using RegisterFile.wf_set.
  cbn [RegisterFile.parent]. case_decide as Hd; [subst r|done].
  pose proof (RegisterFile.reg16_range rf AX Hrf) as Hx. rewrite RegisterFile.get_view by done.
  unfold RegisterFile.set_word, RegisterFile.view. cbn [RegisterFile.is_byte RegisterFile.is_high
    RegisterFile.parent]. cpp_lia.
Qed.

Lemma das2f_eq m : wf m -> das2f m = Ok tt (adjustment das_compute m).
Proof.
  intros Hm. unfold das2f, adjustment. rewrite run_bind, run_registers_get_flags.
  do 2 (rewrite run_bind, run_registers_get).
  destruct (das_compute _ _) as [r fl]. cbn [fst snd].
  do 2 (rewrite run_bind, run_registers_set). rewrite run_registers_set_flags. msimpl.
  by rewrite set_AL_AH by apply Hm.
Qed.

(** The flags of an adjustment, from the bits of the word it computes. *)
Definition daa_changes (cf af : bool) : list (Z * bool) := [(CF, cf); (AF, af)].
Definition das_changes (d : Z) (cf af : bool) m : list (Z * bool) :=
  [(CF, cf); (AF, af);
   (SF, RegisterFile.get_flag (registers m) SF || (128 <=? d));
   (ZF, RegisterFile.get_flag (registers m) ZF || (d =? 0));
   (PF, RegisterFile.get_flag (registers m) PF || even_ones d)].

Lemma adjustment_computes compute m d l :
  wf m ->
  let r := compute (RegisterFile.get (registers m) AL) (RegisterFile.get_flags (registers m)) in
  fst r mod 256 = d ->
  (forall i, 0 <= i < 16 ->
    (if Z.testbit RegisterFile.valid_mask i && Z.testbit (SF .| ZF .| AF .| CF .| PF) i
     then Z.testbit (snd r) i else Z.testbit (RegisterFile.flags (registers m)) i) =
      match find (fun e => fst e =? 1 .<< i) l with
      | Some (_, b) => b
      | None => Z.testbit (RegisterFile.flags (registers m)) i
      end) ->
  computes d (RegisterFile.get (registers m) AH) l m (adjustment compute m).
Proof.
  intros Hm r Hd Hl. pose proof (wf_registers m Hm) as Hrf.
  apply computes_intro; [done|by apply RegisterFile.wf_set|apply RegisterFile.flags_set| | | |exact Hl].
  - rewrite RegisterFile.get_set_eq by done. exact Hd.
  - by apply RegisterFile.get_set_ne.
  - intros q Hq. apply RegisterFile.get_set_ne; [done|]. by destruct q.
Qed.

(** The inputs of an adjustment of a result. *)
Lemma holds_result_inputs m r st :
  wf m -> holds_result (r, st) m ->
  RegisterFile.get (registers m) AL = r /\ 0 <= r < 256 /\
  Z.testbit (RegisterFile.get_flags (registers m)) 0 = st_cf st /\
  Z.testbit (RegisterFile.get_flags (registers m)) 4 = st_af st.
Proof.
  intros Hm (Hal & Hcf & Haf). cbn [fst snd] in *. rewrite !get_flags_bit by (done || lia).
  split_and!; try done; rewrite <- Hal; apply (RegisterFile.get_range _ AL (wf_registers m Hm)).
Qed.

Lemma daa_adds m a b c :
  wf m -> 0 <= a < 100 -> 0 <= b < 100 -> 0 <= c < 2 ->
  holds_result (sem_add 8 (bcd a) (bcd b) c) m ->
  computes (bcd ((a + b + c) mod 100)) (RegisterFile.get (registers m) AH)
    (daa_changes (100 <=? a + b + c) (10 <=? a mod 10 + b mod 10 + c)) m (adjustment daa_compute m).
Proof.
  intros Hm Ha Hb Hc Hr.
  pose proof (all_operands_spec _ _ a b c sums_adjust Ha Hb Hc) as E. unfold sum_adjusts in E.
  destruct (sem_add _ _ _ _) as [s st]. apply bool_decide_eq_true in E.
  destruct (holds_result_inputs m s st Hm Hr) as (Hal & Hs & Hcf & Haf).
  destruct (daa_compute_eq s (RegisterFile.get_flags (registers m)) Hs) as [H Hrest].
  rewrite Hcf, Haf, E in H. rewrite !pair_equal_spec in H. destruct H as [[Hd H0] H4].
  apply adjustment_computes; [done|by rewrite Hal|]. rewrite Hal.
  rewrite <- RegisterFile.get_flags_eq by apply Hm.
  intros i Hi. enum_below i 16%nat; cbn [find daa_changes fst Z.eqb Pos.eqb];
    first [exact H0|exact H4|by apply Hrest|reflexivity].
Qed.

Lemma das_subtracts m a b c :
  wf m -> 0 <= a < 100 -> 0 <= b < 100 -> 0 <= c < 2 ->
  holds_result (sem_sub 8 (bcd a) (bcd b) c) m ->
  let d := bcd ((a - b - c) mod 100) in
  computes d (RegisterFile.get (registers m) AH)
    (das_changes d (a <? b + c) (a mod 10 <? b mod 10 + c) m) m (adjustment das_compute m).
Proof.
  intros Hm Ha Hb Hc Hr d.
  pose proof (all_operands_spec _ _ a b c differences_adjust Ha Hb Hc) as E.
  unfold difference_adjusts in E. destruct (sem_sub _ _ _ _) as [s st].
  apply bool_decide_eq_true in E.
  destruct (holds_result_inputs m s st Hm Hr) as (Hal & Hs & Hcf & Haf).
  pose proof (das_compute_eq s (RegisterFile.get_flags (registers m)) Hs) as H. cbv zeta in H.
  rewrite Hcf, Haf, E in H. rewrite !pair_equal_spec in H. destruct H as [[Hd H0] H4]. fold d in Hd.
  pose proof (das_compute_status s (RegisterFile.get_flags (registers m)) Hs) as H. cbv zeta in H.
  rewrite Hd in H. destruct H as (H7 & H6 & H2). rewrite !get_flags_bit in * by (done || lia).
  apply adjustment_computes; [done|by rewrite Hal|]. rewrite Hal.
  rewrite <- RegisterFile.get_flags_eq by apply Hm.
  intros i Hi. enum_below i 16%nat; cbn [find das_changes fst Z.eqb Pos.eqb];
    first [exact H0|exact H4|exact H7|exact H6|exact H2|reflexivity].
Qed.

(** ** One digit per byte *)

Lemma set_registers_twice rf rf' m : set_registers rf (set_registers rf' m) = set_registers rf m.
Proof. done. Qed.

(** An unpacked adjustment sets CF and AF to its carry. *)
Definition unpacked_changes (carry : bool) : list (Z * bool) := [(CF, carry); (AF, carry)].

Lemma unpacked_intro rf fl m al ah carry :
  wf m -> RegisterFile.wf rf ->
  RegisterFile.flags rf = RegisterFile.flags (registers m) ->
  RegisterFile.get rf AL = al -> RegisterFile.get rf AH = ah ->
  (forall q, RegisterFile.overlap AX q = false ->
    RegisterFile.get rf q = RegisterFile.get (registers m) q) ->
  Z.testbit fl 0 = carry -> Z.testbit fl 4 = carry ->
  computes al ah (unpacked_changes carry) m
    (set_registers (RegisterFile.set_flags rf fl (AF .| CF)) m).
Proof.
  intros Hm Hrf Hfl Hal Hah Hq H0 H4. apply computes_intro; try done.
  intros i Hi. enum_below i 16%nat; cbn [find unpacked_changes fst Z.eqb Pos.eqb];
    first [exact H0|exact H4|reflexivity].
Qed.

(** AL and AH written one after the other. *)
Lemma set_AL_set_AH rf r1 r2 x y :
  RegisterFile.wf rf -> (r1, r2) ∈ [(AL, AH); (AH, AL)] ->
  let rf' := RegisterFile.set (RegisterFile.set rf r1 x) r2 y in
  RegisterFile.wf rf' /\ RegisterFile.flags rf' = RegisterFile.flags rf /\
  RegisterFile.get rf' r1 = u8 x /\ RegisterFile.get rf' r2 = u8 y /\
  forall q, RegisterFile.overlap AX q = false -> RegisterFile.get rf' q = RegisterFile.get rf q.
Proof.
  intros Hrf Hr rf'. pose proof (RegisterFile.wf_set _ r1 x Hrf) as Hrf1.
  split_and!; unfold rf'; rewrite ?RegisterFile.flags_set; auto using RegisterFile.wf_set;
    repeat (apply elem_of_cons in Hr as [[= -> ->]|Hr]); try by apply elem_of_nil in Hr.
  1,2: by rewrite RegisterFile.get_set_ne, RegisterFile.get_set_eq by done.
  1,2: by rewrite RegisterFile.get_set_eq by done.
  all: intros q Hq; rewrite !RegisterFile.get_set_ne; try done; by destruct q.
Qed.

Lemma read_AF m :
  wf m -> nz (RegisterFile.get_flags (registers m) .& AF) = RegisterFile.get_flag (registers m) AF.
Proof. intros Hm. by rewrite nz_AF, get_flags_bit. Qed.

Lemma aaa_adds m s :
  wf m -> 0 <= s < 20 ->
  RegisterFile.get (registers m) AL = s -> RegisterFile.get_flag (registers m) AF = (16 <=? s) ->
  exists m', aaa37 m = Ok tt m' /\
    computes (s mod 10) (u8 (RegisterFile.get (registers m) AH + s / 10))
      (unpacked_changes (10 <=? s)) m m'.
Proof.
  intros Hm Hs Hal Haf. pose proof (wf_registers m Hm) as Hrf. unfold aaa37.
  rewrite run_bind, run_registers_get_flags, run_bind, run_registers_get, Hal, run_bind.
  rewrite low_nibble, read_AF, Haf by done. set (fl := RegisterFile.get_flags _).
  replace ((9 <? s mod 16) || (16 <=? s)) with (10 <=? s) by (enum_below s 20%nat; reflexivity).
  destruct (Z.leb_spec 10 s).
  - rewrite run_bind, run_registers_set, run_bind, run_registers_get, run_bind, run_registers_set.
    eexists. split; [reflexivity|]. cbn [registers set_registers]. rewrite !set_registers_twice.
    rewrite RegisterFile.get_set_ne by done.
    destruct (set_AL_set_AH (registers m) AL AH (u16 ((s + 6) .& 0x0f))
      (u16 (RegisterFile.get (registers m) AH + 1)) Hrf ltac:(by left)) as (H1 & H2 & H3 & H4 & H5).
    apply unpacked_intro; [done|done|done| | |done|by flag_bits|by flag_bits].
    + rewrite H3, low_nibble. enum_below s 20%nat; lia || reflexivity.
    + rewrite H4. replace (s / 10) with 1 by zlia. cpp_lia.
  - eexists. split; [reflexivity|].
    replace (s / 10) with 0 by zlia. rewrite Z.mod_small, Z.add_0_r by lia.
    apply unpacked_intro; [done|done|done|done| |done|by flag_bits|by flag_bits].
    pose proof (RegisterFile.get_range _ AH Hrf). symmetry. by apply cast_id.
Qed.

Lemma aas_subtracts m d :
  wf m -> - 10 <= d < 10 ->
  RegisterFile.get (registers m) AL = d mod 256 ->
  RegisterFile.get_flag (registers m) AF = (d <? 0) ->
  exists m', aas3f m = Ok tt m' /\
    computes (d mod 10) (u8 (RegisterFile.get (registers m) AH + d / 10))
      (unpacked_changes (d <? 0)) m m'.
Proof.
  intros Hm Hd Hal Haf. pose proof (wf_registers m Hm) as Hrf. unfold aas3f.
  rewrite run_bind, run_registers_get_flags.
  do 2 (rewrite run_bind, run_registers_get). rewrite Hal.
  rewrite low_nibble, read_AF, Haf by done. set (fl := RegisterFile.get_flags _).
  replace ((9 <? (d mod 256) mod 16) || (d <? 0)) with (d <? 0)
    by (enum_from d (-10) 20%nat; reflexivity).
  set (ah := RegisterFile.get (registers m) AH).
  assert (Hah : in_range uint8_t ah) by apply (RegisterFile.get_range _ AH Hrf).
  destruct (Z.ltb_spec d 0).
  - do 2 (rewrite run_bind, run_registers_set).
    eexists. split; [reflexivity|]. cbn [registers set_registers]. rewrite !set_registers_twice.
    destruct (set_AL_set_AH (registers m) AL AH (u16 (u16 (d mod 256 - 6) .& 0xf))
      (u16 (ah - 1)) Hrf ltac:(by left)) as (H1 & H2 & H3 & H4 & H5).
    apply unpacked_intro; [done|done|done| | |done|by flag_bits|by flag_bits].
    + rewrite H3, (low_nibble (u16 _)). enum_from d (-10) 20%nat; lia || reflexivity.
    + rewrite H4. replace (d / 10) with (-1) by zlia. cpp_lia.
  - do 2 (rewrite run_bind, run_registers_set).
    eexists. split; [reflexivity|]. cbn [registers set_registers]. rewrite !set_registers_twice.
    destruct (set_AL_set_AH (registers m) AL AH (d mod 256) ah Hrf ltac:(by left)) as (H1 & H2 & H3 & H4 & H5).
    apply unpacked_intro; [done|done|done| | |done|by flag_bits|by flag_bits].
    + rewrite H3. replace (d mod 10) with d by zlia. cpp_lia.
    + rewrite H4. replace (d / 10) with 0 by zlia. by rewrite Z.add_0_r.
Qed.

(** ** The byte operand of AAM and AAD *)

Definition operand m : Z := code_byte m (instr_length m).
Definition fetched m : machine D := set_instr_length (u64 (instr_length m + 1)) m.

Lemma wf_operand_fetched m : wf m -> wf (fetched m).
Proof. apply (wf_set_instr_length (instr_length m + 1)). Qed.

Lemma AH_AL_range m :
  wf m -> 0 <= RegisterFile.get (registers m) AL < 256 /\ 0 <= RegisterFile.get (registers m) AH < 256.
Proof.
  intros Hm. split; [exact (RegisterFile.get_range _ AL (wf_registers m Hm))|
                     exact (RegisterFile.get_range _ AH (wf_registers m Hm))].
Qed.

(** The flags of AAM, from the two digits. *)
Definition aam_changes (ah al : Z) : list (Z * bool) :=
  [(SF, 128 <=? ah); (ZF, (ah =? 0) && (al =? 0)); (PF, even_ones al)].

(** AAD sets flags by its 16-bit value and clears none. *)
Definition aad_changes (v : Z) m : list (Z * bool) :=
  [(SF, RegisterFile.get_flag (registers m) SF || (32768 <=? v));
   (ZF, RegisterFile.get_flag (registers m) ZF || (v =? 0));
   (PF, RegisterFile.get_flag (registers m) PF || even_ones v)].

Lemma digits_intro rf fl l m ah al :
  wf m -> RegisterFile.wf rf ->
  RegisterFile.flags rf = RegisterFile.flags (registers m) ->
  RegisterFile.get rf AL = al -> RegisterFile.get rf AH = ah ->
  (forall q, RegisterFile.overlap AX q = false ->
    RegisterFile.get rf q = RegisterFile.get (registers m) q) ->
  map fst l = [SF; ZF; PF] -> map snd l = [Z.testbit fl 7; Z.testbit fl 6; Z.testbit fl 2] ->
  computes al ah l m (set_registers (RegisterFile.set_flags rf fl (SF .| ZF .| PF)) m).
Proof.
  intros Hm Hrf Hfl Hal Hah Hq Hf Hv. apply computes_intro; try done.
  destruct l as [|[f1 b1] [|[f2 b2] [|[f3 b3] []]]]; try done.
  injection Hf as -> -> ->. injection Hv as -> -> ->.
  intros i Hi. enum_below i 16%nat; reflexivity.
Qed.

Lemma parity_byte x : 0 <= x < 256 -> negb (builtin_parity x) = even_ones x.
Proof.
  intros Hx. pose proof (parity_even_ones x) as H. change (u8 (-1)) with 0xff in H.
  by rewrite low_byte, Z.mod_small in H.
Qed.

(** A word is split into its high and its low byte. *)
Lemma get_AX rf :
  RegisterFile.wf rf ->
  RegisterFile.get rf AX = 256 * RegisterFile.get rf AH + RegisterFile.get rf AL.
Proof.
  intros Hrf. rewrite (RegisterFile.get_by_word rf AH), (RegisterFile.get_by_word rf AL) by done.
  pose proof (RegisterFile.get_range rf AX Hrf) as Hx. unfold RegisterFile.view.
  cbn [RegisterFile.is_byte RegisterFile.is_high RegisterFile.parent RegisterFile.gpr_type] in *.
  revert Hx. generalize (RegisterFile.get rf AX). intros x Hx. cpp_lia.
Qed.

Lemma sign_of_word x : 0 <= x < 65536 -> nz (x .& 0x8000) = (32768 <=? x).
Proof.
  intros Hx. rewrite (nz_land_bit x _ 15) by done. change 32768 with (2 ^ 15).
  rewrite testbit_div by done. change (2 ^ 15) with 32768.
  destruct (Z.leb_spec 32768 x); [apply Z.eqb_eq|apply Z.eqb_neq]; zlia.
Qed.

Lemma aam_splits m :
  wf m ->
  let n := operand m in
  let al := RegisterFile.get (registers m) AL in
  (n = 0 -> aamd4 m = interrupt_entry VEC_DIVIDE_ERROR (this_ip (fetched m)) (fetched m)) /\
  (n <> 0 -> exists m', aamd4 m = Ok tt m' /\
     computes (al mod n) (al / n) (aam_changes (al / n) (al mod n)) (fetched m) m').
Proof.
  intros Hm n al. pose proof (code_byte_range m (instr_length m) Hm) as Hn. fold (operand m) n in Hn.
  destruct (AH_AL_range m Hm) as [Hal _]. fold al in Hal. rewrite in_u8 in Hn.
  unfold aamd4. rewrite run_bind, fetch_byte_eq by done. fold (operand m) (fetched m) n. split; intros Hn0.
  - rewrite Hn0. cbn [Z.eqb].
    refine (eq_trans (entry_this_eq VEC_DIVIDE_ERROR (mret ()) (fetched m) _) _).
    + apply (wf_set_instr_length (instr_length m + 1) m Hm).
    + rewrite run_bind. by destruct (interrupt_entry _ _ (fetched m)) as [[] ?|].
  - apply Z.eqb_neq in Hn0 as Hne. rewrite Hne. rewrite run_bind, run_registers_get.
    do 2 (rewrite run_bind, run_registers_set). rewrite run_bind, run_registers_get_flags.
    do 2 (rewrite run_bind, run_registers_get). rewrite run_registers_set_flags.
    eexists. split; [reflexivity|]. cbn [registers set_registers set_instr_length fetched].
    fold al. rewrite !set_registers_twice, Z.quot_div_nonneg, Z.rem_mod_nonneg by lia.
    destruct (set_AL_set_AH (registers m) AH AL (al / n) (al mod n) (wf_registers m Hm)
      ltac:(by right; left)) as (Hrf & Hfl & H3 & H4 & H5).
    set (rf := RegisterFile.set _ AL _) in *.
    assert (Hq : 0 <= al / n < 256) by (split; [by apply Z.div_pos; lia|apply Z.div_lt_upper_bound; nia]).
    pose proof (Z.mod_pos_bound al n ltac:(lia)) as Hr.
    rewrite (cast_id uint8_t (al / n)) in H3 by by rewrite in_u8.
    rewrite (cast_id uint8_t (al mod n)) in H4 by (rewrite in_u8; lia).
    assert (Hax : 0 <= RegisterFile.get rf AX < 65536) by apply (RegisterFile.get_range rf AX Hrf).
    apply digits_intro; [by apply wf_operand_fetched|done|done|done|done|exact H5|done|].
    rewrite sign_of_word by done. cbn [map snd aam_changes].
    assert (Hmask : RegisterFile.get rf AX .& 0xffff = RegisterFile.get rf AX)
      by (etransitivity; [by apply (land_mask 16)|by apply Z.mod_small]).
    rewrite Hmask, get_AX, H3, H4, low_byte, (Z.mod_small (al mod n) 256), parity_byte by (done || lia).
    replace (32768 <=? 256 * (al / n) + al mod n) with (128 <=? al / n) by (zcmp; done || lia).
    replace (negb (nz (256 * (al / n) + al mod n))) with ((al / n =? 0) && (al mod n =? 0))
      by (unfold nz; rewrite negb_involutive; zcmp; done || lia).
    by flag_bits.
Qed.

Lemma aad_joins m :
  wf m ->
  let v := RegisterFile.get (registers m) AL + RegisterFile.get (registers m) AH * operand m in
  exists m', aadd5 m = Ok tt m' /\ computes (u8 v) 0 (aad_changes v m) (fetched m) m'.
Proof.
  intros Hm v. pose proof (wf_registers m Hm) as Hrf. unfold aadd5.
  rewrite run_bind, run_registers_get_flags.
  do 2 (rewrite run_bind, run_registers_get). rewrite run_bind, fetch_byte_eq by done.
  do 2 (rewrite run_bind, run_registers_set). rewrite run_registers_set_flags.
  eexists. split; [reflexivity|]. cbn [registers set_registers set_instr_length].
  rewrite !set_registers_twice. fold (operand m). fold v.
  assert (Hv : 0 <= v < 65536).
  { destruct (AH_AL_range m Hm). pose proof (code_byte_range m (instr_length m) Hm) as Hn.
    fold (operand m) in Hn. rewrite in_u8 in Hn. unfold v. nia. }
  rewrite (cast_id uint16_t v) by by rewrite in_u16.
  destruct (set_AL_set_AH (registers m) AL AH v 0 Hrf ltac:(by left)) as (Hrf' & Hfl & H3 & H4 & H5).
  apply digits_intro; [by apply wf_operand_fetched|done|done|done|exact H4|exact H5|done|].
  rewrite sign_of_word, low_byte, parity_byte, even_ones_mod by (done || by apply Z.mod_pos_bound).
  cbn [map snd aad_changes]. flag_bits. by rewrite !get_flags_bit.
Qed.

End instructions.

