(* ===== verification/PIC.v ===== *)
(** * The interrupt controller: [sim/PIC.h]

    One edge-triggered 8259 in 8086 mode. A request raised on the CPU is
    returned in the list of the calls of [cpu->raise_irq]. *)
From S2P Require Import Prelude Config ErrorState IOPorts.

Module PIC.

(** [enum State] and [enum CommandReadMode]. *)
Inductive State := STATE_IDLE | STATE_ICW2 | STATE_ICW4.
Inductive CommandReadMode := STATE_READ_IRR | STATE_READ_ISR.

Record t := mk {
  state : State;
  command_read_mode : CommandReadMode;
  vector_address : Z;
  mask : Z;
  isr : Z;
  irr : Z;
}.

Definition set_state (x : State) (p : t) : t :=
  mk x (command_read_mode p) (vector_address p) (mask p) (isr p) (irr p).
Definition set_command_read_mode (x : CommandReadMode) (p : t) : t :=
  mk (state p) x (vector_address p) (mask p) (isr p) (irr p).
Definition set_vector_address (x : Z) (p : t) : t :=
  mk (state p) (command_read_mode p) (u8 x) (mask p) (isr p) (irr p).
Definition set_mask_reg (x : Z) (p : t) : t :=
  mk (state p) (command_read_mode p) (vector_address p) (u8 x) (isr p) (irr p).
Definition set_isr (x : Z) (p : t) : t :=
  mk (state p) (command_read_mode p) (vector_address p) (mask p) (u8 x) (irr p).
Definition set_irr (x : Z) (p : t) : t :=
  mk (state p) (command_read_mode p) (vector_address p) (mask p) (isr p) (u8 x).

Definition get_base : Z := 0x0020.
Definition get_num_ports : Z := 1.

Section pic.
Context {CFG : Config}.

(** The constructor; [vector_address] is not initialised by it. *)
Definition create (uninitialised : Z) : t :=
  mk STATE_IDLE STATE_READ_IRR uninitialised 0 0 0.

(** [1 << n] on [int]; C++ gives it no meaning outside [0 <= n < 32]. *)
Definition shl1 (n : Z) : Z :=
  if (0 <=? n) && (n <? 32) then s32 (1 .<< n) else undefined_shift n.

(** The loop of [raise_irq], from line [i] on: the vectors raised on the CPU. *)
Fixpoint raise_loop (n : nat) (i : Z) (p : t) : list Z :=
  match n with
  | O => []
  | S n =>
      if nz (shl1 i .& isr p) then []
      else if nz (shl1 i .& irr p) then [vector_address p + i]
      else raise_loop n (i + 1) p
  end.

Definition raise_irq (irq_num : Z) : M t (list Z) :=
  m ← gets mask ;
  if nz (m .& shl1 irq_num) then mret []
  else
    modify (fun p => set_irr (irr p .| shl1 irq_num) p) ;;
    gets (raise_loop 8 0).

Definition inta_handler (irq_num : Z) : M t unit :=
  modify (fun p => set_isr (isr p .| shl1 (irq_num - vector_address p)) p) ;;
  modify (fun p => set_irr (irr p .& ~. (shl1 (irq_num - vector_address p))) p).

Definition read_command : M t Z :=
  gets (fun p => match command_read_mode p with STATE_READ_IRR => irr p | STATE_READ_ISR => isr p end).

Definition read_data : M t Z := gets mask.

Definition is_icw1 (v : Z) : bool := nz (v .& (1 .<< 4)).
Definition is_ocw2 (v : Z) : bool := v .& (3 .<< 3) =? 0.
Definition is_ocw3 (v : Z) : bool := v .& (0x80 .| (3 .<< 3)) =? 0x08.

(** [assert] in a device. *)
Definition assert_device {S} (b : bool) : M S unit := if b then mret () else throw DeviceError.

Definition icw1 (v : Z) : M t unit :=
  modify (set_state STATE_ICW2) ;;
  assert_device (v .& 0x0f =? 0x3).

(** The loop of the non-specific end of interrupt. *)
Fixpoint eoi_loop (n : nat) (i : Z) : M t unit :=
  match n with
  | O => mret ()
  | S n =>
      p ← gets id ;
      if nz (isr p .& shl1 i) then modify (set_isr (isr p .& ~. (shl1 i))) else eoi_loop n (i + 1)
  end.

Definition ocw2 (v : Z) : M t unit :=
  if v .>> 5 =? 1 then eoi_loop 8 0
  else if v .>> 5 =? 3 then modify (fun p => set_isr (isr p .& ~. (shl1 (v .& 0x7))) p)
  else mret ().

Definition ocw3 (v : Z) : M t unit :=
  assert_device (negb (nz (v .& 0x04))) ;;
  assert_device (negb (nz (v .& 0x60))) ;;
  if v .& 0x3 =? 2 then modify (set_command_read_mode STATE_READ_IRR)
  else if v .& 0x3 =? 3 then modify (set_command_read_mode STATE_READ_ISR)
  else mret ().

Definition set_mask (v : Z) : M t unit := modify (set_mask_reg v).

Definition write_command (v : Z) : M t unit :=
  if is_icw1 v then icw1 v
  else if is_ocw2 v then ocw2 v
  else if is_ocw3 v then ocw3 v
  else mret ().

Definition write_data (v : Z) : M t unit :=
  s ← gets state ;
  match s with
  | STATE_ICW2 =>
      modify (set_vector_address (v .& 0xf8)) ;;
      modify (set_state STATE_ICW4)
  | STATE_ICW4 =>
      assert_device (v =? 0x01) ;;
      modify (set_state STATE_IDLE)
  | STATE_IDLE => set_mask v
  end.

Definition write8 (port_num offs v : Z) : M t unit :=
  if offs =? 0 then write_command v else write_data v.

Definition read8 (port_num offs : Z) : M t Z :=
  if offs =? 0 then read_command else read_data.

(** ** Invariant *)

Record wf (p : t) : Prop := {
  wf_vector : in_range uint8_t (vector_address p);
  wf_mask : in_range uint8_t (mask p);
  wf_isr : in_range uint8_t (isr p);
  wf_irr : in_range uint8_t (irr p);
}.

(** ** What it promises, in terms of the eight lines *)

Definition masked (p : t) (i : Z) : bool := Z.testbit (mask p) i.
Definition in_service (p : t) (i : Z) : bool := Z.testbit (isr p) i.
Definition requested (p : t) (i : Z) : bool := Z.testbit (irr p) i.

(** Line [i] may interrupt: it is requested, and nothing of its priority or a
    higher one is in service or, if higher, requested. *)
Definition wins (p : t) (i : Z) : Prop :=
  0 <= i < 8 /\ requested p i = true /\
  (forall j, 0 <= j <= i -> in_service p j = false) /\
  (forall j, 0 <= j < i -> requested p j = false).

(** The line in service that the end of interrupt ends. *)
Definition serving (p : t) (i : Z) : Prop :=
  0 <= i < 8 /\ in_service p i = true /\ forall j, 0 <= j < i -> in_service p j = false.

End pic.
End PIC.
