(* ===== verification/PICProps.v ===== *)
(** * The interrupt controller: eight lines of fixed priority *)
From S2P Require Import Prelude Config ErrorState IOPorts PIC.
Import PIC.

Section pic.
Context {CFG : Config}.
Implicit Types p : PIC.t.

(** ** Bits *)

Lemma shl1_eq i : 0 <= i < 8 -> shl1 i = 2 ^ i.
Proof.
  intros Hi. unfold shl1. rewrite Z.shiftl_1_l. zcmp. cbn [andb]. apply cast_id. rewrite in_s32.
  assert (2 ^ i < 2 ^ 8) by (apply Z.pow_lt_mono_r; lia). pose proof (Z.pow_pos_nonneg 2 i). lia.
Qed.

Lemma shl1_bit i x : 0 <= i < 8 -> nz (shl1 i .& x) = Z.testbit x i.
Proof. intros Hi. rewrite Z.land_comm. apply nz_land_bit; [lia|by apply shl1_eq]. Qed.

Lemma set_bit x n i :
  0 <= n < 8 -> 0 <= i < 8 -> Z.testbit (u8 (x .| shl1 n)) i = Z.testbit x i || (i =? n).
Proof.
  intros Hn Hi. rewrite cast_u_testbit, Z.lor_spec, shl1_eq, Z.pow2_bits_eqb by (done || lia).
  change (width uint8_t) with 8. rewrite (Z.eqb_sym n). by zcmp.
Qed.

Lemma clear_line x n i :
  0 <= n < 8 -> 0 <= i < 8 -> Z.testbit (u8 (x .& ~. (shl1 n))) i = Z.testbit x i && negb (i =? n).
Proof.
  intros Hn Hi. rewrite cast_u_testbit, Z.land_spec, Z.lnot_spec, shl1_eq, Z.pow2_bits_eqb by (done || lia).
  change (width uint8_t) with 8. rewrite (Z.eqb_sym n). zcmp; by rewrite ?andb_true_l.
Qed.

(** ** The scan of the lines *)

Lemma raise_loop_eq n k p :
  Z.of_nat n + k = 8 -> 0 <= k ->
  (forall j, 0 <= j < k -> in_service p j = false /\ requested p j = false) ->
  (forall i, wins p i -> raise_loop n k p = [vector_address p + i]) /\
  ((forall i, ~ wins p i) -> raise_loop n k p = []).
Proof.
  revert k. induction n as [|n IH]; intros k Hn Hk Hlow; cbn [raise_loop].
  { split; [|done]. intros i (Hi & Hr & _). destruct (Hlow i); [lia|congruence]. }
  rewrite !shl1_bit by lia. fold (in_service p k) (requested p k).
  destruct (in_service p k) eqn:Es.
  { split; [|done]. intros i (Hi & Hr & Hs & _). destruct (Z.lt_ge_cases i k) as [Hlt|Hge].
    - destruct (Hlow i); [lia|congruence].
    - rewrite Hs in Es by lia. discriminate. }
  destruct (requested p k) eqn:Er.
  { split.
    - intros i (Hi & Hr & _ & Hh). destruct (Ztrichotomy i k) as [Hlt|[->|Hgt]]; [|done|].
      + destruct (Hlow i); [lia|congruence].
      + rewrite Hh in Er by lia. discriminate.
    - intros Hno. destruct (Hno k). split_and!; [lia|lia|done| |].
      + intros j Hj. destruct (Z.eq_dec j k) as [->|]; [done|]. apply Hlow. lia.
      + intros j Hj. apply Hlow. lia. }
  apply IH; [lia..|]. intros j Hj. destruct (Z.eq_dec j k) as [->|]; [done|]. apply Hlow. lia.
Qed.

Lemma eoi_loop_eq n k p :
  Z.of_nat n + k = 8 -> 0 <= k ->
  (forall j, 0 <= j < k -> in_service p j = false) ->
  (forall i, serving p i -> eoi_loop n k p = Ok tt (set_isr (isr p .& ~. (shl1 i)) p)) /\
  ((forall i, ~ serving p i) -> eoi_loop n k p = Ok tt p).
Proof.
  revert k. induction n as [|n IH]; intros k Hn Hk Hlow; cbn [eoi_loop].
  { split; [|done]. intros i (Hi & Hs & _). rewrite Hlow in Hs by lia. discriminate. }
  unfold mbind, M_bind, gets. cbn [id]. rewrite (Z.land_comm (isr p)), shl1_bit by lia.
  fold (in_service p k). destruct (in_service p k) eqn:Es.
  - split.
    + intros i (Hi & Hs & Hl). destruct (Ztrichotomy i k) as [Hlt|[->|Hgt]]; [|done|].
      * rewrite Hlow in Hs by lia. discriminate.
      * rewrite Hl in Es by lia. discriminate.
    + intros Hno. destruct (Hno k). split_and!; [lia|lia|done|done].
  - apply IH; [lia..|]. intros j Hj. destruct (Z.eq_dec j k) as [->|]; [done|]. apply Hlow. lia.
Qed.

(** ** The operations on the lines *)

(** What an operation leaves alone. *)
Definition same_setup p p' : Prop :=
  state p' = state p /\ vector_address p' = vector_address p /\ mask p' = mask p.

Lemma raise_irq_masked n p : 0 <= n < 8 -> masked p n = true -> raise_irq n p = Ok [] p.
Proof.
  intros Hn Hm. unfold masked in Hm. unfold raise_irq, mbind, M_bind, gets.
  by rewrite Z.land_comm, shl1_bit, Hm by done.
Qed.

Lemma raise_irq_eq n p :
  wf p -> 0 <= n < 8 -> masked p n = false ->
  let p' := set_irr (irr p .| shl1 n) p in
  raise_irq n p = Ok (raise_loop 8 0 p') p' /\
  wf p' /\ same_setup p p' /\
  (forall i, 0 <= i < 8 -> requested p' i = requested p i || (i =? n)) /\
  (forall i, in_service p' i = in_service p i).
Proof.
  intros [] Hn Hm p'. unfold masked in Hm. unfold raise_irq, mbind, M_bind, gets.
  rewrite Z.land_comm, shl1_bit, Hm by done.
  split_and!; try done; [split; try done; apply cast_in_range|].
  intros i Hi. by apply set_bit.
Qed.

Lemma inta_handler_eq n p :
  wf p -> 0 <= n < 8 ->
  exists p', inta_handler (vector_address p + n) p = Ok tt p' /\
    wf p' /\ same_setup p p' /\
    (forall i, 0 <= i < 8 -> in_service p' i = in_service p i || (i =? n)) /\
    (forall i, 0 <= i < 8 -> requested p' i = requested p i && negb (i =? n)).
Proof.
  intros [] Hn. eexists. split; [reflexivity|].
  cbn [vector_address set_isr].
  replace (vector_address p + n - vector_address p) with n by lia.
  split_and!; try done; [split; try done; apply cast_in_range| |];
    intros i Hi; [by apply set_bit|by apply clear_line].
Qed.

(** ** Edges: [k] requests of one line *)

Fixpoint edges (irq : Z) (k : nat) : M PIC.t (list Z) :=
  match k with
  | O => mret []
  | S k => i1 ← raise_irq irq ; i2 ← edges irq k ; mret (i1 ++ i2)
  end.

Lemma raise_irq_ok irq p : exists irqs p', raise_irq irq p = Ok irqs p'.
Proof. unfold raise_irq, mbind, M_bind, gets. destruct (nz _); by repeat eexists. Qed.

Lemma edges_ok irq k p : exists irqs p', edges irq k p = Ok irqs p'.
Proof.
  revert p. induction k as [|k IH]; intros p; [by repeat eexists|]. cbn [edges].
  destruct (raise_irq_ok irq p) as (i1 & p1 & E1), (IH p1) as (i2 & p2 & E2).
  unfold mbind, M_bind. rewrite E1, E2. by repeat eexists.
Qed.

(** The first line with a property, if any. *)
Lemma lowest (f : Z -> bool) n :
  0 <= n ->
  (exists i, 0 <= i < n /\ f i = true /\ forall j, 0 <= j < i -> f j = false) \/
  (forall i, 0 <= i < n -> f i = false).
Proof.
  revert n. apply natlike_ind; [right; lia|].
  intros n Hn [(i & Hi & Hf & Hl)|Hno]; [left; exists i; split_and!; [lia|lia|done|done]|].
  destruct (f n) eqn:E; [left; exists n; split_and!; [lia|lia|done|done]|right].
  intros i Hi. destruct (Z.eq_dec i n) as [->|]; [done|]. apply Hno. lia.
Qed.

Lemma serving_or_idle p : (exists i, serving p i) \/ (forall i, 0 <= i < 8 -> in_service p i = false).
Proof.
  destruct (lowest (in_service p) 8) as [(i & ? & ? & ?)|]; [done| |by right].
  left. by exists i.
Qed.

Lemma serving_unique p i j : serving p i -> serving p j -> i = j.
Proof.
  intros (Hi & Hsi & Hli) (Hj & Hsj & Hlj). destruct (Ztrichotomy i j) as [H|[H|H]]; [|done|].
  - rewrite Hlj in Hsi by lia. discriminate.
  - rewrite Hli in Hsj by lia. discriminate.
Qed.

(** A line is taken out of service. *)
Lemma end_line_eq n p :
  wf p -> 0 <= n < 8 ->
  let p' := set_isr (isr p .& ~. (shl1 n)) p in
  wf p' /\ same_setup p p' /\ irr p' = irr p /\
  forall i, 0 <= i < 8 -> in_service p' i = in_service p i && negb (i =? n).
Proof.
  intros [] Hn p'. split_and!; try done; [split; try done; apply cast_in_range|].
  intros i Hi. by apply clear_line.
Qed.

Lemma eoi_eq p :
  wf p ->
  exists p', write_command 0x20 p = Ok tt p' /\
    wf p' /\ same_setup p p' /\ irr p' = irr p /\
    (forall i j, serving p i -> 0 <= j < 8 -> in_service p' j = in_service p j && negb (j =? i)) /\
    ((forall i, ~ serving p i) -> p' = p).
Proof.
  intros Hp. destruct (eoi_loop_eq 8 0 p) as [H1 H2]; [done|done|lia|].
  change (write_command 0x20 p) with (eoi_loop 8 0 p).
  destruct (serving_or_idle p) as [[i Hi]|Hno].
  - eexists. split; [by apply H1|]. destruct (end_line_eq i p Hp) as (? & ? & ? & H); [apply Hi|].
    split_and!; try done; [|intros Hno; by destruct (Hno i)].
    intros i' j Hi' Hj. rewrite (serving_unique p i' i) by done. by apply H.
  - exists p. assert (forall i, ~ serving p i) as Hn.
    { intros i (Hi & Hs & _). rewrite Hno in Hs by done. discriminate. }
    split_and!; try done; [by apply H2|]. intros i j Hi. by destruct (Hn i).
Qed.

Lemma specific_eoi_eq n p :
  0 <= n < 8 -> write_command (0x60 + n) p = Ok tt (set_isr (isr p .& ~. (shl1 n)) p).
Proof. intros Hn. by enum_below n 8%nat. Qed.

(** An interrupt that is delivered, acknowledged and ended. *)
Lemma service_eq n p :
  wf p -> wins p n ->
  exists p', (inta_handler (vector_address p + n) ;; write_command 0x20) p = Ok tt p' /\
    wf p' /\ same_setup p p' /\
    (forall i, 0 <= i < 8 -> in_service p' i = in_service p i) /\
    (forall i, 0 <= i < 8 -> requested p' i = requested p i && negb (i =? n)).
Proof.
  intros Hp (Hn & Hr & Hs & Hh).
  destruct (inta_handler_eq n p Hp Hn) as (p1 & E1 & Hp1 & (S1 & S2 & S3) & Hs1 & Hr1).
  destruct (eoi_eq p1 Hp1) as (p2 & E2 & Hp2 & (T1 & T2 & T3) & Hi2 & Hs2 & _).
  exists p2. unfold mbind, M_bind. rewrite E1. split; [done|]. split; [done|].
  split; [by split_and!; congruence|].
  assert (Hn1 : serving p1 n).
  { split_and!; [lia|lia| |].
    - rewrite Hs1, Z.eqb_refl by done. apply orb_true_r.
    - intros j Hj. rewrite Hs1, Hs by lia. cbn. by apply Z.eqb_neq; lia. }
  split; intros i Hi.
  - rewrite (Hs2 n), Hs1 by done. destruct (Z.eqb_spec i n) as [->|]; cbn [negb].
    + rewrite Hs by lia. by rewrite andb_false_r.
    + by rewrite orb_false_r, andb_true_r.
  - unfold requested. rewrite Hi2. by apply Hr1.
Qed.

Lemma vector_base v : in_range uint8_t v -> v .& 0xf8 = v / 8 * 8.
Proof.
  intros Hv. apply Z.eqb_eq. apply (forall_below_spec 256 (fun v => v .& 0xf8 =? v / 8 * 8));
    [by vm_compute|done].
Qed.

(** C31. The interrupt controller keeps eight lines of fixed priority. A
    request on a masked line is dropped. Any other is recorded, and then the
    requested line of highest priority is raised on the CPU, at its vector,
    unless a line of its priority or a higher one is in service. The
    acknowledge moves a line from requested to in service; the end of
    interrupt takes the line of highest priority (or the one named) out of
    service and nothing else: so a delivered interrupt, acknowledged and ended,
    has consumed its request and nothing more. ICW1, ICW2 and ICW4 set the
    vector base, rounded down to a multiple of eight; the data port otherwise
    reads and writes the mask. *)
Theorem pic_protocol p n v :
  wf p -> 0 <= n < 8 -> in_range uint8_t v ->
  (masked p n = true -> raise_irq n p = Ok [] p) /\
  (masked p n = false -> exists irqs p', raise_irq n p = Ok irqs p' /\ wf p' /\ same_setup p p' /\
     (forall i, 0 <= i < 8 -> requested p' i = requested p i || (i =? n)) /\
     (forall i, in_service p' i = in_service p i) /\
     (forall i, wins p' i -> irqs = [vector_address p + i]) /\
     ((forall i, ~ wins p' i) -> irqs = [])) /\
  (exists p', inta_handler (vector_address p + n) p = Ok tt p' /\ wf p' /\ same_setup p p' /\
     (forall i, 0 <= i < 8 -> in_service p' i = in_service p i || (i =? n)) /\
     (forall i, 0 <= i < 8 -> requested p' i = requested p i && negb (i =? n))) /\
  (exists p', write_command 0x20 p = Ok tt p' /\ wf p' /\ same_setup p p' /\ irr p' = irr p /\
     (forall i j, serving p i -> 0 <= j < 8 -> in_service p' j = in_service p j && negb (j =? i)) /\
     ((forall i, ~ serving p i) -> p' = p)) /\
  (exists p', write_command (0x60 + n) p = Ok tt p' /\ wf p' /\ same_setup p p' /\ irr p' = irr p /\
     (forall i, 0 <= i < 8 -> in_service p' i = in_service p i && negb (i =? n))) /\
  (wins p n -> exists p',
     (inta_handler (vector_address p + n) ;; write_command 0x20) p = Ok tt p' /\ wf p' /\
     same_setup p p' /\ (forall i, 0 <= i < 8 -> in_service p' i = in_service p i) /\
     (forall i, 0 <= i < 8 -> requested p' i = requested p i && negb (i =? n))) /\
  (write_command 0x13 ;; write_data v ;; write_data 1) p =
    Ok tt (set_state STATE_IDLE (set_vector_address (v / 8 * 8) p)) /\
  (state p = STATE_IDLE ->
     write_data v p = Ok tt (set_mask_reg v p) /\ read_data (set_mask_reg v p) = Ok v (set_mask_reg v p)).
Proof.
  intros Hp Hn Hv. split_and!.
  - by apply raise_irq_masked.
  - intros Hm. destruct (raise_irq_eq n p Hp Hn Hm) as (E & Hp' & Hs & Hr & Hi).
    do 2 eexists. split; [exact E|]. split_and!; try done.
    all: refine (proj1 (raise_loop_eq 8 0 _ eq_refl _ _)) || refine (proj2 (raise_loop_eq 8 0 _ eq_refl _ _)); lia.
  - by apply inta_handler_eq.
  - by apply eoi_eq.
  - eexists. split; [by apply specific_eoi_eq|]. by apply end_line_eq.
  - by apply service_eq.
  - unfold mbind, M_bind. cbn -[Z.land Z.mul Z.div set_vector_address].
    unfold write_data, mbind, M_bind, gets, modify. cbn [state set_state set_vector_address].
    by rewrite vector_base.
  - intros Hidle. unfold write_data, mbind, M_bind, gets. rewrite Hidle. split; [done|].
    unfold read_data, gets. cbn [mask set_mask_reg]. by rewrite cast_id.
Qed.
End pic.

(** Line 1 waits with its request while line 0 is in service. *)
Lemma pic_protocol_witness :
  let p := PIC.mk STATE_IDLE STATE_READ_IRR 8 0 1 2 in
  exists p', write_command (CFG := default_config) 0x20 p = Ok tt p' /\
    (forall i, serving p i -> in_service p' 1 = in_service p 1 && negb (1 =? i)).
Proof.
  intros p. destruct (pic_protocol (CFG := default_config) p 0 8) as (_ & _ & _ & H & _);
    [by split; vm_compute|lia|by vm_compute|].
  destruct H as (p' & E & _ & _ & _ & Hs & _). exists p'. split; [exact E|].
  intros i Hi. by apply Hs.
Defined.
