(* ===== verification/Fifo.v ===== *)
(** * The bounded queue: [sim/Fifo.h] *)
From S2P Require Import Prelude ErrorState.

Module Fifo.

(** [template <typename T> class Fifo]. *)
Record t (T : Type) := mk { max_depth : Z; entries : list T }.
Arguments mk {T}. Arguments max_depth {T}. Arguments entries {T}.

Section fifo.
Context {T : Type}.
Implicit Types f : t T.

Definition create (max_depth : Z) : t T := mk (u32 max_depth) [].

(** [std::underflow_error] and [std::overflow_error] are the device errors. *)
Definition pop : M (t T) T := fun f =>
  match entries f with
  | [] => Err DeviceError
  | e :: l => Ok e (mk (max_depth f) l)
  end.

Definition is_full f : bool := Z.of_nat (length (entries f)) =? max_depth f.

Definition push (e : T) : M (t T) unit := fun f =>
  if is_full f then Err DeviceError else Ok tt (mk (max_depth f) (entries f ++ [e])).

(** ** The queue it implements *)

Definition wf f : Prop := 0 <= max_depth f /\ Z.of_nat (length (entries f)) <= max_depth f.

Lemma fifo_wf_create d : wf (create d).
Proof. unfold wf, create. cbn. pose proof (cast_in_range uint32_t d). rewrite in_u32 in H. lia. Qed.

Lemma push_spec e f :
  wf f ->
  if decide (Z.of_nat (length (entries f)) < max_depth f)
  then exists f', push e f = Ok tt f' /\ wf f' /\ entries f' = entries f ++ [e] /\ max_depth f' = max_depth f
  else push e f = Err DeviceError.
Proof.
  intros [Hd Hf]. unfold push, is_full.
  case_decide as Hlt; destruct (Z.eqb_spec (Z.of_nat (length (entries f))) (max_depth f)); try lia;
    [|done].
  eexists. split; [done|]. unfold wf. cbn. rewrite length_app. cbn. split_and!; done || lia.
Qed.

Lemma pop_spec f :
  wf f ->
  match entries f with
  | [] => pop f = Err DeviceError
  | e :: l => exists f', pop f = Ok e f' /\ wf f' /\ entries f' = l /\ max_depth f' = max_depth f
  end.
Proof.
  intros [Hd Hf]. unfold pop. destruct f as [d [|e l]]; cbn [entries max_depth length] in *; [done|].
  eexists. split; [done|]. unfold wf. cbn [entries max_depth]. split_and!; done || lia.
Qed.

(** Pushing a list and popping as many gives the list back, in order. *)
Fixpoint push_all (l : list T) : M (t T) unit :=
  match l with [] => mret () | e :: l => push e ;; push_all l end.
Fixpoint pop_n (n : nat) : M (t T) (list T) :=
  match n with O => mret [] | S n => e ← pop ; l ← pop_n n ; mret (e :: l) end.

Lemma push_all_spec l f :
  wf f -> Z.of_nat (length (entries f)) + Z.of_nat (length l) <= max_depth f ->
  push_all l f = Ok tt (mk (max_depth f) (entries f ++ l)).
Proof.
  revert f. induction l as [|e l IH]; intros f Hf Hl; cbn [push_all].
  { rewrite app_nil_r. by destruct f. }
  pose proof (push_spec e f Hf) as H. rewrite decide_True in H by (cbn in Hl; lia).
  destruct H as (f' & E & Hf' & He & Hd). unfold mbind, M_bind. rewrite E, IH; [|done|].
  - by rewrite He, Hd, <- app_assoc.
  - rewrite He, Hd, length_app. cbn in *. lia.
Qed.

Lemma pop_n_spec n f l :
  entries f = l -> (n <= length l)%nat -> pop_n n f = Ok (take n l) (mk (max_depth f) (drop n l)).
Proof.
  revert f l. induction n as [|n IH]; intros f l E Hn; cbn [pop_n].
  { rewrite take_0, drop_0, <- E. by destruct f. }
  destruct l as [|e l]; [cbn in Hn; lia|]. unfold mbind, M_bind, pop. rewrite E.
  erewrite IH; [done|done|cbn in Hn; lia].
Qed.
End fifo.
End Fifo.
