(* ===== verification/PS2.v ===== *)
(** * The PS/2 devices: [sim/PS2.h], [sim/Keyboard.h], [sim/Mouse.h]

    Their methods run on the interrupt controller they hold a pointer to and
    on their own members; the list they return is the interrupts that the
    controller raises on the CPU. *)
From S2P Require Import Prelude Config ErrorState IOPorts PIC.

(** Calls of the controller and of the own object, on the pair of them. *)
Definition on_pic {B A} (f : M PIC.t A) : M (PIC.t * B) A := fun s =>
  match f (fst s) with Ok a p => Ok a (p, snd s) | Err e => Err e end.
Definition on_self {P B A} (f : M B A) : M (P * B) A := fun s =>
  match f (snd s) with Ok a b => Ok a (fst s, b) | Err e => Err e end.

Module PS2.

(** [std::deque<uint8_t> pending]; [pic] and [irq_num] are fixed when the
    object is made. *)
Record t := mk { pending : list Z }.

Definition create : t := mk [].
Definition ps2_ctrl_clear : Z := 1 .<< 7.

Section ps2.
Context {CFG : Config}.

(** [read_pops] is the virtual function of the class of the object. *)
Variable read_pops : bool.
Variable irq_num : Z.

Definition write8 (port_num offs v : Z) : M t unit :=
  if (offs =? 1) && nz (v .& ps2_ctrl_clear) then
    modify (fun d => match pending d with [] => d | _ => mk [] end)
  else mret ().

Definition read8 (port_num offs : Z) : M t Z :=
  if nz offs then gets (fun d => match pending d with [] => 0 | _ => 1 .<< 4 end)
  else
    d ← gets id ;
    match pending d with
    | v :: rest =>
        (if read_pops then modify (fun _ => mk rest) else mret ()) ;;
        mret v
    | [] => mret 0
    end.

Definition add_byte (v : Z) : M (PIC.t * t) (list Z) :=
  irqs ← on_pic (PIC.raise_irq irq_num) ;
  on_self (modify (fun d => mk (pending d ++ [u8 v]))) ;;
  mret irqs.

Definition num_pending_bytes (d : t) : Z := Z.of_nat (length (pending d)).

(** One [add_byte] after the other. *)
Fixpoint add_bytes (l : list Z) : M (PIC.t * t) (list Z) :=
  match l with
  | [] => mret []
  | v :: l => i1 ← add_byte v ; i2 ← add_bytes l ; mret (i1 ++ i2)
  end.

End ps2.
End PS2.

Module Keyboard.

(** The [SDL_Keycode]s the table names, and the others. *)
Inductive keycode :=
  | SDLK_a | SDLK_b | SDLK_c | SDLK_d | SDLK_e | SDLK_f | SDLK_g | SDLK_h
  | SDLK_i | SDLK_j | SDLK_k | SDLK_l | SDLK_m | SDLK_n | SDLK_o | SDLK_p
  | SDLK_q | SDLK_r | SDLK_s | SDLK_t | SDLK_u | SDLK_v | SDLK_w | SDLK_x
  | SDLK_y | SDLK_z | SDLK_1 | SDLK_2 | SDLK_3 | SDLK_4 | SDLK_5 | SDLK_6
  | SDLK_7 | SDLK_8 | SDLK_9 | SDLK_0 | SDLK_MINUS | SDLK_EQUALS | SDLK_LEFTBRACKET | SDLK_RIGHTBRACKET
  | SDLK_SEMICOLON | SDLK_QUOTE | SDLK_BACKQUOTE | SDLK_BACKSLASH | SDLK_COMMA | SDLK_PERIOD | SDLK_SLASH | SDLK_F1
  | SDLK_F2 | SDLK_F3 | SDLK_F4 | SDLK_F5 | SDLK_F6 | SDLK_F7 | SDLK_F8 | SDLK_F9
  | SDLK_F10 | SDLK_F11 | SDLK_F12 | SDLK_BACKSPACE | SDLK_DELETE | SDLK_DOWN | SDLK_END | SDLK_RETURN
  | SDLK_ESCAPE | SDLK_HOME | SDLK_INSERT | SDLK_LEFT | SDLK_PAGEDOWN | SDLK_PAGEUP | SDLK_PRINTSCREEN | SDLK_RIGHT
  | SDLK_SPACE | SDLK_TAB | SDLK_UP | SDLK_LCTRL | SDLK_LALT | SDLK_LSHIFT
  | SDLK_other.

(** [static std::map<int, std::vector<unsigned char>> sdl_to_keyboard]. *)
Definition sdl_to_keyboard : list (keycode * list Z) := [
   (SDLK_a, [0x1e]); (SDLK_b, [0x30]); (SDLK_c, [0x2e]); (SDLK_d, [0x20]);
   (SDLK_e, [0x12]); (SDLK_f, [0x21]); (SDLK_g, [0x22]); (SDLK_h, [0x23]);
   (SDLK_i, [0x17]); (SDLK_j, [0x24]); (SDLK_k, [0x25]); (SDLK_l, [0x26]);
   (SDLK_m, [0x32]); (SDLK_n, [0x31]); (SDLK_o, [0x18]); (SDLK_p, [0x19]);
   (SDLK_q, [0x10]); (SDLK_r, [0x13]); (SDLK_s, [0x1f]); (SDLK_t, [0x14]);
   (SDLK_u, [0x16]); (SDLK_v, [0x2f]); (SDLK_w, [0x11]); (SDLK_x, [0x2d]);
   (SDLK_y, [0x15]); (SDLK_z, [0x2c]); (SDLK_1, [0x02]); (SDLK_2, [0x03]);
   (SDLK_3, [0x04]); (SDLK_4, [0x05]); (SDLK_5, [0x06]); (SDLK_6, [0x07]);
   (SDLK_7, [0x08]); (SDLK_8, [0x09]); (SDLK_9, [0x0a]); (SDLK_0, [0x0b]);
   (SDLK_MINUS, [0x0c]); (SDLK_EQUALS, [0x0d]); (SDLK_LEFTBRACKET, [0x1a]); (SDLK_RIGHTBRACKET, [0x1b]);
   (SDLK_SEMICOLON, [0x27]); (SDLK_QUOTE, [0x28]); (SDLK_BACKQUOTE, [0x20]); (SDLK_BACKSLASH, [0x2b]);
   (SDLK_COMMA, [0x33]); (SDLK_PERIOD, [0x34]); (SDLK_SLASH, [0x35]); (SDLK_F1, [0x3b]);
   (SDLK_F2, [0x3c]); (SDLK_F3, [0x3d]); (SDLK_F4, [0x3e]); (SDLK_F5, [0x3f]);
   (SDLK_F6, [0x40]); (SDLK_F7, [0x41]); (SDLK_F8, [0x42]); (SDLK_F9, [0x43]);
   (SDLK_F10, [0x44]); (SDLK_F11, [0x85]); (SDLK_F12, [0x86]); (SDLK_BACKSPACE, [0x0e]);
   (SDLK_DELETE, [0xe0; 0x53]); (SDLK_DOWN, [0xe0; 0x50]); (SDLK_END, [0xe0; 0x4f]); (SDLK_RETURN, [0x1c]);
   (SDLK_ESCAPE, [0x01]); (SDLK_HOME, [0xe0; 0x47]); (SDLK_INSERT, [0xe0; 0x52]); (SDLK_LEFT, [0xe0; 0x4b]);
   (SDLK_PAGEDOWN, [0xe0; 0x51]); (SDLK_PAGEUP, [0xe0; 0x49]); (SDLK_PRINTSCREEN, [0xe0; 0x12; 0xe0; 0x7c]); (SDLK_RIGHT, [0xe0; 0x4d]);
   (SDLK_SPACE, [0x39]); (SDLK_TAB, [0x0f]); (SDLK_UP, [0xe0; 0x48]); (SDLK_LCTRL, [0x1d]);
   (SDLK_LALT, [0x38]); (SDLK_LSHIFT, [0x2a])].

#[export] Instance keycode_eq_dec : EqDecision keycode.
Proof. solve_decision. Defined.

Definition codes_of (sym : keycode) : option (list Z) :=
  snd <$> find (fun e => bool_decide (fst e = sym)) sdl_to_keyboard.

Definition get_base : Z := 0x0060.
Definition get_num_ports : Z := 1.
Definition irq_num : Z := 1.
Definition read_pops : bool := false.

Section keyboard.
Context {CFG : Config}.

Definition add_byte := PS2.add_byte irq_num.

(** The constructor, run on a new queue. *)
Definition create : M (PIC.t * PS2.t) (list Z) := add_byte 0xaa.

(** [e.key.keysym.sym], and whether [e.type == SDL_KEYUP]. *)
Fixpoint send_codes (codes : list Z) (key_up : bool) : M (PIC.t * PS2.t) (list Z) :=
  match codes with
  | [] => mret []
  | b :: codes =>
      if b =? 0xe0 then send_codes codes key_up
      else
        i1 ← add_byte (if key_up then 0x80 .| b else b) ;
        i2 ← send_codes codes key_up ;
        mret (i1 ++ i2)
  end.

Definition process_event (sym : keycode) (key_up : bool) : M (PIC.t * PS2.t) (list Z) :=
  match codes_of sym with
  | None => mret []
  | Some codes => send_codes codes key_up
  end.

End keyboard.
End Keyboard.

Module Mouse.

(** The members; [ps2] is the base class. *)
Record t := mk {
  ps2 : PS2.t;
  last_x : Z;
  last_y : Z;
  capture_enabled : bool;
  left_down : bool;
  right_down : bool;
  active : bool;
}.

Definition get_base : Z := 0xffe0.
Definition get_num_ports : Z := 1.
Definition irq_num : Z := 7.
Definition read_pops : bool := true.

Definition create : t := mk PS2.create 0 0 true false false false.

Definition set_ps2 (x : PS2.t) (m : t) : t :=
  mk x (last_x m) (last_y m) (capture_enabled m) (left_down m) (right_down m) (active m).
Definition set_last (x y : Z) (m : t) : t :=
  mk (ps2 m) x y (capture_enabled m) (left_down m) (right_down m) (active m).
Definition set_capture_enabled (x : bool) (m : t) : t :=
  mk (ps2 m) (last_x m) (last_y m) x (left_down m) (right_down m) (active m).
Definition set_left_down (x : bool) (m : t) : t :=
  mk (ps2 m) (last_x m) (last_y m) (capture_enabled m) x (right_down m) (active m).
Definition set_right_down (x : bool) (m : t) : t :=
  mk (ps2 m) (last_x m) (last_y m) (capture_enabled m) (left_down m) x (active m).
Definition set_active (x : bool) (m : t) : t :=
  mk (ps2 m) (last_x m) (last_y m) (capture_enabled m) (left_down m) (right_down m) x.

(** [e.button.button]. *)
Inductive button := SDL_BUTTON_LEFT | SDL_BUTTON_RIGHT | SDL_BUTTON_OTHER.

(** A method of the base class. *)
Definition on_ps2 {P A} (f : M (P * PS2.t) A) : M (P * t) A := fun s =>
  match f (fst s, ps2 (snd s)) with
  | Ok a (p, d) => Ok a (p, set_ps2 d (snd s))
  | Err e => Err e
  end.

Section mouse.
Context {CFG : Config}.

Definition add_byte (v : Z) : M (PIC.t * t) (list Z) := on_ps2 (PS2.add_byte irq_num v).

Definition write8 (port_num offs v : Z) : M (PIC.t * t) (list Z) :=
  irqs ←
    (if (port_num =? 0) && (offs =? 0) then
       i1 ← add_byte 0xfa ;
       i2 ←
         (if v =? 0xff then
            i2 ← add_byte 0xaa ;
            i3 ← add_byte 0x55 ;
            mret (i2 ++ i3)
          else mret []) ;
       (if v =? 0xf4 then on_self (modify (set_active true)) else mret ()) ;;
       mret (i1 ++ i2)
     else mret []) ;
  on_ps2 (on_self (PS2.write8 port_num offs v)) ;;
  mret irqs.

Definition read8 (port_num offs : Z) : M (PIC.t * t) Z :=
  on_ps2 (on_self (PS2.read8 read_pops port_num offs)).

Definition toggle_capture : M t unit :=
  modify (fun m => set_capture_enabled (negb (capture_enabled m)) m).

(** The position that [SDL_GetMouseState] returns is an argument. *)
Definition poll_movement (mouse_x mouse_y : Z) : M (PIC.t * t) (list Z) :=
  m ← on_self (gets id) ;
  if (mouse_x =? last_x m) && (mouse_y =? last_y m) then mret []
  else if negb (active m) then mret []
  else
    let x_delta := mouse_x - last_x m in
    let y_delta := - (mouse_y - last_y m) in
    let b := 0x08 in
    let b := if x_delta <? 0 then u8 (b .| (1 .<< 4)) else b in
    let b := if y_delta <? 0 then u8 (b .| (1 .<< 5)) else b in
    i1 ← add_byte b ;
    i2 ← add_byte x_delta ;
    i3 ← add_byte y_delta ;
    on_self (modify (set_last mouse_x mouse_y)) ;;
    mret (i1 ++ i2 ++ i3).

Definition update (mouse_x mouse_y : Z) : M (PIC.t * t) (list Z) :=
  m ← on_self (gets id) ;
  if 5 <=? PS2.num_pending_bytes (ps2 m) then mret []
  else poll_movement mouse_x mouse_y.

(** A button event: pressed ([SDL_MOUSEBUTTONDOWN]) or released. *)
Definition process_event (down : bool) (b : button) : M (PIC.t * t) (list Z) :=
  m ← on_self (gets id) ;
  if negb (active m) then mret []
  else
    on_self (modify
      (match b with
       | SDL_BUTTON_LEFT => set_left_down down
       | SDL_BUTTON_RIGHT => set_right_down down
       | SDL_BUTTON_OTHER => id
       end)) ;;
    m ← on_self (gets id) ;
    let v := 0x08 in
    let v := if left_down m then u8 (v .| (1 .<< 0)) else v in
    let v := if right_down m then u8 (v .| (1 .<< 1)) else v in
    if 5 <=? PS2.num_pending_bytes (ps2 m) then mret []
    else
      i1 ← add_byte v ;
      i2 ← add_byte 0 ;
      i3 ← add_byte 0 ;
      mret (i1 ++ i2 ++ i3).

End mouse.
End Mouse.
