(* ===== verification/PS2Props.v ===== *)
(** * The PS/2 devices as byte queues *)
From S2P Require Import Prelude Config ErrorState IOPorts PIC PICProps PS2.

Section ps2.
Context {CFG : Config}.
Implicit Types (p : PIC.t) (d : PS2.t).

(** Queueing bytes: they go to the end, with an edge for each. *)
Lemma add_bytes_eq irq l p d :
  PS2.add_bytes irq l (p, d) =
    match edges irq (length l) p with
    | Ok irqs p' => Ok irqs (p', PS2.mk (PS2.pending d ++ map u8 l))
    | Err e => Err e
    end.
Proof.
  revert p d. induction l as [|v l IH]; intros p d.
  { cbn. rewrite app_nil_r. by destruct d. }
  cbn [PS2.add_bytes edges length map]. unfold PS2.add_byte, on_pic, mbind, M_bind. cbn [fst snd].
  destruct (PIC.raise_irq irq p) as [i1 p1|]; [|done]. cbn [on_self modify fst snd mret M_ret].
  change (on_self (modify ?f) (?a, ?b)) with (Ok tt (a, f b)). cbn iota beta. unfold mret, M_ret. rewrite IH.
  destruct (edges irq (length l) p1); [|done]. cbn [PS2.pending]. by rewrite <- app_assoc.
Qed.

(** ** The keyboard *)

(** What a key sends: its codes without the 0xe0 prefixes, with bit 7 set when released. *)
Definition scancodes (sym : Keyboard.keycode) (key_up : bool) : list Z :=
  map (fun b => if key_up then 0x80 .| b else b)
    (filter (fun b => b <> 0xe0) (default [] (Keyboard.codes_of sym))).

Lemma send_codes_eq codes up s :
  Keyboard.send_codes codes up s =
    PS2.add_bytes Keyboard.irq_num
      (map (fun b => if up then 0x80 .| b else b) (filter (fun b => b <> 0xe0) codes)) s.
Proof.
  revert s. induction codes as [|b codes IH]; intros s; [done|]. cbn [Keyboard.send_codes].
  destruct (Z.eqb_spec b 0xe0) as [->|Hb].
  - rewrite IH. by rewrite filter_cons_False by (by intros []).
  - rewrite filter_cons_True by done. cbn [map PS2.add_bytes]. unfold mbind, M_bind, Keyboard.add_byte.
    destruct (PS2.add_byte _ _ s) as [i1 s1|]; [|done]. by rewrite IH.
Qed.

Lemma process_event_eq sym up s :
  Keyboard.process_event sym up s = PS2.add_bytes Keyboard.irq_num (scancodes sym up) s.
Proof.
  unfold Keyboard.process_event, scancodes. destruct (Keyboard.codes_of sym); [apply send_codes_eq|done].
Qed.

(** ** The mouse *)

Lemma on_ps2_bind {P A B} (f : M (P * PS2.t) A) (g : A -> M (P * PS2.t) B) s :
  Mouse.on_ps2 (f ≫= g) s = (Mouse.on_ps2 f ≫= (fun a => Mouse.on_ps2 (g a))) s.
Proof.
  destruct s as [p m]. unfold mbind, M_bind, Mouse.on_ps2. cbn [fst snd].
  destruct (f (p, Mouse.ps2 m)) as [a [p1 d1]|]; [|done]. cbn [fst snd Mouse.ps2 Mouse.set_ps2].
  by destruct (g a (p1, d1)) as [b [p2 d2]|].
Qed.

Lemma on_ps2_ret {P A} (a : A) (s : P * Mouse.t) : Mouse.on_ps2 (mret a) s = Ok a s.
Proof. by destruct s as [p []]. Qed.

(** A packet of three bytes. *)
Lemma packet_eq a b c s :
  (i1 ← Mouse.add_byte a ; i2 ← Mouse.add_byte b ; i3 ← Mouse.add_byte c ; mret (i1 ++ i2 ++ i3)) s =
  Mouse.on_ps2 (PS2.add_bytes Mouse.irq_num [a; b; c]) s.
Proof.
  destruct s as [p m]. unfold Mouse.add_byte, mbind, M_bind, Mouse.on_ps2. cbn [fst snd PS2.add_bytes].
  unfold mbind, M_bind.
  destruct (PS2.add_byte _ a _) as [i1 [p1 d1]|]; [|done]. cbn [fst snd Mouse.ps2 Mouse.set_ps2].
  destruct (PS2.add_byte _ b _) as [i2 [p2 d2]|]; [|done]. cbn [fst snd Mouse.ps2 Mouse.set_ps2].
  destruct (PS2.add_byte _ c _) as [i3 [p3 d3]|]; [|done].
  unfold mret, M_ret. cbn. by rewrite app_nil_r.
Qed.

(** A movement: the signs of the two deltas, then their low bytes. *)
Definition movement_packet (dx dy : Z) : list Z :=
  [0x08 + (if dx <? 0 then 16 else 0) + (if dy <? 0 then 32 else 0); dx; dy].
Definition button_packet (m : Mouse.t) : list Z :=
  [0x08 + (if Mouse.left_down m then 1 else 0) + (if Mouse.right_down m then 2 else 0); 0; 0].

(** How a host reads a delta: nine bits, the sign in the first byte. *)
Definition decode_delta (sign : bool) (byte : Z) : Z := if sign then byte - 256 else byte.

Lemma decode_delta_eq dx : - 256 <= dx < 256 -> decode_delta (dx <? 0) (u8 dx) = dx.
Proof. intros Hd. unfold decode_delta. zcmp; cpp_lia. Qed.

Definition pressed (down : bool) (b : Mouse.button) (m : Mouse.t) : Mouse.t :=
  match b with
  | Mouse.SDL_BUTTON_LEFT => Mouse.set_left_down down m
  | Mouse.SDL_BUTTON_RIGHT => Mouse.set_right_down down m
  | Mouse.SDL_BUTTON_OTHER => m
  end.

(** The queue has no room for a packet. *)
Definition busy (m : Mouse.t) : bool := 5 <=? PS2.num_pending_bytes (Mouse.ps2 m).

Lemma update_eq mx my p m :
  Mouse.update mx my (p, m) =
    if busy m || ((mx =? Mouse.last_x m) && (my =? Mouse.last_y m)) || negb (Mouse.active m)
    then Ok [] (p, m)
    else
      (irqs ← Mouse.on_ps2 (PS2.add_bytes Mouse.irq_num
                (movement_packet (mx - Mouse.last_x m) (- (my - Mouse.last_y m)))) ;
       on_self (modify (Mouse.set_last mx my)) ;;
       mret irqs) (p, m).
Proof.
  unfold Mouse.update, mbind at 1, M_bind at 1. cbn [on_self gets fst snd id]. fold (busy m).
  change (on_self (gets id) (p, m)) with (Ok m (p, m)). cbn iota beta.
  unfold busy. destruct (5 <=? _); [done|]. cbn [orb].
  unfold Mouse.poll_movement, mbind at 1, M_bind at 1.
  change (on_self (gets id) (p, m)) with (Ok m (p, m)). cbn iota beta.
  destruct ((mx =? Mouse.last_x m) && _); [done|]. cbn [orb].
  destruct (Mouse.active m); [|done]. cbn [negb].
  set (dx := mx - _). set (dy := - _). unfold movement_packet.
  replace (0x08 + (if dx <? 0 then 16 else 0) + (if dy <? 0 then 32 else 0))
    with (if dy <? 0 then u8 ((if dx <? 0 then u8 (0x08 .| (1 .<< 4)) else 0x08) .| (1 .<< 5))
          else if dx <? 0 then u8 (0x08 .| (1 .<< 4)) else 0x08)
    by (destruct (dx <? 0), (dy <? 0); reflexivity).
  set (b := if dy <? 0 then _ else _). unfold mbind, M_bind. rewrite <- packet_eq. unfold mbind, M_bind.
  destruct (Mouse.add_byte b _) as [i1 s1|]; [|done].
  destruct (Mouse.add_byte dx _) as [i2 s2|]; [|done].
  by destruct (Mouse.add_byte dy _) as [i3 [p3 m3]|].
Qed.

Lemma button_event_eq down b p m :
  Mouse.process_event down b (p, m) =
    if negb (Mouse.active m) then Ok [] (p, m)
    else
      let m' := pressed down b m in
      if busy m' then Ok [] (p, m')
      else Mouse.on_ps2 (PS2.add_bytes Mouse.irq_num (button_packet m')) (p, m').
Proof.
  unfold Mouse.process_event, mbind at 1, M_bind at 1.
  change (on_self (gets id) (p, m)) with (Ok m (p, m)). cbn iota beta.
  destruct (Mouse.active m); [|done]. cbn [negb].
  set (m' := pressed down b m). unfold mbind at 1, M_bind at 1.
  replace (on_self (modify _) (p, m)) with (Ok (S := PIC.t * Mouse.t) tt (p, m')) by by destruct b.
  cbn iota beta. unfold mbind at 1, M_bind at 1.
  change (on_self (gets id) (p, m')) with (Ok m' (p, m')). cbn iota beta zeta. fold (busy m').
  destruct (busy m'); [done|]. unfold button_packet.
  replace (0x08 + (if Mouse.left_down m' then 1 else 0) + (if Mouse.right_down m' then 2 else 0))
    with (if Mouse.right_down m'
          then u8 ((if Mouse.left_down m' then u8 (0x08 .| (1 .<< 0)) else 0x08) .| (1 .<< 1))
          else if Mouse.left_down m' then u8 (0x08 .| (1 .<< 0)) else 0x08)
    by (destruct (Mouse.left_down m'), (Mouse.right_down m'); reflexivity).
  by rewrite packet_eq.
Qed.

(** The length of the queue after a call that returns. *)
Definition queued {A} (o : outcome (PIC.t * Mouse.t) A) : option Z :=
  match o with Ok _ (_, m) => Some (PS2.num_pending_bytes (Mouse.ps2 m)) | Err _ => None end.

Lemma queued_packet a b c p m :
  queued (Mouse.on_ps2 (PS2.add_bytes Mouse.irq_num [a; b; c]) (p, m)) =
    Some (PS2.num_pending_bytes (Mouse.ps2 m) + 3).
Proof.
  unfold Mouse.on_ps2. cbn [fst snd]. rewrite add_bytes_eq.
  destruct (edges_ok Mouse.irq_num (length [a; b; c]) p) as (i & p' & ->).
  cbn [queued Mouse.ps2 Mouse.set_ps2]. unfold PS2.num_pending_bytes. cbn [PS2.pending].
  rewrite length_app. cbn [map length]. f_equal. lia.
Qed.

Lemma update_queued mx my p m :
  PS2.num_pending_bytes (Mouse.ps2 m) <= 7 ->
  exists n, queued (Mouse.update mx my (p, m)) = Some n /\ n <= 7.
Proof.
  intros Hn. rewrite update_eq. unfold busy. destruct (Z.leb_spec 5 (PS2.num_pending_bytes (Mouse.ps2 m))).
  { by eexists. }
  cbn [orb]. destruct (_ || _); [by eexists|]. unfold mbind, M_bind.
  pose proof (queued_packet (8 + (if mx - Mouse.last_x m <? 0 then 16 else 0) +
    (if - (my - Mouse.last_y m) <? 0 then 32 else 0)) (mx - Mouse.last_x m) (- (my - Mouse.last_y m)) p m) as E.
  unfold movement_packet. destruct (Mouse.on_ps2 _ _) as [irqs [p' m']|]; [|done].
  injection E as E. eexists. split; [reflexivity|]. cbn. rewrite E. lia.
Qed.

Lemma button_queued down b p m :
  PS2.num_pending_bytes (Mouse.ps2 m) <= 7 ->
  exists n, queued (Mouse.process_event down b (p, m)) = Some n /\ n <= 7.
Proof.
  intros Hn. rewrite button_event_eq. assert (Hp : Mouse.ps2 (pressed down b m) = Mouse.ps2 m) by by destruct b.
  destruct (Mouse.active m); [|by eexists]. cbn [negb]. cbv zeta. unfold busy. rewrite Hp.
  destruct (Z.leb_spec 5 (PS2.num_pending_bytes (Mouse.ps2 m))).
  { eexists. split; [reflexivity|]. by rewrite Hp. }
  unfold button_packet. rewrite queued_packet, Hp. eexists. split; [reflexivity|]. lia.
Qed.

(** Every code of the table is a byte. *)
Lemma scancodes_bytes sym key_up : map u8 (scancodes sym key_up) = scancodes sym key_up.
Proof. by destruct sym, key_up. Qed.

(** The mouse with other bytes waiting. *)
Definition with_queue (l : list Z) (m : Mouse.t) : Mouse.t := Mouse.set_ps2 (PS2.mk l) m.
Definition waiting (m : Mouse.t) : list Z := PS2.pending (Mouse.ps2 m).

Lemma with_queue_same m : with_queue (waiting m) m = m.
Proof. by destruct m as [[]]. Qed.

Lemma put_bytes_eq l p m :
  exists irqs p', edges Mouse.irq_num (length l) p = Ok irqs p' /\
    Mouse.on_ps2 (PS2.add_bytes Mouse.irq_num l) (p, m) =
      Ok irqs (p', with_queue (waiting m ++ map u8 l) m).
Proof.
  destruct (edges_ok Mouse.irq_num (length l) p) as (irqs & p' & E). exists irqs, p'. split; [done|].
  unfold Mouse.on_ps2. cbn [fst snd]. by rewrite add_bytes_eq, E.
Qed.

(** Successive reads of the mouse's data port. *)
Fixpoint read_bytes (n : nat) : M (PIC.t * Mouse.t) (list Z) :=
  match n with
  | O => mret []
  | S n => b ← Mouse.read8 0 0 ; l ← read_bytes n ; mret (b :: l)
  end.

Lemma mouse_read8_eq p m :
  Mouse.read8 0 0 (p, m) = Ok (hd 0 (waiting m)) (p, with_queue (tl (waiting m)) m).
Proof. by destruct m as [[[|x rest]]]. Qed.

Lemma read_bytes_eq n p m :
  read_bytes n (p, m) =
    Ok (take n (waiting m) ++ repeat 0 (n - length (waiting m))) (p, with_queue (drop n (waiting m)) m).
Proof.
  revert m. induction n as [|n IH]; intros m.
  { rewrite take_0, drop_0, with_queue_same. reflexivity. }
  cbn [read_bytes]. unfold mbind, M_bind. rewrite mouse_read8_eq, IH. unfold mret, M_ret.
  unfold waiting. destruct m as [[[|x rest]]]; [|done].
  cbn [Mouse.ps2 Mouse.set_ps2 with_queue PS2.pending tl hd]. by rewrite !take_nil, !drop_nil, !Nat.sub_0_r.
Qed.

(** What the mouse answers to a command. *)
Definition answer (v : Z) : list Z := 0xfa :: (if v =? 0xff then [0xaa; 0x55] else []).

Lemma mouse_command_eq v p m :
  exists irqs p', edges Mouse.irq_num (length (answer v)) p = Ok irqs p' /\
    Mouse.write8 0 0 v (p, m) =
      Ok irqs (p', with_queue (waiting m ++ answer v)
                     (if v =? 0xf4 then Mouse.set_active true m else m)).
Proof.
  destruct (put_bytes_eq (answer v) p m) as (irqs & p' & E & Hp). exists irqs, p'. split; [done|].
  replace (map u8 (answer v)) with (answer v) in Hp by (unfold answer; by destruct (v =? 255)).
  transitivity (match Mouse.on_ps2 (PS2.add_bytes Mouse.irq_num (answer v)) (p, m) with
    | Ok irqs (p', m') => Ok irqs (p', if v =? 0xf4 then Mouse.set_active true m' else m')
    | Err e => Err e end); [|rewrite Hp; by destruct (v =? 0xf4)].
  clear. unfold Mouse.write8, answer. cbn [Z.eqb andb].
  destruct m as [[l] lx ly ce ld rd ac].
  unfold Mouse.add_byte, mbind, M_bind, Mouse.on_ps2. cbn [fst snd PS2.add_bytes Mouse.ps2].
  unfold mbind, M_bind.
  destruct (PS2.add_byte _ 0xfa _) as [i1 [p1 d1]|]; [|done]. cbn [fst snd Mouse.set_ps2 Mouse.ps2].
  destruct (v =? 255); cbn [PS2.add_bytes]; unfold mbind, M_bind; cbn [fst snd Mouse.set_ps2 Mouse.ps2].
  - destruct (PS2.add_byte _ 0xaa _) as [i2 [p2 d2]|]; [|done]. cbn [fst snd Mouse.set_ps2 Mouse.ps2].
    destruct (PS2.add_byte _ 0x55 _) as [i3 [p3 d3]|]; [|done]. cbn [fst snd Mouse.set_ps2 Mouse.ps2].
    unfold mret, M_ret. rewrite app_nil_r. by destruct (v =? 244).
  - unfold mret, M_ret. by destruct (v =? 244).
Qed.

(** The movement a packet stands for: nine bits each, the signs in the first byte. *)
Definition packet_movement (l : list Z) : Z * Z :=
  (decode_delta (Z.testbit (l !!! 0%nat) 4) (l !!! 1%nat),
   decode_delta (Z.testbit (l !!! 0%nat) 5) (l !!! 2%nat)).

Lemma packet_movement_eq dx dy :
  - 256 <= dx < 256 -> - 256 <= dy < 256 ->
  packet_movement (map u8 (movement_packet dx dy)) = (dx, dy).
Proof.
  intros Hx Hy. rewrite <- (decode_delta_eq dx Hx) at 2. rewrite <- (decode_delta_eq dy Hy) at 2.
  unfold packet_movement, movement_packet. cbn [map lookup_total list_lookup_total].
  by destruct (dx <? 0), (dy <? 0).
Qed.

Lemma write8_status_eq v d :
  PS2.write8 0 1 v d = Ok tt (if Z.testbit v 7 then PS2.mk [] else d).
Proof.
  unfold PS2.write8. rewrite (nz_land_bit v _ 7) by done. destruct (Z.testbit v 7); [|done].
  by destruct d as [[|x rest]].
Qed.

Lemma mouse_status_eq v p m :
  Mouse.write8 0 1 v (p, m) = Ok [] (p, if Z.testbit v 7 then with_queue [] m else m).
Proof.
  unfold Mouse.write8. cbn [Z.eqb Pos.eqb andb]. unfold mbind, M_bind, mret at 1, M_ret at 1.
  unfold Mouse.on_ps2, on_self. cbn [fst snd]. rewrite write8_status_eq.
  destruct m. by destruct (Z.testbit v 7).
Qed.

Lemma mouse_update_eq mx my p m :
  let dx := mx - Mouse.last_x m in
  let dy := - (my - Mouse.last_y m) in
  if busy m || ((dx =? 0) && (dy =? 0)) || negb (Mouse.active m)
  then Mouse.update mx my (p, m) = Ok [] (p, m)
  else
    let packet := map u8 (movement_packet dx dy) in
    (exists irqs p', edges 7 3 p = Ok irqs p' /\
      Mouse.update mx my (p, m) =
        Ok irqs (p', with_queue (waiting m ++ packet) (Mouse.set_last mx my m))) /\
    (- 256 <= dx < 256 -> - 256 <= dy < 256 -> packet_movement packet = (dx, dy)).
Proof.
  intros dx dy. rewrite update_eq. fold dx dy.
  replace (mx =? Mouse.last_x m) with (dx =? 0) by (unfold dx; zcmp; done || lia).
  replace (my =? Mouse.last_y m) with (dy =? 0) by (unfold dy; zcmp; done || lia).
  destruct (_ || _); [done|]. split; [|apply packet_movement_eq].
  destruct (put_bytes_eq (movement_packet dx dy) p m) as (irqs & p' & E & Hp).
  exists irqs, p'. split; [exact E|]. unfold mbind, M_bind. by rewrite Hp.
Qed.

Lemma mouse_button_eq down b p m :
  let m' := pressed down b m in
  if negb (Mouse.active m) then Mouse.process_event down b (p, m) = Ok [] (p, m)
  else if busy m then Mouse.process_event down b (p, m) = Ok [] (p, m')
  else exists irqs p', edges 7 3 p = Ok irqs p' /\
    Mouse.process_event down b (p, m) = Ok irqs (p', with_queue (waiting m ++ button_packet m') m').
Proof.
  intros m'. rewrite button_event_eq. fold m'. assert (Hb : busy m' = busy m) by by destruct b.
  cbv zeta. rewrite Hb. destruct (negb _); [done|]. destruct (busy m); [done|].
  destruct (put_bytes_eq (button_packet m') p m') as (irqs & p' & E & Hp).
  exists irqs, p'. split; [exact E|]. rewrite Hp. assert (Hw : waiting m' = waiting m) by by destruct b.
  rewrite Hw. replace (map u8 (button_packet m')) with (button_packet m'); [done|].
  unfold button_packet. by destruct (Mouse.left_down m'), (Mouse.right_down m').
Qed.

(** C32. The PS/2 devices are byte queues. The keyboard: a key queues its codes
    without their prefixes, with bit 7 set when it is released, and an edge on
    line 1 for each; the data port shows the head and does not remove it, so
    that what waits behind it is seen by nobody: bit 7 written to the status
    port empties the queue. The mouse: reading the data port [n] times returns
    the first [n] bytes in the order in which they were put in, and 0 when none
    is left, and removes them; bit 7 of the status port empties the queue; a
    command is answered by 0xfa, a reset by 0xfa, 0xaa and 0x55 too, and 0xf4
    enables it. A movement and a button event queue one whole three-byte packet
    or, when five bytes wait or the mouse is not enabled, nothing, so that
    events alone never make the queue longer than seven, with an edge on line 7
    for each byte; a packet gives a movement back between -256 and 255. *)
Theorem ps2_queues p d m sym key_up v mx my down b n :
  (exists irqs p', edges 1 (length (scancodes sym key_up)) p = Ok irqs p' /\
     Keyboard.process_event sym key_up (p, d) =
       Ok irqs (p', PS2.mk (PS2.pending d ++ scancodes sym key_up))) /\
  PS2.read8 Keyboard.read_pops 0 0 d = Ok (hd 0 (PS2.pending d)) d /\
  PS2.read8 Keyboard.read_pops 0 1 d = Ok (if bool_decide (PS2.pending d = []) then 0 else 0x10) d /\
  PS2.write8 0 1 v d = Ok tt (if Z.testbit v 7 then PS2.mk [] else d) /\
  read_bytes n (p, m) =
    Ok (take n (waiting m) ++ repeat 0 (n - length (waiting m))) (p, with_queue (drop n (waiting m)) m) /\
  Mouse.read8 0 1 (p, m) = Ok (if bool_decide (waiting m = []) then 0 else 0x10) (p, m) /\
  Mouse.write8 0 1 v (p, m) = Ok [] (p, if Z.testbit v 7 then with_queue [] m else m) /\
  (exists irqs p', edges 7 (length (answer v)) p = Ok irqs p' /\
     Mouse.write8 0 0 v (p, m) =
       Ok irqs (p', with_queue (waiting m ++ answer v) (if v =? 0xf4 then Mouse.set_active true m else m))) /\
  (let dx := mx - Mouse.last_x m in
   let dy := - (my - Mouse.last_y m) in
   if busy m || ((dx =? 0) && (dy =? 0)) || negb (Mouse.active m)
   then Mouse.update mx my (p, m) = Ok [] (p, m)
   else
     let packet := map u8 (movement_packet dx dy) in
     (exists irqs p', edges 7 3 p = Ok irqs p' /\
       Mouse.update mx my (p, m) =
         Ok irqs (p', with_queue (waiting m ++ packet) (Mouse.set_last mx my m))) /\
     (- 256 <= dx < 256 -> - 256 <= dy < 256 -> packet_movement packet = (dx, dy))) /\
  (let m' := pressed down b m in
   if negb (Mouse.active m) then Mouse.process_event down b (p, m) = Ok [] (p, m)
   else if busy m then Mouse.process_event down b (p, m) = Ok [] (p, m')
   else exists irqs p', edges 7 3 p = Ok irqs p' /\
     Mouse.process_event down b (p, m) =
       Ok irqs (p', with_queue (waiting m ++ button_packet m') m')) /\
  (PS2.num_pending_bytes (Mouse.ps2 m) <= 7 ->
     (exists k, queued (Mouse.update mx my (p, m)) = Some k /\ k <= 7) /\
     (exists k, queued (Mouse.process_event down b (p, m)) = Some k /\ k <= 7)).
Proof.
  split_and!.
  - destruct (edges_ok 1 (length (scancodes sym key_up)) p) as (irqs & p' & E). exists irqs, p'.
    split; [done|]. rewrite process_event_eq, add_bytes_eq. unfold Keyboard.irq_num.
    by rewrite E, scancodes_bytes.
  - by destruct d as [[|x rest]].
  - by destruct d as [[|x rest]].
  - by apply write8_status_eq.
  - apply read_bytes_eq.
  - by destruct m as [[[|x rest]]].
  - by apply mouse_status_eq.
  - apply mouse_command_eq.
  - apply mouse_update_eq.
  - apply mouse_button_eq.
  - intros Hn. split; [by apply update_queued|by apply button_queued].
Qed.
End ps2.

(** A mouse that is enabled and moved from the origin: the guest reads the
    packet behind the byte that was waiting. *)
Lemma ps2_queues_witness :
  let p := PIC.create 8 in
  let m := with_queue [0xfa] (Mouse.set_active true Mouse.create) in
  (exists k, queued (Mouse.update (CFG := default_config) (-3) 4 (p, m)) = Some k /\ k <= 7) /\
  packet_movement (map u8 (movement_packet (-3) (-4))) = (-3, -4) /\
  read_bytes 4 (p, with_queue (0xfa :: map u8 (movement_packet (-3) (-4))) m) =
    Ok [0xfa; 0x38; 0xfd; 0xfc] (p, with_queue [] m).
Proof.
  intros p m.
  destruct (ps2_queues (CFG := default_config) p PS2.create m Keyboard.SDLK_DELETE true 0 (-3) 4 true
    Mouse.SDL_BUTTON_LEFT 4) as (_ & _ & _ & _ & _ & _ & _ & _ & Hu & _ & H).
  split; [apply H; done|]. split.
  - destruct Hu as [_ Hu]. apply Hu; cbn; lia.
  - by vm_compute.
Defined.
