(* ===== verification/Timer.v ===== *)
(** * The interval timer: [sim/Timer.h]

    The timer scales its counts by [cycles_per_tick], a [double]; the products
    and quotients it takes of one are computed here as the hardware does, on
    53-bit mantissas rounded to nearest, ties to even. *)
From S2P Require Import Prelude Config ErrorState IOPorts PIC PS2.

(** ** Positive doubles *)

Module Double.

(** [mant * 2 ^ expo]. *)
Record t := mk { mant : Z; expo : Z }.

(** [n * 2 ^ e] rounded to a mantissa of 53 bits, to nearest, ties to even. *)
Definition round (n e : Z) : t :=
  let s := Z.log2 n + 1 - 53 in
  if s <=? 0 then mk n e
  else
    let q := n .>> s in
    let r := n .& (2 ^ s - 1) in
    let half := 2 ^ (s - 1) in
    mk (if (half <? r) || ((r =? half) && Z.odd q) then q + 1 else q) (e + s).

(** [n / d * 2 ^ e], for positive [n] and [d]: the quotient to more than 53
    bits, with a last bit for a remainder, and then rounded. *)
Definition nearest (n d e : Z) : t :=
  let k := Z.max 0 (55 + Z.log2 d - Z.log2 n) in
  let '(q, r) := Z.div_eucl (n .<< k) d in
  round (2 * q + (if r =? 0 then 0 else 1)) (e - k - 1).

(** An integer times a double, and divided by one. *)
Definition mul_int (i : Z) (x : t) : t := round (i * mant x) (expo x).
Definition int_div (i : Z) (x : t) : t := nearest i (mant x) (- expo x).

(** The conversion to an integer. *)
Definition trunc (x : t) : Z := mant x .<< expo x.

End Double.

(** [50000000 / (65536 * 18.2)]. *)
Definition cycles_per_tick : Double.t :=
  Double.int_div 50000000 (Double.mul_int 65536 (Double.nearest 182 10 0)).

Module TimerTick.

Record t := mk {
  access : Z;
  operating_mode : Z;
  count : Z;
  latched : bool;
  latched_val : Z;
  access_low : bool;
  reload : Z;
  enabled : bool;
}.

Definition get_base : Z := 0x0040.
Definition get_num_ports : Z := 2.

Definition create : t := mk 0 0 0 false 0 false 0 false.

Definition set_access (x : Z) (s : t) : t :=
  mk (u8 x) (operating_mode s) (count s) (latched s) (latched_val s) (access_low s) (reload s) (enabled s).
Definition set_operating_mode (x : Z) (s : t) : t :=
  mk (access s) (u8 x) (count s) (latched s) (latched_val s) (access_low s) (reload s) (enabled s).
Definition set_count (x : Z) (s : t) : t :=
  mk (access s) (operating_mode s) (u32 x) (latched s) (latched_val s) (access_low s) (reload s) (enabled s).
Definition set_latched (x : bool) (s : t) : t :=
  mk (access s) (operating_mode s) (count s) x (latched_val s) (access_low s) (reload s) (enabled s).
Definition set_latched_val (x : Z) (s : t) : t :=
  mk (access s) (operating_mode s) (count s) (latched s) (u16 x) (access_low s) (reload s) (enabled s).
Definition set_access_low (x : bool) (s : t) : t :=
  mk (access s) (operating_mode s) (count s) (latched s) (latched_val s) x (reload s) (enabled s).
Definition set_reload (x : Z) (s : t) : t :=
  mk (access s) (operating_mode s) (count s) (latched s) (latched_val s) (access_low s) (u16 x) (enabled s).
Definition set_enabled (x : bool) (s : t) : t :=
  mk (access s) (operating_mode s) (count s) (latched s) (latched_val s) (access_low s) (reload s) x.

(** [assert_timer]: the exception [BadTimer]. *)
Definition assert_timer {S} (b : bool) : M S unit := if b then mret () else throw DeviceError.

(** [count / cycles_per_tick], converted to the [uint16_t] it is returned as. *)
Definition read_counter (s : t) : Z :=
  if count s =? 0 then 0 else u16 (Double.trunc (Double.int_div (count s) cycles_per_tick)).

Definition do_reload (s : t) : t :=
  let n := u32 (u32 (reload s .& 0xffff) - 1) .& 0xffff in
  set_count (if n =? 0 then 0 else Double.trunc (Double.mul_int n cycles_per_tick)) s.

Definition write_mode (v : Z) : M t unit :=
  let channel := v .>> 6 in
  let access' := (v .>> 4) .& 0x3 in
  let is_bcd := v .& 0x1 in
  if nz channel then mret ()
  else
    modify (set_access access') ;;
    s ← gets id ;
    (if nz (access s) then
       let mode := (v .>> 1) .& 0x7 in
       modify (set_operating_mode mode) ;;
       assert_timer ((mode =? 2) || (mode =? 3)) ;;
       modify (set_operating_mode 2) ;;
       modify (set_enabled false)
     else mret ()) ;;
    assert_timer (is_bcd =? 0) ;;
    modify (fun s => set_access_low (negb (access s =? 2)) s) ;;
    s ← gets id ;
    if (access' =? 0) && negb (latched s) then
      modify (set_latched_val (read_counter s)) ;;
      modify (set_latched true)
    else mret ().

Definition write_reload (v : Z) : M t unit :=
  s ← gets id ;
  if access_low s then
    modify (fun s => set_reload (reload s .& ~. 0xff) s) ;;
    modify (fun s => set_reload (reload s .| v) s) ;;
    modify (set_access_low false)
  else
    modify (fun s => set_reload (reload s .& ~. 0xff00) s) ;;
    modify (fun s => set_reload (reload s .| (u16 v .<< 8)) s) ;;
    modify (set_enabled true) ;;
    modify do_reload.

Definition write8 (port_num offs v : Z) : M t unit :=
  if (port_num =? 2) && (offs =? 1) then write_mode v
  else if (port_num =? 0) && (offs =? 0) then write_reload v
  else mret ().

Definition read8 (port_num offs : Z) : M t Z :=
  if nz port_num && nz offs then mret 0
  else
    s ← gets id ;
    let counter_val := if latched s then latched_val s else read_counter s in
    if access_low s then
      modify (set_access_low false) ;;
      mret (u8 counter_val)
    else
      modify (set_latched false) ;;
      mret (u8 (counter_val .>> 8)).

Section timer.
Context {CFG : Config}.

Definition tick (cycles : Z) : M (PIC.t * t) (list Z) :=
  s ← on_self (gets id) ;
  if negb (enabled s) then mret []
  else if count s <=? cycles then
    if operating_mode s =? 2 then
      irqs ← on_pic (PIC.raise_irq 0) ;
      on_self (modify do_reload) ;;
      mret irqs
    else mret []
  else
    on_self (modify (fun s => set_count (count s - cycles) s)) ;;
    mret [].
End timer.

End TimerTick.
