(* ===== verification/TimerProps.v ===== *)
(** * The interval timer is periodic *)
From S2P Require Import Prelude Config ErrorState IOPorts PIC PICProps PS2 Timer.
Import TimerTick.

(** ** The scaled count *)

(** The clock cycles of a reload value: 0 stands for 65536. *)
Definition reload_cycles (n : Z) : Z := (n - 1) mod 65536 * 1953125 / 46592.

Definition cycles_agree (c : Double.t) : bool :=
  forall_below 65536 (fun n =>
    (if n =? 0 then 0 else Double.trunc (Double.mul_int n c)) =? n * 1953125 / 46592).

(** The doubles give the exact quotient for every count. *)
Lemma cycles_agree_eq : cycles_agree cycles_per_tick = true.
Proof. vm_compute. reflexivity. Qed.

Lemma cycles_agree_spec c n :
  cycles_agree c = true -> 0 <= n < 65536 ->
  (if n =? 0 then 0 else Double.trunc (Double.mul_int n c)) = n * 1953125 / 46592.
Proof.
  unfold cycles_agree. intros Hc Hn. pose proof (forall_below_spec 65536 _ n Hc Hn) as H.
  by apply Z.eqb_eq.
Qed.

Lemma scaled_count n :
  0 <= n < 65536 ->
  (if n =? 0 then 0 else Double.trunc (Double.mul_int n cycles_per_tick)) = n * 1953125 / 46592.
Proof. apply cycles_agree_spec, cycles_agree_eq. Qed.

Lemma low_word x : x .& 0xffff = x mod 65536.
Proof. by apply (land_mask 16). Qed.

Lemma do_reload_eq s :
  in_range uint16_t (reload s) -> do_reload s = set_count (reload_cycles (reload s)) s.
Proof.
  intros Hr. unfold do_reload. rewrite low_word. f_equal.
  replace (u32 (u32 (reload s .& 65535) - 1) mod 65536) with ((reload s - 1) mod 65536).
  - unfold reload_cycles. apply scaled_count, Z.mod_pos_bound. lia.
  - rewrite low_word. cpp_lia.
Qed.

Lemma reload_cycles_range n : 0 <= reload_cycles n < 2 ^ 32.
Proof.
  unfold reload_cycles. pose proof (Z.mod_pos_bound (n - 1) 65536 ltac:(lia)).
  split; [apply Z.div_pos; lia|]. apply Z.div_lt_upper_bound; [lia|]. change (2 ^ 32) with 4294967296. lia.
Qed.

(** ** The count read back *)

(** Rounding moves a number by half a unit of its last place at most. *)
Lemma round_error n e :
  0 < n -> Z.log2 n <= 56 ->
  exists s, 0 <= s <= 4 /\ Double.expo (Double.round n e) = e + s /\
    - 8 <= Double.mant (Double.round n e) * 2 ^ s - n <= 8.
Proof.
  intros Hn Hlog. unfold Double.round. cbv zeta. set (s := Z.log2 n + 1 - 53).
  destruct (Z.leb_spec s 0).
  { exists 0. cbn [Double.mant Double.expo]. split; lia. }
  exists s. assert (Hs : 1 <= s <= 4) by lia. split; [lia|]. cbn [Double.expo]. split; [done|].
  cbn [Double.mant]. rewrite (land_mask s), Z.shiftr_div_pow2 by lia.
  pose proof (Z.div_mod n (2 ^ s) ltac:(lia)) as Hd. pose proof (Z.mod_pos_bound n (2 ^ s) ltac:(lia)) as Hr.
  set (q := n / 2 ^ s) in *. set (r := n mod 2 ^ s) in *.
  assert (E : 2 ^ s = 2 * 2 ^ (s - 1)) by (rewrite <- Z.pow_succ_r by lia; f_equal; lia).
  assert (H8 : 2 ^ (s - 1) <= 8) by (change 8 with (2 ^ 3); apply Z.pow_le_mono_r; lia).
  destruct (_ || _) eqn:Hup; [|apply orb_false_iff in Hup as [Hup _]; apply Z.ltb_ge in Hup; nia].
  assert (2 ^ (s - 1) <= r); [|nia].
  apply orb_true_iff in Hup as [Hup|[Hup _]%andb_true_iff]; [apply Z.ltb_lt in Hup; lia|].
  apply Z.eqb_eq in Hup. lia.
Qed.

(** The greatest count of 65535 timer ticks. *)
Definition max_count : Z := 2747210.

(** Dividing a count by the double of the cycles in a tick gives the ticks
    whole in it: the quotient is never within a rounding error of an integer,
    except where it is one. *)
Lemma count_over_tick c :
  0 < c <= max_count -> Double.trunc (Double.int_div c cycles_per_tick) = c * 46592 / 1953125.
Proof.
  intros Hc. unfold max_count in Hc. destruct (Z.eq_dec c 1953125) as [->|Hne]; [by vm_compute|].
  change cycles_per_tick with (Double.mk 5899680351648352 (-47)).
  unfold Double.int_div, Double.nearest. cbn [Double.mant Double.expo]. cbv zeta.
  change (Z.log2 5899680351648352) with 52. set (M := 5899680351648352).
  pose proof (Z.log2_spec c ltac:(lia)) as Hlog.
  assert (Hl : 0 <= Z.log2 c <= 21) by (split; [apply Z.log2_nonneg|]; change 21 with (Z.log2 4000000);
    apply Z.log2_le_mono; lia).
  rewrite Z.max_r by lia. set (k := 55 + 52 - Z.log2 c).
  rewrite Z.shiftl_mul_pow2 by lia. destruct (Z.div_eucl (c * 2 ^ k) M) as [q r] eqn:Eqr.
  pose proof (Z_div_mod (c * 2 ^ k) M ltac:(done)) as Hqr. rewrite Eqr in Hqr. destruct Hqr as [Hq Hr].
  set (N := 2 * q + _). assert (HN : 2 * q <= N <= 2 * q + 1) by (unfold N; destruct (r =? 0); lia).
  assert (Hk : 2 ^ k = 2 ^ (k - 46) * 2 ^ 46) by (rewrite <- Z.pow_add_r by lia; f_equal; lia).
  assert (HY : 2 ^ 40 <= 2 ^ (k - 46)) by (apply Z.pow_le_mono_r; lia).
  assert (Htop : c * 2 ^ k < 2 ^ 108).
  { replace (2 ^ 108) with (2 ^ Z.succ (Z.log2 c) * 2 ^ k)
      by (rewrite <- Z.pow_add_r by lia; f_equal; lia). nia. }
  assert (Hpos : 2 ^ 86 <= 2 ^ k) by (apply Z.pow_le_mono_r; lia).
  assert (HN1 : 0 < N < 2 ^ 57) by (clear -Hq Hr HN Htop Hpos Hc; subst M; lia || nia).
  assert (HlogN : Z.log2 N <= 56) by (apply Z.lt_succ_r, Z.log2_lt_pow2; lia).
  destruct (round_error N (47 - k - 1) ltac:(lia) HlogN) as (s & Hs & He & Hm).
  unfold Double.trunc. change (- -47) with 47. rewrite He.
  set (m := Double.mant _) in *. rewrite Z.shiftl_div_pow2 by lia.
  replace (- (47 - k - 1 + s)) with (k - 46 - s) by lia.
  assert (E : 2 ^ (k - 46) = 2 ^ (k - 46 - s) * 2 ^ s) by (rewrite <- Z.pow_add_r by lia; f_equal; lia).
  set (Y := 2 ^ (k - 46)) in *. set (Q := 2 ^ (k - 46 - s)) in *.
  assert (HS : 0 < 2 ^ s) by lia. set (S := 2 ^ s) in *.
  set (t := c * 46592 / 1953125).
  pose proof (Z.div_mod (c * 46592) 1953125 ltac:(done)) as Ht.
  pose proof (Z.mod_pos_bound (c * 46592) 1953125 ltac:(done)) as Hb. fold t in Ht.
  assert (Hrem : 0 < (c * 46592) mod 1953125).
  { destruct (Z.eq_dec ((c * 46592) mod 1953125) 0) as [H0|]; [|lia]. exfalso. apply Hne.
    rewrite H0 in Ht. assert (Hd : (1953125 | 46592 * c)) by (exists t; lia).
    apply Z.gauss in Hd; [|by vm_compute]. destruct Hd as [j ->]. lia. }
  set (rm := (c * 46592) mod 1953125) in *.
  assert (Hlow : 2 ^ 31 <= 2 ^ 47 * c - t * M) by (unfold M; lia).
  assert (Hhigh : 2 ^ 31 <= (t + 1) * M - 2 ^ 47 * c) by (unfold M; lia).
  assert (Hlo : t * Y * M <= m * S * M).
  { assert (2 * c * 2 ^ k - 10 * M <= m * S * M) by nia. nia. }
  assert (Hhi : m * S * M < (t + 1) * Y * M).
  { assert (m * S * M <= 2 * c * 2 ^ k + 9 * M) by nia. nia. }
  symmetry. apply (Z.div_unique_pos m Q t (m - Q * t)); [|lia].
  assert (HM : 0 < M) by done.
  apply Z.mul_le_mono_pos_r in Hlo; [|done]. apply Z.mul_lt_mono_pos_r in Hhi; [|done].
  rewrite E in Hlo, Hhi. nia.
Qed.

(** The count that is read: the ticks whole in it. *)
Lemma read_counter_eq s :
  0 <= count s <= max_count -> read_counter s = count s * 46592 / 1953125.
Proof.
  intros Hc. unfold read_counter, max_count in *. destruct (Z.eqb_spec (count s) 0) as [->|H0]; [done|].
  rewrite count_over_tick by (unfold max_count; lia). apply cast_id. cpp_lia.
Qed.

(** ** Programming *)

(** The two halves of the reload register. *)
Lemma reload_halves r lo hi :
  in_range uint8_t lo -> in_range uint8_t hi ->
  u16 (u16 (u16 (u16 (r .& ~. 0xff) .| lo) .& ~. 0xff00) .| (u16 hi .<< 8)) = lo + 256 * hi.
Proof.
  intros Hlo Hhi. rewrite (cast_id uint16_t hi) by cpp_lia.
  apply (bits_ext 16); [apply (cast_in_range uint16_t)|cpp_lia|]. intros i Hi.
  replace (lo + 256 * hi) with (hi * 2 ^ 8 + lo) by (change (2 ^ 8) with 256; lia).
  rewrite testbit_concat by (cpp_unfold; lia).
  change 0xff00 with (2 ^ (8 + 8) - 2 ^ 8). change 0xff with (2 ^ (0 + 8) - 2 ^ 0).
  repeat rewrite ?cast_u_testbit, ?Z.lor_spec, ?Z.land_spec, ?Z.lnot_spec, ?testbit_field,
    ?Z.shiftl_spec by (done || lia).
  change (width uint16_t) with 16. rewrite in_u8 in Hlo. destruct (Z.ltb_spec i 8); zcmp; cbn [negb andb orb].
  - rewrite (Z.testbit_neg_r hi) by lia. zbits.
  - rewrite (testbit_high 8 lo) by lia. zbits.
Qed.

(** A timer that runs. *)
Definition running (s : t) : Prop :=
  enabled s = true /\ operating_mode s = 2 /\ in_range uint16_t (reload s) /\
  count s = reload_cycles (reload s).

(** Mode 2 or 3 with both bytes of the count, then the count. *)
Definition program (mode lo hi : Z) : M t unit :=
  write8 2 1 (0x30 + 2 * mode) ;; write8 0 0 lo ;; write8 0 0 hi.

Lemma program_eq mode lo hi s :
  2 <= mode <= 3 -> in_range uint8_t lo -> in_range uint8_t hi ->
  exists s', program mode lo hi s = Ok tt s' /\ running s' /\ reload s' = lo + 256 * hi /\
    latched s' = latched s /\ latched_val s' = latched_val s.
Proof.
  intros Hmode Hlo Hhi. eexists. split.
  { unfold program. assert (Hw : exists s1, write8 2 1 (0x30 + 2 * mode) s = Ok tt s1 /\
      s1 = mk 3 2 (count s) (latched s) (latched_val s) true (reload s) false).
    { eexists. split; [|reflexivity]. by enum_from mode 2 2%nat. }
    destruct Hw as (s1 & E & ->). unfold mbind, M_bind. rewrite E. reflexivity. }
  pose proof (reload_halves (reload s) lo hi Hlo Hhi) as Er. cbn [reload set_reload] in Er.
  set (s' := do_reload _).
  assert (Hr : reload s' = lo + 256 * hi) by exact Er.
  split_and!; [|exact Hr|done|done].
  split_and!; [done|done|rewrite Hr; cpp_lia|].
  unfold s'. rewrite do_reload_eq by (rewrite in_u16; change (0 <= reload s' < 65536); rewrite Hr; cpp_lia).
  cbn [count set_count reload]. apply cast_id. apply reload_cycles_range.
Qed.

(** ** Ticking *)

Section ticks.
Context {CFG : Config}.
Implicit Types (p : PIC.t) (s : t).

Fixpoint ticks (n : nat) (k : Z) : M (PIC.t * t) (list Z) :=
  match n with
  | O => mret []
  | S n => i1 ← tick k ; i2 ← ticks n k ; mret (i1 ++ i2)
  end.

Lemma set_count_same s : in_range uint32_t (count s) -> set_count (count s) s = s.
Proof. intros Hc. unfold set_count. rewrite cast_id by done. by destruct s. Qed.

Lemma set_count_twice x y s : set_count x (set_count y s) = set_count x s.
Proof. done. Qed.

Lemma ticks_app a b k x :
  ticks (a + b) k x =
    match ticks a k x with
    | Ok i1 x1 => match ticks b k x1 with Ok i2 x2 => Ok (i1 ++ i2) x2 | Err e => Err e end
    | Err e => Err e
    end.
Proof.
  revert x. induction a as [|a IH]; intros x.
  { cbn. by destruct (ticks b k x). }
  cbn [ticks Nat.add]. unfold mbind, M_bind. destruct (tick k x) as [i0 x0|]; [|done]. rewrite IH.
  destruct (ticks a k x0) as [i1 x1|]; [|done]. unfold mret, M_ret.
  destruct (ticks b k x1) as [i2 x2|]; [|done]. by rewrite app_assoc.
Qed.

(** Below the period the count goes down and nothing happens. *)
Lemma ticks_below n k p s :
  0 < k -> enabled s = true -> in_range uint32_t (count s) ->
  Z.of_nat n * k < count s \/ n = O ->
  ticks n k (p, s) = Ok [] (p, set_count (count s - Z.of_nat n * k) s).
Proof.
  intros Hk He Hc. revert s He Hc. induction n as [|n IH]; intros s He Hc Hn.
  { cbn. by rewrite Z.sub_0_r, set_count_same. }
  destruct Hn as [Hn|]; [|done]. cbn [ticks]. unfold mbind, M_bind, tick at 1.
  unfold mbind, M_bind. change (on_self (gets id) (p, s)) with (Ok s (p, s)). cbn iota beta.
  rewrite He. cbn [negb]. destruct (Z.leb_spec (count s) k); [nia|].
  change (on_self (modify ?f) (p, s)) with (Ok tt (p, f s)). cbn iota beta. unfold mret, M_ret.
  set (s1 := set_count _ s).
  assert (Hc1 : count s1 = count s - k) by (unfold s1; cbn [count set_count]; apply cast_id; cpp_lia).
  rewrite IH; [|done|rewrite Hc1; cpp_lia|rewrite Hc1; lia].
  rewrite Hc1. unfold s1. rewrite set_count_twice. do 3 f_equal. lia.
Qed.

(** The number of ticks of [k] cycles between two interrupts. *)
Definition period (c k : Z) : nat := S (Z.to_nat ((c - 1) / k)).

Lemma ticks_period k p s :
  0 < k -> running s ->
  ticks (period (count s) k) k (p, s) =
    match PIC.raise_irq 0 p with Ok irqs p' => Ok irqs (p', s) | Err e => Err e end.
Proof.
  intros Hk (He & Hmode & Hr & Hc). pose proof (reload_cycles_range (reload s)) as Hrange.
  rewrite <- Hc in Hrange. unfold period. set (n := Z.to_nat ((count s - 1) / k)).
  assert (Hn : Z.of_nat n * k < count s \/ n = O).
  { destruct (Z.eq_dec (count s) 0) as [E|E].
    - right. unfold n. rewrite E. assert ((0 - 1) / k < 0) by (apply Z.div_lt_upper_bound; lia). lia.
    - left. unfold n. rewrite Z2Nat.id by (apply Z.div_pos; lia).
      pose proof (Z.mul_div_le (count s - 1) k Hk). lia. }
  replace (S n) with (n + 1)%nat by lia. rewrite ticks_app, ticks_below by (done || exact Hrange).
  set (c1 := count s - Z.of_nat n * k).
  assert (Hc1 : 0 <= c1 <= k).
  { unfold c1. destruct (Z.eq_dec (count s) 0) as [E|E]; [destruct Hn; lia|].
    pose proof (Z.mod_pos_bound (count s - 1) k Hk). pose proof (Z.div_mod (count s - 1) k ltac:(lia)).
    unfold n in *. rewrite Z2Nat.id in * by (apply Z.div_pos; lia). nia. }
  cbn [ticks]. unfold mbind, M_bind, tick. unfold mbind, M_bind.
  change (on_self (gets id) ?x) with (Ok (snd x) x). cbn iota beta. cbn [snd enabled set_count count].
  rewrite He. cbn [negb]. rewrite (cast_id uint32_t c1) by (unfold c1 in *; cpp_lia).
  destruct (Z.leb_spec c1 k); [|lia]. cbn [operating_mode set_count]. rewrite Hmode. cbn [Z.eqb Pos.eqb].
  unfold on_pic. cbn [fst snd]. destruct (PIC.raise_irq 0 p) as [irqs p'|]; [|done].
  change (on_self (modify ?f) ?x) with (Ok tt (fst x, f (snd x))). cbn iota beta. cbn [fst snd].
  unfold mret, M_ret. rewrite app_nil_r. do 2 f_equal.
  rewrite do_reload_eq by done. cbn [reload set_count]. rewrite set_count_twice, <- Hc.
  by rewrite set_count_same.
Qed.

Lemma ticks_periods j k p s :
  0 < k -> running s ->
  ticks (j * period (count s) k) k (p, s) =
    match edges 0 j p with Ok irqs p' => Ok irqs (p', s) | Err e => Err e end.
Proof.
  intros Hk Hs. revert p. induction j as [|j IH]; intros p; [done|].
  cbn [Nat.mul edges]. rewrite ticks_app, ticks_period by done. unfold mbind, M_bind.
  destruct (PIC.raise_irq 0 p) as [i1 p1|]; [|done]. rewrite IH.
  by destruct (edges 0 j p1).
Qed.
End ticks.

(** ** Reading the count *)

Lemma bytes_of_word v : in_range uint16_t v -> u8 v + 256 * u8 (v .>> 8) = v.
Proof. intros Hv. rewrite Z.shiftr_div_pow2 by lia. change (2 ^ 8) with 256. cpp_lia. Qed.

Lemma read_counter_range s : in_range uint16_t (read_counter s).
Proof. unfold read_counter. destruct (_ =? 0); [done|]. apply cast_in_range. Qed.

(** Latching the count and reading its two bytes. *)
Definition read_latched : M t Z :=
  write8 2 1 0x00 ;;
  lo ← read8 0 0 ;
  hi ← read8 0 0 ;
  mret (lo + 256 * hi).

Lemma read_latched_eq s :
  latched s = false ->
  exists s', read_latched s = Ok (read_counter s) s' /\
    latched s' = false /\ count s' = count s /\ reload s' = reload s /\ enabled s' = enabled s.
Proof.
  intros Hl. unfold read_latched, mbind, M_bind.
  assert (E : write8 2 1 0 s = Ok tt (mk 0 (operating_mode s) (count s) true (u16 (read_counter s))
                                         true (reload s) (enabled s))).
  { destruct s as [a md c l lv al r e]. cbn in Hl. subst l. reflexivity. }
  rewrite E. rewrite (cast_id uint16_t) by apply read_counter_range.
  set (v := read_counter s). change (read8 0 0 (mk 0 ?m ?c true v true ?r ?e))
    with (Ok (u8 v) (mk 0 m c true v false r e)). cbn iota beta.
  change (read8 0 0 (mk 0 ?m ?c true v false ?r ?e))
    with (Ok (u8 (v .>> 8)) (mk 0 m c false v false r e)). cbn iota beta.
  unfold mret, M_ret. rewrite bytes_of_word by apply read_counter_range.
  by eexists.
Qed.

(** The ticks whole in the cycles of [n] ticks are [n] at most. *)
Lemma reads_below n c :
  0 <= c <= n * 1953125 / 46592 -> 0 <= n -> 0 <= c * 46592 / 1953125 <= n.
Proof. intros Hc Hn. split; [apply Z.div_pos; lia|]. zlia. Qed.

(** C34. The interval timer. Programming channel 0 with both bytes of a count
    (mode 2 or 3, which it treats alike) starts it with [count - 1] timer
    ticks, modulo 65536, worth 1953125 / 46592 = 41.92 clock cycles each: the
    double arithmetic gives exactly that quotient, rounded down. Run in steps
    of [k] cycles it raises line 0 of the controller at every [period]-th step
    and at no other, for ever: after [j] periods exactly [j] edges have been
    made and the timer is where it started. At any step of a period, latching
    and two reads return the cycles that are left divided by those of a tick,
    rounded down, again exactly: between 0 and the count it was started with.
    The count, the reload value and the timer's running stay as they are. *)
Theorem timer_periodic `{Config} p s mode lo hi k :
  2 <= mode <= 3 -> in_range uint8_t lo -> in_range uint8_t hi -> 0 < k ->
  let start := (lo + 256 * hi - 1) mod 65536 in
  exists s', program mode lo hi s = Ok tt s' /\
    count s' = start * 1953125 / 46592 /\
    (forall n, (n < period (count s') k)%nat ->
       ticks n k (p, s') = Ok [] (p, set_count (count s' - Z.of_nat n * k) s')) /\
    (forall j, ticks (j * period (count s') k) k (p, s') =
       match edges 0 j p with Ok irqs p' => Ok irqs (p', s') | Err e => Err e end) /\
    (latched s = false -> forall n, (n < period (count s') k)%nat ->
       let c := count s' - Z.of_nat n * k in
       let v := c * 46592 / 1953125 in
       0 <= v <= start /\
       exists s'', read_latched (set_count c s') = Ok v s'' /\
         count s'' = c /\ reload s'' = reload s' /\ enabled s'' = true).
Proof.
  intros Hmode Hlo Hhi Hk start.
  destruct (program_eq mode lo hi s Hmode Hlo Hhi) as (s' & E & Hs & Hr & Hl & _).
  exists s'. pose proof Hs as (He & _ & _ & Hc). pose proof (reload_cycles_range (reload s')) as Hrange.
  rewrite <- Hc in Hrange.
  assert (Hcount : count s' = start * 1953125 / 46592) by by rewrite Hc, Hr.
  assert (Hstart : 0 <= start < 65536) by by apply Z.mod_pos_bound.
  assert (Hn : forall n, (n < period (count s') k)%nat -> Z.of_nat n * k < count s' \/ n = O).
  { intros n Hn. unfold period in Hn. destruct n as [|n]; [by right|left].
    assert (Hq : Z.of_nat (S n) <= (count s' - 1) / k) by lia.
    pose proof (Z.mul_div_le (count s' - 1) k Hk). nia. }
  split_and!.
  - done.
  - done.
  - intros n Hn1. apply ticks_below; [done|done|exact Hrange|by apply Hn].
  - intros j. by apply ticks_periods.
  - rewrite <- Hl. intros Hl0 n Hn1 c v.
    assert (Hc0 : 0 <= c <= count s') by (unfold c; destruct (Hn n Hn1); subst; nia).
    assert (Hmax : count s' <= max_count) by (unfold max_count; zlia).
    assert (Hset : count (set_count c s') = c) by (apply cast_id; cpp_lia).
    split; [apply reads_below; lia|].
    destruct (read_latched_eq (set_count c s') Hl0) as (s'' & E' & _ & Hc' & Hr' & He').
    exists s''. rewrite E', read_counter_eq, Hset by (rewrite Hset; lia).
    split_and!; [done|by rewrite Hc'|by rewrite Hr'|by rewrite He'].
Qed.

(** 1193 Hz divided by 0x04a9, and read after a hundred steps of two cycles. *)
Lemma timer_periodic_witness :
  exists s', program 2 0xa9 0x04 create = Ok tt s' /\ count s' = 49968 /\
    ticks (CFG := default_config) (period (count s') 2) 2 (PIC.create 8, s') =
      match edges (CFG := default_config) 0 1 (PIC.create 8) with Ok irqs p' => Ok irqs (p', s') | Err e => Err e end /\
    exists s'', read_latched (set_count 49768 s') = Ok 1187 s''.
Proof.
  destruct (timer_periodic (H := default_config) (PIC.create 8) create 2 0xa9 0x04 2)
    as (s' & E & Hc & _ & Hp & Hr); [lia|by vm_compute|by vm_compute|lia|].
  change ((0xa9 + 256 * 0x04 - 1) mod 65536 * 1953125 / 46592) with 49968 in Hc.
  exists s'. split; [exact E|]. split; [exact Hc|]. split.
  - rewrite <- (Hp 1%nat). f_equal. lia.
  - destruct (Hr eq_refl 100%nat) as (_ & s'' & E' & _).
    + rewrite Hc. apply Nat.ltb_lt. by vm_compute.
    + rewrite Hc in E'. exists s''. exact E'.
Defined.
