(* ===== verification/UART.v ===== *)
(** * The serial port: [sim/UART.h], [sim/UART.cpp] *)
From S2P Require Import Prelude ErrorState IOPorts.

Module UART.

(** [charbuf], and what has been written to [std::cout]. *)
Record t := mk { charbuf : list Z; output : list Z }.

Definition get_base : Z := 0xfffa.
Definition get_num_ports : Z := 1.
Definition create : t := mk [] [].

Definition write8 (port_num offs v : Z) : M t unit :=
  if offs =? 0 then modify (fun s => mk (charbuf s) (output s ++ [u8 v])) else mret ().

Definition write16 (port_num v : Z) : M t unit :=
  write8 port_num 0 (u8 v) ;;
  write8 port_num 1 (u8 (v .>> 8)).

Definition read8 (port_num offs : Z) : M t Z :=
  if offs =? 0 then
    s ← gets id ;
    match charbuf s with
    | [] => mret 0
    | v :: rest => modify (fun s => mk rest (output s)) ;; mret v
    end
  else gets (fun s => match charbuf s with [] => 0 | _ => 1 end).

(** C++ leaves open which of the two reads comes first; this is the order they
    are written in. *)
Definition read16 (port_num : Z) : M t Z :=
  lo ← read8 0 0 ;
  hi ← read8 0 1 ;
  mret (u16 (lo .| (u16 hi .<< 8))).

Definition add_char (c : Z) : M t unit := modify (fun s => mk (charbuf s ++ [u8 c]) (output s)).

(** ** A queue in, a trace out *)

Lemma read_data_port s :
  read8 0 0 s =
    match charbuf s with [] => Ok 0 s | v :: rest => Ok v (mk rest (output s)) end.
Proof. by destruct s as [[|v rest] out]. Qed.

Lemma read_status s : read8 0 1 s = Ok (if bool_decide (charbuf s = []) then 0 else 1) s.
Proof. by destruct s as [[|v rest] out]. Qed.

Lemma write_byte v s : write8 0 0 v s = Ok tt (mk (charbuf s) (output s ++ [u8 v])).
Proof. done. Qed.

Lemma write_word v s : write16 0 v s = Ok tt (mk (charbuf s) (output s ++ [u8 v])).
Proof. unfold write16, mbind, M_bind. rewrite write_byte. by rewrite (cast_idemp uint8_t). Qed.

End UART.
