(* ===== verification/SPI.v ===== *)
(** * The SD card on the SPI bus: [sim/SPI.h], [sim/SPI.cpp] *)
From S2P Require Import Prelude ErrorState IOPorts.

(** ** The disk image, a [std::fstream]

    The bytes of the file, the position that reading and writing share, and
    whether the stream has failed: after that [seekg], [get] and [put] do
    nothing, and [get] returns [EOF]. *)
Module Disk.

Record t := mk { contents : list Z; pos : Z; failed : bool }.

Definition seekg (off : Z) (d : t) : t :=
  if failed d then d else mk (contents d) off false.

Definition get : M t Z := fun d =>
  if failed d then Ok (-1) d
  else
    match contents d !! Z.to_nat (pos d) with
    | Some b => Ok b (mk (contents d) (pos d + 1) false)
    | None => Ok (-1) (mk (contents d) (pos d) true)
    end.

(** A write past the end extends the file, with zeros in between. *)
Definition put_at (l : list Z) (i : nat) (v : Z) : list Z :=
  if (i <? length l)%nat then <[i := v]> l else l ++ replicate (i - length l) 0 ++ [v].

Definition put (v : Z) (d : t) : t :=
  if failed d then d else mk (put_at (contents d) (Z.to_nat (pos d)) v) (pos d + 1) false.

End Disk.

Module SPI.

(** [enum SPIState]. *)
Inductive SPIState :=
  | STATE_IDLE | STATE_RECEIVING | STATE_TRANSMITTING | STATE_WAIT_FOR_DATA
  | STATE_DO_WRITE_BLOCK.

Record t := mk {
  control_reg : Z;
  rx_val : Z;
  state : SPIState;
  mosi_buf : list Z;
  miso_buf : list Z;
  disk_image : Disk.t;
  do_write : bool;
  write_count : Z;
}.

Definition set_control_reg (x : Z) (s : t) : t :=
  mk (u16 x) (rx_val s) (state s) (mosi_buf s) (miso_buf s) (disk_image s) (do_write s) (write_count s).
Definition set_rx_val (x : Z) (s : t) : t :=
  mk (control_reg s) (u8 x) (state s) (mosi_buf s) (miso_buf s) (disk_image s) (do_write s) (write_count s).
Definition set_state (x : SPIState) (s : t) : t :=
  mk (control_reg s) (rx_val s) x (mosi_buf s) (miso_buf s) (disk_image s) (do_write s) (write_count s).
Definition set_mosi_buf (x : list Z) (s : t) : t :=
  mk (control_reg s) (rx_val s) (state s) x (miso_buf s) (disk_image s) (do_write s) (write_count s).
Definition set_miso_buf (x : list Z) (s : t) : t :=
  mk (control_reg s) (rx_val s) (state s) (mosi_buf s) x (disk_image s) (do_write s) (write_count s).
Definition set_disk_image (x : Disk.t) (s : t) : t :=
  mk (control_reg s) (rx_val s) (state s) (mosi_buf s) (miso_buf s) x (do_write s) (write_count s).
Definition set_do_write (x : bool) (s : t) : t :=
  mk (control_reg s) (rx_val s) (state s) (mosi_buf s) (miso_buf s) (disk_image s) x (write_count s).
Definition set_write_count (x : Z) (s : t) : t :=
  mk (control_reg s) (rx_val s) (state s) (mosi_buf s) (miso_buf s) (disk_image s) (do_write s) (u32 x).

Definition get_base : Z := 0xfff0.
Definition get_num_ports : Z := 2.

(** The constructor, on the stream it opens; [write_count] is not initialised. *)
Definition create (disk : Disk.t) (uninitialised : Z) : t :=
  mk 0 0 STATE_IDLE [] [] disk false uninitialised.

(** [converter.u32], on a little-endian host. *)
Definition block_address (s : t) : Z :=
  let b i := default 0 (mosi_buf s !! i) in
  b 4%nat + 256 * b 3%nat + 65536 * b 2%nat + 16777216 * b 1%nat.

(** [for (m = 0; m < n; ++m) miso_buf.push_back(disk_image.get())]. *)
Fixpoint push_blocks (n : nat) (s : t) : t :=
  match n with
  | O => s
  | S n =>
      match Disk.get (disk_image s) with
      | Ok b d => push_blocks n (set_miso_buf (miso_buf s ++ [u8 b]) (set_disk_image d s))
      | Err _ => s
      end
  end.

Definition read_block : M t unit :=
  modify (set_miso_buf [0xff; 0xff; 0x00; 0xff; 0xfe]) ;;
  modify (fun s => set_disk_image (Disk.seekg (block_address s) (disk_image s)) s) ;;
  modify (push_blocks 512) ;;
  modify (fun s => set_miso_buf (miso_buf s ++ [0x77; 0x77]) s).

Definition write_block : M t unit :=
  modify (set_miso_buf [0xff; 0x00; 0xff; 0xff; 0x05]) ;;
  modify (set_do_write true) ;;
  modify (set_write_count 0) ;;
  modify (fun s => set_disk_image (Disk.seekg (block_address s) (disk_image s)) s).

(** [transmit_ready]; the message about an unknown command is not modelled. *)
Definition transmit_ready : M t bool :=
  s ← gets id ;
  let complete := (7 <=? length (mosi_buf s))%nat in
  let when_complete (f : M t unit) : M t bool :=
    if complete then f ;; mret true else mret false in
  match mosi_buf s with
  | [] => throw DeviceError
  | command :: _ =>
      match command with
      | 0x77 | 0x40 | 0x48 | 0x50 => when_complete (modify (set_miso_buf [0x01]))
      | 0x69 => when_complete (modify (set_miso_buf [0x00]))
      | 0x51 => when_complete read_block
      | 0x58 => when_complete write_block
      | 0x7a => when_complete (modify (set_miso_buf [0x01; 0x00; 0x00; 0x00; 0x00]))
      | _ => modify (set_miso_buf [0xfe]) ;; mret true
      end
  end.

Definition transfer (mosi_val : Z) : M t unit :=
  s ← gets id ;
  match state s with
  | STATE_IDLE =>
      modify (set_do_write false) ;;
      (if negb (mosi_val =? 0xff) && negb (nz (control_reg s .& (1 .<< 9))) then
         modify (set_state STATE_RECEIVING) ;;
         modify (fun s => set_mosi_buf (mosi_buf s ++ [mosi_val]) s)
       else mret ()) ;;
      modify (set_rx_val 0xff)
  | STATE_RECEIVING =>
      modify (fun s => set_mosi_buf (mosi_buf s ++ [mosi_val]) s) ;;
      ready ← transmit_ready ;
      (if ready : bool then modify (set_state STATE_TRANSMITTING) else mret ()) ;;
      modify (set_rx_val 0xff)
  | STATE_TRANSMITTING =>
      match miso_buf s with
      | [] =>
          modify (set_rx_val 0xff) ;;
          modify (fun s => set_state (if do_write s then STATE_WAIT_FOR_DATA else STATE_IDLE) s) ;;
          modify (set_mosi_buf [])
      | v :: rest =>
          modify (set_rx_val v) ;;
          modify (set_miso_buf rest)
      end
  | STATE_WAIT_FOR_DATA =>
      modify (set_rx_val 0xff) ;;
      if mosi_val =? 0xfe then modify (set_state STATE_DO_WRITE_BLOCK) else mret ()
  | STATE_DO_WRITE_BLOCK =>
      (if write_count s <? 512 then
         modify (fun s => set_disk_image (Disk.put mosi_val (disk_image s)) s) ;;
         modify (set_rx_val 0xff)
       else if write_count s <? 514 then modify (set_rx_val 0xaa)
       else
         modify (set_rx_val 0x5) ;;
         modify (set_state STATE_IDLE)) ;;
      modify (fun s => set_write_count (write_count s + 1) s)
  end.

Definition write8 (port_num offs v : Z) : M t unit :=
  let shift := 8 * offs in
  let mask := u16 (0xff .<< shift) in
  if port_num =? 0 then
    modify (fun s => set_control_reg (control_reg s .& ~. mask) s) ;;
    modify (fun s => set_control_reg (control_reg s .| (u16 v .<< shift)) s)
  else if offs =? 0 then transfer v
  else mret ().

Definition write16 (port_num v : Z) : M t unit :=
  write8 port_num 0 (u8 v) ;;
  write8 port_num 1 (u8 (v .>> 8)).

Definition read8 (port_num offs : Z) : M t Z :=
  let shift := 8 * offs in
  if port_num =? 0 then gets (fun s => u8 (control_reg s .>> shift))
  else if offs =? 0 then gets rx_val
  else mret 0x00.

Definition read16 (port_num : Z) : M t Z :=
  lo ← read8 port_num 0 ;
  hi ← read8 port_num 1 ;
  mret (u16 (lo .| (u16 hi .<< 8))).

End SPI.
