(* ===== verification/SPIProps.v ===== *)
(** * The SD card: reading and writing blocks over the bus *)
From S2P Require Import Prelude ErrorState SPI.
Import SPI.

(** ** The host's view: a byte out, a byte in *)

Definition exchange (v : Z) : M t Z := write8 2 0 v ;; read8 2 0.

Fixpoint exchanges (l : list Z) : M t (list Z) :=
  match l with
  | [] => mret []
  | v :: l => r ← exchange v ; rs ← exchanges l ; mret (r :: rs)
  end.

Lemma exchanges_app l1 l2 r1 r2 s s1 s2 :
  exchanges l1 s = Ok r1 s1 -> exchanges l2 s1 = Ok r2 s2 ->
  exchanges (l1 ++ l2) s = Ok (r1 ++ r2) s2.
Proof.
  revert s r1. induction l1 as [|v l1 IH]; intros s r1.
  { cbn. intros [= <- <-]. done. }
  cbn [exchanges app]. unfold mbind, M_bind.
  destruct (exchange v s) as [r0 s0|]; [|done]. destruct (exchanges l1 s0) as [rs s1'|] eqn:E; [|done].
  intros [= <- <-] H2. by rewrite (IH _ _ E H2).
Qed.

(** A member of the state at rest: selected, nothing buffered. *)
Definition idle (c rx : Z) (d : Disk.t) (dw : bool) (n : Z) : t := mk c rx STATE_IDLE [] [] d dw n.
Definition selected (c : Z) : Prop := nz (c .& (1 .<< 9)) = false.
Definition is_byte (v : Z) : Prop := 0 <= v < 256.

Definition is_bytes (l : list Z) : Prop := Forall is_byte l.

Ltac bytes := repeat (apply Forall_cons_2; [by split|]); apply Forall_nil_2.

Lemma map_u8 l : is_bytes l -> map u8 l = l.
Proof.
  induction 1 as [|v l Hv _ IH]; [done|]. cbn. rewrite IH. by rewrite (cast_id uint8_t).
Qed.

(** ** Sending what is buffered *)

Lemma transmit_eq c rx mosi miso d dw n l :
  length l = length miso ->
  exists rx', exchanges l (mk c rx STATE_TRANSMITTING mosi miso d dw n) =
    Ok (map u8 miso) (mk c rx' STATE_TRANSMITTING mosi [] d dw n).
Proof.
  revert rx miso. induction l as [|x l IH]; intros rx [|v miso] Hl; try done; [by eexists|].
  injection Hl as Hl. destruct (IH (u8 v) miso Hl) as [rx' E]. exists rx'.
  cbn [exchanges map]. unfold mbind, M_bind.
  change (exchange x (mk c rx STATE_TRANSMITTING mosi (v :: miso) d dw n))
    with (Ok (u8 v) (mk c (u8 v) STATE_TRANSMITTING mosi miso d dw n)). cbn iota beta.
  by rewrite E.
Qed.

(** ** Commands *)

(** The seven bytes of a command; the first decides. *)
Definition command (op a3 a2 a1 a0 crc pad : Z) : list Z := [op; a3; a2; a1; a0; crc; pad].
Definition address (a3 a2 a1 a0 : Z) : Z := a0 + 256 * a1 + 65536 * a2 + 16777216 * a3.

(** What a command does once it is complete, in the state that holds it. *)
Lemma command_eq op a3 a2 a1 a0 crc pad (f : M t unit) c rx d dw n s' :
  selected c -> (op = 0x51 /\ f = read_block) \/ (op = 0x58 /\ f = write_block) ->
  f (mk c 0xff STATE_RECEIVING (command op a3 a2 a1 a0 crc pad) [] d false n) = Ok tt s' ->
  exchanges (command op a3 a2 a1 a0 crc pad) (idle c rx d dw n) =
    Ok (replicate 7 0xff) (set_rx_val 0xff (set_state STATE_TRANSMITTING s')).
Proof.
  intros Hc Hop Hf.
  assert (E6 : exchanges [op; a3; a2; a1; a0; crc] (idle c rx d dw n) =
    Ok (replicate 6 0xff) (mk c 0xff STATE_RECEIVING [op; a3; a2; a1; a0; crc] [] d false n)).
  { cbn [exchanges]. unfold mbind at 1, M_bind at 1.
    assert (E0 : exchange op (idle c rx d dw n) = Ok 0xff (mk c 0xff STATE_RECEIVING [op] [] d false n)).
    { unfold exchange, write8, transfer, idle, mbind, M_bind, gets. cbn -[Z.land Z.shiftl nz].
      unfold selected in Hc. rewrite Hc. destruct Hop as [[-> _]|[-> _]]; reflexivity. }
    rewrite E0. destruct Hop as [[-> _]|[-> _]]; reflexivity. }
  change (command op a3 a2 a1 a0 crc pad) with ([op; a3; a2; a1; a0; crc] ++ [pad]).
  change (replicate 7 0xff) with (replicate 6 0xff ++ [0xff]).
  eapply exchanges_app; [exact E6|]. cbn [exchanges]. unfold mbind, M_bind.
  assert (E7 : exchange pad (mk c 0xff STATE_RECEIVING [op; a3; a2; a1; a0; crc] [] d false n) =
    Ok 0xff (set_rx_val 0xff (set_state STATE_TRANSMITTING s'))); [|by rewrite E7].
  assert (Er : transmit_ready (mk c 0xff STATE_RECEIVING (command op a3 a2 a1 a0 crc pad) [] d false n) =
    Ok true s').
  { destruct Hop as [[-> ->]|[-> ->]].
    - change (transmit_ready _) with ((read_block ;; mret true) (mk c 0xff STATE_RECEIVING
        (command 0x51 a3 a2 a1 a0 crc pad) [] d false n)). unfold mbind, M_bind. by rewrite Hf.
    - change (transmit_ready _) with ((write_block ;; mret true) (mk c 0xff STATE_RECEIVING
        (command 0x58 a3 a2 a1 a0 crc pad) [] d false n)). unfold mbind, M_bind. by rewrite Hf. }
  unfold exchange, mbind, M_bind. change (write8 2 0 pad) with (transfer pad).
  unfold transfer, mbind, M_bind. cbn [gets id state]. unfold modify at 1.
  change (set_mosi_buf _ _) with (mk c 0xff STATE_RECEIVING (command op a3 a2 a1 a0 crc pad) [] d false n).
  by rewrite Er.
Qed.

(** ** Reading a block *)

Lemma push_blocks_eq k c rx st mosi miso l p dw n :
  0 <= p -> (Z.to_nat p + k <= length l)%nat -> is_bytes l ->
  push_blocks k (mk c rx st mosi miso (Disk.mk l p false) dw n) =
    mk c rx st mosi (miso ++ take k (drop (Z.to_nat p) l)) (Disk.mk l (p + Z.of_nat k) false) dw n.
Proof.
  intros Hp Hk Hl. revert miso p Hp Hk. induction k as [|k IH]; intros miso p Hp Hk.
  { cbn. by rewrite app_nil_r, Z.add_0_r. }
  cbn [push_blocks disk_image]. unfold Disk.get. cbn [Disk.failed Disk.contents Disk.pos].
  destruct (l !! Z.to_nat p) as [b|] eqn:E.
  2: { apply lookup_ge_None in E. lia. }
  pose proof (Forall_lookup_1 _ _ _ _ Hl E) as Hb.
  unfold set_miso_buf, set_disk_image.
  cbn [control_reg rx_val state mosi_buf miso_buf disk_image do_write write_count].
  rewrite IH by lia. rewrite (drop_S l b (Z.to_nat p) E). cbn [take].
  replace (Z.to_nat (p + 1)) with (S (Z.to_nat p)) by lia.
  rewrite (cast_id uint8_t) by done. rewrite <- app_assoc. f_equal. f_equal. lia.
Qed.

(** What the card answers to a read: a header, the block, two bytes of CRC. *)
Definition read_answer (block : list Z) : list Z :=
  [0xff; 0xff; 0x00; 0xff; 0xfe] ++ block ++ [0x77; 0x77].

Lemma read_block_eq a3 a2 a1 a0 crc pad c l p n :
  let a := address a3 a2 a1 a0 in
  0 <= a -> a + 512 <= Z.of_nat (length l) -> is_bytes l ->
  read_block (mk c 0xff STATE_RECEIVING (command 0x51 a3 a2 a1 a0 crc pad) [] (Disk.mk l p false) false n) =
    Ok tt (mk c 0xff STATE_RECEIVING (command 0x51 a3 a2 a1 a0 crc pad)
             (read_answer (take 512 (drop (Z.to_nat a) l))) (Disk.mk l (a + 512) false) false n).
Proof.
  intros a Ha Hl Hb. unfold read_block, mbind, M_bind, modify. cbn iota beta.
  set (s1 := set_disk_image _ _).
  change s1 with (mk c 0xff STATE_RECEIVING (command 0x51 a3 a2 a1 a0 crc pad)
    [0xff; 0xff; 0x00; 0xff; 0xfe] (Disk.mk l a false) false n).
  rewrite push_blocks_eq by (done || lia). unfold set_miso_buf, read_answer.
  cbn [control_reg rx_val state mosi_buf miso_buf disk_image do_write write_count].
  by rewrite <- app_assoc.
Qed.

Lemma is_bytes_block i k l : is_bytes l -> is_bytes (take k (drop i l)).
Proof. intros H. by apply Forall_take, Forall_drop. Qed.

Lemma read_transaction a3 a2 a1 a0 crc pad fill c rx l p dw n :
  let a := address a3 a2 a1 a0 in
  selected c -> 0 <= a -> a + 512 <= Z.of_nat (length l) -> is_bytes l -> length fill = 520%nat ->
  exchanges (command 0x51 a3 a2 a1 a0 crc pad ++ fill) (idle c rx (Disk.mk l p false) dw n) =
    Ok (replicate 7 0xff ++ read_answer (take 512 (drop (Z.to_nat a) l)) ++ [0xff])
       (idle c 0xff (Disk.mk l (a + 512) false) false n).
Proof.
  intros a Hc Ha Hl Hb Hfill.
  eapply exchanges_app.
  { eapply command_eq; [done|by left|by apply read_block_eq]. }
  set (block := take 512 _). assert (Hblock : is_bytes block) by by apply is_bytes_block.
  assert (Hlen : length block = 512%nat) by (unfold block; rewrite length_take, length_drop; lia).
  assert (Hans : length (read_answer block) = 519%nat).
  { unfold read_answer. rewrite !length_app, Hlen. done. }
  assert (Hbytes : is_bytes (read_answer block)).
  { unfold read_answer. apply Forall_app; split; [bytes|]. apply Forall_app; split; [done|bytes]. }
  unfold set_rx_val, set_state.
  cbn [control_reg rx_val state mosi_buf miso_buf disk_image do_write write_count].
  rewrite <- (take_drop 519 fill).
  destruct (transmit_eq c (u8 0xff) (command 0x51 a3 a2 a1 a0 crc pad) (read_answer block)
    (Disk.mk l (a + 512) false) false n (take 519 fill)) as [rx' E];
    [rewrite length_take; lia|].
  rewrite (map_u8 _ Hbytes) in E. eapply exchanges_app; [exact E|].
  assert (Hlast : length (drop 519 fill) = 1%nat) by (rewrite length_drop; lia).
  by destruct (drop 519 fill) as [|x [|]].
Qed.

(** ** Writing a block *)

(** The list with a part of it replaced. *)
Definition overwrite (i : nat) (data l : list Z) : list Z :=
  take i l ++ data ++ drop (i + length data) l.

Lemma overwrite_cons i x data l :
  (i < length l)%nat -> overwrite i (x :: data) l = overwrite (S i) data (<[i := x]> l).
Proof.
  intros Hi. unfold overwrite. cbn [length].
  rewrite (insert_take_drop l i x) by done.
  rewrite take_app. rewrite length_take, Nat.min_l by lia.
  replace (S i - i)%nat with 1%nat by lia. cbn [take].
  rewrite (take_ge (take i l)) by (rewrite length_take; lia).
  rewrite drop_app. rewrite length_take, Nat.min_l by lia.
  rewrite (drop_ge (take i l)) by (rewrite length_take; lia).
  replace (S i + length data - i)%nat with (S (length data)) by lia. cbn [drop app].
  rewrite drop_drop, <- app_assoc. cbn [take app].
  by replace (S i + length data)%nat with (i + S (length data))%nat by lia.
Qed.

Lemma write_data_eq data c rx l p n :
  is_bytes data -> 0 <= p -> p + Z.of_nat (length data) <= Z.of_nat (length l) ->
  0 <= n -> n + Z.of_nat (length data) <= 512 ->
  exists rx',
    exchanges data (mk c rx STATE_DO_WRITE_BLOCK [] [] (Disk.mk l p false) true n) =
      Ok (replicate (length data) 0xff)
         (mk c rx' STATE_DO_WRITE_BLOCK [] []
            (Disk.mk (overwrite (Z.to_nat p) data l) (p + Z.of_nat (length data)) false) true
            (n + Z.of_nat (length data))).
Proof.
  intros Hd. revert rx l p n. induction Hd as [|x data Hx _ IH]; intros rx l p n Hp Hl Hn Hc.
  { exists rx. cbn. rewrite !Z.add_0_r. unfold overwrite. cbn [length app].
    by rewrite Nat.add_0_r, take_drop. }
  cbn [length] in *. cbn [exchanges replicate]. unfold mbind, M_bind.
  assert (E : exchange x (mk c rx STATE_DO_WRITE_BLOCK [] [] (Disk.mk l p false) true n) =
    Ok 0xff (mk c 0xff STATE_DO_WRITE_BLOCK [] []
      (Disk.mk (<[Z.to_nat p := x]> l) (p + 1) false) true (n + 1))).
  { unfold exchange, mbind, M_bind. change (write8 2 0 x) with (transfer x).
    unfold transfer, mbind, M_bind. cbn [gets id state write_count].
    destruct (Z.ltb_spec n 512); [|lia]. unfold modify at 1. cbn iota beta.
    unfold set_disk_image, Disk.put. cbn [disk_image Disk.failed Disk.contents Disk.pos].
    unfold Disk.put_at. destruct (Nat.ltb_spec (Z.to_nat p) (length l)); [|lia].
    unfold modify, set_rx_val, set_write_count. cbn iota beta.
    cbn [control_reg rx_val state mosi_buf miso_buf disk_image do_write write_count].
    rewrite (cast_id uint32_t) by cpp_lia. done. }
  rewrite E. destruct (IH 0xff (<[Z.to_nat p := x]> l) (p + 1) (n + 1)) as [rx' E'];
    [lia|rewrite length_insert; lia|lia|lia|].
  exists rx'. rewrite E'. unfold mret, M_ret. f_equal.
  rewrite overwrite_cons by lia. replace (Z.to_nat (p + 1)) with (S (Z.to_nat p)) by lia.
  f_equal; [f_equal; lia|lia].
Qed.

(** The bytes that may come before the data token. *)
Definition no_token (l : list Z) : Prop := Forall (fun v => v <> 0xfe) l.

Lemma wait_eq l c rx d n :
  no_token l ->
  exists rx', exchanges (l ++ [0xfe]) (mk c rx STATE_WAIT_FOR_DATA [] [] d true n) =
    Ok (replicate (length l) 0xff ++ [0xff]) (mk c rx' STATE_DO_WRITE_BLOCK [] [] d true n).
Proof.
  intros Hl. exists 0xff. revert rx. induction Hl as [|x l Hx _ IH]; intros rx; [done|].
  cbn [app exchanges length replicate]. unfold mbind, M_bind.
  assert (E : exchange x (mk c rx STATE_WAIT_FOR_DATA [] [] d true n) =
    Ok 0xff (mk c 0xff STATE_WAIT_FOR_DATA [] [] d true n)).
  { unfold exchange, mbind, M_bind. change (write8 2 0 x) with (transfer x).
    unfold transfer, mbind, M_bind. cbn [gets id state].
    apply Z.eqb_neq in Hx. by rewrite Hx. }
  by rewrite E, IH.
Qed.

Lemma write_tail x y z c rx d :
  exchanges [x; y; z] (mk c rx STATE_DO_WRITE_BLOCK [] [] d true 512) =
    Ok [0xaa; 0xaa; 0x05] (idle c 0x05 d true 515).
Proof. reflexivity. Qed.

(** What the card answers to a write command. *)
Definition write_answer : list Z := [0xff; 0x00; 0xff; 0xff; 0x05].

Lemma write_block_eq a3 a2 a1 a0 crc pad c l p n :
  write_block (mk c 0xff STATE_RECEIVING (command 0x58 a3 a2 a1 a0 crc pad) [] (Disk.mk l p false) false n) =
    Ok tt (mk c 0xff STATE_RECEIVING (command 0x58 a3 a2 a1 a0 crc pad) write_answer
             (Disk.mk l (address a3 a2 a1 a0) false) true 0).
Proof. reflexivity. Qed.

Lemma answer_fill fill c rx mosi d n :
  length fill = 6%nat ->
  exchanges fill (mk c rx STATE_TRANSMITTING mosi write_answer d true n) =
    Ok (write_answer ++ [0xff]) (mk c 0xff STATE_WAIT_FOR_DATA [] [] d true n).
Proof. by destruct fill as [|f0 [|f1 [|f2 [|f3 [|f4 [|f5 [|]]]]]]]. Qed.

Lemma write_transaction a3 a2 a1 a0 crc pad fill wait data x y z c rx l p dw n :
  let a := address a3 a2 a1 a0 in
  selected c -> 0 <= a -> a + 512 <= Z.of_nat (length l) -> length fill = 6%nat ->
  no_token wait -> is_bytes data -> length data = 512%nat ->
  exchanges (command 0x58 a3 a2 a1 a0 crc pad ++ fill ++ (wait ++ [0xfe]) ++ data ++ [x; y; z])
      (idle c rx (Disk.mk l p false) dw n) =
    Ok (replicate 7 0xff ++ (write_answer ++ [0xff]) ++
        (replicate (length wait) 0xff ++ [0xff]) ++ replicate (length data) 0xff ++ [0xaa; 0xaa; 0x05])
       (idle c 0x05 (Disk.mk (overwrite (Z.to_nat a) data l) (a + 512) false) true 515).
Proof.
  intros a Hc Ha Hl Hfill Hwait Hdata Hlen.
  eapply exchanges_app.
  { eapply command_eq; [done|by right|apply write_block_eq]. }
  unfold set_rx_val, set_state.
  cbn [control_reg rx_val state mosi_buf miso_buf disk_image do_write write_count]. fold a.
  eapply exchanges_app; [by apply answer_fill|].
  destruct (wait_eq wait c 0xff (Disk.mk l a false) 0 Hwait) as [rx1 E1].
  eapply exchanges_app; [exact E1|].
  destruct (write_data_eq data c rx1 l a 0) as [rx2 E2]; [done|done|lia|lia|lia|].
  assert (Hz : Z.of_nat (length data) = 512) by lia. rewrite Hz, Z.add_0_l in E2.
  eapply exchanges_app; [exact E2|]. apply write_tail.
Qed.

(** Reading back what was written. *)
Lemma overwrite_read i data l :
  (i + length data <= length l)%nat ->
  take (length data) (drop i (overwrite i data l)) = data /\ length (overwrite i data l) = length l.
Proof.
  intros Hi. unfold overwrite. split.
  - rewrite drop_app_length' by (rewrite length_take; lia). by rewrite take_app_length.
  - rewrite !length_app, length_take, length_drop. lia.
Qed.

Lemma overwrite_other i data l j :
  (i + length data <= length l)%nat -> (j < i \/ i + length data <= j)%nat ->
  overwrite i data l !! j = l !! j.
Proof.
  intros Hi Hj. unfold overwrite. destruct Hj as [Hj|Hj].
  - rewrite lookup_app_l by (rewrite length_take; lia). by rewrite lookup_take, decide_True.
  - rewrite lookup_app_r by (rewrite length_take; lia). rewrite length_take, Nat.min_l by lia.
    rewrite lookup_app_r by lia. rewrite lookup_drop. f_equal. lia.
Qed.

(** C35. The SD card. From rest, with the card selected and a block of the disk
    image at the address: a read command and its clocks return the header, the
    512 bytes of the image and the CRC, and leave the image as it was; a write
    command, the data token after any delay and 512 bytes return the
    acceptances and leave the image with exactly those bytes replaced. The card
    is at rest again after either, so transactions follow one another, and a
    block reads back as it was written. *)
Theorem sd_card_blocks a3 a2 a1 a0 crc pad crc' pad' fill fill' wait data x y z c rx l p dw n :
  let a := address a3 a2 a1 a0 in
  let i := Z.to_nat a in
  let disk := Disk.mk l p false in
  let disk' := Disk.mk (overwrite i data l) (a + 512) false in
  let write_bytes :=
    command 0x58 a3 a2 a1 a0 crc pad ++ fill ++ (wait ++ [0xfe]) ++ data ++ [x; y; z] in
  let read_bytes := command 0x51 a3 a2 a1 a0 crc' pad' ++ fill' in
  selected c -> 0 <= a -> a + 512 <= Z.of_nat (length l) -> is_bytes l -> is_bytes data ->
  length data = 512%nat -> length fill = 6%nat -> length fill' = 520%nat -> no_token wait ->
  exchanges read_bytes (idle c rx disk dw n) =
    Ok (replicate 7 0xff ++ read_answer (take 512 (drop i l)) ++ [0xff])
       (idle c 0xff (Disk.mk l (a + 512) false) false n) /\
  exchanges write_bytes (idle c rx disk dw n) =
    Ok (replicate 7 0xff ++ (write_answer ++ [0xff]) ++
        (replicate (length wait) 0xff ++ [0xff]) ++ replicate (length data) 0xff ++ [0xaa; 0xaa; 0x05])
       (idle c 0x05 disk' true 515) /\
  (forall j, (j < i \/ i + 512 <= j)%nat -> overwrite i data l !! j = l !! j) /\
  exchanges read_bytes (idle c 0x05 disk' true 515) =
    Ok (replicate 7 0xff ++ read_answer data ++ [0xff]) (idle c 0xff disk' false 515).
Proof.
  intros a i disk disk' write_bytes read_bytes Hc Ha Hl Hb Hd Hlen Hfill Hfill' Hwait.
  assert (Hi : (i + length data <= length l)%nat) by lia.
  destruct (overwrite_read i data l Hi) as [Hread Hlen'].
  split_and!.
  - by apply read_transaction.
  - by apply write_transaction.
  - intros j Hj. apply overwrite_other; [done|]. by rewrite Hlen.
  - assert (Hb' : is_bytes (overwrite i data l)).
    { apply Forall_app. split; [by apply Forall_take|]. apply Forall_app. split; [done|by apply Forall_drop]. }
    pose proof (read_transaction a3 a2 a1 a0 crc' pad' fill' c 0x05 (overwrite i data l) (a + 512) true 515
      Hc Ha ltac:(rewrite Hlen'; exact Hl) Hb' Hfill') as E.
    rewrite <- Hlen in E at 1. fold a i in E. by rewrite Hread in E.
Qed.

(** The second block of an image of two. *)
Lemma sd_card_blocks_witness :
  let l := replicate 1024 0x5a in
  exchanges (command 0x51 0 0 2 0 0x95 0xff ++ replicate 520 0xff) (idle 0 0xff (Disk.mk l 0 false) false 0) =
    Ok (replicate 7 0xff ++ read_answer (take 512 (drop (Z.to_nat 512) l)) ++ [0xff])
       (idle 0 0xff (Disk.mk l (512 + 512) false) false 0).
Proof.
  intros l.
  assert (Hb : forall n v, is_byte v -> is_bytes (replicate n v)) by (intros; by apply Forall_replicate).
  destruct (sd_card_blocks 0 0 2 0 0x95 0xff 0x95 0xff (replicate 6 0xff) (replicate 520 0xff) []
    (replicate 512 0) 0 0 0 0 0xff l 0 false 0) as [H _];
    [done|done|done|by apply Hb|by apply Hb|by rewrite length_replicate|done|by rewrite length_replicate
    |by apply Forall_nil_2|exact H].
Defined.
