(* ===== verification/Display.v ===== *)
(** * The screen: [sim/display/Display.{h,cpp}], [Cursor.h] and the drawing of
    [Window.h]

    SDL is outside the model: the window is the picture that has been drawn,
    a colour for each point. *)
From S2P Require Import Prelude ErrorState.

(** ** Colours *)

(** [struct color], and the [colors] of a [GraphicsPalette]: the initialisers
    given, and black after them. *)
Record color := mk_color { color_r : Z; color_g : Z; color_b : Z }.
Definition black : color := mk_color 0 0 0.
#[export] Instance color_inhabited : Inhabited color := populate black.

Definition GraphicsPalette : Type := list color.
Definition palette_of (l : list color) : GraphicsPalette := take 256 (l ++ replicate 256 black).
Definition palette_at (p : GraphicsPalette) (i : Z) : color := p !!! Z.to_nat i.

Definition cga_full_palette : list color := [
  mk_color 0 0 0; mk_color 0 0 0xaa; mk_color 0x00 0xaa 0x00; mk_color 0x00 0xaa 0xaa;
  mk_color 0xaa 0x00 0x00; mk_color 0xaa 0x00 0xaa; mk_color 0xaa 0x55 0x00; mk_color 0xaa 0xaa 0xaa;
  mk_color 0x55 0x55 0x55; mk_color 0x55 0x55 0xff; mk_color 0x55 0xff 0x55; mk_color 0x55 0xff 0xff;
  mk_color 0xff 0x55 0x55; mk_color 0xff 0x55 0xff; mk_color 0xff 0xff 0x55; mk_color 0xff 0xff 0xff].

(** ** The cursor *)

Record Cursor := mk_cursor {
  row_top : Z; row_bottom : Z; col_left : Z; col_right : Z; cursor_enabled : bool
}.

Definition is_active_at (c : Cursor) (row col : Z) : bool :=
  cursor_enabled c && (row_top c <=? row) && (row <=? row_bottom c) &&
  (col_left c <=? col) && (col <=? col_right c).

Module Display.

(** The members; the arrays are maps from the indices in use, [window] is the
    picture. [num_rows] and [num_cols] keep their default values. *)
Record t := mk {
  row : Z;
  col : Z;
  characters : gmap Z Z;
  font_bitmap : list Z;
  pixels : gmap (Z * Z) Z;
  is_graphics : bool;
  graphics_palette : GraphicsPalette;
  window : gmap (Z * Z) color;
}.

Definition num_rows : Z := 25.
Definition num_cols : Z := 80.

Definition put_cursor (r c : Z) (d : t) : t :=
  mk r c (characters d) (font_bitmap d) (pixels d) (is_graphics d) (graphics_palette d) (window d).
Definition put_character (i v : Z) (d : t) : t :=
  mk (row d) (col d) (<[i := v]> (characters d)) (font_bitmap d) (pixels d) (is_graphics d)
    (graphics_palette d) (window d).
Definition put_pixel (r c v : Z) (d : t) : t :=
  mk (row d) (col d) (characters d) (font_bitmap d) (<[(r, c) := v]> (pixels d)) (is_graphics d)
    (graphics_palette d) (window d).
Definition put_window (w : gmap (Z * Z) color) (d : t) : t :=
  mk (row d) (col d) (characters d) (font_bitmap d) (pixels d) (is_graphics d) (graphics_palette d) w.

(** The constructor, with the font that [load_font] reads and what the members
    it does not initialise hold. *)
Definition create (font : list Z) (palette : GraphicsPalette) (garbage : gmap (Z * Z) Z) : t :=
  mk 0 0 ∅ font garbage false palette ∅.

Definition set_graphics (enabled : bool) (d : t) : t :=
  mk (row d) (col d) (characters d) (font_bitmap d) (pixels d) enabled (graphics_palette d) (window d).
Definition set_graphics_palette (p : GraphicsPalette) (d : t) : t :=
  mk (row d) (col d) (characters d) (font_bitmap d) (pixels d) (is_graphics d) p (window d).

(** [pixels] is an array of [char], a signed type here. *)
Definition set_pixel (row col v : Z) (d : t) : t := put_pixel row col (s8 v) d.

Definition set_cursor (row col : Z) (d : t) : t := put_cursor (u32 row) (u32 col) d.

Definition cell (r c : Z) : Z := r * (num_cols + 1) + c.

Definition write_char (c : Z) (d : t) : t :=
  let d := put_character (cell (row d) (col d)) (u16 c) d in
  let d := put_cursor (row d) (col d + 1) d in
  let d := if col d =? num_cols then put_cursor (row d + 1) 0 d else d in
  if row d =? num_rows then put_cursor (num_rows - 1) (col d) d else d.

Definition get_graphics_color (idx : Z) (d : t) : color := palette_at (graphics_palette d) (u8 idx).

(** [get_color]; its assertion is about the index. *)
Definition get_color (idx : Z) : option color := cga_full_palette !! Z.to_nat idx.

(** [Window::clear], [Window::set_pixel]. *)
Definition clear : M t unit := modify (put_window ∅).
Definition draw (x y : Z) (c : color) : M t unit :=
  modify (fun d => put_window (<[(x, y) := c]> (window d)) d).

(** [refresh()]: the graphics picture, two points wide for each pixel. *)
Definition refresh : M t unit :=
  d ← gets id ;
  if negb (is_graphics d) then throw DeviceError
  else
    clear ;;
    for_loop 200 (fun y =>
      for_loop 320 (fun x =>
        d ← gets id ;
        let color := get_graphics_color (default 0 (pixels d !! (y, x))) d in
        for_loop 2 (fun i => draw (x * 2 + i) y color))).

(** [refresh(cursor)]: the characters in their two colours, which the cursor swaps. *)
Definition refresh_text (cursor : Cursor) : M t unit :=
  d ← gets id ;
  if is_graphics d then throw DeviceError
  else
    clear ;;
    for_loop num_rows (fun y =>
      for_loop num_cols (fun x =>
        d ← gets id ;
        let font_index := default 0 (characters d !! cell y x) in
        for_loop 8 (fun i =>
          for_loop 8 (fun j =>
            let font_data := s8 (font_bitmap d !!! Z.to_nat ((font_index .& 0xff) * 8 + i)) in
            fg ← from_option DeviceError (get_color ((font_index .>> 8) .& 0xf)) ;
            bg ← from_option DeviceError (get_color ((font_index .>> 12) .& 0xf)) ;
            let render_cursor := is_active_at cursor (y * 8 + i) (x * 8 + j) in
            let pixel_set := nz (font_data .& (1 .<< (8 - j))) in
            draw (x * 8 + j) (y * 8 + i)
              (if (pixel_set && negb render_cursor) || (negb pixel_set && render_cursor)
               then fg else bg))))).

End Display.
