(* ===== verification/CGA.v ===== *)
(** * The video adapter: [sim/CGA.h]

    The memory that [update] shows is the CPU's, and an argument here. *)
From S2P Require Import Prelude Config MainMemory ErrorState IOPorts Display.

(** ** Palettes *)

Definition cga_alt_palette : GraphicsPalette := palette_of [
  mk_color 0 0 0; mk_color 0x00 0xaa 0xaa; mk_color 0xaa 0x00 0xaa; mk_color 0xaa 0xaa 0xaa].
Definition cga_alt_bright_palette : GraphicsPalette := palette_of [
  mk_color 0 0 0; mk_color 0x55 0xff 0xff; mk_color 0xff 0x55 0xff; mk_color 0xff 0xff 0xff].
Definition cga_default_palette : GraphicsPalette := palette_of [
  mk_color 0 0 0; mk_color 0x00 0xaa 0x00; mk_color 0xaa 0x00 0x00; mk_color 0xaa 0x55 0x00].
Definition cga_default_bright_palette : GraphicsPalette := palette_of [
  mk_color 0 0 0; mk_color 0x55 0xff 0x55; mk_color 0xff 0x55 0x55; mk_color 0xff 0xff 0x55].

Definition color_palettes : list GraphicsPalette :=
  [cga_default_palette; cga_alt_bright_palette; cga_alt_palette; cga_alt_bright_palette].

Module CGA.

(** [enum CRTCRegs]. *)
Definition CURSOR_SCAN_START : Z := 0xa.
Definition CURSOR_SCAN_END : Z := 0xb.
Definition CURSOR_HIGH : Z := 0xe.
Definition CURSOR_LOW : Z := 0xf.

(** The members, and [status_reads], the static variable of [read_status]. *)
Record t := mk {
  display : Display.t;
  reg_idx : Z;
  idx_regs : list Z;
  status : Z;
  mode_reg : Z;
  attribute_mode_control : Z;
  dac_palette : GraphicsPalette;
  dac_wr_sel : Z;
  dac_seq : Z;
  status_reads : Z;
}.

Definition buffer_phys : Z := 0xb8000.
Definition vga_buffer_phys : Z := 0xa0000.
Definition get_base : Z := 0x03b4.
Definition get_num_ports : Z := 128.

Definition set_display (x : Display.t) (s : t) : t :=
  mk x (reg_idx s) (idx_regs s) (status s) (mode_reg s) (attribute_mode_control s) (dac_palette s)
    (dac_wr_sel s) (dac_seq s) (status_reads s).
Definition set_reg_idx (x : Z) (s : t) : t :=
  mk (display s) (u8 x) (idx_regs s) (status s) (mode_reg s) (attribute_mode_control s) (dac_palette s)
    (dac_wr_sel s) (dac_seq s) (status_reads s).
Definition set_idx_reg (i x : Z) (s : t) : t :=
  mk (display s) (reg_idx s) (<[Z.to_nat i := u8 x]> (idx_regs s)) (status s) (mode_reg s)
    (attribute_mode_control s) (dac_palette s) (dac_wr_sel s) (dac_seq s) (status_reads s).
Definition set_status (x : Z) (s : t) : t :=
  mk (display s) (reg_idx s) (idx_regs s) (u8 x) (mode_reg s) (attribute_mode_control s) (dac_palette s)
    (dac_wr_sel s) (dac_seq s) (status_reads s).
Definition set_mode_reg (x : Z) (s : t) : t :=
  mk (display s) (reg_idx s) (idx_regs s) (status s) (u8 x) (attribute_mode_control s) (dac_palette s)
    (dac_wr_sel s) (dac_seq s) (status_reads s).
Definition set_attribute_mode_control (x : Z) (s : t) : t :=
  mk (display s) (reg_idx s) (idx_regs s) (status s) (mode_reg s) (u8 x) (dac_palette s)
    (dac_wr_sel s) (dac_seq s) (status_reads s).
Definition set_dac_palette (x : GraphicsPalette) (s : t) : t :=
  mk (display s) (reg_idx s) (idx_regs s) (status s) (mode_reg s) (attribute_mode_control s) x
    (dac_wr_sel s) (dac_seq s) (status_reads s).
Definition set_dac_wr_sel (x : Z) (s : t) : t :=
  mk (display s) (reg_idx s) (idx_regs s) (status s) (mode_reg s) (attribute_mode_control s) (dac_palette s)
    (u8 x) (dac_seq s) (status_reads s).
Definition set_dac_seq (x : Z) (s : t) : t :=
  mk (display s) (reg_idx s) (idx_regs s) (status s) (mode_reg s) (attribute_mode_control s) (dac_palette s)
    (dac_wr_sel s) (u8 x) (status_reads s).
Definition set_status_reads (x : Z) (s : t) : t :=
  mk (display s) (reg_idx s) (idx_regs s) (status s) (mode_reg s) (attribute_mode_control s) (dac_palette s)
    (dac_wr_sel s) (dac_seq s) x.

(** The constructor, on a new display and with what the members it does not
    initialise hold. *)
Definition create (d : Display.t) (attribute : Z) (palette : GraphicsPalette) : t :=
  mk (Display.set_graphics_palette cga_default_palette d) 0 (replicate 256 0) 0 0 attribute palette 0 0 0.

Definition idx_reg (i : Z) (s : t) : Z := idx_regs s !!! Z.to_nat i.

Definition is_graphics (s : t) : bool := nz (mode_reg s .& (1 .<< 1)).
Definition is_graphics_256 (s : t) : bool := attribute_mode_control s =? 0x41.

(** A component of the entry that the DAC writes. *)
Definition dac_component (v : Z) : Z := u8 (((v .& 0x3f) .<< 2) .& 0xf0).

Definition write_dac_component (v : Z) (s : t) : t :=
  let i := Z.to_nat (dac_wr_sel s) in
  let c := dac_palette s !!! i in
  let x := dac_component v in
  if dac_seq s =? 0 then set_dac_palette (<[i := mk_color x (color_g c) (color_b c)]> (dac_palette s)) s
  else if dac_seq s =? 1 then set_dac_palette (<[i := mk_color (color_r c) x (color_b c)]> (dac_palette s)) s
  else if dac_seq s =? 2 then set_dac_palette (<[i := mk_color (color_r c) (color_g c) x]> (dac_palette s)) s
  else s.

Definition write_dac (v : Z) : M t unit :=
  modify (write_dac_component v) ;;
  modify (fun s => set_dac_seq ((dac_seq s + 1) mod 3) s) ;;
  s ← gets id ;
  if dac_seq s =? 0 then
    modify (set_dac_wr_sel (dac_wr_sel s + 1)) ;;
    modify (fun s => set_display (Display.set_graphics_palette (dac_palette s) (display s)) s)
  else mret ().

Definition write_color_control (v : Z) : M t unit :=
  let palette_idx := (v .>> 4) .& 0x3 in
  let palette := color_palettes !!! Z.to_nat palette_idx in
  let palette := <[0%nat := cga_full_palette !!! Z.to_nat (v .& 0x0f)]> palette in
  modify (fun s => set_display (Display.set_graphics_palette palette (display s)) s).

Definition read_status : M t Z :=
  modify (fun s => if Z.rem (status_reads s) 16 =? 0 then set_status (status s .^ 0x9) s else s) ;;
  modify (fun s => set_status_reads (status_reads s + 1) s) ;;
  gets status.

Definition fold_port (port_num : Z) : Z := if 0x20 <=? port_num then u16 (port_num - 0x20) else port_num.

Definition write8 (port_num offs v : Z) : M t unit :=
  let port_num := fold_port port_num in
  if (port_num =? 0) && (offs =? 0) then modify (set_reg_idx v)
  else if (port_num =? 0) && (offs =? 1) then modify (fun s => set_idx_reg (reg_idx s) v s)
  else if (port_num =? 4) && (offs =? 0) then modify (set_mode_reg (v .& 0xb))
  else if (port_num =? 4) && (offs =? 1) then write_color_control v
  else if (port_num =? 0x0c) && (offs =? 0) then modify (set_attribute_mode_control v)
  else if (port_num =? 0x14) && (offs =? 0) then modify (set_dac_wr_sel v)
  else if (port_num =? 0x14) && (offs =? 1) then write_dac v
  else mret ().

Definition read8 (port_num offs : Z) : M t Z :=
  let port_num := fold_port port_num in
  if port_num =? 0 then
    gets (fun s => if offs =? 0 then reg_idx s else idx_reg (reg_idx s) s)
  else if (port_num =? 4) && (offs =? 0) then gets mode_reg
  else if (port_num =? 0xc) && (offs =? 0) then gets attribute_mode_control
  else if (port_num =? 6) && (offs =? 0) then read_status
  else mret 0.

Definition get_cursor (s : t) : Cursor :=
  let cursor_loc := (u16 (idx_reg CURSOR_HIGH s) .<< 8) .| idx_reg CURSOR_LOW s in
  let cursor_row := Z.quot cursor_loc 80 in
  let cursor_col := Z.rem cursor_loc 80 in
  let cursor_scan_start := idx_reg CURSOR_SCAN_START s .& 0xf in
  let cursor_scan_end := idx_reg CURSOR_SCAN_END s .& 0xf in
  let enabled := negb (idx_reg CURSOR_SCAN_START s .& 0x30 =? 0x10) in
  mk_cursor (cursor_row * 8 + cursor_scan_start) (cursor_row * 8 + cursor_scan_end)
    (cursor_col * 8) (cursor_col * 8 + 8) enabled.

(** ** Showing the memory *)

(** A method of the display. *)
Definition on_display {A} (f : M Display.t A) : M t A := fun s =>
  match f (display s) with Ok a d => Ok a (set_display d s) | Err e => Err e end.

Section update.
Context {CFG : Config}.
Variable mem : Memory.t.

Definition mem_read (T : ctype) (addr : Z) : M t Z :=
  from_option AssertMemory (Memory.read T mem (u32 addr)).

Definition update_graphics : M t unit :=
  for_loop 200 (fun row =>
    for_loop 320 (fun col =>
      let pixel_mem_address := Z.quot (Z.quot row 2 * 320 + col) 4 in
      let pixel_mem_address :=
        if nz (Z.rem row 2) then pixel_mem_address + 8192 else pixel_mem_address in
      let pixel_shift := (3 - Z.rem col 4) * 2 in
      pixel ← mem_read uint8_t (buffer_phys + pixel_mem_address) ;
      let pixel := u8 (pixel .>> pixel_shift) in
      let pixel := u8 (pixel .& 0x3) in
      on_display (modify (Display.set_pixel row col pixel)))) ;;
  on_display Display.refresh.

Definition update_graphics_256 : M t unit :=
  for_loop 200 (fun row =>
    for_loop 320 (fun col =>
      let pixel_mem_address := row * 320 + col in
      pixel ← mem_read uint8_t (vga_buffer_phys + pixel_mem_address) ;
      on_display (modify (Display.set_pixel row col pixel)))) ;;
  on_display Display.refresh.

Definition update_text : M t unit :=
  for_loop 25 (fun row =>
    for_loop 80 (fun col =>
      let addr := buffer_phys + (row * 80 + col) * sizeof uint16_t in
      char_attr ← mem_read uint16_t addr ;
      on_display (modify (Display.set_cursor row col)) ;;
      on_display (modify (Display.write_char char_attr)))) ;;
  s ← gets id ;
  on_display (Display.refresh_text (get_cursor s)).

Definition update : M t unit :=
  modify (fun s => set_display (Display.set_graphics (is_graphics s) (display s)) s) ;;
  s ← gets id ;
  if is_graphics_256 s then update_graphics_256
  else if is_graphics s then update_graphics
  else update_text.
End update.

End CGA.
