(* ===== verification/CGAProps.v ===== *)
(** * The video adapter: the screen shows the memory *)
From S2P Require Import Prelude Config MainMemory ErrorState Display CGA.

(** ** Loops that fill a map

    [St w s]: the state [s] has the map [w] in it. [paints spec A f]: [f]
    returns, puts only what [spec] says and leaves nothing of [A] out. *)
Section paint.
#[local] Set Default Proof Using "Type*".
Context {V K : Type} `{Countable K} (spec : K -> V) {S : Type} (St : gmap K V -> S -> Prop).
Implicit Types (w : gmap K V) (f : M S unit).

Definition painted w : Prop := forall p v, w !! p = Some v -> v = spec p.

Definition paints (A : K -> Prop) f : Prop := forall w s, painted w -> St w s ->
  exists w' s', f s = Ok tt s' /\ painted w' /\ St w' s' /\
    (forall p, is_Some (w !! p) -> is_Some (w' !! p)) /\ (forall p, A p -> is_Some (w' !! p)).

Lemma paints_weaken (A B : K -> Prop) f : paints A f -> (forall p, B p -> A p) -> paints B f.
Proof.
  intros Hf HB w s Hw Hs. destruct (Hf w s Hw Hs) as (w' & s' & H1 & H2 & H3 & H4 & H5).
  exists w', s'. split_and!; auto.
Qed.

Lemma paints_one p f :
  (forall w s, St w s -> exists s', f s = Ok tt s' /\ St (<[p := spec p]> w) s') ->
  paints (eq p) f.
Proof.
  intros Hf w s Hw Hs. destruct (Hf w s Hs) as (s' & H1 & H2).
  exists (<[p := spec p]> w), s'. split_and!; try done.
  - intros q v. rewrite lookup_insert_Some. intros [[<- <-]|[_ Hq]]; [done|by apply Hw].
  - intros q Hq. destruct (decide (p = q)) as [<-|Hn]; [by rewrite lookup_insert_eq|].
    by rewrite lookup_insert_ne.
  - intros q <-. by rewrite lookup_insert_eq.
Qed.

(** Reading the state first. *)
Lemma paints_read {B} A (f : S -> B) (k : B -> M S unit) :
  (forall w s, St w s -> paints A (k (f s))) -> paints A (gets f ≫= k).
Proof. intros Hk w s Hw Hs. by apply (Hk w s Hs w s). Qed.

Lemma paints_loop (A : K -> Z -> Prop) (n : Z) (g : Z -> M S unit) :
  0 <= n -> (forall i, 0 <= i < n -> paints (fun p => A p i) (g i)) ->
  paints (fun p => exists i, 0 <= i < n /\ A p i) (for_loop n g).
Proof.
  intros Hn Hg w s Hw Hs.
  destruct (for_loop_inv (fun k s => exists w', painted w' /\ St w' s /\
      (forall p, is_Some (w !! p) -> is_Some (w' !! p)) /\
      (forall p i, 0 <= i < k -> A p i -> is_Some (w' !! p))) n g s Hn)
    as (s' & H1 & w' & H2 & H3 & H4 & H5).
  - exists w. split_and!; [done..|]. intros; lia.
  - intros k s1 Hk (w1 & H1 & H2 & H3 & H4).
    destruct (Hg k Hk w1 s1 H1 H2) as (w2 & s2 & E1 & E2 & E3 & E4 & E5).
    exists s2. split; [done|]. exists w2. split_and!; auto.
    intros p i Hi HA. destruct (decide (i = k)) as [->|Hne]; [by apply E5|].
    apply E4, (H4 p i); [lia|done].
  - exists w', s'. split_and!; try done. intros p (i & Hi & HA). by apply (H5 p i).
Qed.

(** What has been painted all over [A] is [spec] on [A]. *)
Lemma painted_at w p : painted w -> is_Some (w !! p) -> w !! p = Some (spec p).
Proof using V K. clear St S. intros Hw [v Hv]. rewrite Hv. by rewrite (Hw _ _ Hv). Qed.

End paint.

(** ** What the memory says *)

Section shown.
Context {CFG : Config}.
Variable mem : Memory.t.

(** Two bits for each point: even rows, then odd rows 8 KB further on. *)
Definition graphics_pixel (row col : Z) : Z :=
  (Memory.byte_at mem (0xb8000 + row mod 2 * 8192 + row / 2 * 80 + col / 4)
     / 2 ^ (2 * (3 - col mod 4))) mod 4.

Definition graphics_256_pixel (row col : Z) : Z := Memory.byte_at mem (0xa0000 + row * 320 + col).

Definition text_cell (row col : Z) : Z := Memory.load 2 mem (0xb8000 + 2 * (row * 80 + col)).

(** Point [j] of a row of eight of a character: the font's byte, one bit up. *)
Definition font_point (font : list Z) (ch i j : Z) : bool :=
  Z.testbit (s8 (font !!! Z.to_nat (ch mod 256 * 8 + i))) (8 - j).

Definition text_point (font : list Z) (cursor : Cursor) (x y : Z) : color :=
  let ch := text_cell (y / 8) (x / 8) in
  if xorb (font_point font ch (y mod 8) (x mod 8)) (is_active_at cursor y x)
  then cga_full_palette !!! Z.to_nat (ch / 256 mod 16)
  else cga_full_palette !!! Z.to_nat (ch / 4096).

(** The colour of point [(x, y)] of the screen. *)
Definition shown (s : CGA.t) (x y : Z) : color :=
  let colour v := palette_at (Display.graphics_palette (CGA.display s)) v in
  if CGA.is_graphics_256 s then colour (graphics_256_pixel y (x / 2))
  else if CGA.is_graphics s then colour (graphics_pixel y (x / 2))
  else text_point (Display.font_bitmap (CGA.display s)) (CGA.get_cursor s) x y.

End shown.

(** ** Drawing the window *)

(** What the loop of the goal paints on an empty map. *)
Ltac destruct_paints spec St A w H1 H2 H5 :=
  lazymatch goal with
  | |- context [for_loop ?n ?g ?s] =>
      let s' := fresh in let P := fresh in
      assert (forall i, 0 <= i < n -> paints spec St (fun p => A p i) (g i)) as P;
      [|destruct (paints_loop spec St A n g ltac:(done) P ∅ s (map_Forall_empty _) ltac:(done))
          as (w & s' & H1 & H2 & -> & _ & H5); clear P]
  end.

(** Run a first step that reads or changes the state. *)
Ltac run_first :=
  match goal with
  | |- context [(gets ?f ≫= ?k) ?s] => change ((gets f ≫= k) s) with (k (f s) s)
  | |- context [(Display.clear ≫= ?k) ?s] =>
      change ((Display.clear ≫= k) s) with (k tt (Display.put_window ∅ s))
  end; cbv beta.

Lemma colour_of i : exists c, Display.get_color (i .& 0xf) = Some c /\ c = cga_full_palette !!! Z.to_nat (i .& 0xf).
Proof.
  assert (0 <= i .& 0xf < 16) as Hi by (rewrite (land_mask 4) by done; by apply Z.mod_pos_bound).
  unfold Display.get_color. set (k := Z.to_nat _). assert (k < length cga_full_palette)%nat as Hk by (cbn; lia).
  exists (cga_full_palette !!! k). split; [by apply list_lookup_lookup_total_lt|done].
Qed.

Section screen.
Context (d : Display.t).

Definition windowed (w : gmap (Z * Z) color) (d' : Display.t) : Prop := d' = Display.put_window w d.

Lemma paints_draw spec x y c :
  c = spec (x, y) -> paints spec windowed (eq (x, y)) (Display.draw x y c).
Proof. intros ->. apply paints_one. intros w s ->. by eexists. Qed.

Definition graphics_point (p : Z * Z) : color :=
  Display.get_graphics_color (default 0 (Display.pixels d !! (snd p, fst p / 2))) d.

Lemma refresh_eq :
  Display.is_graphics d = true ->
  exists w, Display.refresh d = Ok tt (Display.put_window w d) /\
    forall x y, 0 <= x < 640 -> 0 <= y < 200 -> w !! (x, y) = Some (graphics_point (x, y)).
Proof.
  intros Hg. unfold Display.refresh. run_first. cbn [id]. rewrite Hg. cbn [negb]. run_first.
  destruct_paints graphics_point windowed
    (fun (p : Z * Z) y => exists x, 0 <= x < 320 /\ exists i, 0 <= i < 2 /\ (x * 2 + i, y) = p) w H1 H2 H5.
  - intros y Hy. apply (paints_loop _ _ (fun p x => exists i, 0 <= i < 2 /\ (x * 2 + i, y) = p)); [done|].
    intros x Hx. apply paints_read. intros w0 s ->. cbn [id]. cbv beta zeta.
    apply (paints_loop _ _ (fun p i => (x * 2 + i, y) = p)); [done|]. intros i Hi.
    apply paints_draw. unfold graphics_point. cbn [fst snd].
    by replace ((x * 2 + i) / 2) with x by zlia.
  - exists w. split; [exact H1|]. intros x y Hx Hy. apply painted_at; [exact H2|apply H5].
    exists y. split; [done|]. exists (x / 2). split; [zlia|]. exists (x mod 2). split; [zlia|]. f_equal. zlia.
Qed.

Variable cursor : Cursor.

(** The point [(x, y)] of the characters that the display has. *)
Definition character_point (p : Z * Z) : color :=
  let (x, y) := p in
  let ch := default 0 (Display.characters d !! Display.cell (y / 8) (x / 8)) in
  if xorb (font_point (Display.font_bitmap d) ch (y mod 8) (x mod 8)) (is_active_at cursor y x)
  then cga_full_palette !!! Z.to_nat ((ch .>> 8) .& 0xf)
  else cga_full_palette !!! Z.to_nat ((ch .>> 12) .& 0xf).

Lemma swap_colours {A} (p r : bool) (a b : A) :
  (if (p && negb r) || (negb p && r) then a else b) = if xorb p r then a else b.
Proof. by destruct p, r. Qed.

Lemma in_eight a i : 0 <= i < 8 -> (a * 8 + i) / 8 = a /\ (a * 8 + i) mod 8 = i.
Proof. zlia. Qed.

Lemma refresh_text_eq :
  Display.is_graphics d = false ->
  exists w, Display.refresh_text cursor d = Ok tt (Display.put_window w d) /\
    forall x y, 0 <= x < 640 -> 0 <= y < 200 -> w !! (x, y) = Some (character_point (x, y)).
Proof.
  intros Hg. unfold Display.refresh_text. run_first. cbn [id]. rewrite Hg. run_first.
  destruct_paints character_point windowed (fun (p : Z * Z) y => exists x, 0 <= x < 80 /\
    exists i, 0 <= i < 8 /\ exists j, 0 <= j < 8 /\ (x * 8 + j, y * 8 + i) = p) w H1 H2 H5.
  - intros y Hy. apply (paints_loop _ _ (fun p x => exists i, 0 <= i < 8 /\
      exists j, 0 <= j < 8 /\ (x * 8 + j, y * 8 + i) = p)); [done|].
    intros x Hx. apply paints_read. intros w0 s ->. cbn [id]. cbv beta zeta.
    apply (paints_loop _ _ (fun p i => exists j, 0 <= j < 8 /\ (x * 8 + j, y * 8 + i) = p)); [done|].
    intros i Hi. apply (paints_loop _ _ (fun p j => (x * 8 + j, y * 8 + i) = p)); [done|]. intros j Hj.
    set (ch := default 0 _). destruct (colour_of (ch .>> 8)) as (fg & -> & Ef).
    destruct (colour_of (ch .>> 12)) as (bg & -> & Eb). apply paints_draw.
    destruct (in_eight x j Hj) as [X1 X2]. destruct (in_eight y i Hi) as [Y1 Y2].
    unfold character_point. rewrite X1, X2, Y1, Y2. fold ch. rewrite swap_colours, Ef, Eb.
    unfold font_point. rewrite (nz_land_bit _ _ (8 - j)), low_byte; [done|lia|].
    by rewrite Z.shiftl_1_l.
  - exists w. split; [exact H1|]. intros x y Hx Hy. apply painted_at; [exact H2|apply H5].
    exists (y / 8). split; [unfold Display.num_rows; zlia|]. exists (x / 8). split; [zlia|].
    exists (y mod 8). split; [zlia|]. exists (x mod 8). split; [zlia|]. f_equal; zlia.
Qed.
End screen.

(** ** Reading the memory *)

Section update.
#[local] Set Default Proof Using "Type*".
Context {CFG : Config}.
Variable mem : Memory.t.
Hypothesis Hmem : Memory.wf mem.

Lemma mem_read_byte a s :
  0 <= a < Memory.MEMORY_SIZE -> CGA.mem_read mem uint8_t a s = Ok (Memory.byte_at mem a) s.
Proof.
  intros Ha. pose proof (Memory.byte_at_range mem a Hmem) as Hb.
  assert (u32 a = a) as Eu by (apply cast_id; revert Ha; unfold Memory.MEMORY_SIZE; cpp_lia).
  unfold CGA.mem_read. rewrite Eu, Memory.read_Some by (cbn; lia). cbn [from_option].
  change (Z.to_nat (sizeof uint8_t)) with 1%nat. cbn [Memory.load].
  rewrite cast_id by cpp_lia. unfold mret, M_ret. f_equal. lia.
Qed.

Lemma mem_read_word a s :
  0 <= a < Memory.MEMORY_SIZE - 1 -> CGA.mem_read mem uint16_t a s = Ok (Memory.load 2 mem a) s.
Proof.
  intros Ha. pose proof (Memory.load_range 2 mem a Hmem) as Hb.
  assert (u32 a = a) as Eu by (apply cast_id; revert Ha; unfold Memory.MEMORY_SIZE; cpp_lia).
  unfold CGA.mem_read. rewrite Eu, Memory.read_Some by (cbn; lia). cbn [from_option].
  change (Z.to_nat (sizeof uint16_t)) with 2%nat. rewrite cast_id by (rewrite in_u16; exact Hb). done.
Qed.

(** [s] with pixels, or characters and a cursor, over those it has. *)
Definition with_pixels (w : gmap (Z * Z) Z) (s : CGA.t) : CGA.t :=
  let d := CGA.display s in
  CGA.set_display (Display.mk (Display.row d) (Display.col d) (Display.characters d) (Display.font_bitmap d)
    (w ∪ Display.pixels d) (Display.is_graphics d) (Display.graphics_palette d) (Display.window d)) s.

Definition pixelled (s : CGA.t) (w : gmap (Z * Z) Z) (s' : CGA.t) : Prop := s' = with_pixels w s.

Lemma paints_pixel s spec row col v :
  s8 v = spec (row, col) ->
  paints spec (pixelled s) (eq (row, col)) (CGA.on_display (modify (Display.set_pixel row col v))).
Proof.
  intros E. apply paints_one. intros w s' ->. eexists. split; [reflexivity|].
  unfold pixelled, with_pixels, CGA.set_display. destruct s; cbn. f_equal.
  unfold Display.set_pixel, Display.put_pixel; cbn. f_equal. by rewrite insert_union_l, E.
Qed.

Lemma with_pixels_empty s : with_pixels ∅ s = s.
Proof. unfold with_pixels. rewrite map_empty_union. by destruct s as [[]]. Qed.

Definition on_grid (rows cols : Z) (p : Z * Z) : Prop := 0 <= fst p < rows /\ 0 <= snd p < cols.

(** A loop over rows and columns that sets the pixel to what it reads. *)
Lemma fill_pixels s (g : Z -> Z -> M CGA.t unit) spec :
  (forall row col, 0 <= row < 200 -> 0 <= col < 320 ->
    paints spec (pixelled s) (eq (row, col)) (g row col)) ->
  exists w, for_loop 200 (fun row => for_loop 320 (g row)) s = Ok tt (with_pixels w s) /\
    forall row col, 0 <= row < 200 -> 0 <= col < 320 -> w !! (row, col) = Some (spec (row, col)).
Proof.
  intros Hg.
  destruct (paints_loop spec (pixelled s) (fun p row => exists col, 0 <= col < 320 /\ (row, col) = p)
    200 (fun row => for_loop 320 (g row)) ltac:(done)) with (w := ∅ : gmap (Z * Z) Z) (s := s)
    as (w & s' & H1 & H2 & -> & _ & H5).
  - intros row Hrow. apply (paints_loop _ _ (fun p col => (row, col) = p)); [done|].
    intros col Hcol. by apply Hg.
  - apply map_Forall_empty.
  - by unfold pixelled; rewrite with_pixels_empty.
  - exists w. split; [done|]. intros row col Hr Hc. apply painted_at; [done|]. apply H5. by exists row; split; [|exists col].
Qed.

Definition with_characters (r c : Z) (w : gmap Z Z) (s : CGA.t) : CGA.t :=
  let d := CGA.display s in
  CGA.set_display (Display.mk r c (w ∪ Display.characters d) (Display.font_bitmap d)
    (Display.pixels d) (Display.is_graphics d) (Display.graphics_palette d) (Display.window d)) s.

Definition lettered (s : CGA.t) (w : gmap Z Z) (s' : CGA.t) : Prop :=
  exists r c, s' = with_characters r c w s.

Lemma write_char_eq v d :
  exists r c, Display.write_char v d =
    Display.mk r c (<[Display.cell (Display.row d) (Display.col d) := u16 v]> (Display.characters d))
      (Display.font_bitmap d) (Display.pixels d) (Display.is_graphics d) (Display.graphics_palette d)
      (Display.window d).
Proof.
  unfold Display.write_char. cbv zeta.
  destruct (Display.col _ =? _), (Display.row _ =? _); by do 2 eexists.
Qed.

Lemma paints_character s spec row col v :
  0 <= row < 25 -> 0 <= col < 80 -> u16 v = spec (Display.cell row col) ->
  paints spec (lettered s) (eq (Display.cell row col))
    (CGA.on_display (modify (Display.set_cursor row col)) ;;
     CGA.on_display (modify (Display.write_char v))).
Proof.
  intros Hr Hc E. apply paints_one. intros w s' (r & c & ->). eexists. split; [reflexivity|].
  destruct (write_char_eq v (Display.set_cursor row col (CGA.display (with_characters r c w s))))
    as (r' & c' & Ew).
  exists r', c'. unfold with_characters, CGA.set_display in *. cbn [CGA.display] in *. rewrite Ew, E.
  cbn [Display.set_cursor Display.put_cursor Display.row Display.col Display.characters].
  rewrite (cast_id uint32_t row), (cast_id uint32_t col), insert_union_l by cpp_lia. done.
Qed.

Definition cell_text (k : Z) : Z := text_cell mem (k / 81) (k mod 81).

Lemma cell_text_at row col : 0 <= col < 80 -> cell_text (Display.cell row col) = text_cell mem row col.
Proof.
  intros Hc. unfold cell_text, Display.cell, Display.num_cols.
  replace ((row * (80 + 1) + col) / 81) with row by zlia.
  by replace ((row * (80 + 1) + col) mod 81) with col by zlia.
Qed.

Lemma fill_characters s :
  exists r c w, for_loop 25 (fun row => for_loop 80 (fun col =>
      char_attr ← CGA.mem_read mem uint16_t (CGA.buffer_phys + (row * 80 + col) * sizeof uint16_t) ;
      CGA.on_display (modify (Display.set_cursor row col)) ;;
      CGA.on_display (modify (Display.write_char char_attr)))) s = Ok tt (with_characters r c w s) /\
    forall row col, 0 <= row < 25 -> 0 <= col < 80 ->
      w !! Display.cell row col = Some (text_cell mem row col).
Proof.
  lazymatch goal with |- context [for_loop 25 ?g] =>
    destruct (paints_loop cell_text (lettered s)
      (fun p row => exists col, 0 <= col < 80 /\ Display.cell row col = p) 25 g ltac:(done))
      with (w := ∅ : gmap Z Z) (s := s) as (w & s' & H1 & H2 & (r & c & ->) & _ & H5)
  end.
  - intros row Hrow. apply (paints_loop _ _ (fun p col => Display.cell row col = p)); [done|].
    intros col Hcol w s' Hw Hs.
    unfold mbind at 1, M_bind at 1. change (sizeof uint16_t) with 2.
    rewrite mem_read_word by (unfold CGA.buffer_phys, Memory.MEMORY_SIZE; lia).
    apply (paints_character s cell_text row col); [done..| |done|done].
    rewrite cast_id by (rewrite in_u16; exact (Memory.load_range 2 mem _ Hmem)).
    rewrite cell_text_at by done. unfold text_cell, CGA.buffer_phys. f_equal. lia.
  - apply map_Forall_empty.
  - exists (Display.row (CGA.display s)), (Display.col (CGA.display s)).
    unfold with_characters. rewrite map_empty_union. by destruct s as [[]].
  - exists r, c, w. split; [done|]. intros row col Hr Hc.
    rewrite <- cell_text_at by done. apply painted_at; [done|]. apply H5.
    exists row. split; [exact Hr|]. exists col. split; [exact Hc|reflexivity].
Qed.

(** ** The bits of the memory *)

Lemma graphics_address row col :
  0 <= row < 200 -> 0 <= col < 320 ->
  let a := Z.quot (Z.quot row 2 * 320 + col) 4 in
  CGA.buffer_phys + (if nz (Z.rem row 2) then a + 8192 else a) =
    0xb8000 + row mod 2 * 8192 + row / 2 * 80 + col / 4.
Proof.
  intros Hr Hc. unfold CGA.buffer_phys. rewrite (Z.quot_div_nonneg row), Z.rem_mod_nonneg by lia.
  rewrite Z.quot_div_nonneg by zlia. unfold nz. cbv zeta. zcmp; cbn [negb]; zlia.
Qed.

Lemma graphics_bits b col :
  0 <= b < 256 -> 0 <= col < 320 ->
  s8 (u8 (u8 (b .>> ((3 - Z.rem col 4) * 2)) .& 0x3)) = (b / 2 ^ (2 * (3 - col mod 4))) mod 4.
Proof.
  intros Hb Hc. rewrite Z.rem_mod_nonneg by lia. pose proof (Z.mod_pos_bound col 4) as Hm.
  rewrite Z.shiftr_div_pow2, (Z.mul_comm _ 2) by lia. set (n := 2 ^ _).
  assert (0 < n) by (apply Z.pow_pos_nonneg; lia).
  assert (0 <= b / n < 256) by (split; [apply Z.div_pos; lia|]; apply Z.div_lt_upper_bound; nia).
  rewrite (cast_id uint8_t (b / n)) by cpp_lia. rewrite (land_mask 2) by done.
  change (2 ^ 2) with 4. cpp_lia.
Qed.

(** ** The three modes *)

(** The screen is a graphics picture, or the display's assertion fails. *)
Definition picture (f : M CGA.t unit) (s : CGA.t) (spec : Z -> Z -> Z) : Prop :=
  if Display.is_graphics (CGA.display s) then
    exists s', f s = Ok tt s' /\ CGA.set_display (CGA.display s) s' = s /\
      forall x y, 0 <= x < 640 -> 0 <= y < 200 -> Display.window (CGA.display s') !! (x, y) =
        Some (palette_at (Display.graphics_palette (CGA.display s)) (spec y (x / 2)))
  else f s = Err DeviceError.

Lemma refresh_filled s (g : Z -> Z -> M CGA.t unit) spec :
  (forall row col, 0 <= row < 200 -> 0 <= col < 320 ->
    paints (fun p => s8 (spec (fst p) (snd p))) (pixelled s) (eq (row, col)) (g row col) /\
    0 <= spec row col < 256) ->
  picture (for_loop 200 (fun row => for_loop 320 (g row)) ;; CGA.on_display Display.refresh) s spec.
Proof.
  intros Hg.
  destruct (fill_pixels s g _ (fun row col Hr Hc => proj1 (Hg row col Hr Hc))) as (w & E & Hw).
  unfold picture, mbind, M_bind. rewrite E. unfold CGA.on_display.
  case_match eqn:Hd.
  - destruct (refresh_eq (CGA.display (with_pixels w s)) Hd) as (w' & -> & Hw').
    eexists. split; [reflexivity|]. split; [by destruct s|]. intros x y Hx Hy. cbn. rewrite Hw' by done.
    unfold graphics_point, Display.get_graphics_color. cbn [fst snd].
    unfold with_pixels, CGA.set_display. cbn.
    erewrite lookup_union_Some_l; [|apply Hw; [exact Hy|zlia]]. cbn [default fst snd].
    destruct (Hg y (x / 2) Hy ltac:(zlia)) as [_ Hs]. f_equal. f_equal. unfold id. cpp_lia.
  - unfold Display.refresh, mbind, M_bind, gets. cbn. by rewrite Hd.
Qed.

Lemma graphics_256_picture s : picture (CGA.update_graphics_256 mem) s (graphics_256_pixel mem).
Proof.
  apply (refresh_filled s). intros row col Hr Hc. split.
  - intros w s' Hw Hs. unfold mbind, M_bind.
    rewrite mem_read_byte by (unfold CGA.vga_buffer_phys, Memory.MEMORY_SIZE; lia).
    apply (paints_pixel s _ row col); [|done..]. cbn [fst snd]. unfold graphics_256_pixel, CGA.vga_buffer_phys.
    by rewrite Z.add_assoc.
  - apply Memory.byte_at_range, Hmem.
Qed.

Lemma graphics_picture s : picture (CGA.update_graphics mem) s (graphics_pixel mem).
Proof.
  apply (refresh_filled s). intros row col Hr Hc.
  pose proof (Memory.byte_at_range mem (0xb8000 + row mod 2 * 8192 + row / 2 * 80 + col / 4) Hmem).
  split; [|unfold graphics_pixel; zlia].
  intros w s' Hw Hs. cbv zeta. unfold mbind, M_bind.
  rewrite graphics_address by done.
  rewrite mem_read_byte by (unfold Memory.MEMORY_SIZE; zlia).
  apply (paints_pixel s _ row col); [|done..]. cbn [fst snd]. rewrite graphics_bits by done.
  unfold graphics_pixel. cpp_lia.
Qed.

Lemma text_screen s :
  Display.is_graphics (CGA.display s) = false ->
  exists s', CGA.update_text mem s = Ok tt s' /\ CGA.set_display (CGA.display s) s' = s /\
    forall x y, 0 <= x < 640 -> 0 <= y < 200 -> Display.window (CGA.display s') !! (x, y) =
      Some (text_point mem (Display.font_bitmap (CGA.display s)) (CGA.get_cursor s) x y).
Proof.
  intros Hd. destruct (fill_characters s) as (r & c & w & E & Hw).
  unfold CGA.update_text. unfold mbind at 1, M_bind at 1. rewrite E. run_first. cbn [id].
  unfold CGA.on_display.
  destruct (refresh_text_eq (CGA.display (with_characters r c w s))
    (CGA.get_cursor (with_characters r c w s)) Hd) as (w' & -> & Hw').
  eexists. split; [reflexivity|]. split; [by destruct s|]. intros x y Hx Hy. cbn. rewrite Hw' by done.
  unfold character_point, text_point. unfold with_characters at 1 2, CGA.set_display at 1 2. cbn.
  erewrite lookup_union_Some_l; [|apply Hw; zlia]. cbn [default].
  pose proof (Memory.load_range 2 mem (0xb8000 + 2 * (y / 8 * 80 + x / 8)) Hmem) as Hb.
  fold (text_cell mem (y / 8) (x / 8)) in Hb. set (ch := text_cell _ _ _) in *. unfold id.
  change (256 ^ Z.of_nat 2) with 65536 in Hb. change 0xf with 15.
  rewrite !(land_mask 4) by done. rewrite !Z.shiftr_div_pow2 by lia.
  change (2 ^ 8) with 256. change (2 ^ 12) with 4096. change (2 ^ 4) with 16.
  by rewrite (Z.mod_small (ch / 4096)) by zlia.
Qed.
End update.

Lemma frame_display d s s' :
  CGA.set_display (CGA.display (CGA.set_display d s)) s' = CGA.set_display d s ->
  CGA.set_display (CGA.display s) s' = s.
Proof. destruct s, s'. unfold CGA.set_display. cbn. by intros [= -> -> -> -> -> -> -> -> ->]. Qed.

(** ** The claim *)

(** C37. Showing the memory: an update of the adapter fails exactly when it is
    in 256 colours with the graphics bit clear (the display's assertion), and
    otherwise every point of the 640 x 200 screen has the colour that the CPU's
    memory gives it in the mode that is set, the reads staying inside the RAM:
    a byte at 0xa0000 for each two points, two bits of the interlaced buffer at
    0xb8000, or a point of the font's picture of the character there, in its
    two colours, swapped under the cursor. No register of the adapter changes. *)
Theorem cga_shows_memory {CFG : Config} mem s :
  Memory.wf mem ->
  if CGA.is_graphics_256 s && negb (CGA.is_graphics s)
  then CGA.update mem s = Err DeviceError
  else exists s', CGA.update mem s = Ok tt s' /\ CGA.set_display (CGA.display s) s' = s /\
    forall x y, 0 <= x < 640 -> 0 <= y < 200 ->
      Display.window (CGA.display s') !! (x, y) = Some (shown mem s x y).
Proof.
  intros Hm. set (s1 := CGA.set_display (Display.set_graphics (CGA.is_graphics s) (CGA.display s)) s).
  change (CGA.update mem s) with ((if CGA.is_graphics_256 s then CGA.update_graphics_256 mem
    else if CGA.is_graphics s then CGA.update_graphics mem else CGA.update_text mem) s1).
  pose proof (graphics_256_picture mem Hm s1) as H256. pose proof (graphics_picture mem Hm s1) as H4.
  pose proof (text_screen mem Hm s1) as Ht. unfold picture in H256, H4. unfold shown.
  change (Display.is_graphics (CGA.display s1)) with (CGA.is_graphics s) in *.
  destruct (CGA.is_graphics_256 s), (CGA.is_graphics s); cbn [andb negb];
    [destruct H256 as (s' & H1 & H2 & H3)|exact H256|destruct H4 as (s' & H1 & H2 & H3)
    |destruct (Ht eq_refl) as (s' & H1 & H2 & H3)];
    exists s'; (split; [exact H1|]); (split; [exact (frame_display _ _ _ H2)|exact H3]).
Qed.

(** The adapter as it is made, text mode, on memory with a white-on-blue A in
    the top left corner: the corner is the background, as the font is blank. *)
Lemma cga_shows_memory_witness :
  let CFG := default_config in
  let mem := Memory.set_byte (Memory.set_byte (Memory.create false) 0xb8000 0x41) 0xb8001 0x1f in
  let s := CGA.create (Display.create [] (palette_of []) ∅) 0 (palette_of []) in
  exists s', CGA.update mem s = Ok tt s' /\
    Display.window (CGA.display s') !! (639, 199) = Some (shown mem s 639 199).
Proof.
  intros CFG mem s.
  pose proof (cga_shows_memory mem s) as H. cbn [CGA.is_graphics_256 CGA.attribute_mode_control] in H.
  destruct H as (s' & H1 & _ & H3); [apply Memory.wf_set_byte; [apply Memory.wf_set_byte|..]; done|].
  exists s'. split; [exact H1|]. apply H3; lia.
Defined.
