(* ===== verification/Simulator.v ===== *)
(** * The whole machine: [sim/Simulator.cpp]

    The CPU object with every device on its ports. SDL, the terminal and the
    file system are outside: what they deliver is an argument. *)
From S2P Require Import Prelude Config MainMemory Registers ErrorState IOPorts Machine SimCPU SoftwareCPU.
From S2P Require Import PIC PS2 Timer UART SPI Display CGA.

Module SDRAMConfigRegister.
Definition get_base : Z := 0xfffc.
Definition get_num_ports : Z := 1.
Section sdram.
Context {S : Type}.
Definition write8 (port_num offs v : Z) : M S unit := mret ().
Definition read8 (port_num offs : Z) : M S Z := mret (if offs =? 0 then 0x1 else 0).
End sdram.
End SDRAMConfigRegister.

(** ** The members of the simulator besides the CPU *)

Record devices := mk_devices {
  pic : PIC.t;
  uart : UART.t;
  spi : SPI.t;
  timer : TimerTick.t;
  cga : CGA.t;
  kbd : PS2.t;
  mouse : Mouse.t;
  got_exit : bool;
  last_cycle : Z;
}.

Definition set_pic (x : PIC.t) (d : devices) : devices :=
  mk_devices x (uart d) (spi d) (timer d) (cga d) (kbd d) (mouse d) (got_exit d) (last_cycle d).
Definition set_uart (x : UART.t) (d : devices) : devices :=
  mk_devices (pic d) x (spi d) (timer d) (cga d) (kbd d) (mouse d) (got_exit d) (last_cycle d).
Definition set_spi (x : SPI.t) (d : devices) : devices :=
  mk_devices (pic d) (uart d) x (timer d) (cga d) (kbd d) (mouse d) (got_exit d) (last_cycle d).
Definition set_timer (x : TimerTick.t) (d : devices) : devices :=
  mk_devices (pic d) (uart d) (spi d) x (cga d) (kbd d) (mouse d) (got_exit d) (last_cycle d).
Definition set_cga (x : CGA.t) (d : devices) : devices :=
  mk_devices (pic d) (uart d) (spi d) (timer d) x (kbd d) (mouse d) (got_exit d) (last_cycle d).
Definition set_kbd (x : PS2.t) (d : devices) : devices :=
  mk_devices (pic d) (uart d) (spi d) (timer d) (cga d) x (mouse d) (got_exit d) (last_cycle d).
Definition set_mouse (x : Mouse.t) (d : devices) : devices :=
  mk_devices (pic d) (uart d) (spi d) (timer d) (cga d) (kbd d) x (got_exit d) (last_cycle d).
Definition set_got_exit (x : bool) (d : devices) : devices :=
  mk_devices (pic d) (uart d) (spi d) (timer d) (cga d) (kbd d) (mouse d) x (last_cycle d).
Definition set_last_cycle (x : Z) (d : devices) : devices :=
  mk_devices (pic d) (uart d) (spi d) (timer d) (cga d) (kbd d) (mouse d) (got_exit d) (u64 x).

(** A method of one of the members. *)
Definition on_member {B A} (get : devices -> B) (set : B -> devices -> devices) (f : M B A) : M devices A :=
  fun d => match f (get d) with Ok a b => Ok a (set b d) | Err e => Err e end.

(** A method of a member that uses the interrupt controller. *)
Definition with_pic {B A} (get : devices -> B) (set : B -> devices -> devices) (f : M (PIC.t * B) A) :
    M devices A :=
  fun d => match f (pic d, get d) with Ok a (p, b) => Ok a (set b (set_pic p d)) | Err e => Err e end.

(** ** The devices on the bus *)

(** A method that raises no interrupt. *)
Definition quietly {A} (f : M devices A) : M devices (A * list Z) := a ← f ; mret (a, []).

(** The pointers that the constructor gives to [add_ioport], in its order. *)
Definition devices_in_order : list ioport := [0; 1; 2; 3; 4; 5; 6; 7]%nat.

Definition sim_get_base (p : ioport) : Z :=
  match p with
  | 0%nat => SDRAMConfigRegister.get_base | 1%nat => UART.get_base | 2%nat => SPI.get_base
  | 3%nat => TimerTick.get_base | 4%nat => CGA.get_base | 5%nat => Keyboard.get_base
  | 6%nat => PIC.get_base | 7%nat => Mouse.get_base | _ => 0
  end.

Definition sim_get_num_ports (p : ioport) : Z :=
  match p with
  | 0%nat => SDRAMConfigRegister.get_num_ports | 1%nat => UART.get_num_ports | 2%nat => SPI.get_num_ports
  | 3%nat => TimerTick.get_num_ports | 4%nat => CGA.get_num_ports | 5%nat => Keyboard.get_num_ports
  | 6%nat => PIC.get_num_ports | 7%nat => Mouse.get_num_ports | _ => 0
  end.

Section bus.
Context {CFG : Config}.

Definition bus_read8 (p : ioport) (port_num offs : Z) : M devices (Z * list Z) :=
  match p with
  | 0%nat => quietly (SDRAMConfigRegister.read8 port_num offs)
  | 1%nat => quietly (on_member uart set_uart (UART.read8 port_num offs))
  | 2%nat => quietly (on_member spi set_spi (SPI.read8 port_num offs))
  | 3%nat => quietly (on_member timer set_timer (TimerTick.read8 port_num offs))
  | 4%nat => quietly (on_member cga set_cga (CGA.read8 port_num offs))
  | 5%nat => quietly (on_member kbd set_kbd (PS2.read8 Keyboard.read_pops port_num offs))
  | 6%nat => quietly (on_member pic set_pic (PIC.read8 port_num offs))
  | 7%nat => quietly (with_pic mouse set_mouse (Mouse.read8 port_num offs))
  | _ => throw DeviceError
  end.

Definition bus_write8 (p : ioport) (port_num offs v : Z) : M devices (list Z) :=
  match p with
  | 0%nat => snd <$> quietly (SDRAMConfigRegister.write8 port_num offs v)
  | 1%nat => snd <$> quietly (on_member uart set_uart (UART.write8 port_num offs v))
  | 2%nat => snd <$> quietly (on_member spi set_spi (SPI.write8 port_num offs v))
  | 3%nat => snd <$> quietly (on_member timer set_timer (TimerTick.write8 port_num offs v))
  | 4%nat => snd <$> quietly (on_member cga set_cga (CGA.write8 port_num offs v))
  | 5%nat => snd <$> quietly (on_member kbd set_kbd (PS2.write8 port_num offs v))
  | 6%nat => snd <$> quietly (on_member pic set_pic (PIC.write8 port_num offs v))
  | 7%nat => with_pic mouse set_mouse (Mouse.write8 port_num offs v)
  | _ => throw DeviceError
  end.

(** [UART] and [SPI] override the word accesses. *)
Definition bus_read16 (p : ioport) (port_num : Z) : M devices (Z * list Z) :=
  match p with
  | 1%nat => quietly (on_member uart set_uart (UART.read16 port_num))
  | 2%nat => quietly (on_member spi set_spi (SPI.read16 port_num))
  | _ => default_read16 (bus_read8 p) port_num
  end.

Definition bus_write16 (p : ioport) (port_num v : Z) : M devices (list Z) :=
  match p with
  | 1%nat => snd <$> quietly (on_member uart set_uart (UART.write16 port_num v))
  | 2%nat => snd <$> quietly (on_member spi set_spi (SPI.write16 port_num v))
  | _ => default_write16 (bus_write8 p) port_num v
  end.

#[export] Instance simulator_bus : IOPorts devices := {|
  get_base := sim_get_base;
  get_num_ports := sim_get_num_ports;
  ioport_read8 := bus_read8;
  ioport_read16 := bus_read16;
  ioport_write8 := bus_write8;
  ioport_write16 := bus_write16;
  inta_handler irq_num := on_member pic set_pic (PIC.inta_handler irq_num);
|}.

(** ** The constructor *)

Abbreviation sim_method := (method (D := devices)).

(** What the constructors find: the files, and the members they leave as they are. *)
Record environment := mk_environment {
  bios_file : option (list Z);          (** [None]: the file does not open *)
  disk_file : Disk.t;
  font_file : list Z;
  garbage_v : Z;                        (** [char v] of [load_bios] *)
  garbage_pic_vector : Z;
  garbage_spi_count : Z;
  garbage_pixels : gmap (Z * Z) Z;
  garbage_palette : GraphicsPalette;
  garbage_dac : GraphicsPalette;
  garbage_attribute : Z;
  garbage_mem_written : bool;
  garbage_modrm : ModRMState;
  garbage_segment : GPR;
  garbage_cycles : Z;
}.

(** The devices as their constructors make them; [Keyboard]'s is run after. *)
Definition create_devices (env : environment) : devices :=
  mk_devices (PIC.create (garbage_pic_vector env)) UART.create
    (SPI.create (disk_file env) (garbage_spi_count env)) TimerTick.create
    (CGA.create (Display.create (font_file env) (garbage_palette env) (garbage_pixels env))
       (garbage_attribute env) (garbage_dac env))
    PS2.create Mouse.create false 0.

(** The loop of [load_bios]: a read past the last byte sets [eof] and leaves
    [v]; a file that did not open never sets it. *)
Fixpoint load_bios_loop (fuel : nat) (file : option (list Z)) (v offs : Z) : sim_method unit :=
  match fuel with
  | O => throw OutOfFuel
  | S fuel =>
      match file with
      | Some (b :: rest) => write_mem8 0xfc00 offs b ;; load_bios_loop fuel (Some rest) b (u32 (offs + 1))
      | Some [] => write_mem8 0xfc00 offs v
      | None => write_mem8 0xfc00 offs v ;; load_bios_loop fuel None v (u32 (offs + 1))
      end
  end.

Definition load_bios (fuel : nat) (bios : option (list Z)) (v : Z) : sim_method unit :=
  load_bios_loop fuel bios v 0 ;;
  write_mem8 0xf000 0xfffe 0xff ;;
  write_mem8 0xf000 0x0002 0xff ;;
  write_mem8 0xf000 0x0000 8 ;;
  write_reg CS 0xffff ;;
  write_reg IP 0x0000.

Fixpoint add_ioports (l : list ioport) : sim_method unit :=
  match l with [] => mret () | p :: l => add_ioport p ;; add_ioports l end.

(** [Simulator::Simulator]. *)
Definition construct (fuel : nat) (env : environment) : sim_method unit :=
  on_pimpl (call_device (with_pic kbd set_kbd Keyboard.create) id) ;;
  add_ioports devices_in_order ;;
  cpu_reset ;;
  load_bios fuel (bios_file env) (garbage_v env).

Definition Simulator_create (fuel : nat) (env : environment) : outcome (cpu devices) unit :=
  construct fuel env
    (SoftwareCPU_create (garbage_mem_written env) (garbage_modrm env) (garbage_segment env)
       (garbage_cycles env) (create_devices env)).

(** ** Running *)

(** [SDL_PollEvent]'s event. *)
Inductive sdl_event :=
  | SDL_QUIT
  | SDL_KEY (up : bool) (sym : Keyboard.keycode)
  | SDL_MOUSEBUTTON (down : bool) (b : Mouse.button)
  | SDL_OTHER.

(** What the terminal and SDL give to one [process_io]: the key typed, the
    event, the mouse's position, and the two key chords. *)
Record io_input := mk_input {
  stdin_char : option Z;
  event : option sdl_event;
  mouse_pos : Z * Z;
  exit_chord : bool;
  capture_chord : bool;
}.

Definition process_event (e : option sdl_event) : M devices (list Z) :=
  match e with
  | Some SDL_QUIT => modify (set_got_exit true) ;; mret []
  | Some (SDL_KEY up sym) => with_pic kbd set_kbd (Keyboard.process_event sym up)
  | Some (SDL_MOUSEBUTTON down b) => with_pic mouse set_mouse (Mouse.process_event down b)
  | Some SDL_OTHER | None => mret []
  end.

Definition process_io (inp : io_input) : M devices (list Z) :=
  (match stdin_char inp with
   | Some c =>
       if c =? 0x1d then modify (set_got_exit true)
       else on_member uart set_uart (UART.add_char c)
   | None => mret ()
   end) ;;
  i1 ← process_event (event inp) ;
  i2 ← with_pic mouse set_mouse (Mouse.update (fst (mouse_pos inp)) (snd (mouse_pos inp))) ;
  (if exit_chord inp then modify (set_got_exit true) else mret ()) ;;
  (if capture_chord inp then on_member mouse set_mouse Mouse.toggle_capture else mret ()) ;;
  mret (i1 ++ i2).

Definition cga_update : emu devices unit :=
  m ← gets mem ;
  call_device (on_member cga set_cga (CGA.update m)) (fun _ => []).

Definition io_callback (inp : io_input) (cycle_num : Z) : emu devices unit :=
  (if cycle_num mod 1000000 =? 0 then cga_update else mret ()) ;;
  (if cycle_num mod 1000 =? 0 then call_device (process_io inp) id ;; mret () else mret ()) ;;
  d ← gets devs ;
  call_device
    (with_pic timer set_timer (TimerTick.tick (u32 (u64 (u64 (cycle_num - last_cycle d) + 1))))) id ;;
  call_device (modify (set_last_cycle cycle_num)) (fun _ => []).

(** One turn of the loop of [run]; [trace_insn] only prints. *)
Definition run_turn (detached : bool) (fuel : nat) (inp : io_input) : sim_method unit :=
  if detached then cycle_cpu_with_io (io_callback inp)
  else
    read_reg CS ;;
    read_reg IP ;;
    step_with_io (io_callback inp) fuel ;;
    mret ().

(** [run], for at most as many turns as there are inputs. *)
Fixpoint run_loop (detached : bool) (fuel : nat) (inputs : list io_input) : sim_method unit :=
  match inputs with
  | [] => mret ()
  | inp :: inputs =>
      d ← on_pimpl (gets devs) ;
      if got_exit d then mret ()
      else run_turn detached fuel inp ;; run_loop detached fuel inputs
  end.

Definition run (detached : bool) (fuel : nat) (inputs : list io_input) : sim_method unit :=
  (if detached then debug_detach else mret ()) ;;
  run_loop detached fuel inputs.

(** [trace_insn]: the bytes that it prints. *)
Definition trace_insn (cs ip : Z) (instr_len : nat) : sim_method (list Z) := read_vector8 cs ip instr_len.

End bus.
