(* ===== verification/SimulatorProps.v ===== *)
(** * The whole machine: every device stops with a device error only, the boot,
    every run *)
From S2P Require Import Prelude Config MainMemory Registers ErrorState IOPorts Machine ModRM Core.
From S2P Require Import Safety Decoder CoreSafe Stack DecoderProps Bench Emulate StepSafe StringProps.
From S2P Require Import SimCPU SoftwareCPU CPUProps PIC PS2 Timer UART SPI Display CGA CGAProps Simulator.

(** ** Errors of the devices *)

(** [f] returns, or stops with a device error. *)
Definition dev_safe {S A} (f : M S A) : Prop := forall s, wp f (fun _ _ => True) (eq DeviceError) s.

Section dev_safe.
Context {S : Type}.

Lemma dev_ret {A} (a : A) : dev_safe (S := S) (mret a).
Proof. done. Qed.
Lemma dev_throw {A} : dev_safe (S := S) (A := A) (throw DeviceError).
Proof. done. Qed.
Lemma dev_gets {A} (f : S -> A) : dev_safe (gets f).
Proof. done. Qed.
Lemma dev_modify (f : S -> S) : dev_safe (modify f).
Proof. done. Qed.
Lemma dev_bind {A B} (f : M S A) (g : A -> M S B) :
  dev_safe f -> (forall a, dev_safe (g a)) -> dev_safe (f ≫= g).
Proof. intros Hf Hg s. apply wp_bind. eapply wp_mono; [apply Hf|intros a s' _; apply Hg|done]. Qed.
Lemma dev_fmap {A B} (f : M S A) (g : A -> B) : dev_safe f -> dev_safe (g <$> f).
Proof. intros Hf s. apply wp_fmap. eapply wp_mono; [apply Hf|done|done]. Qed.
End dev_safe.

Lemma dev_on_pic {B A} (f : M PIC.t A) : dev_safe f -> dev_safe (on_pic (B := B) f).
Proof. intros Hf [p b]. specialize (Hf p). unfold wp, on_pic in *. cbn in *. by destruct (f p). Qed.
Lemma dev_on_self {P B A} (f : M B A) : dev_safe f -> dev_safe (on_self (P := P) f).
Proof. intros Hf [p b]. specialize (Hf b). unfold wp, on_self in *. cbn in *. by destruct (f b). Qed.
Lemma dev_on_ps2 {P A} (f : M (P * PS2.t) A) : dev_safe f -> dev_safe (Mouse.on_ps2 f).
Proof.
  intros Hf [p m]. specialize (Hf (p, Mouse.ps2 m)). unfold wp, Mouse.on_ps2 in *. cbn in *.
  by destruct (f _) as [a [? ?]|].
Qed.
Lemma dev_on_member {B A} get set (f : M B A) : dev_safe f -> dev_safe (on_member get set f).
Proof. intros Hf d. specialize (Hf (get d)). unfold wp, on_member in *. by destruct (f _). Qed.
Lemma dev_with_pic {B A} get set (f : M (PIC.t * B) A) : dev_safe f -> dev_safe (with_pic get set f).
Proof.
  intros Hf d. specialize (Hf (pic d, get d)). unfold wp, with_pic in *. by destruct (f _) as [a [? ?]|].
Qed.

Create HintDb dev.
#[export] Hint Resolve dev_ret dev_throw dev_gets dev_modify dev_fmap dev_on_pic dev_on_self dev_on_ps2
  dev_on_member dev_with_pic : dev.

(** Through the statements of a method, by cases on its conditions. *)
Ltac dev_auto :=
  cbv zeta;
  repeat first
    [ solve [auto 8 with dev]
    | apply dev_fmap || apply dev_on_member || apply dev_with_pic
    | apply dev_bind; [|intros ?]; cbv zeta
    | lazymatch goal with |- dev_safe (match ?x with _ => _ end) => destruct x end
    | progress unfold PIC.assert_device, TimerTick.assert_timer ].

Section devices.
Context {CFG : Config}.

Lemma pic_eoi_safe n i : dev_safe (PIC.eoi_loop n i).
Proof. revert i. induction n; intros i; cbn [PIC.eoi_loop]; dev_auto. Qed.
#[local] Hint Resolve pic_eoi_safe : dev.

Lemma pic_raise_safe n : dev_safe (PIC.raise_irq n).
Proof. unfold PIC.raise_irq. dev_auto. Qed.
#[local] Hint Resolve pic_raise_safe : dev.

Lemma pic_write_safe port offs v : dev_safe (PIC.write8 port offs v).
Proof.
  unfold PIC.write8, PIC.write_command, PIC.write_data, PIC.icw1, PIC.ocw2, PIC.ocw3, PIC.set_mask. dev_auto.
Qed.
Lemma pic_read_safe port offs : dev_safe (PIC.read8 port offs).
Proof. unfold PIC.read8, PIC.read_command, PIC.read_data. dev_auto. Qed.

Lemma ps2_add_safe irq v : dev_safe (PS2.add_byte irq v).
Proof. unfold PS2.add_byte. dev_auto. Qed.
#[local] Hint Resolve ps2_add_safe : dev.
Lemma ps2_read_safe pops port offs : dev_safe (PS2.read8 pops port offs).
Proof. unfold PS2.read8. dev_auto. Qed.
Lemma ps2_write_safe port offs v : dev_safe (PS2.write8 port offs v).
Proof. unfold PS2.write8. dev_auto. Qed.
#[local] Hint Resolve ps2_read_safe ps2_write_safe : dev.

Lemma kbd_send_safe codes up : dev_safe (Keyboard.send_codes codes up).
Proof. induction codes; cbn [Keyboard.send_codes]; unfold Keyboard.add_byte; dev_auto. Qed.
#[local] Hint Resolve kbd_send_safe : dev.
Lemma kbd_event_safe sym up : dev_safe (Keyboard.process_event sym up).
Proof. unfold Keyboard.process_event. dev_auto. Qed.

Lemma mouse_add_safe v : dev_safe (Mouse.add_byte v).
Proof. unfold Mouse.add_byte. dev_auto. Qed.
#[local] Hint Resolve mouse_add_safe : dev.
Lemma mouse_write_safe port offs v : dev_safe (Mouse.write8 port offs v).
Proof. unfold Mouse.write8. dev_auto. Qed.
Lemma mouse_update_safe x y : dev_safe (Mouse.update x y).
Proof. unfold Mouse.update, Mouse.poll_movement. dev_auto. Qed.
Lemma mouse_event_safe down b : dev_safe (Mouse.process_event down b).
Proof. unfold Mouse.process_event. dev_auto. Qed.

Lemma timer_assert_safe {S} b : dev_safe (S := S) (TimerTick.assert_timer b).
Proof. unfold TimerTick.assert_timer. dev_auto. Qed.
#[local] Hint Resolve timer_assert_safe : dev.
Lemma timer_write_safe port offs v : dev_safe (TimerTick.write8 port offs v).
Proof. unfold TimerTick.write8, TimerTick.write_mode, TimerTick.write_reload. dev_auto. Qed.
Lemma timer_read_safe port offs : dev_safe (TimerTick.read8 port offs).
Proof. unfold TimerTick.read8. dev_auto. Qed.
Lemma timer_tick_safe n : dev_safe (TimerTick.tick n).
Proof. unfold TimerTick.tick. dev_auto. Qed.

Lemma uart_read_safe port offs : dev_safe (UART.read8 port offs).
Proof. unfold UART.read8. dev_auto. Qed.
Lemma uart_write_safe port offs v : dev_safe (UART.write8 port offs v).
Proof. unfold UART.write8. dev_auto. Qed.

Lemma spi_transmit_safe : dev_safe SPI.transmit_ready.
Proof.
  unfold SPI.transmit_ready, SPI.read_block, SPI.write_block. dev_auto.
Qed.
#[local] Hint Resolve spi_transmit_safe : dev.
Lemma spi_transfer_safe v : dev_safe (SPI.transfer v).
Proof. unfold SPI.transfer. dev_auto. Qed.
#[local] Hint Resolve spi_transfer_safe : dev.
Lemma spi_write_safe port offs v : dev_safe (SPI.write8 port offs v).
Proof. unfold SPI.write8. dev_auto. Qed.
Lemma spi_read_safe port offs : dev_safe (SPI.read8 port offs).
Proof. unfold SPI.read8. dev_auto. Qed.

Lemma cga_write_safe port offs v : dev_safe (CGA.write8 port offs v).
Proof. unfold CGA.write8, CGA.write_dac, CGA.write_color_control. dev_auto. Qed.
Lemma cga_read_safe port offs : dev_safe (CGA.read8 port offs).
Proof. unfold CGA.read8, CGA.read_status. dev_auto. Qed.

#[local] Hint Resolve pic_write_safe pic_read_safe kbd_event_safe mouse_write_safe mouse_update_safe
  mouse_event_safe timer_write_safe timer_read_safe timer_tick_safe uart_read_safe uart_write_safe
  spi_write_safe spi_read_safe cga_write_safe cga_read_safe : dev.

Lemma bus_read8_safe p port offs : dev_safe (bus_read8 p port offs).
Proof.
  unfold bus_read8, quietly, SDRAMConfigRegister.read8, Mouse.read8.
  do 8 (destruct p as [|p]; [dev_auto|]). dev_auto.
Qed.

Lemma bus_write8_safe p port offs v : dev_safe (bus_write8 p port offs v).
Proof.
  unfold bus_write8, quietly, SDRAMConfigRegister.write8.
  do 8 (destruct p as [|p]; [dev_auto|]). dev_auto.
Qed.
#[local] Hint Resolve bus_read8_safe bus_write8_safe : dev.

#[export] Instance simulator_bus_safe : IOPortsSafe devices.
Proof.
  split; cbn [ioport_read8 ioport_read16 ioport_write8 ioport_write16 inta_handler simulator_bus].
  - apply bus_read8_safe.
  - intros p port. unfold bus_read16, default_read16, quietly, UART.read16, SPI.read16.
    do 3 (destruct p as [|p]; [dev_auto|]). dev_auto.
  - apply bus_write8_safe.
  - intros p port v. unfold bus_write16, default_write16, quietly, UART.write16, SPI.write16.
    do 3 (destruct p as [|p]; [dev_auto|]). dev_auto.
  - intros i. apply dev_on_member. unfold PIC.inta_handler. dev_auto.
Qed.

(** ** The port map *)

(** The device at each port, by [sim/Simulator.cpp]'s constructor and the bases
    of the devices. *)
Definition bus_port (a : Z) : option ioport :=
  if a =? 0xffe0 then Some 7%nat
  else if a =? 0x20 then Some 6%nat
  else if a =? 0x60 then Some 5%nat
  else if (0x3b4 <=? a) && (a <? 0x4b4) && (a mod 2 =? 0) then Some 4%nat
  else if (a =? 0x40) || (a =? 0x42) then Some 3%nat
  else if (a =? 0xfff0) || (a =? 0xfff2) then Some 2%nat
  else if a =? 0xfffa then Some 1%nat
  else if a =? 0xfffc then Some 0%nat
  else None.

Definition claims_port (p : ioport) (a : Z) : bool :=
  (sim_get_base p <=? a) && (a <? sim_get_base p + 2 * sim_get_num_ports p) &&
  ((a - sim_get_base p) mod 2 =? 0).

Lemma claims_port_spec p a :
  0 <= sim_get_base p -> sim_get_base p + 2 * sim_get_num_ports p <= 65536 ->
  claims (D := devices) p a <-> claims_port p a = true.
Proof.
  intros Hb Hn. unfold claims, claims_port. unfold IOPorts.get_base, IOPorts.get_num_ports, simulator_bus.
  split.
  - intros (i & Hi & ->). rewrite cast_id by cpp_lia.
    apply andb_true_iff; split; [apply andb_true_iff; split|]; zcmp; zlia || reflexivity.
  - intros H. apply andb_true_iff in H as [H H3]. apply andb_true_iff in H as [H1 H2].
    apply Z.leb_le in H1. apply Z.ltb_lt in H2. apply Z.eqb_eq in H3.
    exists ((a - sim_get_base p) / 2). split; [zlia|]. rewrite cast_id by cpp_lia. zlia.
Qed.

Lemma io_lookup p ports a :
  0 <= sim_get_base p -> sim_get_base p + 2 * sim_get_num_ports p <= 65536 ->
  io_with_port (D := devices) p ports !! a = if claims_port p a then Some p else ports !! a.
Proof.
  intros Hb Hn. pose proof (claims_port_spec p a Hb Hn) as Hc.
  destruct (io_with_port_lookup (D := devices) p ports a) as [H1 H2].
  destruct (claims_port p a); [by apply H1, Hc|]. apply H2. by rewrite Hc.
Qed.

Lemma one_port p a : sim_get_num_ports p = 1 -> claims_port p a = (a =? sim_get_base p).
Proof. intros Hn. unfold claims_port. rewrite Hn. zcmp; cbn [andb]; try reflexivity; exfalso; zlia. Qed.

Lemma two_ports p a :
  sim_get_num_ports p = 2 -> claims_port p a = (a =? sim_get_base p) || (a =? sim_get_base p + 2).
Proof. intros Hn. unfold claims_port. rewrite Hn. zcmp; cbn [andb orb]; try reflexivity; exfalso; zlia. Qed.

Definition bus_map : gmap Z ioport :=
  foldl (fun ports p => io_with_port (D := devices) p ports) ∅ devices_in_order.

Lemma bus_map_lookup a : bus_map !! a = bus_port a.
Proof.
  unfold bus_map, devices_in_order. cbn [foldl].
  rewrite !io_lookup by done. rewrite lookup_empty.
  rewrite (one_port 7%nat), (one_port 6%nat), (one_port 5%nat), (two_ports 3%nat), (two_ports 2%nat),
    (one_port 1%nat), (one_port 0%nat) by done.
  unfold bus_port, claims_port at 1. change (sim_get_base 4%nat) with 0x3b4.
  change (0x3b4 + 2 * sim_get_num_ports 4%nat) with 0x4b4.
  by replace ((a - 0x3b4) mod 2) with (a mod 2) by zlia.
Qed.

(** ** Loading the BIOS *)

Implicit Types c : cpu devices.

Definition with_mem (mm : Memory.t) (c : cpu devices) : cpu devices :=
  mk_cpu (set_mem mm (pimpl c)) (num_cycles c).
Definition cpu_mem (c : cpu devices) : Memory.t := mem (pimpl c).

Lemma write_mem8_at segment a v c :
  in_range uint16_t segment -> 0 <= a < 65536 ->
  write_mem8 segment a v c =
    Ok tt (with_mem (put8 (cpu_mem c) ((segment * 16 + a) mod Memory.MEMORY_SIZE) v) c).
Proof.
  intros Hs Ha. unfold write_mem8, write_memT, on_pimpl.
  rewrite mem_write8_eq by apply get_phys_addr_range.
  rewrite cast_id by exact Ha. rewrite get_phys_addr_eq by (done || cpp_lia). done.
Qed.

Lemma add_ioports_eq l c :
  add_ioports l c =
    Ok tt (mk_cpu (set_io (foldl (fun ports p => io_with_port (D := devices) p ports) (io (pimpl c)) l) (pimpl c))
      (num_cycles c)).
Proof.
  revert c. induction l as [|p l IH]; intros c; cbn [add_ioports foldl].
  { by destruct c as [[] ?]. }
  unfold mbind, M_bind. change (add_ioport p c) with
    (Ok tt (mk_cpu (set_io (io_with_port (D := devices) p (io (pimpl c))) (pimpl c)) (num_cycles c))).
  cbv iota beta. rewrite IH. done.
Qed.

(** Byte [b] of memory after a load at [offs]: the last byte of the file is
    written once more behind it. *)
Definition loaded_byte (l : list Z) (v offs : Z) (old : Z -> Z) (b : Z) : Z :=
  if b =? (0xfc000 + offs + Z.of_nat (length l)) mod Memory.MEMORY_SIZE then u8 (last l v)
  else match (if 0xfc000 + offs <=? b then l !! Z.to_nat (b - (0xfc000 + offs)) else None) with
       | Some x => u8 x
       | None => old b
       end.

Lemma last_after (x v : Z) l : last (x :: l) v = last l x.
Proof.
  revert x v. induction l as [|y l IH]; intros x v; [done|]. change (last (y :: l) v = last (y :: l) x).
  by rewrite !IH.
Qed.

Lemma load_bios_loop_eq fuel l v offs c :
  0 <= offs -> offs + Z.of_nat (length l) <= 0x4000 -> (length l < fuel)%nat ->
  exists mm, load_bios_loop fuel (Some l) v offs c = Ok tt (with_mem mm c) /\
    (Memory.wf (cpu_mem c) -> Memory.wf mm) /\
    forall b, Memory.byte_at mm b = loaded_byte l v offs (Memory.byte_at (cpu_mem c)) b.
Proof.
  revert l v offs c. induction fuel as [|fuel IH]; intros l v offs c Ho Hl Hf; [lia|].
  assert (0 <= (0xfc00 * 16 + offs) mod Memory.MEMORY_SIZE < Memory.MEMORY_SIZE) as Hp
    by (apply Z.mod_pos_bound; done).
  destruct l as [|x l]; cbn [load_bios_loop].
  - rewrite write_mem8_at by (done || cbn in *; lia). eexists. split; [reflexivity|].
    split; [intros Hm; by apply wf_put8|]. intros b. rewrite byte_at_put8. unfold loaded_byte. cbn [length last].
    change (0xfc00 * 16) with 0xfc000. rewrite Z.add_0_r.
    case_decide as Hb; [subst b; by rewrite Z.eqb_refl|].
    destruct (Z.eqb_spec b ((0xfc000 + offs) mod Memory.MEMORY_SIZE)); [congruence|].
    destruct (_ <=? b); [by rewrite lookup_nil|done].
  - cbn [length] in *. unfold mbind, M_bind. rewrite write_mem8_at by (done || lia).
    rewrite (cast_id uint32_t) by cpp_lia.
    destruct (IH l x (offs + 1) (with_mem (put8 (cpu_mem c) ((0xfc00 * 16 + offs) mod Memory.MEMORY_SIZE) x) c))
      as (mm & E & Hw & Hb); [lia..|].
    exists mm. split; [exact E|]. split; [intros Hm; apply Hw; by apply wf_put8|].
    intros b. rewrite Hb. unfold loaded_byte. cbn [length].
    replace (0xfc000 + (offs + 1) + Z.of_nat (length l)) with (0xfc000 + offs + Z.of_nat (S (length l))) by lia.
    rewrite last_after. destruct (Z.eqb_spec b ((0xfc000 + offs + Z.of_nat (S (length l))) mod Memory.MEMORY_SIZE)).
    { done. }
    change (cpu_mem (with_mem ?m ?c)) with m. rewrite byte_at_put8.
    change (0xfc00 * 16) with 0xfc000. rewrite (Z.mod_small (0xfc000 + offs)) by (unfold Memory.MEMORY_SIZE; lia).
    destruct (Z.leb_spec (0xfc000 + offs) b).
    + destruct (Z.eq_dec b (0xfc000 + offs)) as [->|Hne].
      * rewrite (proj2 (Z.leb_gt _ _)) by lia. rewrite decide_True by done. by rewrite Z.sub_diag.
      * rewrite (proj2 (Z.leb_le _ _)) by lia. rewrite decide_False by lia.
        replace (Z.to_nat (b - (0xfc000 + offs))) with (S (Z.to_nat (b - (0xfc000 + (offs + 1))))) by lia. done.
    + rewrite (proj2 (Z.leb_gt _ _)) by lia. by rewrite decide_False by lia.
Qed.

(** A file that does not open is read for ever. *)
Lemma load_bios_missing fuel v offs c :
  load_bios_loop fuel None v offs c = Err OutOfFuel.
Proof.
  revert offs c. induction fuel as [|fuel IH]; intros offs c; cbn [load_bios_loop]; [done|].
  unfold mbind, M_bind, write_mem8, write_memT, on_pimpl at 1.
  rewrite mem_write8_eq by apply get_phys_addr_range. apply IH.
Qed.

(** ** The machine that the constructor makes *)

(** The keyboard has announced itself, and the request waits in the controller. *)
Definition boot_devices (env : environment) : devices :=
  set_kbd (PS2.mk [0xaa])
    (set_pic (PIC.mk PIC.STATE_IDLE PIC.STATE_READ_IRR (garbage_pic_vector env) 0 0 2)
       (create_devices env)).

Definition boot_byte (env : environment) (l : list Z) (b : Z) : Z :=
  if b =? 0xf0000 then 8
  else if (b =? 0xf0002) || (b =? 0xffffe) then 0xff
  else loaded_byte l (garbage_v env) 0 Memory.init_byte b.

Lemma keyboard_announces g :
  Keyboard.create (PIC.create g, PS2.create) =
    Ok [g + 1] (PIC.mk PIC.STATE_IDLE PIC.STATE_READ_IRR g 0 0 2, PS2.mk [0xaa]).
Proof. reflexivity. Qed.

(** The state in which [load_bios] starts. *)
Definition before_bios (env : environment) : machine devices :=
  mk_machine (Memory.create (garbage_mem_written env)) bus_map (boot_devices env)
    (RegisterFile.reset RegisterFile.create) 0
    (ModRMDecoder.create (mrm_cached_address (garbage_modrm env)) (mrm_addr_is_cached (garbage_modrm env))
       (mrm_is_decoded (garbage_modrm env)))
    0 false false (garbage_segment env) REPE false false false 0 false.

Lemma construct_eq fuel env :
  Simulator_create fuel env =
    load_bios fuel (bios_file env) (garbage_v env) (mk_cpu (before_bios env) (garbage_cycles env)).
Proof.
  unfold Simulator_create, construct.
  unfold mbind at 1, M_bind at 1, on_pimpl at 1, call_device, with_pic, SoftwareCPU_create.
  cbn [pimpl devs]. cbn [pic kbd create_devices]. rewrite keyboard_announces.
  unfold mbind at 1, M_bind at 1. rewrite add_ioports_eq. reflexivity.
Qed.

(** The patches of the memory and the registers, after the file. *)
Definition patched (mm : Memory.t) : Memory.t :=
  put8 (put8 (put8 mm 0xffffe 0xff) 0xf0002 0xff) 0xf0000 8.

Definition boot_registers : RegisterFile.t :=
  RegisterFile.set (RegisterFile.set (RegisterFile.reset RegisterFile.create) CS 0xffff) IP 0.

Lemma load_bios_eq fuel env l :
  (length l < fuel)%nat -> Z.of_nat (length l) <= 0x4000 ->
  exists mm, load_bios fuel (Some l) (garbage_v env) (mk_cpu (before_bios env) (garbage_cycles env)) =
      Ok tt (mk_cpu (set_registers boot_registers (set_mem (patched mm) (before_bios env))) (garbage_cycles env)) /\
    Memory.wf mm /\ forall b, Memory.byte_at mm b = loaded_byte l (garbage_v env) 0 Memory.init_byte b.
Proof.
  intros Hf Hl.
  destruct (load_bios_loop_eq fuel l (garbage_v env) 0 (mk_cpu (before_bios env) (garbage_cycles env)))
    as (mm & E & Hw & Hb); [lia..|].
  exists mm. split; [|split; [apply Hw; apply Memory.wf_create|]].
  - unfold load_bios. unfold mbind at 1, M_bind at 1. rewrite E.
    do 3 (unfold mbind at 1, M_bind at 1; rewrite write_mem8_at by done). reflexivity.
  - intros b. rewrite Hb. reflexivity.
Qed.

Lemma boot_register_values r :
  RegisterFile.get boot_registers r = if decide (r = CS) then 0xffff else 0.
Proof. destruct r; reflexivity. Qed.

(** C39. Booting: with an image of at most 16 KB the constructor returns a
    well-formed machine at FFFF:0000, every other register zero, with the eight
    devices on exactly the ports of [bus_port], the image at 0xfc000 with its
    last byte once more behind it (at address 0 for an image of 16 KB), the
    three patched bytes, and the keyboard's announcement queued, its interrupt
    requested at the controller but no longer at the CPU, whose reset came
    later. An image that does not open makes the constructor loop for ever. *)
Theorem simulator_boots env fuel :
  match bios_file env with
  | None => Simulator_create fuel env = Err OutOfFuel
  | Some l =>
      in_range uint16_t (mrm_cached_address (garbage_modrm env)) ->
      Z.of_nat (length l) <= 0x4000 -> (length l < fuel)%nat ->
      exists c, Simulator_create fuel env = Ok tt c /\ wf (pimpl c) /\
        (forall r, cpu_get c r = if decide (r = CS) then 0xffff else 0) /\
        (forall a, io (pimpl c) !! a = bus_port a) /\
        (forall a, Memory.byte_at (cpu_mem c) a = boot_byte env l a) /\
        devs (pimpl c) = boot_devices env /\
        pending_irq (pimpl c) = 0 /\ nmi_pending (pimpl c) = false
  end.
Proof.
  destruct (bios_file env) as [l|] eqn:Eb.
  - intros Hc Hl Hf. destruct (load_bios_eq fuel env l Hf Hl) as (mm & E & Hw & Hb).
    eexists. rewrite construct_eq, Eb. split; [exact E|]. split_and!; try done.
    + constructor; try done.
      * repeat apply wf_put8; done.
      * apply RegisterFile.wf_set, RegisterFile.wf_set, RegisterFile.wf_reset.
    + apply boot_register_values.
    + apply bus_map_lookup.
    + intros a. change (Memory.byte_at (patched mm) a = boot_byte env l a).
      unfold patched, boot_byte. rewrite !byte_at_put8, Hb.
      repeat case_decide; zcmp; cbn [orb]; try lia; reflexivity.
  - rewrite construct_eq, Eb. unfold load_bios, mbind, M_bind. by rewrite load_bios_missing.
Qed.

(** ** Running *)

Definition emu_safe {A} (f : emu devices A) : Prop :=
  forall m, wf m -> wp f (fun _ m' => wf m') allowed m.

Lemma emu_ret {A} (a : A) : emu_safe (mret a).
Proof. intros m Hm. by apply wp_ret. Qed.

Lemma emu_bind {A B} (f : emu devices A) (g : A -> emu devices B) :
  emu_safe f -> (forall a, emu_safe (g a)) -> emu_safe (f ≫= g).
Proof.
  intros Hf Hg m Hm. apply wp_bind. eapply wp_mono; [by apply Hf|intros a m' Hm'; by apply Hg|done].
Qed.

Lemma emu_device {A} (f : M devices A) irqs : dev_safe f -> emu_safe (call_device f irqs).
Proof.
  intros Hf m Hm.
  assert (safe anything any (call_device f irqs) (fun _ => True) any) as Hs by by apply safe_call_device.
  eapply wp_mono; [apply Hs; by split| |done]. by intros a m' (_ & [? _] & _).
Qed.

Lemma cga_update_dev_safe mm : Memory.wf mm -> dev_safe (CGA.update mm).
Proof.
  intros Hm s. set (s1 := CGA.set_display (Display.set_graphics (CGA.is_graphics s) (CGA.display s)) s).
  change (wp (if CGA.is_graphics_256 s then CGA.update_graphics_256 mm
    else if CGA.is_graphics s then CGA.update_graphics mm else CGA.update_text mm)
      (fun _ _ => True) (eq DeviceError) s1).
  assert (forall f spec, picture f s1 spec -> wp f (fun _ _ => True) (eq DeviceError) s1) as HP.
  { intros f spec HP. unfold picture in HP. unfold wp. case_match; [destruct HP as (? & -> & _)|]; by rewrite ?HP. }
  destruct (CGA.is_graphics_256 s); [exact (HP _ _ (graphics_256_picture mm Hm s1))|].
  destruct (CGA.is_graphics s); [exact (HP _ _ (graphics_picture mm Hm s1))|].
  destruct (text_screen mm Hm s1) as (s' & E & _); [reflexivity|]. by apply (wp_ok _ _ _ _ _ _ E).
Qed.

Lemma process_io_safe inp : dev_safe (process_io inp).
Proof. unfold process_io, process_event, UART.add_char, Mouse.toggle_capture. dev_auto. Qed.

Lemma io_callback_safe inp n : emu_safe (io_callback inp n).
Proof.
  unfold io_callback. apply emu_bind; [case_match; [|apply emu_ret]|intros _; apply emu_bind].
  - intros m Hm. apply wp_bind, wp_gets. apply emu_device; [|done].
    apply dev_on_member, cga_update_dev_safe, Hm.
  - case_match; [|apply emu_ret]. apply emu_bind; [apply emu_device, process_io_safe|intros ?; apply emu_ret].
  - intros _. apply emu_bind; [intros m Hm; by apply wp_gets|intros d].
    apply emu_bind; [apply emu_device, dev_with_pic, timer_tick_safe|intros ?].
    apply emu_device. dev_auto.
Qed.

Lemma run_loop_safe fuel inputs : method_safe (run_loop false fuel inputs).
Proof.
  induction inputs as [|inp inputs IH]; cbn [run_loop]; [apply method_ret|].
  apply method_bind; [apply method_on_pimpl; intros m Hm; by apply wp_gets|intros d].
  destruct (got_exit d); [apply method_ret|]. apply method_bind; [|intros _; exact IH].
  unfold run_turn. do 2 (apply method_bind; [apply method_read_reg|intros _]).
  apply method_bind; [|intros _; apply method_ret].
  apply method_step_with_io. intros n m Hm. by apply io_callback_safe.
Qed.

Lemma construct_safe fuel env : method_safe (construct fuel env).
Proof.
  apply method_bind; [|intros _; apply method_bind; [|intros _; apply method_bind; [|intros _]]].
  - apply method_on_pimpl. intros m Hm. eapply wp_mono; [apply emu_device; [|exact Hm]|done|by left].
    unfold Keyboard.create, Keyboard.add_byte. dev_auto.
  - generalize devices_in_order as l. induction l as [|p l IH]; cbn [add_ioports]; [apply method_ret|].
    apply method_bind; [by apply (method_event (AddIoport p))|intros _; exact IH].
  - by apply (method_event Reset).
  - apply method_bind; [|intros _; repeat (apply method_bind; [apply method_write_memT|intros _]);
      apply method_bind; [|intros _]; apply method_write_reg].
    generalize (bios_file env) as l, (garbage_v env) as v, 0 as offs.
    induction fuel as [|fuel IH]; intros l v offs; cbn [load_bios_loop]; [by right|].
    destruct l as [[|b l]|]; [apply method_write_memT|..];
      (apply method_bind; [apply method_write_memT|intros _; apply IH]).
Qed.

(** C40. Running the machine: from the constructor, for any files and any
    keys, mouse events and characters, every number of turns of the loop of
    [run] returns in a well-formed state, or stops with an access past the end
    of RAM, [INT_MIN / -1], an assertion or exception of a device, or too
    little fuel for a run of prefixes. A detached run of this CPU stops at its
    first turn with the exception of the method that it lacks, and the loop
    looks at nothing more once an exit was asked for. *)
Theorem simulation_runs env fuel c fuel' inputs :
  in_range uint16_t (mrm_cached_address (garbage_modrm env)) ->
  Simulator_create fuel env = Ok tt c ->
  wp (run false fuel' inputs) (fun _ c' => wf (pimpl c')) (fun e => allowed e \/ e = OutOfFuel) c /\
  (forall c' inp, got_exit (devs (pimpl c')) = false ->
    run true fuel' (inp :: inputs) c' = Err NotImplemented) /\
  (forall c' detached, got_exit (devs (pimpl c')) = true -> run detached fuel' inputs c' = Ok tt c').
Proof.
  intros Hc E. split; [|split].
  - assert (wf (pimpl c)) as Hw.
    { assert (wf (pimpl (SoftwareCPU_create (garbage_mem_written env) (garbage_modrm env)
        (garbage_segment env) (garbage_cycles env) (create_devices env)))) as H0
        by (split; try done; apply RegisterFile.registers_wf_create).
      by apply (wp_elim _ _ _ _ _ _ (construct_safe fuel env _ H0) E). }
    apply (run_loop_safe fuel' inputs c Hw).
  - intros c' inp Hx. unfold run, run_loop, mbind, M_bind, on_pimpl, gets. cbn. by rewrite Hx.
  - intros c' detached Hx. unfold run. destruct detached, inputs; try reflexivity;
      unfold run_loop, mbind, M_bind, on_pimpl, gets; cbn; rewrite Hx; by destruct c'.
Qed.
End devices.

(** ** Witnesses *)

(** A four-byte image: HLT, HLT, 0x12, 0x34. *)
#[local] Instance boot_config : Config := default_config.
Definition boot_env : environment := {|
  bios_file := Some [0xf4; 0xf4; 0x12; 0x34];
  disk_file := Disk.mk [] 0 false;
  font_file := [];
  garbage_v := 7;
  garbage_pic_vector := 0;
  garbage_spi_count := 0;
  garbage_pixels := ∅;
  garbage_palette := palette_of [];
  garbage_dac := palette_of [];
  garbage_attribute := 0;
  garbage_mem_written := false;
  garbage_modrm := ModRMDecoder.create 0 false false;
  garbage_segment := DS;
  garbage_cycles := 0;
|}.

Lemma simulator_boots_witness :
  exists c, Simulator_create 5 boot_env = Ok tt c /\ cpu_get c CS = 0xffff /\
    io (pimpl c) !! 0x42 = Some 3%nat /\ Memory.byte_at (cpu_mem c) 0xfc003 = 0x34 /\
    Memory.byte_at (cpu_mem c) 0xfc004 = 0x34.
Proof.
  pose proof (simulator_boots boot_env 5) as H. cbn [bios_file boot_env] in H.
  destruct H as (c & E & _ & Hr & Hio & Hm & _); [done|cbn; lia|cbn; lia|].
  exists c. split; [exact E|]. rewrite Hr, Hio, !Hm.
  split_and!; [reflexivity|reflexivity|unfold boot_byte, loaded_byte; reflexivity|unfold boot_byte, loaded_byte; reflexivity].
Defined.

(** A turn of that machine: it runs the jump at FFFF:0000, or what is there. *)
Lemma simulation_runs_witness :
  exists c, Simulator_create 5 boot_env = Ok tt c /\
    wp (run false 100 [mk_input None None (0, 0) false false]) (fun _ c' => wf (pimpl c'))
      (fun e => allowed e \/ e = OutOfFuel) c.
Proof.
  destruct (load_bios_eq 5 boot_env [0xf4; 0xf4; 0x12; 0x34]) as (mm & E0 & _); [cbn; lia..|].
  pose proof (construct_eq 5 boot_env) as E. cbn [bios_file boot_env] in E. rewrite E0 in E.
  lazymatch type of E with _ = Ok tt ?c' => generalize dependent c' end. intros c E.
  exists c. split; [exact E|].
  assert (in_range uint16_t (mrm_cached_address (garbage_modrm boot_env))) as Hc by (clear; done).
  pose proof (simulation_runs boot_env 5 c 100 [mk_input None None (0, 0) false false] Hc E) as H.
  exact (proj1 H).
Defined.
