(* ===== verification/SimArchive.v ===== *)
(** * Saving and restoring a simulation: the [serialize] functions of the devices
    and of [Simulator], and [run_sim] of [sim/Simulator.cpp]

    Boost writes the members that [serialize] names and reads them back in the
    same order; pointers ([mem] of the adapter) come back as the address of the
    object that was read. The keyboard and the mouse have [serialize]
    functions that [Simulator] does not call. *)
From S2P Require Import Prelude Config MainMemory Registers ErrorState IOPorts Machine SimCPU SimCPUProps.
From S2P Require Import ModRM Core Safety Decoder SoftwareCPU CPUProps PIC PS2 Timer UART SPI Display CGA Simulator SimulatorProps.

(** The members that [SPI::serialize] and [CGA::serialize] name; those of [PIC] and
    [TimerTick] name all that the models hold. *)
Record spi_archive := mk_spi_archive {
  sp_control_reg : Z; sp_rx_val : Z; sp_state : SPI.SPIState; sp_mosi_buf : list Z; sp_miso_buf : list Z;
  sp_do_write : bool; sp_write_count : Z }.

Record cga_archive := mk_cga_archive {
  cg_reg_idx : Z; cg_idx_regs : list Z; cg_status : Z; cg_mode_reg : Z; cg_attribute_mode_control : Z;
  cg_dac_palette : GraphicsPalette; cg_dac_wr_sel : Z; cg_dac_seq : Z }.

(** What [Simulator::serialize] writes. *)
Record sim_archive := mk_sim_archive {
  sa_cpu : archive; sa_uart : list Z; sa_spi : spi_archive; sa_timer : TimerTick.t; sa_cga : cga_archive;
  sa_pic : PIC.t; sa_last_cycle : Z }.

Definition spi_save (s : SPI.t) : spi_archive :=
  mk_spi_archive (SPI.control_reg s) (SPI.rx_val s) (SPI.state s) (SPI.mosi_buf s) (SPI.miso_buf s)
    (SPI.do_write s) (SPI.write_count s).
Definition spi_load (ar : spi_archive) (s : SPI.t) : SPI.t :=
  SPI.mk (sp_control_reg ar) (sp_rx_val ar) (sp_state ar) (sp_mosi_buf ar) (sp_miso_buf ar) (SPI.disk_image s)
    (sp_do_write ar) (sp_write_count ar).

Definition uart_load (ar : list Z) (s : UART.t) : UART.t := UART.mk ar (UART.output s).

(** The end of [CGA::serialize], which is run both ways. *)
Definition cga_after_serialize (s : CGA.t) : CGA.t :=
  if CGA.is_graphics_256 s then
    CGA.set_display (Display.set_graphics_palette (CGA.dac_palette s) (CGA.display s)) s
  else s.

Definition cga_save (s : CGA.t) : cga_archive :=
  mk_cga_archive (CGA.reg_idx s) (CGA.idx_regs s) (CGA.status s) (CGA.mode_reg s) (CGA.attribute_mode_control s)
    (CGA.dac_palette s) (CGA.dac_wr_sel s) (CGA.dac_seq s).
Definition cga_load (ar : cga_archive) (s : CGA.t) : CGA.t :=
  cga_after_serialize
    (CGA.mk (CGA.display s) (cg_reg_idx ar) (cg_idx_regs ar) (cg_status ar) (cg_mode_reg ar)
       (cg_attribute_mode_control ar) (cg_dac_palette ar) (cg_dac_wr_sel ar) (cg_dac_seq ar) (CGA.status_reads s)).

(** The devices of an archive, on those that are there. *)
Definition load_devices (ar : sim_archive) (d : devices) : devices :=
  mk_devices (sa_pic ar) (uart_load (sa_uart ar) (uart d)) (spi_load (sa_spi ar) (spi d)) (sa_timer ar)
    (cga_load (sa_cga ar) (cga d)) (kbd d) (mouse d) (got_exit d) (sa_last_cycle ar).

Section archive.
Context {CFG : Config}.

Abbreviation sim_method := (method (D := devices)).

(** A member function of the simulator that does not call the CPU. *)
Definition on_devices (f : devices -> devices) : sim_method unit :=
  on_pimpl (modify (fun m => set_devs (f (devs m)) m)).

(** [oa << sim] and [ia >> sim]. *)
Definition sim_save : sim_method sim_archive :=
  cpu ← save ;
  d ← on_pimpl (gets devs) ;
  on_devices (fun d => set_cga (cga_after_serialize (cga d)) d) ;;
  mret (mk_sim_archive cpu (UART.charbuf (uart d)) (spi_save (spi d)) (timer d) (cga_save (cga d)) (pic d)
          (last_cycle d)).

Definition sim_load (ar : sim_archive) : sim_method unit :=
  load (sa_cpu ar) ;;
  on_devices (load_devices ar).

(** [run_sim], on the archive that the restore file holds; it returns the archive
    for the save file. *)
Definition run_sim (fuel : nat) (env : environment) (detached : bool) (saving : bool)
    (restore : option sim_archive) (inputs : list io_input) : outcome (cpu devices) (option sim_archive) :=
  match Simulator_create fuel env with
  | Err e => Err e
  | Ok _ c =>
      ((match restore with None => mret () | Some ar => sim_load ar end) ;;
       run detached fuel inputs ;;
       if saving then Some <$> sim_save else mret None) c
  end.

(** ** What comes back *)

Implicit Types c : cpu devices.

Definition devs_of_cpu c : devices := devs (pimpl c).

(** The number of cycles that the first call of [io_callback] gives to the timer:
    its argument of [tick], for the count of cycles that [step_with_io] has then. *)
Definition first_tick c : Z := u32 (u64 (u64 (u64 (num_cycles c + 1) - last_cycle (devs_of_cpu c)) + 1)).

(** The adapter's registers are [s]'s; [pal] is what its display has for a palette. *)
Definition same_adapter (s s' : CGA.t) : Prop := cga_save s' = cga_save s.

(** A device keeps the disk image it has. *)
Definition same_card (s s' : SPI.t) : Prop := SPI.set_disk_image (SPI.disk_image s) s' = s.

(** C38. Restoring a simulation. Saving leaves the simulator as it is, but for the
    palette of a display in the 256 colour mode, and loading that archive in
    another simulator gives it the memory, the registers and the flags of the
    first, its interrupt controller, its timer, the characters that wait in its
    UART, its SD card but for the file and the place in it, and the registers
    of its display adapter, with the palette of the 256 colour mode. The
    keyboard and the mouse, which hold bytes not yet read, are not those of the first
    but the ones that were there; nor is the CPU's own count of cycles, while the
    cycle of the last tick is the saved one: the first tick after a restore counts the
    difference of the two, modulo 2 to the 32nd. *)
Theorem simulation_is_restored c c0 :
  wf (pimpl c) -> wf (pimpl c0) ->
  let d := devs_of_cpu c in
  let d0 := devs_of_cpu c0 in
  exists ar c1 c2,
    sim_save c = Ok ar c1 /\ sim_load ar c0 = Ok tt c2 /\
    c1 = mk_cpu (set_devs (set_cga (cga_after_serialize (cga d)) d) (pimpl c)) (num_cycles c) /\
    let d2 := devs_of_cpu c2 in
    (mem (pimpl c2) = mem (pimpl c) /\ (forall r, cpu_get c2 r = cpu_get c r) /\
     RegisterFile.get_flags (registers (pimpl c2)) = RegisterFile.get_flags (registers (pimpl c))) /\
    (pic d2 = pic d /\ timer d2 = timer d /\ UART.charbuf (uart d2) = UART.charbuf (uart d) /\
     same_card (spi d) (spi d2) /\ SPI.disk_image (spi d2) = SPI.disk_image (spi d0) /\
     same_adapter (cga d) (cga d2) /\
     (CGA.is_graphics_256 (cga d) = true ->
      CGA.display (cga d2) = Display.set_graphics_palette (CGA.dac_palette (cga d)) (CGA.display (cga d0)))) /\
    (kbd d2 = kbd d0 /\ mouse d2 = mouse d0 /\ num_cycles c2 = num_cycles c0 /\
     first_tick c2 = u32 (u64 (u64 (u64 (num_cycles c0 + 1) - last_cycle d) + 1))).
Proof.
  intros Hc Hc0 d d0. destruct (save_load_round_trip c c0 Hc Hc0) as (ar & c2 & Es & El & Hm & Hr & Hf & Hn & Hrest).
  set (sa := mk_sim_archive ar (UART.charbuf (uart d)) (spi_save (spi d)) (timer d) (cga_save (cga d)) (pic d)
    (last_cycle d)).
  assert (Hd : devs (pimpl c2) = d0) by (apply (f_equal devs) in Hrest; exact Hrest).
  eexists sa, _, (mk_cpu (set_devs (load_devices sa d0) (pimpl c2)) (num_cycles c2)).
  split. { unfold sim_save, mbind, M_bind. rewrite Es. reflexivity. }
  split. { unfold sim_load, mbind, M_bind. cbn [sa_cpu sa]. rewrite El. unfold on_devices, on_pimpl, modify.
    by rewrite Hd. }
  split; [by destruct c|]. cbv zeta. unfold devs_of_cpu. cbn [pimpl num_cycles set_devs devs mem registers].
  split; [split; [exact Hm|split; [exact Hr|exact Hf]]|].
  split.
  - split_and!; try done.
    + unfold same_card. cbn. by destruct (spi d).
    + unfold same_adapter. cbn [cga load_devices sa_cga sa]. unfold cga_load, cga_after_serialize.
      by destruct (CGA.is_graphics_256 _).
    + intros Hg. cbn [cga load_devices sa_cga sa]. unfold cga_load, cga_after_serialize.
      change (CGA.is_graphics_256 (CGA.mk _ _ _ _ _ _ _ _ _ _)) with (CGA.is_graphics_256 (cga d)). by rewrite Hg.
  - split_and!; try done. unfold first_tick. cbn. by rewrite Hn.
Qed.
End archive.

(** ** Witness *)

(** A timer that is due in 5000 cycles, saved after a million and restored in a new
    simulator: its first tick counts four thousand million cycles, and the
    interrupt is requested at once. *)
#[local] Existing Instance default_config.
Definition saved_timer : TimerTick.t := TimerTick.mk 3 2 5000 false 0 false 0x1000 true.
Definition resumed : cpu devices :=
  SoftwareCPU_create false (ModRMDecoder.create 0 false false) DS 1000000
    (set_last_cycle 1000000 (set_timer saved_timer (create_devices boot_env))).
Definition fresh : cpu devices :=
  SoftwareCPU_create false (ModRMDecoder.create 0 false false) DS 0 (create_devices boot_env).

Lemma resumed_wf : wf (pimpl resumed) /\ wf (pimpl fresh).
Proof. split; (split; try done; apply RegisterFile.registers_wf_create). Qed.

Lemma simulation_is_restored_witness :
  exists ar c1 c2, sim_save resumed = Ok ar c1 /\ sim_load ar fresh = Ok tt c2 /\
    timer (devs_of_cpu c2) = saved_timer /\ first_tick c2 = 4293967298 /\
    value_of (TimerTick.tick (first_tick c2) (pic (devs_of_cpu c2), timer (devs_of_cpu c2))) =
      value_of (TimerTick.tick 5000 (pic (devs_of_cpu resumed), saved_timer)).
Proof.
  destruct (simulation_is_restored resumed fresh) as (ar & c1 & c2 & Es & El & _ & _ & (Hp & Ht & _) & _ & _ & _ & Hf);
    [apply resumed_wf..|].
  exists ar, c1, c2. split; [exact Es|]. split; [exact El|]. split; [exact Ht|].
  assert (E : first_tick c2 = 4293967298) by (rewrite Hf; by vm_compute).
  split; [exact E|]. rewrite E, Hp, Ht. by vm_compute.
Defined.
