(* ===== verification/Bios.v ===== *)
(** * The BIOS: its platform

    [bios/io.h], [bios/bios.h], [bios/bda.h], [bios/leds.c], the loops of
    [bios/utils.c]. The C is for a 16-bit [int]. A function of the BIOS runs on
    the board: the machine, whose ports and memory its inline assembly uses, and
    its own static variables, which are kept apart from the RAM. *)
From S2P Require Import Prelude Config MainMemory Registers ErrorState IOPorts Machine ModRM Core.

(** What the build fixes ([bios/CMakeLists.txt] and the platform's), and a
    bound for the turns of the loops that poll a device. *)
Class BiosConfig := {
  SERIAL_STDIO : bool;
  CACHE_SIZE : Z;
  BIOS_BUILD_YEAR : Z; BIOS_BUILD_MONTH : Z; BIOS_BUILD_DAY : Z;
  BIOS_BUILD_HOUR : Z; BIOS_BUILD_MINUTE : Z; BIOS_BUILD_SECOND : Z;
  BANNER : list Z;              (** the lines with [__DATE__], [__TIME__], [__PLATFORM__], [__BUILD__] *)
  get_cs : Z;                   (** the segment that the BIOS runs in *)
  vectors : list (Z * Z);       (** the table that the [VECTOR]s fill: number and entry *)
  unused_int : Z;               (** the addresses of that handler and of [vpt] *)
  vpt : Z;
  poll_bound : nat;
}.

(** ** [struct callregs] *)

(** The words that [entry.S] pushes; [.l] and [.h] are the halves of one. *)
Record callregs := mk_callregs {
  r_di : Z; r_si : Z; r_bp : Z; r_sp : Z; r_bx : Z; r_dx : Z; r_cx : Z; r_ax : Z;
  r_ds : Z; r_es : Z; r_flags : Z;
}.

Definition lo (x : Z) : Z := u8 x.
Definition hi (x : Z) : Z := u8 (x .>> 8).
Definition with_lo (x v : Z) : Z := (u16 x .& 0xff00) .| u8 v.
Definition with_hi (x v : Z) : Z := (u16 x .& 0x00ff) .| (u8 v .<< 8).

Definition put_ax (v : Z) (r : callregs) : callregs :=
  mk_callregs (r_di r) (r_si r) (r_bp r) (r_sp r) (r_bx r) (r_dx r) (r_cx r) (u16 v) (r_ds r) (r_es r) (r_flags r).
Definition put_bx (v : Z) (r : callregs) : callregs :=
  mk_callregs (r_di r) (r_si r) (r_bp r) (r_sp r) (u16 v) (r_dx r) (r_cx r) (r_ax r) (r_ds r) (r_es r) (r_flags r).
Definition put_cx (v : Z) (r : callregs) : callregs :=
  mk_callregs (r_di r) (r_si r) (r_bp r) (r_sp r) (r_bx r) (r_dx r) (u16 v) (r_ax r) (r_ds r) (r_es r) (r_flags r).
Definition put_dx (v : Z) (r : callregs) : callregs :=
  mk_callregs (r_di r) (r_si r) (r_bp r) (r_sp r) (r_bx r) (u16 v) (r_cx r) (r_ax r) (r_ds r) (r_es r) (r_flags r).
Definition put_flags (v : Z) (r : callregs) : callregs :=
  mk_callregs (r_di r) (r_si r) (r_bp r) (r_sp r) (r_bx r) (r_dx r) (r_cx r) (r_ax r) (r_ds r) (r_es r) (u16 v).

Definition put_al (v : Z) (r : callregs) : callregs := put_ax (with_lo (r_ax r) v) r.
Definition put_ah (v : Z) (r : callregs) : callregs := put_ax (with_hi (r_ax r) v) r.
Definition put_bl (v : Z) (r : callregs) : callregs := put_bx (with_lo (r_bx r) v) r.
Definition put_bh (v : Z) (r : callregs) : callregs := put_bx (with_hi (r_bx r) v) r.
Definition put_cl (v : Z) (r : callregs) : callregs := put_cx (with_lo (r_cx r) v) r.
Definition put_ch (v : Z) (r : callregs) : callregs := put_cx (with_hi (r_cx r) v) r.
Definition put_dl (v : Z) (r : callregs) : callregs := put_dx (with_lo (r_dx r) v) r.
Definition put_dh (v : Z) (r : callregs) : callregs := put_dx (with_hi (r_dx r) v) r.

(** [regs->flags |= f], [regs->flags &= ~f]. *)
Definition raise_flag (f : Z) (r : callregs) : callregs := put_flags (r_flags r .| f) r.
Definition lower_flag (f : Z) (r : callregs) : callregs := put_flags (r_flags r .& ~. f) r.

(** ** [struct bios_data_area] *)

Inductive bda_field :=
  | keyboard_flags (i : Z)
  | kbd_buffer_head | kbd_buffer_tail
  | kbd_buffer (i : Z)
  | drive_recalibration_status
  | diskette_status
  | video_mode | num_screen_cols
  | cursor_offsets (i : Z)
  | cursor_end | cursor_start
  | crt_controller_base
  | timer_counter_low | timer_counter_high | clock_rollover
  | last_screen_row | video_display_data_area | dcc_index.

(** [offsetof], the structure being packed. *)
Definition offset_of (f : bda_field) : Z :=
  match f with
  | keyboard_flags i => 0x17 + i
  | kbd_buffer_head => 0x1a
  | kbd_buffer_tail => 0x1c
  | kbd_buffer i => 0x1e + 2 * i
  | drive_recalibration_status => 0x3e
  | diskette_status => 0x41
  | video_mode => 0x49
  | num_screen_cols => 0x4a
  | cursor_offsets i => 0x50 + 2 * i
  | cursor_end => 0x60
  | cursor_start => 0x61
  | crt_controller_base => 0x63
  | timer_counter_low => 0x6c
  | timer_counter_high => 0x6e
  | clock_rollover => 0x70
  | last_screen_row => 0x84
  | video_display_data_area => 0x89
  | dcc_index => 0x8a
  end.

Definition field_type (f : bda_field) : ctype :=
  match f with
  | kbd_buffer_head | kbd_buffer_tail | kbd_buffer _ | num_screen_cols | cursor_offsets _
  | crt_controller_base | timer_counter_low | timer_counter_high => uint16_t
  | _ => uint8_t
  end.

(** ** The board *)

Record dac_color := mk_dac { dac_r : Z; dac_g : Z; dac_b : Z }.

(** The static variables of the files. *)
Record statics := mk_statics {
  spi_xfer_buf : list Z;          (** [sd.c]: [char[1280]] *)
  sd_is_sdhc : Z;
  have_mouse : Z;                 (** [mouse.c], [mouse_asm.S] *)
  mouse_driver_addr : Z * Z;
  mouse_driver_enabled : Z;
  mouse_nbytes : Z;
  video_graphics : Z;             (** [_in_video_mode] of [display.c] *)
  init_dac : list dac_color;
}.

Definition put_spi_xfer_buf (x : list Z) (v : statics) : statics :=
  mk_statics x (sd_is_sdhc v) (have_mouse v) (mouse_driver_addr v) (mouse_driver_enabled v) (mouse_nbytes v)
    (video_graphics v) (init_dac v).
Definition put_sd_is_sdhc (x : Z) (v : statics) : statics :=
  mk_statics (spi_xfer_buf v) x (have_mouse v) (mouse_driver_addr v) (mouse_driver_enabled v) (mouse_nbytes v)
    (video_graphics v) (init_dac v).
Definition put_have_mouse (x : Z) (v : statics) : statics :=
  mk_statics (spi_xfer_buf v) (sd_is_sdhc v) x (mouse_driver_addr v) (mouse_driver_enabled v) (mouse_nbytes v)
    (video_graphics v) (init_dac v).
Definition put_mouse_driver_addr (x : Z * Z) (v : statics) : statics :=
  mk_statics (spi_xfer_buf v) (sd_is_sdhc v) (have_mouse v) x (mouse_driver_enabled v) (mouse_nbytes v)
    (video_graphics v) (init_dac v).
Definition put_mouse_driver_enabled (x : Z) (v : statics) : statics :=
  mk_statics (spi_xfer_buf v) (sd_is_sdhc v) (have_mouse v) (mouse_driver_addr v) x (mouse_nbytes v)
    (video_graphics v) (init_dac v).
Definition put_mouse_nbytes (x : Z) (v : statics) : statics :=
  mk_statics (spi_xfer_buf v) (sd_is_sdhc v) (have_mouse v) (mouse_driver_addr v) (mouse_driver_enabled v) x
    (video_graphics v) (init_dac v).
Definition put_video_graphics (x : Z) (v : statics) : statics :=
  mk_statics (spi_xfer_buf v) (sd_is_sdhc v) (have_mouse v) (mouse_driver_addr v) (mouse_driver_enabled v)
    (mouse_nbytes v) x (init_dac v).
Definition put_init_dac (x : list dac_color) (v : statics) : statics :=
  mk_statics (spi_xfer_buf v) (sd_is_sdhc v) (have_mouse v) (mouse_driver_addr v) (mouse_driver_enabled v)
    (mouse_nbytes v) (video_graphics v) x.

Record board (D : Type) := mk_board { hw : machine D; vars : statics }.
Arguments mk_board {D}. Arguments hw {D}. Arguments vars {D}.

Section platform.
Context {CFG : Config} {BC : BiosConfig} {D : Type} {IOP : IOPorts D}.

Definition bios (A : Type) : Type := M (board D) A.

Definition on_hw {A} (f : emu D A) : bios A := fun b =>
  match f (hw b) with Ok a m => Ok a (mk_board m (vars b)) | Err e => Err e end.
Definition get_var {A} (f : statics -> A) : bios A := gets (fun b => f (vars b)).
Definition set_var (f : statics -> statics) : bios unit := modify (fun b => mk_board (hw b) (f (vars b))).

(** ** [io.h] *)

Definition outw (port v : Z) : bios unit := on_hw (write_io16 (u16 port) (u16 v)).
Definition outb (port v : Z) : bios unit := on_hw (write_io8 (u16 port) (u8 v)).
Definition inw (port : Z) : bios Z := on_hw (read_io16 (u16 port)).
Definition inb (port : Z) : bios Z := on_hw (read_io8 (u16 port)).

Definition writeb (segment address val : Z) : bios unit :=
  on_hw (mem_write uint8_t (get_phys_addr (u16 segment) (u16 address)) val).
Definition writew (segment address val : Z) : bios unit :=
  on_hw (mem_write uint16_t (get_phys_addr (u16 segment) (u16 address)) val).
Definition readb (segment address : Z) : bios Z :=
  on_hw (mem_read uint8_t (get_phys_addr (u16 segment) (u16 address))).
Definition readw (segment address : Z) : bios Z :=
  on_hw (mem_read uint16_t (get_phys_addr (u16 segment) (u16 address))).

(** [rep stosb]. *)
Definition memset_seg (dseg dst v len : Z) : bios unit :=
  for_loop (u16 len) (fun i => writeb dseg (dst + i) v).

(** ** The BIOS data area, at segment 0x40 *)

Definition bda_write (f : bda_field) (val : Z) : bios unit :=
  match field_type f with
  | uint16_t => writew 0x40 (offset_of f) val
  | _ => writeb 0x40 (offset_of f) val
  end.
Definition bda_read (f : bda_field) : bios Z :=
  match field_type f with
  | uint16_t => readw 0x40 (offset_of f)
  | _ => readb 0x40 (offset_of f)
  end.

(** ** [leds.c] *)

Definition LED_DISK : Z := 1 .<< 0.
Definition LED_KBD_BUFFER_NON_EMPTY : Z := 1 .<< 1.
Definition LED_KBD_BUFFER_FULL : Z := 1 .<< 2.
Definition LED_PANIC : Z := 1 .<< 3.
Definition LED_PORT : Z := 0xfffe.

Definition led_set (led : Z) : bios unit := v ← inw LED_PORT ; outw LED_PORT (v .| led).
Definition led_clear (led : Z) : bios unit := v ← inw LED_PORT ; outw LED_PORT (v .& ~. led).

(** A loop [while (f()) continue], for at most [poll_bound] turns. *)
Fixpoint while_true (fuel : nat) (f : bios bool) : bios unit :=
  match fuel with
  | O => throw OutOfFuel
  | S fuel => more ← f ; if more : bool then while_true fuel f else mret ()
  end.
Definition poll_while (f : bios bool) : bios unit := while_true poll_bound f.

(** ** The serial port, from [serial.c] *)

Definition UART_DATA_PORT : Z := 0xfffa.
Definition UART_STATUS_PORT : Z := 0xfffb.
Definition UART_TX_BUSY : Z := 0x02.
Definition UART_RX_READY : Z := 0x01.

Definition serial_one (c : Z) : bios unit :=
  outb UART_DATA_PORT c ;;
  poll_while (v ← inb UART_STATUS_PORT ; mret (nz (v .& UART_TX_BUSY))).

(** It calls itself for the return after a line feed. *)
Definition serial_putchar (c : Z) : bios unit :=
  let c := u8 c in
  serial_one c ;;
  if c =? 10 then serial_one 13 else mret ().

(** ** The interrupt controller, from [bios.c] *)

Definition PIC_COMMAND : Z := 0x20.
Definition PIC_DATA : Z := 0x21.

Definition irq_ack : bios unit := outb 0x20 0x20.
Definition irq_enable (irq_num : Z) : bios unit :=
  v ← inb PIC_DATA ; outb PIC_DATA (v .& ~. (1 .<< irq_num)).
Definition irq_disable (irq_num : Z) : bios unit :=
  v ← inb PIC_DATA ; outb PIC_DATA (v .| (1 .<< irq_num)).

End platform.
