(* ===== verification/BiosDisplay.v ===== *)
(** * The BIOS: the screen, [bios/display.c] and [bios/serial.c] *)
From S2P Require Import Prelude Config MainMemory Registers ErrorState IOPorts Machine ModRM Core Bios.
From Stdlib Require Import String Ascii.

(** [union cursor]. *)
Record cursor := mk_cursor { c_col : Z; c_row : Z }.
Definition cursor_v (c : cursor) : Z := c_col c .| (c_row c .<< 8).

Definition frame_buffer_segment : Z := 0xb000.
Definition vga_frame_buffer_segment : Z := 0xa000.
Definition frame_buffer_offset : Z := 0x8000.

(** The characters of a string literal. *)
Fixpoint text (s : string) : list Z :=
  match s with
  | EmptyString => []
  | String a s => Z.of_nat (nat_of_ascii a) :: text s
  end.

Section display.
Context {CFG : Config} {BC : BiosConfig} {D : Type} {IOP : IOPorts D}.
Abbreviation bios := (bios (D := D)).

(** ** The CRT controller *)

Definition crtc_reg_write (reg val : Z) : bios unit := outb 0x3d4 reg ;; outb 0x3d5 val.
Definition crtc_reg_read (reg : Z) : bios Z := outb 0x3d4 reg ;; inb 0x3d5.

Definition read_cursor : bios cursor :=
  h ← crtc_reg_read 0xe ;
  l ← crtc_reg_read 0xf ;
  let pos := u16 (u16 (u16 h .<< 8) .| l) in
  mret (mk_cursor (u8 (pos mod 80)) (u8 (pos / 80))).

Definition write_cursor (c : cursor) : bios unit :=
  let pos := u16 (u16 (c_row c) * 80 + c_col c) in
  crtc_reg_write 0xe (pos .>> 8) ;;
  crtc_reg_write 0xf pos ;;
  bda_write (cursor_offsets 0) (cursor_v c).

(** ** Rows *)

Definition cell_addr (row col : Z) : Z := u16 (frame_buffer_offset + (row * 80 + col) * 2).

(** [for (col = first; col <= last; ++col)] on [unsigned char]s: it has no end
    when [last] is 255. *)
Fixpoint byte_loop (fuel : nat) (col last : Z) (f : Z -> bios unit) : bios unit :=
  if col <=? last then
    match fuel with
    | O => throw OutOfFuel
    | Datatypes.S fuel => f col ;; byte_loop fuel (u8 (col + 1)) last f
    end
  else mret ().

Definition clear_row (row col_left col_right attr : Z) : bios unit :=
  let blank := s16 ((s16 attr .<< 8) .| 0x20) in
  byte_loop 256 (u8 col_left) (u8 col_right) (fun col =>
    writew frame_buffer_segment (cell_addr (u8 row) col) blank).

Definition copy_row (dst_row src_row col_left col_right : Z) : bios unit :=
  byte_loop 256 (u8 col_left) (u8 col_right) (fun col =>
    b ← readw frame_buffer_segment (cell_addr (u8 src_row) col) ;
    writew frame_buffer_segment (cell_addr (u8 dst_row) col) b).

(** The rows are [signed char]s: upwards there is no end when the last is 127,
    downwards when it is -128. *)
Fixpoint rows_up (fuel : nat) (row last : Z) (f : Z -> bios unit) : bios unit :=
  if row <=? last then
    match fuel with
    | O => throw OutOfFuel
    | Datatypes.S fuel => f row ;; rows_up fuel (s8 (row + 1)) last f
    end
  else mret ().
Fixpoint rows_down (fuel : nat) (row last : Z) (f : Z -> bios unit) : bios unit :=
  if last <=? row then
    match fuel with
    | O => throw OutOfFuel
    | Datatypes.S fuel => f row ;; rows_down fuel (s8 (row - 1)) last f
    end
  else mret ().

Definition __scroll_up (row_top row_bottom col_left col_right blank_attr scroll_count : Z) : bios unit :=
  rows_up 256 (s8 row_top) (s8 row_bottom) (fun row =>
    if s8 row_bottom <? row + s8 scroll_count
    then clear_row row (s8 col_left) (s8 col_right) (u8 (s8 blank_attr))
    else copy_row row (row + s8 scroll_count) (s8 col_left) (s8 col_right)).

Definition __scroll_down (row_top row_bottom col_left col_right blank_attr scroll_count : Z) : bios unit :=
  rows_down 256 (s8 row_bottom) (s8 row_top) (fun row =>
    if row - s8 scroll_count <? 0
    then clear_row row (s8 col_left) (s8 col_right) (u8 (s8 blank_attr))
    else copy_row row (row - s8 scroll_count) (s8 col_left) (s8 col_right)).

Definition scroll_count_of (r : callregs) : Z := if lo (r_ax r) =? 0 then 25 else lo (r_ax r).
Definition scroll_up (r : callregs) : bios unit :=
  __scroll_up (hi (r_cx r)) (hi (r_dx r)) (lo (r_cx r)) (lo (r_dx r)) (hi (r_bx r)) (scroll_count_of r).
Definition scroll_down (r : callregs) : bios unit :=
  __scroll_down (hi (r_cx r)) (hi (r_dx r)) (lo (r_cx r)) (lo (r_dx r)) (hi (r_bx r)) (scroll_count_of r).
Definition scroll_up_one : bios unit := __scroll_up 0 24 0 79 0x07 1.

(** ** Characters *)

Definition backspace_one (c : cursor) : bios cursor :=
  if 0 <? c_col c then
    let c := mk_cursor (u8 (c_col c - 1)) (c_row c) in
    writeb frame_buffer_segment (cell_addr (c_row c) (c_col c)) 0x20 ;;
    mret c
  else mret c.
Definition do_backspace (c : cursor) : bios cursor := c ← backspace_one c ; backspace_one c.

Definition emit_char (ch : Z) : bios unit :=
  c ← read_cursor ;
  writeb frame_buffer_segment (cell_addr (c_row c) (c_col c)) ch ;;
  let c := mk_cursor (u8 (c_col c + 1)) (c_row c) in
  c ← (if ch =? 8 then do_backspace c else mret c) ;
  c ← (if (ch =? 13) || (ch =? 10) then
         let c := mk_cursor (u8 (c_col c - 1)) (c_row c) in
         for_from (Z.to_nat (80 - c_col c)) (c_col c) (fun m =>
           writew frame_buffer_segment (cell_addr (c_row c) m) 0x0720) ;;
         mret c
       else mret c) ;
  let c := if (c_col c =? 80) || (ch =? 10) then mk_cursor 0 (u8 (c_row c + 1)) else c in
  c ← (if 25 <=? c_row c then scroll_up_one ;; mret (mk_cursor (c_col c) 24) else mret c) ;
  write_cursor c.

Definition video_putchar (ch : Z) : bios unit := if ch =? 13 then mret () else emit_char (s8 ch).

(** [putchar] of [serial.c]; it calls itself for the return after a line feed. *)
Definition put_one (ch : Z) : bios unit :=
  (if SERIAL_STDIO then serial_one ch else mret ()) ;;
  g ← get_var video_graphics ;
  if nz g then mret () else video_putchar (s8 ch).
Definition putchar (ch : Z) : bios unit :=
  let ch := u8 ch in
  put_one ch ;;
  if ch =? 10 then put_one 13 else mret ().

Fixpoint putstr (l : list Z) : bios unit :=
  match l with [] => mret () | ch :: l => putchar ch ;; putstr l end.

(** [hexarr]. *)
Definition hex_digit (n : Z) : Z := if n <? 10 then 0x30 + n else 0x61 + (n - 10).
Definition putbyte (b : Z) : bios unit :=
  putchar (hex_digit ((b .& 0xf0) .>> 4)) ;;
  putchar (hex_digit (b .& 0x0f)).

(** [utils.c]: the loop after the message has no end. *)
Definition panic {A} (p : string) : bios A :=
  led_set LED_PANIC ;;
  putstr (text p) ;;
  putstr ([10; 10] ++ text "Halted." ++ [10]) ;;
  throw Halted.

(** ** INT 10h *)

Definition read_char (r : callregs) : bios callregs :=
  c ← read_cursor ;
  v ← readw frame_buffer_segment (cell_addr (c_row c) (c_col c)) ;
  write_cursor c ;;
  mret (put_ax v r).

Definition write_char_and_attribute (r : callregs) : bios callregs :=
  c ← read_cursor ;
  let v := u16 ((u16 (lo (r_bx r)) .<< 8) .| lo (r_ax r)) in
  writew frame_buffer_segment (cell_addr (c_row c) (c_col c)) v ;;
  mret r.

Definition write_char (r : callregs) : bios callregs := putchar (lo (r_ax r)) ;; mret r.

Definition set_cursor (r : callregs) : bios callregs :=
  read_cursor ;;
  write_cursor (mk_cursor (lo (r_dx r)) (hi (r_dx r))) ;;
  mret r.

Definition get_cursor (r : callregs) : bios callregs :=
  c ← read_cursor ;
  start ← bda_read cursor_start ;
  end_ ← bda_read cursor_end ;
  let r := put_dl (c_col c) (put_dh (c_row c) (put_cl end_ (put_ch start r))) in
  write_cursor c ;;
  mret r.

Definition set_cursor_scan_start (scan_start : Z) : bios unit :=
  let scan_start := if nz (scan_start .& 0x20) then 0x10 .| (scan_start .& 0xf) else scan_start in
  crtc_reg_write 0xa scan_start.
Definition set_cursor_scan_end (scan_end : Z) : bios unit := crtc_reg_write 0xb scan_end.
Definition set_cursor_bda (scan_start scan_end : Z) : bios unit :=
  bda_write cursor_start scan_start ;; bda_write cursor_end scan_end.

Definition __set_cursor_shape (scan_start scan_end : Z) : bios unit :=
  set_cursor_scan_end scan_end ;;
  set_cursor_scan_start scan_start ;;
  set_cursor_bda scan_start scan_end.
Definition set_cursor_shape (r : callregs) : bios callregs :=
  __set_cursor_shape (hi (r_cx r)) (lo (r_cx r)) ;; mret r.

Definition get_video_mode (r : callregs) : bios callregs :=
  a ← inb 0x3c0 ;
  r ← (if a =? 0x41 then mret (put_al 0x13 r)
       else
         m ← inb 0x3d8 ;
         mret (put_al (if nz (m .& (1 .<< 0)) then 3 else 5) r)) ;
  mret (put_bh 0 (put_ah 80 r)).

Definition restore_dac : bios unit :=
  outb 0x3c8 0 ;;
  for_loop 256 (fun m =>
    l ← get_var init_dac ;
    match l !! Z.to_nat m with
    | None => throw BadIndex
    | Some c => outb 0x3c9 (dac_r c) ;; outb 0x3c9 (dac_g c) ;; outb 0x3c9 (dac_b c)
    end).

Definition __set_video_mode (mode : Z) : bios Z :=
  match mode with
  | 0x2 | 0x3 =>
      outb 0x3c0 0x0c ;;
      outb 0x3d8 ((1 .<< 0) .| (1 .<< 3)) ;;
      set_var (put_video_graphics 0) ;;
      __scroll_up 0 24 0 79 0x07 25 ;;
      mret 0
  | 0x4 | 0x5 =>
      outb 0x3c0 0x0c ;;
      outb 0x3d8 ((1 .<< 1) .| (1 .<< 3)) ;;
      memset_seg frame_buffer_segment frame_buffer_offset 0 (320 * 200 / 4) ;;
      set_var (put_video_graphics 1) ;;
      mret 0
  | 0x13 =>
      restore_dac ;;
      outb 0x3c0 0x41 ;;
      outb 0x3d8 ((1 .<< 1) .| (1 .<< 3)) ;;
      memset_seg vga_frame_buffer_segment 0 0 (320 * 200) ;;
      set_var (put_video_graphics 1) ;;
      mret 0
  | _ => mret (-1)
  end.

Definition set_video_mode (r : callregs) : bios callregs :=
  rc ← __set_video_mode (lo (r_ax r)) ;
  if nz rc then mret (raise_flag CF r)
  else bda_write video_mode (lo (r_ax r)) ;; mret r.

Definition set_palette (r : callregs) : bios callregs :=
  color_reg ← inb 0x3d9 ;
  let color_reg :=
    if hi (r_bx r) =? 0 then u8 (u8 (color_reg .& ~. 0x0f) .| (lo (r_bx r) .& 0x0f))
    else if hi (r_bx r) =? 1
    then u8 (u8 (color_reg .& ~. (1 .<< 5)) .| (Z.b2z (nz (lo (r_bx r))) .<< 5))
    else color_reg in
  outb 0x3d9 color_reg ;;
  mret r.

Definition vga_combination (r : callregs) : callregs :=
  if lo (r_ax r) =? 0x00 then put_bl 0x08 (put_bh 0x08 (put_al 0x1a r)) else raise_flag CF r.

Definition vga_config (r : callregs) : callregs :=
  if lo (r_bx r) =? 0x10 then put_cx 0 (put_bl 0 (put_bh 0 r)) else raise_flag CF r.

Definition set_dac_block (r : callregs) : bios callregs :=
  outb 0x3c8 (r_bx r) ;;
  for_loop (u16 (r_cx r)) (fun m =>
    for_loop 3 (fun j => v ← readb (r_es r) (u16 (r_dx r + m * 3) + j) ; outb 0x3c9 v)) ;;
  mret r.

Definition set_get_palette (r : callregs) : bios callregs :=
  let r := lower_flag CF r in
  if lo (r_ax r) =? 0x12 then set_dac_block r else mret (raise_flag CF r).

Definition video_services (r : callregs) : bios callregs :=
  let r := lower_flag CF r in
  match hi (r_ax r) with
  | 0xe => write_char r
  | 0x2 => set_cursor r
  | 0x3 => get_cursor r
  | 0x1 => set_cursor_shape r
  | 0x6 => c ← read_cursor ; scroll_up r ;; write_cursor c ;; mret r
  | 0x7 => c ← read_cursor ; scroll_down r ;; write_cursor c ;; mret r
  | 0xf => get_video_mode r
  | 0x9 => write_char_and_attribute r
  | 0x8 => read_char r
  | 0xb => set_palette r
  | 0x0 => set_video_mode r
  | 0x10 => set_get_palette r
  | 0x11 => mret r
  | 0x1a => mret (vga_combination r)
  | 0x12 => mret (vga_config r)
  | _ => mret (raise_flag CF r)
  end.

(** ** Initialisation *)

Definition save_init_dac : bios unit :=
  outb 0x3c7 0x0 ;;
  for_loop 256 (fun i =>
    r ← inb 0x3c9 ;
    g ← inb 0x3c9 ;
    b ← inb 0x3c9 ;
    set_var (fun v => put_init_dac (<[Z.to_nat i := mk_dac r g b]> (init_dac v)) v)).

Definition display_init : bios unit :=
  save_init_dac ;;
  __set_video_mode 3 ;;
  for_loop 25 (fun r => for_loop 80 (fun c =>
    writew frame_buffer_segment (cell_addr r c) 0x0720)) ;;
  bda_write video_mode 0x03 ;;
  bda_write num_screen_cols 80 ;;
  bda_write last_screen_row (25 - 1) ;;
  bda_write crt_controller_base 0x3d4 ;;
  bda_write video_display_data_area 1 ;;
  bda_write dcc_index 0x0a ;;
  __set_cursor_shape 7 7 ;;
  write_cursor (mk_cursor 0 0) ;;
  outb 0x3d9 (1 .<< 5).

End display.
