(* ===== verification/BiosPrintk.v ===== *)
(** * The BIOS: formatted output, [bios/printk.c] *)
From S2P Require Import Prelude Config ErrorState IOPorts Machine Bios BiosDisplay.
From Stdlib Require Import String.
#[local] Open Scope list_scope.
#[local] Abbreviation length := Datatypes.length.

(** The variable arguments: numbers (and pointers and characters), strings. *)
Inductive va := Num (n : Z) | Str (s : list Z).

(** [struct string_formatter], with its specifier; the buffer is what has been
    put in it, and its length is [len]. *)
Record string_formatter := mk_formatter {
  buf : list Z; maxlen : Z; fmt : list Z; precision : Z; zero_pad : bool; ap : list va
}.

Definition put_fmt (x : list Z) (f : string_formatter) : string_formatter :=
  mk_formatter (buf f) (maxlen f) x (precision f) (zero_pad f) (ap f).
Definition put_specifier (p : Z) (z : bool) (f : string_formatter) : string_formatter :=
  mk_formatter (buf f) (maxlen f) (fmt f) p z (ap f).
Definition put_ap (x : list va) (f : string_formatter) : string_formatter :=
  mk_formatter (buf f) (maxlen f) (fmt f) (precision f) (zero_pad f) x.

Definition len (f : string_formatter) : Z := Z.of_nat (length (buf f)).

Definition output_char (c : Z) (f : string_formatter) : string_formatter :=
  if len f <? u16 (maxlen f - 1)
  then mk_formatter (buf f ++ [s8 c]) (maxlen f) (fmt f) (precision f) (zero_pad f) (ap f)
  else f.

(** A string is the characters before its NUL. *)
Definition output_string (l : list Z) (f : string_formatter) : string_formatter :=
  fold_left (fun f c => output_char c f) l f.

(** [buf[nchars - 1]] first. *)
Definition output_buf_reversed (digits : list Z) (f : string_formatter) : string_formatter :=
  output_string (map hex_digit (rev digits)) f.

Definition output_zero_padding (num_zeroes : Z) (f : string_formatter) : string_formatter :=
  if zero_pad f && (0 <? num_zeroes) then output_string (replicate (Z.to_nat num_zeroes) 0x30) f else f.

(** The digits of the [do ... while (val)] loop, the lowest first; sixteen
    turns are enough for an [unsigned] in any base from 2. *)
Fixpoint digits_of (fuel : nat) (val base : Z) : list Z :=
  match fuel with
  | O => []
  | S fuel => (val mod base) :: (if val / base =? 0 then [] else digits_of fuel (val / base) base)
  end.

Definition output_unsigned (val base : Z) (f : string_formatter) : string_formatter :=
  let reversal_buf := digits_of 16 (u16 val) base in
  let f := output_zero_padding (precision f - Z.of_nat (length reversal_buf)) f in
  output_buf_reversed reversal_buf f.

Definition output_pointer (ptr : Z) (f : string_formatter) : string_formatter :=
  let val := u16 ptr in
  let f := put_specifier 4 true f in
  if val =? 0 then output_string (text "(null)") f
  else output_unsigned val 16 (output_string (text "0x") f).

(** [None]: an argument that is not there, or the end of the format passed. *)
Definition next_arg (f : string_formatter) : option (va * string_formatter) :=
  match ap f with [] => None | a :: l => Some (a, put_ap l f) end.
Definition num_arg (f : string_formatter) : option (Z * string_formatter) :=
  match next_arg f with Some (Num n, f) => Some (n, f) | _ => None end.
Definition str_arg (f : string_formatter) : option (list Z * string_formatter) :=
  match next_arg f with Some (Str s, f) => Some (s, f) | _ => None end.

Definition output_item (f : string_formatter) : option string_formatter :=
  match fmt f with
  | [] => None
  | c :: rest =>
      f ← (if c =? 0x73 then '(s, f) ← str_arg f ; Some (output_string s f)
           else if c =? 0x75 then '(n, f) ← num_arg f ; Some (output_unsigned n 10 f)
           else if c =? 0x78 then '(n, f) ← num_arg f ; Some (output_unsigned n 16 f)
           else if c =? 0x70 then '(n, f) ← num_arg f ; Some (output_pointer n f)
           else '(n, f) ← num_arg f ; Some (output_char n f)) ;
      Some (put_fmt rest f)
  end.

Fixpoint read_digits (l : list Z) (p : Z) : Z * list Z :=
  match l with
  | c :: l' => if (0x30 <=? c) && (c <=? 0x39) then read_digits l' (p * 10 + (c - 0x30)) else (p, l)
  | [] => (p, l)
  end.
Definition read_precision (f : string_formatter) : string_formatter :=
  let '(p, rest) := read_digits (fmt f) 0 in put_specifier p (zero_pad f) (put_fmt rest f).

Definition read_zero_pad (f : string_formatter) : string_formatter :=
  match fmt f with
  | 0x30 :: rest => put_specifier (precision f) true (put_fmt rest f)
  | _ => put_specifier (precision f) false f
  end.

Definition parse_specifier (f : string_formatter) : string_formatter :=
  read_precision (read_zero_pad (put_fmt (tail (fmt f)) f)).

(** What stands before the first NUL. *)
Fixpoint c_string (l : list Z) : list Z :=
  match l with
  | [] => []
  | c :: l => if c =? 0 then [] else c :: c_string l
  end.

(** The loop of [string_format]; every turn takes a character of the format. *)
Fixpoint format_loop (fuel : nat) (f : string_formatter) : option string_formatter :=
  match fuel, fmt f with
  | _, [] | O, _ => Some f
  | S fuel, c :: rest =>
      if len f <? u16 (maxlen f - 1) then
        f ← (if c =? 0x25 then output_item (parse_specifier f)
             else Some (output_char c (put_fmt rest f))) ;
        format_loop fuel f
      else Some f
  end.

Definition string_format (maxlen : Z) (fmt : list Z) (ap : list va) : option (list Z) :=
  buf <$> format_loop (length fmt) (mk_formatter [] maxlen fmt 0 false ap).

Definition printk {CFG : Config} {BC : BiosConfig} {D} {IOP : IOPorts D} (fmt : string) (args : list va) :
    bios (D := D) unit :=
  s ← from_option BadIndex (string_format 128 (text fmt) args) ;
  putstr (c_string s).
