(* ===== verification/BiosKeyboard.v ===== *)
(** * The BIOS: the keyboard, [bios/keyboard.c] and [bios/scancodes.h] *)
From S2P Require Import Prelude Config MainMemory Registers ErrorState IOPorts Machine ModRM Core Bios.

(** [struct keydef] and [keycode_map]: zero where the table names nothing. *)
Record keydef := mk_keydef { normal : Z; shifted : Z; ctrl : Z; alt : Z }.

Definition keycode_entries : list (Z * keydef) := [
  (0x1e, mk_keydef 0x1e61 0x1e41 0x1e01 0x1e00); (0x30, mk_keydef 0x3062 0x3042 0x3002 0x3000);
  (0x2e, mk_keydef 0x2e63 0x2e43 0x2e03 0x2e00); (0x20, mk_keydef 0x2064 0x2044 0x2004 0x2000);
  (0x12, mk_keydef 0x1265 0x1245 0x1205 0x1200); (0x21, mk_keydef 0x2166 0x2146 0x2106 0x2100);
  (0x22, mk_keydef 0x2267 0x2247 0x2207 0x2200); (0x23, mk_keydef 0x2368 0x2348 0x2308 0x2300);
  (0x17, mk_keydef 0x1769 0x1749 0x1709 0x1700); (0x24, mk_keydef 0x246a 0x244a 0x240a 0x2400);
  (0x25, mk_keydef 0x256b 0x254b 0x250b 0x2500); (0x26, mk_keydef 0x266c 0x264c 0x260c 0x2600);
  (0x32, mk_keydef 0x326d 0x324d 0x320d 0x3200); (0x31, mk_keydef 0x316e 0x314e 0x310e 0x3100);
  (0x18, mk_keydef 0x186f 0x184f 0x180f 0x1800); (0x19, mk_keydef 0x1970 0x1950 0x1910 0x1900);
  (0x10, mk_keydef 0x1071 0x1051 0x1011 0x1000); (0x13, mk_keydef 0x1372 0x1352 0x1312 0x1300);
  (0x1f, mk_keydef 0x1f73 0x1f53 0x1f13 0x1f00); (0x14, mk_keydef 0x1474 0x1454 0x1414 0x1400);
  (0x16, mk_keydef 0x1675 0x1655 0x1615 0x1600); (0x2f, mk_keydef 0x2f76 0x2f56 0x2f16 0x2f00);
  (0x11, mk_keydef 0x1177 0x1157 0x1117 0x1100); (0x2d, mk_keydef 0x2d78 0x2d58 0x2d18 0x2d00);
  (0x15, mk_keydef 0x1579 0x1559 0x1519 0x1500); (0x2c, mk_keydef 0x2c7a 0x2c5a 0x2c1a 0x2c00);
  (0x02, mk_keydef 0x0231 0x0221 0x0231 0x7800); (0x03, mk_keydef 0x0332 0x0340 0x0300 0x7900);
  (0x04, mk_keydef 0x0433 0x0423 0x0433 0x7a00); (0x05, mk_keydef 0x0534 0x0524 0x0534 0x7b00);
  (0x06, mk_keydef 0x0635 0x0625 0x0635 0x7c00); (0x07, mk_keydef 0x0736 0x075e 0x071e 0x7d00);
  (0x08, mk_keydef 0x0837 0x0826 0x0837 0x7e00); (0x09, mk_keydef 0x0938 0x092a 0x0938 0x7f00);
  (0x0a, mk_keydef 0x0a39 0x0a28 0x0a39 0x8000); (0x0b, mk_keydef 0x0b30 0x0b29 0x0b30 0x8100);
  (0x0c, mk_keydef 0x0c2d 0x0c5f 0x0c1f 0x8200); (0x0d, mk_keydef 0x0d3d 0x0d2b 0x0d2b 0x8300);
  (0x1a, mk_keydef 0x1a5b 0x1a7b 0x1a1b 0x1a00); (0x1b, mk_keydef 0x1b5d 0x1b7d 0x1b1d 0x1b00);
  (0x27, mk_keydef 0x273b 0x273a 0x273b 0x2700); (0x28, mk_keydef 0x2827 0x2822 0x2827 0x2827);
  (0x29, mk_keydef 0x2960 0x297e 0x2960 0x2960); (0x2b, mk_keydef 0x2b5c 0x2b7c 0x2b1c 0x2600);
  (0x33, mk_keydef 0x332c 0x333c 0x332c 0x332c); (0x34, mk_keydef 0x342e 0x343e 0x342e 0x342e);
  (0x35, mk_keydef 0x352f 0x353f 0x352f 0x352f); (0x3b, mk_keydef 0x3b00 0x5400 0x5e00 0x6800);
  (0x3c, mk_keydef 0x3c00 0x5500 0x5f00 0x6900); (0x3d, mk_keydef 0x3d00 0x5600 0x6000 0x6a00);
  (0x3e, mk_keydef 0x3e00 0x5700 0x6100 0x6b00); (0x3f, mk_keydef 0x3f00 0x5800 0x6200 0x6c00);
  (0x40, mk_keydef 0x4000 0x5900 0x6300 0x6d00); (0x41, mk_keydef 0x4100 0x5a00 0x6400 0x6e00);
  (0x42, mk_keydef 0x4200 0x5b00 0x6500 0x6f00); (0x43, mk_keydef 0x4300 0x5c00 0x6600 0x7000);
  (0x44, mk_keydef 0x4400 0x5d00 0x6700 0x7100); (0x85, mk_keydef 0x8500 0x8700 0x8900 0x8b00);
  (0x86, mk_keydef 0x8600 0x8800 0x8a00 0x8c00); (0x0e, mk_keydef 0x0e08 0x0e08 0x0e7f 0x0e00);
  (0x1c, mk_keydef 0x1c0d 0x1c0d 0x1c0a 0xa600); (0x01, mk_keydef 0x011b 0x011b 0x011b 0x0100);
  (0x39, mk_keydef 0x3920 0x3920 0x3920 0x3920); (0x0f, mk_keydef 0x0f09 0x0f00 0x9400 0xa500);
  (0x53, mk_keydef 0x5300 0x532e 0x9300 0xa300); (0x50, mk_keydef 0x5000 0x5032 0x9100 0xa000);
  (0x4f, mk_keydef 0x4f00 0x4f31 0x7500 0x9f00); (0x47, mk_keydef 0x4700 0x4737 0x7700 0x9700);
  (0x52, mk_keydef 0x5200 0x5230 0x9200 0xa200); (0x4b, mk_keydef 0x4b00 0x4b34 0x7300 0x9b00);
  (0x51, mk_keydef 0x5100 0x5133 0x7600 0xa100); (0x49, mk_keydef 0x4900 0x4939 0x8400 0x9900);
  (0x4d, mk_keydef 0x4d00 0x4d36 0x7400 0x9d00); (0x48, mk_keydef 0x4800 0x4838 0x8d00 0x9800)].

Definition keycode_map_size : Z := 135.
Definition keycode_map (b : Z) : keydef :=
  match find (fun e => fst e =? b) keycode_entries with
  | Some e => snd e
  | None => mk_keydef 0 0 0 0
  end.

Definition PS2_DATA_PORT : Z := 0x60.
Definition PS2_CTRL_PORT : Z := 0x61.
Definition KBD_PS2_CTRL_CLEAR : Z := 1 .<< 7.

Definition SCANCODE_LSHIFT : Z := 0x2a.
Definition SCANCODE_LCTRL : Z := 0x1d.
Definition SCANCODE_LALT : Z := 0x38.
Definition KBD_FLAG_LSHIFT : Z := 1 .<< 1.
Definition KBD_FLAG_LCTRL : Z := 1 .<< 2.
Definition KBD_FLAG_LALT : Z := 1 .<< 3.

Definition is_modifier (b : Z) : bool :=
  let b := u8 (b .& ~. 0x80) in
  (b =? SCANCODE_LALT) || (b =? SCANCODE_LCTRL) || (b =? SCANCODE_LSHIFT).

Section keyboard.
Context {CFG : Config} {BC : BiosConfig} {D : Type} {IOP : IOPorts D}.
Abbreviation bios := (bios (D := D)).

(** ** The ring of keys in the data area *)

Definition buffer_start : Z := offset_of (kbd_buffer 0).
Definition buffer_end : Z := offset_of drive_recalibration_status.

Definition kbd_buffer_full : bios bool :=
  tail ← bda_read kbd_buffer_tail ;
  head ← bda_read kbd_buffer_head ;
  mret ((tail =? u16 (head - 2)) || ((head =? buffer_start) && (tail =? buffer_end - 2))).

(** The pointer after [p]. *)
Definition next_key (p : Z) : Z :=
  let p := u16 (p + 2) in
  if buffer_end <=? p then buffer_start else p.

(** The element that the pointer [p] names. *)
Definition key_at (p : Z) : bda_field := kbd_buffer (u16 (p - buffer_start) / 2).

Definition kbd_buffer_add (key : Z) : bios unit :=
  full ← kbd_buffer_full ;
  if full : bool then led_set LED_KBD_BUFFER_FULL
  else
    led_clear LED_KBD_BUFFER_FULL ;;
    led_set LED_KBD_BUFFER_NON_EMPTY ;;
    tail ← bda_read kbd_buffer_tail ;
    bda_write (key_at tail) key ;;
    bda_write kbd_buffer_tail (next_key tail).

Definition kbd_buffer_pop : bios unit :=
  head ← bda_read kbd_buffer_head ;
  let head := next_key head in
  bda_write kbd_buffer_head head ;;
  tail ← bda_read kbd_buffer_tail ;
  if head =? tail then led_clear LED_KBD_BUFFER_NON_EMPTY else mret ().

(** ** Scan codes *)

Definition modifier_key (b : Z) (keyup : bool) : bios unit :=
  flags ← bda_read (keyboard_flags 0) ;
  let b := u8 (b .& ~. 0x80) in
  let mask := 0 in
  let mask := if b =? SCANCODE_LALT then KBD_FLAG_LALT else mask in
  let mask := if b =? SCANCODE_LSHIFT then KBD_FLAG_LSHIFT else mask in
  let mask := if b =? SCANCODE_LCTRL then KBD_FLAG_LCTRL else mask in
  let flags := if keyup then u8 (flags .& ~. mask) else u8 (flags .| mask) in
  bda_write (keyboard_flags 0) flags.

Definition get_kbd_flags : bios Z := bda_read (keyboard_flags 0).

Definition keypress (b : Z) : bios unit :=
  let def := keycode_map b in
  flags ← get_kbd_flags ;
  if nz (flags .& KBD_FLAG_LSHIFT) && nz (shifted def) then kbd_buffer_add (shifted def)
  else if nz (flags .& KBD_FLAG_LCTRL) && nz (ctrl def) then kbd_buffer_add (ctrl def)
  else if nz (flags .& KBD_FLAG_LALT) && nz (alt def) then kbd_buffer_add (alt def)
  else if nz (normal def) then kbd_buffer_add (normal def)
  else mret ().

Definition keyboard_reset : bios unit :=
  v ← inb PS2_CTRL_PORT ; outb PS2_CTRL_PORT (v .| KBD_PS2_CTRL_CLEAR).

Definition keyboard_poll : bios bool :=
  b ← inb PS2_DATA_PORT ;
  if negb (nz b) then mret false
  else
    v ← inb PS2_CTRL_PORT ;
    outb PS2_CTRL_PORT (v .| KBD_PS2_CTRL_CLEAR) ;;
    let keyup := nz (b .& 0x80) in
    (if is_modifier b then modifier_key b keyup
     else if negb keyup && (b <? keycode_map_size) then keypress b
     else mret ()) ;;
    mret true.

Definition kbd_buffer_peek : bios Z :=
  head ← bda_read kbd_buffer_head ;
  tail ← bda_read kbd_buffer_tail ;
  (if head =? tail then poll_while keyboard_poll else mret ()) ;;
  if head =? tail then mret 0 else bda_read (key_at head).

(** ** [serial_poll] of [serial.c], which feeds the same ring *)

Definition serial_poll : bios bool :=
  v ← inb UART_STATUS_PORT ;
  let ready := nz (v .& UART_RX_READY) in
  (if ready then c ← inb UART_DATA_PORT ; kbd_buffer_add c else mret ()) ;;
  mret ready.

(** ** INT 16h *)

Fixpoint wait_key (fuel : nat) : bios Z :=
  match fuel with
  | O => throw OutOfFuel
  | S fuel =>
      c ← kbd_buffer_peek ;
      (if nz c then mret ()
       else
         (if SERIAL_STDIO then serial_poll ;; mret () else mret ()) ;;
         poll_while keyboard_poll) ;;
      if nz c then mret c else wait_key fuel
  end.

Definition keyboard_wait (r : callregs) : bios callregs :=
  let r := lower_flag CF r in
  c ← wait_key poll_bound ;
  kbd_buffer_pop ;;
  mret (put_ax c r).

Definition keyboard_status (r : callregs) : bios callregs :=
  let r := lower_flag CF r in
  c ← kbd_buffer_peek ;
  (if nz c then mret () else keyboard_poll ;; mret ()) ;;
  (if negb (nz c) && SERIAL_STDIO then serial_poll ;; mret () else mret ()) ;;
  c ← kbd_buffer_peek ;
  let r := if nz c then lower_flag ZF r else raise_flag ZF r in
  mret (put_ax c r).

Definition keyboard_shift_status (r : callregs) : bios callregs :=
  let r := put_ah 0 (lower_flag CF r) in
  flags ← bda_read (keyboard_flags 0) ;
  mret (put_al flags r).

Definition keyboard_services (r : callregs) : bios callregs :=
  let r := raise_flag CF r in
  match hi (r_ax r) with
  | 0x0 | 0x10 => keyboard_wait r
  | 0x1 | 0x11 => keyboard_status r
  | 0x2 => keyboard_shift_status r
  | _ => mret r
  end.

Definition keyboard_init : bios unit :=
  bda_write (keyboard_flags 0) 0 ;;
  bda_write (keyboard_flags 1) 0 ;;
  bda_write kbd_buffer_tail buffer_start ;;
  bda_write kbd_buffer_head buffer_start ;;
  keyboard_reset ;;
  irq_enable 1.

End keyboard.
