(* ===== verification/BiosMouse.v ===== *)
(** * The BIOS: the mouse, [bios/mouse.c] *)
From S2P Require Import Prelude Config MainMemory Registers ErrorState IOPorts Machine ModRM Core Bios.
From S2P Require Import BiosDisplay BiosPrintk.
From Stdlib Require Import String.

Definition MOUSE_PS2_CTRL_CLEAR : Z := 1 .<< 7.
Definition MOUSE_DATA : Z := 0xffe0.
Definition MOUSE_STATUS : Z := 0xffe1.
Definition MOUSE_IRQ : Z := 7.
Definition CMD_TIMEOUT : Z := 32768.
Definition CMD_REFRESH : Z := 0xf3.
Definition CMD_DISABLE : Z := 0xf5.
Definition CMD_ENABLE : Z := 0xf4.

Section mouse.
Context {CFG : Config} {BC : BiosConfig} {D : Type} {IOP : IOPorts D}.
Abbreviation bios := (bios (D := D)).

(** The byte read, or [None] for the result -1. *)
Definition mouse_read : bios (option Z) :=
  s ← inb MOUSE_STATUS ;
  if negb (nz (s .& (1 .<< 4))) then mret None
  else b ← inb MOUSE_DATA ; mret (Some b).

(** [do ... while (m++ < CMD_TIMEOUT)], [n] turns after this one. *)
Fixpoint mouse_answer (n : nat) : bios (option Z) :=
  r ← mouse_read ;
  match r, n with
  | Some b, _ => mret (Some b)
  | None, O => mret None
  | None, S n => mouse_answer n
  end.

(** The result and [*out]. *)
Definition mouse_cmd (in_ : Z) : bios (Z * Z) :=
  outb MOUSE_DATA in_ ;;
  r ← mouse_answer (Z.to_nat CMD_TIMEOUT) ;
  mret (match r with Some b => (0, b) | None => (-1, 0xfe) end).

(** [while (mouse_read(&b)) continue]. *)
Fixpoint wait_byte (fuel : nat) : bios Z :=
  match fuel with
  | O => throw OutOfFuel
  | S fuel =>
      r ← mouse_read ;
      match r with Some b => mret b | None => wait_byte fuel end
  end.

Definition wait_self_test : bios Z :=
  b ← wait_byte poll_bound ;
  if negb (b =? 0xaa) then
    printk "self test failed (%02x)
" [Num b] ;;
    mret (-1)
  else
    wait_byte poll_bound ;;
    mret 0.

Definition mouse_hw_init : bios Z :=
  outb MOUSE_STATUS MOUSE_PS2_CTRL_CLEAR ;;
  '(rc, resp) ← mouse_cmd 0xff ;
  if nz rc || negb (resp =? 0xfa) then
    printk "mouse: not present
" [] ;;
    mret (-1)
  else
    rc ← wait_self_test ;
    if nz rc then mret (-1)
    else
      '(rc, resp) ← mouse_cmd CMD_ENABLE ;
      if nz rc || negb (resp =? 0xfa) then
        printk "failed to enable scanning %02x
" [Num resp] ;;
        mret (-1)
      else
        mouse_cmd CMD_REFRESH ;;
        mouse_cmd 40 ;;
        set_var (put_have_mouse 1) ;;
        mret 0.

Definition mouse_init : bios unit := outb MOUSE_STATUS MOUSE_PS2_CTRL_CLEAR.

(** [es] is the register at the call. *)
Definition setup_mouse (es : Z) (r : callregs) : bios callregs :=
  set_var (put_mouse_driver_addr (r_bx r, es)) ;;
  h ← get_var have_mouse ;
  if nz h then mouse_init ;; mret (lower_flag CF r) else mret r.

Definition enable_mouse (r : callregs) : bios callregs :=
  let r := lower_flag CF r in
  set_var (put_mouse_driver_enabled (hi (r_bx r))) ;;
  (if nz (hi (r_bx r)) then irq_enable MOUSE_IRQ else irq_disable MOUSE_IRQ) ;;
  mret r.

Definition mouse_services (es : Z) (r : callregs) : bios callregs :=
  match lo (r_ax r) with
  | 0x7 => r ← setup_mouse es r ; mret (put_ax 0 r)
  | 0x0 => r ← enable_mouse r ; mret (put_ax 0 r)
  | 0x5 | 0x3 => mret (put_ax 0 (lower_flag CF r))
  | _ => mret (raise_flag CF r)
  end.

Definition mouse_suspend : bios unit :=
  h ← get_var have_mouse ;
  if nz h then mouse_cmd CMD_DISABLE ;; mret () else mret ().

Definition mouse_resume : bios unit :=
  h ← get_var have_mouse ;
  if nz h then
    mouse_init ;;
    set_var (put_mouse_nbytes 0) ;;
    mouse_cmd CMD_ENABLE ;;
    mouse_init
  else mret ().

End mouse.
