(* ===== verification/BiosSD.v ===== *)
(** * The BIOS: the SD card and INT 13h, [bios/sd.c] and [bios/disk.c] *)
From S2P Require Import Prelude Config MainMemory Registers ErrorState IOPorts Machine ModRM Core Bios.
From S2P Require Import BiosDisplay BiosPrintk BiosMouse.
From Stdlib Require Import String.
#[local] Open Scope list_scope.

Definition SPI_CONTROL_PORT : Z := 0xfff0.
Definition SPI_TRANSFER_PORT : Z := 0xfff2.
Definition SPI_XFER_BUSY : Z := 1 .<< 8.
Definition SPI_CS_DEACTIVATE : Z := 1 .<< 9.
Definition XFER_BUF_SIZE : Z := 1280.

(** [struct spi_cmd]. *)
Record spi_cmd := mk_spi_cmd { cmd : Z; arg : list Z; crc : Z; rx_datalen : Z }.

Definition R1_ERROR_MASK : Z := 0xfe.
Definition SD_NCR : Z := 8.
Definition DATA_START_TOKEN : Z := 0xfe.
Definition BLOCK_SIZE : Z := 512.
Definition MAX_DATA_START_OFFS : Z := 512.

Definition spi_command_len (c : spi_cmd) : Z := u16 (1 + 6 + rx_datalen c + SD_NCR).

Section sd.
Context {CFG : Config} {BC : BiosConfig} {D : Type} {IOP : IOPorts D}.
Abbreviation bios := (bios (D := D)).

(** ** The bus *)

(** [spi_xfer_buf[offs]]. *)
Definition xfer_char (offs : Z) : bios Z :=
  l ← get_var spi_xfer_buf ;
  if (0 <=? offs) && (offs <? XFER_BUF_SIZE)
  then from_option BadIndex (l !! Z.to_nat offs) else throw BadIndex.
Definition spi_xfer_buf_set (offs v : Z) : bios unit :=
  if (0 <=? offs) && (offs <? XFER_BUF_SIZE)
  then set_var (fun s => put_spi_xfer_buf (<[Z.to_nat offs := s8 v]> (spi_xfer_buf s)) s)
  else throw BadIndex.
Definition spi_xfer_buf_get (offs : Z) : bios Z := c ← xfer_char offs ; mret (u8 c).

Definition spi_wait_idle : bios unit :=
  poll_while (v ← inw SPI_TRANSFER_PORT ; mret (nz (v .& SPI_XFER_BUSY))).

(** The loop of [spi_xfer], for at most [fuel] turns. *)
Fixpoint xfer_loop (fuel : nat) (len : Z) (wait_for_resp : bool) (src dst : Z)
    (non_ff_byte_received : bool) : bios unit :=
  if dst <? len then
    match fuel with
    | O => throw OutOfFuel
    | S fuel =>
        c ← (if src <? len then xfer_char src else mret 0xff) ;
        let src := if src <? len then src + 1 else src in
        outw SPI_TRANSFER_PORT c ;;
        spi_wait_idle ;;
        if negb wait_for_resp && (src =? len) then mret ()
        else
          v ← inw SPI_TRANSFER_PORT ;
          let b := u8 (v .& 0xff) in
          if negb non_ff_byte_received && (b =? 0xff)
          then xfer_loop fuel len wait_for_resp src dst non_ff_byte_received
          else
            spi_xfer_buf_set dst b ;;
            xfer_loop fuel len wait_for_resp src (dst + 1) true
    end
  else mret ().
Definition spi_xfer (len : Z) (wait_for_resp : bool) : bios unit :=
  xfer_loop poll_bound len wait_for_resp 0 0 false.

Definition sd_send_initial_clock : bios unit :=
  for_loop 8 (fun i => spi_xfer_buf_set i 0xff) ;;
  outw SPI_CONTROL_PORT (SPI_CS_DEACTIVATE .| 0x1ff) ;;
  spi_xfer 8 false.

Definition sd_flush_fifo : bios unit :=
  for_loop 128 (fun i => spi_xfer_buf_set i 0xff) ;;
  outw SPI_CONTROL_PORT 0x1ff ;;
  spi_xfer 8 false.

(** ** Commands *)

Definition spi_do_command (c : spi_cmd) : bios unit :=
  let cmdlen := spi_command_len c in
  spi_xfer_buf_set 0 0xff ;;
  spi_xfer_buf_set 1 (cmd c) ;;
  for_loop 4 (fun m => a ← from_option BadIndex (arg c !! Z.to_nat m) ; spi_xfer_buf_set (2 + m) a) ;;
  spi_xfer_buf_set 6 (crc c) ;;
  for_from (Z.to_nat (cmdlen - 7)) 7 (fun m => spi_xfer_buf_set m 0xff) ;;
  outw SPI_CONTROL_PORT 0x1 ;;
  spi_xfer cmdlen true.

(** From index [i] on, [n] bytes left: the index, and [r1.v]. *)
Fixpoint find_r1_from (n : nat) (i : Z) : bios (Z * Z) :=
  match n with
  | O => mret (-1, 0)
  | S n =>
      v ← spi_xfer_buf_get i ;
      if negb (v =? 0xff) then mret (i, v) else find_r1_from n (i + 1)
  end.
Definition find_r1_response : bios (Z * Z) := find_r1_from (Z.to_nat XFER_BUF_SIZE) 0.

(** The end of the functions that send a command: -1, or the error bits. *)
Definition command_result : bios Z :=
  '(offs, v) ← find_r1_response ;
  if offs <? 0 then mret (-1) else mret (v .& R1_ERROR_MASK).

Definition no_arg : list Z := [0; 0; 0; 0].

Definition sd_send_reset : bios Z := spi_do_command (mk_spi_cmd 0x40 no_arg 0x95 1) ;; command_result.
Definition sd_send_if_cond : bios Z :=
  spi_do_command (mk_spi_cmd 0x48 [0x00; 0x00; 0x01; 0xaa] 0x87 1) ;; command_result.

Definition sd_send_read_ocr : bios Z :=
  spi_do_command (mk_spi_cmd 0x7a no_arg 0 5) ;;
  '(r1_offs, v) ← find_r1_response ;
  if r1_offs <? 0 then mret (-1)
  else
    b0 ← spi_xfer_buf_get (r1_offs + 4) ;
    b1 ← spi_xfer_buf_get (r1_offs + 3) ;
    b2 ← spi_xfer_buf_get (r1_offs + 2) ;
    b3 ← spi_xfer_buf_get (r1_offs + 1) ;
    let u32 := b0 .| (b1 .<< 8) .| (b2 .<< 16) .| (b3 .<< 24) in
    set_var (put_sd_is_sdhc (if nz (u32 .& (1 .<< 30)) then 1 else 0)) ;;
    mret (v .& R1_ERROR_MASK).

Definition send_acmd : bios Z := spi_do_command (mk_spi_cmd 0x77 no_arg 0 1) ;; command_result.

(** [do ... while (r1.v & 0x1)]. *)
Fixpoint wait_ready (fuel : nat) : bios Z :=
  match fuel with
  | O => throw OutOfFuel
  | S fuel =>
      rc ← send_acmd ;
      if nz rc then mret rc
      else
        spi_do_command (mk_spi_cmd 0x69 [0x40; 0x00; 0x00; 0x00] 0 1) ;;
        '(offs, v) ← find_r1_response ;
        if offs <? 0 then mret (-1)
        else if nz (v .& R1_ERROR_MASK) then mret (v .& R1_ERROR_MASK)
        else if nz (v .& 0x1) then wait_ready fuel else mret 0
  end.
Definition sd_wait_ready : bios Z := wait_ready poll_bound.

Definition sd_set_blocklen : bios Z :=
  spi_do_command (mk_spi_cmd 0x50 [0x00; 0x00; 0x02; 0x00] 0 1) ;; command_result.

(** The [while] loop, [n] indices before the end of the buffer; the byte is
    read before the index is compared with the size. *)
Fixpoint find_data_from (n : nat) (offs : Z) : bios Z :=
  v ← spi_xfer_buf_get offs ;
  if v =? DATA_START_TOKEN then mret (offs + 1)
  else match n with O => mret (-1) | S n => find_data_from n (offs + 1) end.
Definition find_data_start (r1offs : Z) : bios Z :=
  find_data_from (Z.to_nat (XFER_BUF_SIZE - (r1offs + 1))) (r1offs + 1).

(** [arg] of a read or write: the address, its highest byte first. *)
Definition address_arg (address : Z) : list Z :=
  [u8 (address .>> 24 .& 0xff); u8 (address .>> 16 .& 0xff); u8 (address .>> 8 .& 0xff);
   u8 (address .>> 0 .& 0xff)].

(** [unsigned long address = sector; if (!sd_is_sdhc) address *= 512LU]. *)
Definition sector_address (sector : Z) : bios Z :=
  h ← get_var sd_is_sdhc ;
  mret (if nz h then u32 sector else u32 (u32 sector * 512)).

(** ** Writing *)

Definition sd_make_write_request (address : Z) : bios Z :=
  spi_do_command (mk_spi_cmd 0x58 (address_arg address) 0 1) ;; command_result.

(** [memcpy_seg(get_cs(), spi_xfer_buf + offs, sseg, saddr, 512)], and the
    other way. *)
Definition copy_to_buf (offs sseg saddr : Z) : bios unit :=
  for_loop 512 (fun i => v ← readb sseg (saddr + i) ; spi_xfer_buf_set (offs + i) v).
Definition copy_from_buf (dseg daddr offs : Z) : bios unit :=
  for_loop 512 (fun i => v ← spi_xfer_buf_get (offs + i) ; writeb dseg (daddr + i) v).

Definition sd_write_block (sseg saddr : Z) : bios unit :=
  spi_xfer_buf_set 0 0xff ;;
  spi_xfer_buf_set 1 0xfe ;;
  copy_to_buf 2 sseg saddr ;;
  spi_xfer_buf_set (2 + 512) 0x0 ;;
  spi_xfer_buf_set (3 + 512) 0x0 ;;
  spi_xfer_buf_set (4 + 512) 0xff ;;
  spi_xfer (5 + 512) true.

Definition write_received (packet_response : Z) : bool :=
  nz (packet_response .& 0x1) && (packet_response .>> 1 .& 0x7 =? 0x2).

(** [n] turns of the loop left. *)
Fixpoint wait_completion (n : nat) : bios Z :=
  match n with
  | O => mret (-1)
  | S n =>
      spi_xfer_buf_set 0 0xff ;;
      spi_xfer 1 true ;;
      v ← spi_xfer_buf_get 0 ;
      if nz v then mret 0 else wait_completion n
  end.
Definition wait_for_write_completion : bios Z := wait_completion (Z.to_nat 32768).

Definition write_sector (sector sseg saddr : Z) : bios Z :=
  address ← sector_address sector ;
  mouse_suspend ;;
  rc ← sd_make_write_request address ;
  if nz rc then mouse_resume ;; mret (-1)
  else
    sd_write_block sseg saddr ;;
    packet_response ← spi_xfer_buf_get 0 ;
    if negb (write_received packet_response) then mouse_resume ;; mret (-1)
    else
      rc ← wait_for_write_completion ;
      mouse_resume ;;
      mret rc.

(** ** Reading *)

Definition fail_with (p : string) : bios Z := putstr (text p) ;; mouse_resume ;; mret (-1).

Definition read_sector (sector dseg daddr : Z) : bios Z :=
  address ← sector_address sector ;
  mouse_suspend ;;
  spi_do_command
    (mk_spi_cmd 0x51 (address_arg address) 0 (1 + 1 + BLOCK_SIZE + 2 + MAX_DATA_START_OFFS)) ;;
  '(r1offs, v) ← find_r1_response ;
  if r1offs <? 0 then fail_with "Failed to find R1 response
"
  else if nz (v .& R1_ERROR_MASK) then fail_with "Read sector failed
"
  else
    data_start ← find_data_start r1offs ;
    if data_start <? 0 then fail_with "No data start token
"
    else
      copy_from_buf dseg daddr data_start ;;
      mouse_resume ;;
      mret 0.

(** ** Starting up *)

Definition or_panic (f : bios Z) (p : string) : bios unit :=
  rc ← f ; if nz rc then panic p else mret ().

Definition sd_init : bios unit :=
  sd_send_initial_clock ;;
  sd_flush_fifo ;;
  or_panic sd_send_reset "Failed to reset SD card" ;;
  or_panic sd_send_if_cond "Failed to send interface conditions to SD card" ;;
  or_panic sd_send_read_ocr "Failed to read OCR for SD card" ;;
  or_panic sd_wait_ready "Failed to wait for SD card init" ;;
  or_panic sd_send_read_ocr "Failed to re-read OCR for SD card" ;;
  or_panic sd_set_blocklen "Failed to wait for SD card init" ;;
  putstr (text "SD card ready
").

(** It ends with a far jump to 0000:7C00. *)
Definition sd_boot : bios unit :=
  or_panic (read_sector 0 0 0x7c00) "Failed to read boot sector
" ;;
  putstr (text "Booting from SD card...
") ;;
  on_hw (registers_set DL 0x80) ;;
  on_hw (registers_set CS 0x0000) ;;
  on_hw (registers_set IP 0x7c00).

(** ** INT 13h *)

Definition SECTORS_PER_TRACK : Z := 63.
Definition NUM_HEADS : Z := 32.
Definition NUM_CYLINDERS : Z := 65.
Definition SECTOR_SIZE : Z := 512.
Definition FLOPPY_TIMEOUT : Z := 0x80.

Definition set_disk_status (err : Z) (r : callregs) : bios callregs :=
  let r := if nz err then raise_flag CF r else lower_flag CF r in
  bda_write diskette_status err ;;
  mret (put_ah err r).

(** [lba] of the cylinder, head and sector in the registers. *)
Definition lba_of (r : callregs) : Z :=
  let cylinder := hi (r_cx r) .| ((lo (r_cx r) .& 0xc0) .<< 2) in
  let head := hi (r_dx r) in
  let sector := lo (r_cx r) .& 0x3f in
  u32 (u32 (u32 (u32 (cylinder * NUM_HEADS) + head) * SECTORS_PER_TRACK) + u32 (sector - 1)).

(** The [for] loop, [n] sectors left; the result of [read_sector] is dropped. *)
Fixpoint read_sectors (n : nat) (lba dst : Z) (r : callregs) : bios callregs :=
  match n with
  | O => mret r
  | S n =>
      read_sector lba (r_es r) dst ;;
      read_sectors n (u32 (lba + 1)) (u16 (dst + SECTOR_SIZE)) (put_al (lo (r_ax r) + 1) r)
  end.

Definition disk_read (r : callregs) : bios callregs :=
  if negb (lo (r_dx r) =? 0x80) then set_disk_status FLOPPY_TIMEOUT r
  else
    let lba := lba_of r in
    let dst := r_bx r in
    let count := lo (r_ax r) in
    let r := lower_flag CF (put_al 0 r) in
    r ← read_sectors (Z.to_nat count) lba dst r ;
    set_disk_status (if negb (lo (r_ax r) =? count) then 0xff else 0x00) r.

Fixpoint write_sectors (n : nat) (lba dst : Z) (r : callregs) : bios callregs :=
  match n with
  | O => mret r
  | S n =>
      rc ← write_sector lba (r_es r) dst ;
      if nz rc then mret (raise_flag CF r)
      else write_sectors n (u32 (lba + 1)) (u16 (dst + SECTOR_SIZE)) (put_al (lo (r_ax r) + 1) r)
  end.

Definition disk_write (r : callregs) : bios callregs :=
  if negb (lo (r_dx r) =? 0x80) then set_disk_status FLOPPY_TIMEOUT r
  else
    let lba := lba_of r in
    let dst := r_bx r in
    let count := lo (r_ax r) in
    let r := lower_flag CF (put_al 0 r) in
    r ← write_sectors (Z.to_nat count) lba dst r ;
    set_disk_status (if negb (lo (r_ax r) =? count) then 0xff else 0x00) r.

Definition disk_status (r : callregs) : bios callregs :=
  if negb (lo (r_dx r) =? 0x80) then set_disk_status FLOPPY_TIMEOUT r
  else
    v ← bda_read diskette_status ;
    bda_write diskette_status v ;;
    mret r.

Definition disk_reset (r : callregs) : bios callregs :=
  let r := lower_flag CF r in
  if negb (lo (r_dx r) =? 0x80) then set_disk_status FLOPPY_TIMEOUT r
  else set_disk_status 0 r.

Definition disk_parameters (r : callregs) : bios callregs :=
  let r := lower_flag CF r in
  if negb (lo (r_dx r) =? 0x80) then set_disk_status FLOPPY_TIMEOUT (raise_flag CF r)
  else
    set_disk_status 0
      (put_bl 0 (put_cx (SECTORS_PER_TRACK .| (NUM_CYLINDERS .<< 8))
        (put_dh (NUM_HEADS - 1) (put_dl 1 r)))).

Definition disk_get_type (r : callregs) : bios callregs :=
  let r := lower_flag CF r in
  if negb (lo (r_dx r) =? 0x80) then set_disk_status FLOPPY_TIMEOUT r
  else mret (put_cx 0xffff (put_dx 0xffff (put_ah 3 r))).

Definition disk_services (r : callregs) : bios callregs :=
  let r := raise_flag CF r in
  led_set LED_DISK ;;
  r ← (match hi (r_ax r) with
       | 0x00 => disk_reset r
       | 0x01 => disk_status r
       | 0x02 => disk_read r
       | 0x03 => disk_write r
       | 0x08 => disk_parameters r
       | 0x15 => disk_get_type r
       | _ => mret r
       end) ;
  led_clear LED_DISK ;;
  mret r.

End sd.
