(* ===== verification/BiosMain.v ===== *)
(** * The BIOS: start-up and the services, [bios/bios.c] and [bios/timer.c] *)
From S2P Require Import Prelude Config MainMemory Registers ErrorState IOPorts Machine ModRM Core Bios.
From S2P Require Import BiosDisplay BiosPrintk BiosKeyboard BiosMouse BiosSD.
From Stdlib Require Import String.
#[local] Open Scope list_scope.

Definition INT11_CGA_ADAPTOR : Z := 2 .<< 4.
Definition INT11_POINTER_PRESENT : Z := 1 .<< 2.

Definition PIC_ICW1_INIT : Z := 1 .<< 4.
Definition PIC_ICW1_SINGLE : Z := 1 .<< 1.
Definition PIC_ICW1_ICW4 : Z := 1 .<< 0.
Definition PIC_ICW4_8086 : Z := 1 .<< 0.

Definition TIMER_PORT : Z := 0x40.

Section main.
Context {CFG : Config} {BC : BiosConfig} {D : Type} {IOP : IOPorts D}.
Abbreviation bios := (bios (D := D)).

(** ** The small services *)

Definition equipment_check (r : callregs) : callregs :=
  put_ax (INT11_CGA_ADAPTOR .| INT11_POINTER_PRESENT) r.
Definition serial_services (r : callregs) : callregs := raise_flag CF r.
Definition system_services (es : Z) (r : callregs) : bios callregs :=
  let r := raise_flag CF r in
  if hi (r_ax r) =? 0xc2 then mouse_services es r else mret r.
Definition printer_services (r : callregs) : callregs := raise_flag CF r.
Definition basic_services (r : callregs) : bios callregs := panic "No basic services
".
Definition boostrap_loader (r : callregs) : bios callregs :=
  on_hw (registers_set CS 0xffff) ;;
  on_hw (registers_set IP 0x0) ;;
  mret r.
Definition conventional_memory (r : callregs) : callregs := put_ax 640 r.
Definition break_handler (r : callregs) : bios callregs := panic "No break handler
".
Definition do_unused_int (r : callregs) : callregs := raise_flag CF r.

(** ** The clock *)

Definition timer_services (r : callregs) : bios callregs :=
  match hi (r_ax r) with
  | 0x0 =>
      low ← bda_read timer_counter_low ;
      high ← bda_read timer_counter_high ;
      roll ← bda_read clock_rollover ;
      bda_write clock_rollover 0 ;;
      mret (lower_flag CF (put_al roll (put_cx high (put_dx low r))))
  | 0x1 =>
      bda_write timer_counter_low (r_dx r) ;;
      bda_write timer_counter_high (r_cx r) ;;
      bda_write clock_rollover 0 ;;
      mret (lower_flag CF r)
  | 0x2 =>
      mret (lower_flag CF (put_dh BIOS_BUILD_SECOND (put_cl BIOS_BUILD_MINUTE (put_ch BIOS_BUILD_HOUR r))))
  | 0x4 =>
      mret (lower_flag CF (put_dl BIOS_BUILD_DAY (put_dh BIOS_BUILD_MONTH (put_cx BIOS_BUILD_YEAR r))))
  | _ => mret (raise_flag CF r)
  end.

Definition BIOS_BUILD_STAMP : Z :=
  u32 (u32 (BIOS_BUILD_HOUR * 60 * 60) + u32 (BIOS_BUILD_MINUTE * 60) + BIOS_BUILD_SECOND).
(** The truncation of [BIOS_BUILD_STAMP * 18.2]: up to 53 hours, the product as
    a [double] has the same integer part as the exact one. *)
Definition INIT_TIME_COUNT_VAL : Z := u32 (BIOS_BUILD_STAMP * 182 / 10).

Definition init_timer : bios unit :=
  irq_enable 0 ;;
  outb (TIMER_PORT + 0x3) 0x34 ;;
  outb (TIMER_PORT + 0x0) 0x00 ;;
  outb (TIMER_PORT + 0x0) 0x00 ;;
  bda_write timer_counter_low (INIT_TIME_COUNT_VAL .& 0xffff) ;;
  bda_write timer_counter_high (INIT_TIME_COUNT_VAL .>> 16 .& 0xffff).

(** [cli], [sti] and [irqs_enabled] of [bios.h]. *)
Definition cli : bios unit := on_hw (registers_set_flags 0 IF).
Definition sti : bios unit := on_hw (registers_set_flags IF IF).
Definition irqs_enabled : bios bool := f ← on_hw registers_get_flags ; mret (nz (f .& (1 .<< 9))).

Definition jiffies : bios Z :=
  enable_irqs ← irqs_enabled ;
  cli ;;
  low ← bda_read timer_counter_low ;
  high ← bda_read timer_counter_high ;
  (if enable_irqs : bool then sti else mret ()) ;;
  mret (u32 (u32 high .<< 16) .| low).

(** ** The interrupts that [VECTOR] and [install_vectors] bind *)

(** [es] is the caller's register; the handlers of [entry.S] and [mouse_asm.S]
    (8, 9, 15, 0x1c) are not here. *)
Definition bios_interrupt (vector es : Z) (r : callregs) : bios callregs :=
  match vector with
  | 0x10 => video_services r
  | 0x11 => mret (equipment_check r)
  | 0x12 => mret (conventional_memory r)
  | 0x13 => disk_services r
  | 0x14 => mret (serial_services r)
  | 0x15 => system_services es r
  | 0x16 => keyboard_services r
  | 0x17 => mret (printer_services r)
  | 0x18 => basic_services r
  | 0x19 => boostrap_loader r
  | 0x1a => timer_services r
  | 0x1b => break_handler r
  | _ => mret (do_unused_int r)
  end.

Definition set_vector (vector handler : Z) : bios unit :=
  writew 0 (vector * 4) handler ;;
  writew 0 (vector * 4 + 2) get_cs.

Fixpoint set_vectors (l : list (Z * Z)) : bios unit :=
  match l with
  | [] => mret ()
  | (num, handler) :: l => set_vector num handler ;; set_vectors l
  end.

Definition install_vectors : bios unit :=
  for_loop 256 (fun i => set_vector i unused_int) ;;
  set_vectors vectors ;;
  set_vector 0x1d vpt.

(** ** Start-up *)

Definition bda_init : bios unit := for_loop 256 (fun i => writeb 0x40 i 0).

Definition irq_init : bios unit :=
  outb PIC_COMMAND (PIC_ICW1_INIT .| PIC_ICW1_SINGLE .| PIC_ICW1_ICW4) ;;
  outb PIC_DATA 0x08 ;;
  outb PIC_DATA PIC_ICW4_8086 ;;
  outb PIC_DATA (~. 0) ;;
  irq_ack.

Definition scrub_mem : bios unit :=
  for_loop 0xf (fun seg => memset_seg (seg .<< 12) 0 0 (~. 0)).

Definition root : bios unit :=
  scrub_mem ;;
  install_vectors ;;
  irq_init ;;
  bda_init ;;
  display_init ;;
  putstr BANNER ;;
  printk "Cache: %uKB
" [Num (Z.quot CACHE_SIZE 1024)] ;;
  printk "Pseudo-286: %s
" [Str (text (if S80X86_PSEUDO_286 then "enabled" else "disabled"))] ;;
  putstr [10] ;;
  init_timer ;;
  keyboard_init ;;
  mouse_hw_init ;;
  sd_init ;;
  sd_boot.

End main.
