(* ===== verification/BiosSim.v ===== *)
(** * The BIOS on the simulator: what a call keeps *)
From S2P Require Import Prelude Config MainMemory Registers ErrorState IOPorts Machine ModRM Core Decoder StringProps.
From S2P Require Import SimCPU SoftwareCPU PIC PS2 Timer UART SPI Display CGA Simulator SimulatorProps.
From S2P Require Import Bios BiosDisplay BiosPrintk BiosKeyboard BiosMouse BiosSD BiosMain.

Abbreviation sim_board := (board devices).
Abbreviation sim_bios := (bios (D := devices)).

Definition ram (b : sim_board) : Memory.t := mem (hw b).
Definition devs_of (b : sim_board) : devices := devs (hw b).

Section bios_sim.
Context {CFG : Config} {BC : BiosConfig}.

(** A board of the simulator: every device at its ports. *)
Record on_bus (b : sim_board) : Prop := {
  ob_io : io (hw b) = bus_map;
  ob_ram : Memory.wf (ram b);
  ob_regs : RegisterFile.wf (registers (hw b));
}.

(** From [b] to [b'], no byte outside [P] changes, nor the card and what the
    BIOS knows of it, nor the initialisation state of the controller. *)
Record frame (P : Z -> Prop) (b b' : sim_board) : Prop := {
  fr_bus : on_bus b';
  fr_ram : forall a, ~ P a -> Memory.byte_at (ram b') a = Memory.byte_at (ram b) a;
  fr_spi : spi (devs_of b') = spi (devs_of b);
  fr_pic : PIC.state (pic (devs_of b')) = PIC.state (pic (devs_of b));
  fr_buf : spi_xfer_buf (vars b') = spi_xfer_buf (vars b);
  fr_sdhc : sd_is_sdhc (vars b') = sd_is_sdhc (vars b);
}.

Lemma frame_refl P b : on_bus b -> frame P b b.
Proof. by split. Qed.

Lemma frame_trans P b1 b2 b3 : frame P b1 b2 -> frame P b2 b3 -> frame P b1 b3.
Proof.
  intros [? H1 ? ? ? ?] [? H2 ? ? ? ?]. split; try congruence. intros a Ha. by rewrite H2, H1.
Qed.

Lemma frame_mono (P Q : Z -> Prop) b b' : (forall a, P a -> Q a) -> frame P b b' -> frame Q b b'.
Proof. intros HPQ [? H ? ? ? ?]. split; try done. intros a Ha. apply H. auto. Qed.

(** [f] always returns, within the frame; [tame_in] names what it needs. *)
Definition tame_in {A} (I : sim_board -> Prop) (P : Z -> Prop) (f : sim_bios A) : Prop :=
  forall b, on_bus b -> I b -> exists a b', f b = Ok a b' /\ frame P b b'.
Definition tame {A} (P : Z -> Prop) (f : sim_bios A) : Prop := tame_in (fun _ => True) P f.

Lemma tame_ret {A} P (a : A) : tame P (mret a).
Proof. intros b Hb _. exists a, b. split; [done|by apply frame_refl]. Qed.

Lemma tame_bind {A B} P (f : sim_bios A) (g : A -> sim_bios B) :
  tame P f -> (forall a, tame P (g a)) -> tame P (f ≫= g).
Proof.
  intros Hf Hg b Hb _. destruct (Hf b Hb I) as (a & b1 & E1 & F1).
  destruct (Hg a b1 (fr_bus _ _ _ F1) I) as (c & b2 & E2 & F2).
  exists c, b2. unfold mbind, M_bind. rewrite E1, E2. split; [done|by eapply frame_trans].
Qed.

Lemma tame_fmap {A B} P (f : sim_bios A) (g : A -> B) : tame P f -> tame P (g <$> f).
Proof.
  intros Hf b Hb _. destruct (Hf b Hb I) as (a & b1 & E1 & F1).
  exists (g a), b1. unfold fmap, M_fmap. by rewrite E1.
Qed.

Lemma tame_mono {A} (P Q : Z -> Prop) (f : sim_bios A) :
  (forall a, P a -> Q a) -> tame P f -> tame Q f.
Proof.
  intros HPQ Hf b Hb _. destruct (Hf b Hb I) as (a & b1 & E1 & F1).
  exists a, b1. split; [done|by eapply frame_mono].
Qed.

Lemma tame_for_from P n i (f : Z -> sim_bios unit) :
  (forall j, i <= j < i + Z.of_nat n -> tame P (f j)) -> tame P (for_from n i f).
Proof.
  revert i. induction n as [|n IH]; intros i Hf; [apply tame_ret|]. cbn [for_from].
  apply tame_bind; [apply Hf; lia|]. intros _. apply IH. intros j Hj. apply Hf. lia.
Qed.

Lemma tame_for_loop P n (f : Z -> sim_bios unit) :
  (forall j, 0 <= j < n -> tame P (f j)) -> tame P (for_loop n f).
Proof. intros Hf. apply tame_for_from. intros j Hj. apply Hf. lia. Qed.

(** ** The static variables *)

Lemma tame_get_var {A} P (f : statics -> A) : tame P (get_var f).
Proof. intros b Hb _. exists (f (vars b)), b. split; [done|by apply frame_refl]. Qed.

Lemma tame_set_var P (f : statics -> statics) :
  (forall v, spi_xfer_buf (f v) = spi_xfer_buf v /\ sd_is_sdhc (f v) = sd_is_sdhc v) ->
  tame P (set_var f).
Proof.
  intros Hf [m v] Hb _. destruct (Hf v) as [H1 H2]. eexists tt, _. split; [reflexivity|].
  split; try done. by destruct Hb.
Qed.

(** ** Memory *)

Definition phys (segment address : Z) : Z := get_phys_addr (u16 segment) (u16 address).

Lemma phys_range segment address : 0 <= phys segment address < Memory.MEMORY_SIZE.
Proof. apply get_phys_addr_range. Qed.

(** The board with other memory. *)
Definition with_ram (mm : Memory.t) (b : sim_board) : sim_board := mk_board (set_mem mm (hw b)) (vars b).

Lemma writeb_eq segment address v b :
  writeb segment address v b = Ok tt (with_ram (put8 (ram b) (phys segment address) v) b).
Proof. unfold writeb, on_hw. rewrite mem_write8_eq by apply phys_range. by destruct b. Qed.

Lemma readb_eq segment address b :
  on_bus b -> readb segment address b = Ok (Memory.byte_at (ram b) (phys segment address)) b.
Proof.
  intros [_ Hw _]. pose proof (phys_range segment address) as Hr. unfold readb, on_hw. fold (phys segment address).
  rewrite (mem_read_Some uint8_t _ (Memory.byte_at (ram b) (phys segment address))); [by destruct b|].
  unfold phys. rewrite phys_u32. by apply read_byte, Hr.
Qed.

Lemma on_bus_ram mm b : Memory.wf mm -> on_bus b -> on_bus (with_ram mm b).
Proof. by intros ? [? ? ?]. Qed.

Lemma frame_ram (P : Z -> Prop) mm b :
  on_bus b -> Memory.wf mm -> (forall a, ~ P a -> Memory.byte_at mm a = Memory.byte_at (ram b) a) ->
  frame P b (with_ram mm b).
Proof. intros [? ? ?] Hw H. split; [by split|exact H|done..]. Qed.

Lemma tame_writeb (P : Z -> Prop) segment address v : P (phys segment address) -> tame P (writeb segment address v).
Proof.
  intros HP b Hb _. eexists tt, _. split; [apply writeb_eq|].
  apply frame_ram; [done|apply wf_put8; [apply Hb|apply phys_range]|].
  intros a Ha. rewrite byte_at_put8. case_decide; [by subst|done].
Qed.

Lemma tame_readb P segment address : tame P (readb segment address).
Proof. intros b Hb _. eexists _, _. split; [by apply readb_eq|by apply frame_refl]. Qed.

(** A word that does not run over the end of memory. *)
Definition word_fits (segment address : Z) : Prop := phys segment address + 2 <= Memory.MEMORY_SIZE.

Lemma byte_at_cells mm w a : Memory.byte_at (Memory.mk (Memory.cells mm) w) a = Memory.byte_at mm a.
Proof. done. Qed.

Lemma writew_eq segment address v b :
  on_bus b -> word_fits segment address -> exists mm,
    writew segment address v b = Ok tt (with_ram mm b) /\ Memory.wf mm /\
    forall a, Memory.byte_at mm a =
      if decide (a = phys segment address) then u8 v
      else if decide (a = phys segment address + 1) then u8 (v .>> 8)
      else Memory.byte_at (ram b) a.
Proof.
  intros [_ Hw _] Hf. pose proof (phys_range segment address) as Hr. unfold word_fits in Hf.
  unfold writew, on_hw, mem_write, mbind, M_bind, gets. unfold phys in *. rewrite phys_u32.
  destruct (Memory.write uint16_t (mem (hw b)) _ v) as [mm|] eqn:E.
  2: { exfalso. rewrite Memory.write_Some in E; [done|exact Hf]. }
  exists mm. split; [by destruct b|].
  split; [eapply Memory.wf_write; [| |exact E]; [done|lia]|].
  rewrite Memory.write_Some in E by exact Hf. apply (inj Some) in E. subst mm. intros a.
  change (Z.to_nat (sizeof uint16_t)) with 2%nat. cbn [Memory.store].
  rewrite byte_at_cells, !Memory.byte_at_set_byte.
  assert (u16 v mod 256 = u8 v) as -> by cpp_lia.
  assert ((u16 v / 256) mod 256 = u8 (v .>> 8)) as ->.
  { rewrite Z.shiftr_div_pow2 by lia. cpp_lia. }
  repeat case_decide; try done; lia.
Qed.

Lemma tame_writew (P : Z -> Prop) segment address v :
  P (phys segment address) -> P (phys segment address + 1) -> word_fits segment address ->
  tame P (writew segment address v).
Proof.
  intros H0 H1 Hf b Hb _. destruct (writew_eq segment address v b Hb Hf) as (mm & E & Hw & Hm).
  exists tt, (with_ram mm b). split; [done|]. apply frame_ram; [done..|].
  intros a Ha. rewrite Hm. repeat case_decide; by subst.
Qed.

Lemma tame_readw P segment address : word_fits segment address -> tame P (readw segment address).
Proof.
  intros Hf b Hb _. pose proof (phys_range segment address) as Hr. unfold word_fits in Hf.
  unfold readw, on_hw, mem_read, mbind, M_bind, gets. unfold phys in *. rewrite phys_u32.
  destruct (Memory.read uint16_t (mem (hw b)) _) as [v|] eqn:E.
  2: { exfalso. rewrite Memory.read_Some in E; [done|exact Hf]. }
  exists v, b. split; [by destruct b|by apply frame_refl].
Qed.

(** ** The devices *)

(** [f] returns, and leaves what [g] sees. *)
Definition steady {S X A} (g : S -> X) (f : M S A) : Prop :=
  forall s, exists a s', f s = Ok a s' /\ g s' = g s.

Section steady.
Context {S X : Type} (g : S -> X).

Lemma steady_ret {A} (a : A) : steady g (mret a).
Proof. intros s. by exists a, s. Qed.
Lemma steady_gets {A} (f : S -> A) : steady g (gets f).
Proof. intros s. by exists (f s), s. Qed.
Lemma steady_modify (f : S -> S) : (forall s, g (f s) = g s) -> steady g (modify f).
Proof. intros Hf s. by exists tt, (f s). Qed.
Lemma steady_bind {A B} (f : M S A) (h : A -> M S B) :
  steady g f -> (forall a, steady g (h a)) -> steady g (f ≫= h).
Proof.
  intros Hf Hh s. destruct (Hf s) as (a & s1 & E1 & H1). destruct (Hh a s1) as (c & s2 & E2 & H2).
  exists c, s2. unfold mbind, M_bind. rewrite E1, E2. split; [done|congruence].
Qed.
Lemma steady_fmap {A B} (f : M S A) (h : A -> B) : steady g f -> steady g (h <$> f).
Proof.
  intros Hf s. destruct (Hf s) as (a & s1 & E1 & H1). exists (h a), s1.
  unfold fmap, M_fmap. by rewrite E1.
Qed.
End steady.

(** What the frame says of the devices. *)
Definition card_view (d : devices) : SPI.t * PIC.State := (spi d, PIC.state (pic d)).
Definition pic_view {B} (s : PIC.t * B) : PIC.State := PIC.state (fst s).
Definition no_view {S} (s : S) : unit := tt.

Lemma steady_member {B A} get set (f : M B A) :
  (forall x d, card_view (set x d) = card_view d) -> steady no_view f -> steady card_view (on_member get set f).
Proof.
  intros Hset Hf d. destruct (Hf (get d)) as (a & x & E & _). exists a, (set x d).
  unfold on_member. rewrite E. by rewrite Hset.
Qed.
Lemma steady_with_pic {B A} get set (f : M (PIC.t * B) A) :
  (forall x d, card_view (set x d) = card_view d) -> steady pic_view f -> steady card_view (with_pic get set f).
Proof.
  intros Hset Hf d. destruct (Hf (pic d, get d)) as (a & [p x] & E & Hp). exists a, (set x (set_pic p d)).
  unfold with_pic. rewrite E. split; [done|]. rewrite Hset. unfold card_view. by f_equal.
Qed.
Lemma steady_on_ps2 {A} (f : M (PIC.t * PS2.t) A) : steady pic_view f -> steady pic_view (Mouse.on_ps2 f).
Proof.
  intros Hf [p m]. destruct (Hf (p, Mouse.ps2 m)) as (a & [p' x] & E & Hp). eexists a, (p', _).
  unfold Mouse.on_ps2. cbn. rewrite E. split; [reflexivity|done].
Qed.
Lemma steady_on_self {B A} (f : M B A) : steady no_view f -> steady pic_view (on_self f).
Proof.
  intros Hf [p x]. destruct (Hf x) as (a & x' & E & _). exists a, (p, x'). unfold on_self. cbn. by rewrite E.
Qed.
Lemma steady_raise {B} n : steady pic_view (on_pic (B := B) (PIC.raise_irq n)).
Proof.
  intros [p x]. unfold on_pic, PIC.raise_irq, mbind, M_bind, gets, modify. cbn.
  destruct (nz _); eexists _, (_, _); split; reflexivity || done.
Qed.

Create HintDb steady.
#[local] Hint Resolve steady_ret steady_gets steady_fmap steady_on_self steady_on_ps2 steady_raise : steady.

(** Through a method, by cases on its conditions. *)
Ltac steady_auto :=
  cbv zeta;
  repeat first
    [ solve [auto with steady]
    | apply steady_modify; (done || (intros ?; repeat case_match; done))
    | apply steady_fmap || apply steady_on_self || apply steady_on_ps2
    | apply steady_bind; [|intros ?]; cbv zeta
    | lazymatch goal with |- steady _ (match ?x with _ => _ end) => destruct x end ].

Lemma steady_cga_write port offs v : steady no_view (CGA.write8 port offs v).
Proof. unfold CGA.write8, CGA.write_color_control, CGA.write_dac. steady_auto. Qed.
Lemma steady_cga_read port offs : steady no_view (CGA.read8 port offs).
Proof. unfold CGA.read8, CGA.read_status. steady_auto. Qed.
Lemma steady_uart_write port offs v : steady no_view (UART.write8 port offs v).
Proof. unfold UART.write8. steady_auto. Qed.
Lemma steady_uart_read port offs : steady no_view (UART.read8 port offs).
Proof. unfold UART.read8. steady_auto. Qed.
Lemma steady_timer_read port offs : steady no_view (TimerTick.read8 port offs).
Proof. unfold TimerTick.read8. steady_auto. Qed.
Lemma steady_ps2_write port offs v : steady no_view (PS2.write8 port offs v).
Proof. unfold PS2.write8. steady_auto. Qed.
Lemma steady_ps2_read pops port offs : steady no_view (PS2.read8 pops port offs).
Proof. unfold PS2.read8. steady_auto. Qed.
#[local] Hint Resolve steady_ps2_write steady_ps2_read : steady.
Lemma steady_mouse_add v : steady pic_view (Mouse.add_byte v).
Proof. unfold Mouse.add_byte, PS2.add_byte. steady_auto. Qed.
#[local] Hint Resolve steady_mouse_add : steady.
Lemma steady_mouse_write port offs v : steady pic_view (Mouse.write8 port offs v).
Proof. unfold Mouse.write8. steady_auto. Qed.
Lemma steady_mouse_read port offs : steady pic_view (Mouse.read8 port offs).
Proof. unfold Mouse.read8. steady_auto. Qed.
#[local] Hint Resolve steady_cga_write steady_cga_read steady_uart_write steady_uart_read steady_timer_read
  steady_mouse_write steady_mouse_read : steady.

(** Every device is read without an error; the display, the serial port and
    the PS/2 devices are written without one, the timer and the controllers
    (of the card, of interrupts) apart. *)
Lemma bus_read8_steady p port offs : (p < 8)%nat -> steady card_view (bus_read8 p port offs).
Proof.
  intros Hp. unfold bus_read8, quietly, SDRAMConfigRegister.read8.
  destruct p as [|[|[|[|[|[|[|[|p]]]]]]]]; try solve
    [steady_auto; first [apply steady_member | apply steady_with_pic]; (done || auto with steady)]; [| |lia].
  - apply steady_bind; [|intros ?; apply steady_ret]. intros d. unfold on_member, SPI.read8.
    destruct (port =? 0), (offs =? 0); eexists _, _; (split; [reflexivity|done]).
  - apply steady_bind; [|intros ?; apply steady_ret]. intros d.
    unfold on_member, PIC.read8, PIC.read_command, PIC.read_data.
    destruct (offs =? 0); eexists _, _; (split; [reflexivity|done]).
Qed.

Lemma bus_write8_steady p port offs v :
  p ∈ [1; 4; 5; 7]%nat -> steady card_view (bus_write8 p port offs v).
Proof.
  intros Hp. unfold bus_write8, quietly.
  set_unfold in Hp. destruct_or! Hp; subst p;
    steady_auto; first [apply steady_member | apply steady_with_pic]; (done || auto with steady).
Qed.

(** ** The ports *)

Lemma raise_irqs_eq irqs (m : machine devices) :
  let m' := foldl (fun m i => raise_irq i m) m irqs in
  io m' = io m /\ mem m' = mem m /\ devs m' = devs m /\ registers m' = registers m.
Proof.
  revert m. induction irqs as [|i irqs IH]; intros m; [done|]. cbn [foldl].
  destruct (IH (raise_irq i m)) as (-> & -> & -> & ->). done.
Qed.

(** A device is called: the board after it. *)
Lemma call_device_eq {A} (f : M devices A) irqs a d' b :
  on_bus b -> f (devs_of b) = Ok a d' -> exists b',
    on_hw (call_device f irqs) b = Ok a b' /\ on_bus b' /\ ram b' = ram b /\ devs_of b' = d' /\ vars b' = vars b.
Proof.
  intros [Hio Hw Hrf] E. unfold on_hw, call_device. unfold devs_of in E. rewrite E.
  pose proof (raise_irqs_eq (irqs a) (set_devs d' (hw b))) as (H1 & H2 & H3 & H4).
  eexists. split; [reflexivity|]. unfold ram, devs_of. cbn [hw vars].
  split; [split; [cbn [hw]; by rewrite H1|unfold ram; cbn [hw]; by rewrite H2|cbn [hw]; by rewrite H4]|]. by rewrite H2, H3.
Qed.

Lemma frame_devs P b b' :
  on_bus b' -> ram b' = ram b -> card_view (devs_of b') = card_view (devs_of b) -> vars b' = vars b -> frame P b b'.
Proof. intros Hb Hr Hd Hv. unfold card_view in Hd. split; congruence. Qed.

Lemma tame_call {A} P (f : M devices A) irqs : steady card_view f -> tame P (on_hw (call_device f irqs)).
Proof.
  intros Hf b Hb _. destruct (Hf (devs_of b)) as (a & d' & E & Hd).
  destruct (call_device_eq f irqs a d' b Hb E) as (b' & E' & Hb' & Hr & Hdev & Hv).
  exists a, b'. split; [done|]. apply frame_devs; [done..|by rewrite Hdev|done].
Qed.

(** The device at a port, as [write_io8] finds it. *)
Definition port_device (port : Z) : option ioport := bus_port (u16 (even_port (u32 (u16 port)))).
Definition port_number (port : Z) (p : ioport) : Z := u16 (even_port (u32 (u16 port)) - sim_get_base p).
Definition port_offset (port : Z) : Z := u32 (u16 port) .& 1.

Lemma on_hw_bind {A B} (f : emu devices A) (g : A -> emu devices B) (b : sim_board) :
  on_hw (f ≫= g) b = (on_hw f ≫= fun a => on_hw (g a)) b.
Proof. unfold on_hw, mbind, M_bind. cbn. by destruct (f (hw b)). Qed.
Lemma on_hw_ret {A} (a : A) (b : sim_board) : on_hw (mret a : emu devices A) b = Ok a b.
Proof. by destruct b. Qed.

Lemma outb_eq port v (b : sim_board) :
  on_bus b ->
  outb port v b =
    match port_device port with
    | None => Ok tt b
    | Some p => (on_hw (call_device (ioport_write8 p (port_number port p) (port_offset port) (u8 (u8 v))) id) ;;
                 mret ()) b
    end.
Proof.
  intros [Hio _ _]. unfold outb, write_io8, on_hw, mbind, M_bind, gets. rewrite Hio, bus_map_lookup.
  fold (port_device port). destruct (port_device port) as [p|]; [|by destruct b].
  unfold port_number, port_offset. cbn [get_base simulator_bus]. by destruct (call_device _ _ _).
Qed.

Lemma inb_eq port (b : sim_board) :
  on_bus b ->
  inb port b =
    match port_device port with
    | None => Ok 0 b
    | Some p => (r ← on_hw (call_device (ioport_read8 p (port_number port p) (port_offset port)) snd) ;
                 mret (u8 (fst r))) b
    end.
Proof.
  intros [Hio _ _]. unfold inb, read_io8, on_hw, mbind, M_bind, gets. rewrite Hio, bus_map_lookup.
  fold (port_device port). destruct (port_device port) as [p|]; [|by destruct b].
  unfold port_number, port_offset. cbn [get_base simulator_bus]. by destruct (call_device _ _ _).
Qed.

Lemma outw_eq port v (b : sim_board) :
  on_bus b ->
  outw port v b =
    match port_device port with
    | None => Ok tt b
    | Some p => (on_hw (call_device (ioport_write16 p (port_number port p) (u16 (u16 v))) id) ;; mret ()) b
    end.
Proof.
  intros [Hio _ _]. unfold outw, write_io16, on_hw, mbind, M_bind, gets. rewrite Hio, bus_map_lookup.
  fold (port_device port). destruct (port_device port) as [p|]; [|by destruct b].
  unfold port_number. cbn [get_base simulator_bus]. by destruct (call_device _ _ _).
Qed.

Lemma inw_eq port (b : sim_board) :
  on_bus b ->
  inw port b =
    match port_device port with
    | None => Ok 0 b
    | Some p => (r ← on_hw (call_device (ioport_read16 p (port_number port p)) snd) ; mret (u16 (fst r))) b
    end.
Proof.
  intros [Hio _ _]. unfold inw, read_io16, on_hw, mbind, M_bind, gets. rewrite Hio, bus_map_lookup.
  fold (port_device port). destruct (port_device port) as [p|]; [|by destruct b].
  unfold port_number. cbn [get_base simulator_bus]. by destruct (call_device _ _ _).
Qed.

(** The ports that are always written, and read, without an error. *)
Definition quiet_port (port : Z) : bool :=
  match port_device port with None => true | Some p => bool_decide (p ∈ [1; 4; 5; 7]%nat) end.

Lemma tame_outb P port v : quiet_port port = true -> tame P (outb port v).
Proof.
  intros Hq b Hb Hi. rewrite outb_eq by done. unfold quiet_port in Hq. destruct (port_device port) as [p|].
  - apply bool_decide_eq_true in Hq. revert b Hb Hi.
    change (tame P (on_hw (call_device (bus_write8 p (port_number port p) (port_offset port) (u8 (u8 v))) id) ;;
      mret ())).
    apply tame_bind; [|intros; apply tame_ret]. apply tame_call. by apply bus_write8_steady.
  - exists tt, b. split; [done|by apply frame_refl].
Qed.

Lemma tame_inb P port : tame P (inb port).
Proof.
  intros b Hb Hi. rewrite inb_eq by done. destruct (port_device port) as [p|] eqn:Ep.
  - assert (p < 8)%nat as Hp.
    { unfold port_device, bus_port in Ep. repeat (case_match; [injection Ep as <-; lia|]). done. }
    revert b Hb Hi. change (tame P (r ← on_hw (call_device (bus_read8 p (port_number port p) (port_offset port)) snd) ;
      mret (u8 (fst r)))).
    apply tame_bind; [|intros; apply tame_ret]. apply tame_call. by apply bus_read8_steady.
  - exists 0, b. split; [done|by apply frame_refl].
Qed.

(** No lamps on this board. *)
Lemma led_eq f b : on_bus b -> (v ← inw LED_PORT ; outw LED_PORT (f v)) b = Ok tt b.
Proof.
  intros Hb. unfold mbind, M_bind. rewrite inw_eq by done. change (port_device LED_PORT) with (@None ioport).
  cbv iota beta. by rewrite outw_eq.
Qed.

Lemma tame_led (P : Z -> Prop) f : tame P (v ← inw LED_PORT ; outw LED_PORT (f v)).
Proof. intros b Hb _. exists tt, b. split; [by apply led_eq|by apply frame_refl]. Qed.

End bios_sim.

(** ** A board to try things on *)

Definition bench_bios : BiosConfig := {|
  SERIAL_STDIO := true;
  CACHE_SIZE := 8192;
  BIOS_BUILD_YEAR := 0x2017; BIOS_BUILD_MONTH := 0x12; BIOS_BUILD_DAY := 0x31;
  BIOS_BUILD_HOUR := 0x23; BIOS_BUILD_MINUTE := 0x59; BIOS_BUILD_SECOND := 0x58;
  BANNER := [0x73; 0x38; 0x30; 0x78; 0x38; 0x36; 10];
  get_cs := 0xf000;
  vectors := [(0x13, 0xc100)];
  unused_int := 0xc000;
  vpt := 0xc200;
  poll_bound := Z.to_nat 4096;
|}.

Section bench.
Context {CFG : Config}.

(** The devices as the simulator makes them, the disk image [img]. *)
Definition bench_devices (img : list Z) : devices :=
  create_devices {|
    bios_file := None;
    disk_file := Disk.mk img 0 false;
    font_file := [];
    garbage_v := 0;
    garbage_pic_vector := 0;
    garbage_spi_count := 0;
    garbage_pixels := ∅;
    garbage_palette := palette_of [];
    garbage_dac := palette_of [];
    garbage_attribute := 0;
    garbage_mem_written := false;
    garbage_modrm := ModRMDecoder.create 0 false false;
    garbage_segment := DS;
    garbage_cycles := 0;
  |}.

Definition bench_board (img : list Z) : sim_board :=
  mk_board
    (set_io bus_map (pimpl (SoftwareCPU_create false (ModRMDecoder.create 0 false false) DS 0 (bench_devices img))))
    (mk_statics (replicate 1280 0) 0 0 (0, 0) 0 0 0 (replicate 256 (mk_dac 0 0 0))).

Lemma bench_on_bus img : on_bus (bench_board img).
Proof. split; [done|apply Memory.wf_create|apply RegisterFile.registers_wf_create]. Qed.
End bench.
