(* ===== verification/BiosTame.v ===== *)
(** * The BIOS on the simulator: messages, cursor and mouse commands return *)
From S2P Require Import Prelude Config MainMemory Registers ErrorState IOPorts Machine ModRM Core StringProps.
From S2P Require Import SimCPU SoftwareCPU PIC PS2 Timer UART SPI Display CGA Simulator SimulatorProps.
From S2P Require Import Bios BiosDisplay BiosPrintk BiosKeyboard BiosMouse BiosSD BiosMain BiosSim.
From Stdlib Require Import String.
#[local] Open Scope list_scope.

(** The data area, and the frame buffer. *)
Definition screen (a : Z) : Prop := 0x400 <= a < 0x500 \/ 0xb0000 <= a < 0xc0000.

Create HintDb tame discriminated.
#[export] Hint Constants Opaque : tame.
#[export] Hint Extern 1 (tame _ (mret _)) => apply tame_ret : tame.

Section tame.
Context {CFG : Config} {BC : BiosConfig}.

Lemma phys_eq segment address :
  in_range uint16_t segment -> in_range uint16_t address ->
  segment * 16 + address < Memory.MEMORY_SIZE -> phys segment address = segment * 16 + address.
Proof.
  intros Hs Ha Hlt. unfold phys. rewrite !(cast_id uint16_t) by done.
  rewrite get_phys_addr_eq by (done || cpp_lia). unfold Memory.MEMORY_SIZE in *. apply Z.mod_small. cpp_lia.
Qed.

Lemma cell_phys row col : exists k, 0 <= k < 32768 /\ phys frame_buffer_segment (cell_addr row col) = 0xb0000 + 2 * k.
Proof.
  unfold cell_addr, frame_buffer_segment, frame_buffer_offset.
  assert (in_range uint16_t (u16 (0x8000 + (row * 80 + col) * 2))) as Hr by cpp_lia.
  rewrite phys_eq by (done || (unfold Memory.MEMORY_SIZE; cpp_lia)).
  exists (u16 (0x8000 + (row * 80 + col) * 2) / 2). revert Hr. generalize (row * 80 + col) as n. intros n Hr.
  split; [cpp_lia|]. cpp_lia.
Qed.

Lemma cell_screen row col :
  screen (phys frame_buffer_segment (cell_addr row col)) /\
  screen (phys frame_buffer_segment (cell_addr row col) + 1) /\
  word_fits frame_buffer_segment (cell_addr row col).
Proof.
  destruct (cell_phys row col) as (k & Hk & E). unfold screen, word_fits. rewrite E.
  unfold Memory.MEMORY_SIZE. lia.
Qed.

Lemma tame_cell_writew row col v : tame screen (writew frame_buffer_segment (cell_addr row col) v).
Proof. destruct (cell_screen row col) as (H0 & H1 & Hf). by apply tame_writew. Qed.
Lemma tame_cell_writeb row col v : tame screen (writeb frame_buffer_segment (cell_addr row col) v).
Proof. destruct (cell_screen row col) as (H0 & H1 & Hf). by apply tame_writeb. Qed.
Lemma tame_cell_readw P row col : tame P (readw frame_buffer_segment (cell_addr row col)).
Proof. destruct (cell_screen row col) as (H0 & H1 & Hf). by apply tame_readw. Qed.

(** A field of the data area whose index is in the array. *)
Definition field_ok (f : bda_field) : Prop := 0 <= offset_of f < 255.

Lemma bda_phys f : field_ok f -> phys 0x40 (offset_of f) = 0x400 + offset_of f.
Proof. intros Hf. unfold field_ok in Hf. rewrite phys_eq; [lia|done|cpp_lia|unfold Memory.MEMORY_SIZE; lia]. Qed.

Lemma tame_bda_write f v : field_ok f -> tame screen (bda_write f v).
Proof.
  intros Hf. pose proof (bda_phys f Hf) as E. unfold field_ok in Hf.
  assert (screen (phys 0x40 (offset_of f)) /\ screen (phys 0x40 (offset_of f) + 1)) as [H0 H1]
    by (unfold screen; lia).
  assert (word_fits 0x40 (offset_of f)) by (unfold word_fits, Memory.MEMORY_SIZE; lia).
  unfold bda_write. destruct (field_type f); lazymatch goal with
    | |- tame _ (writew _ _ _) => by apply tame_writew
    | _ => by apply tame_writeb
    end.
Qed.

Lemma tame_bda_read P f : field_ok f -> tame P (bda_read f).
Proof.
  intros Hf. pose proof (bda_phys f Hf) as E. unfold field_ok in Hf.
  assert (word_fits 0x40 (offset_of f)) by (unfold word_fits, Memory.MEMORY_SIZE; lia).
  unfold bda_read. destruct (field_type f); lazymatch goal with
    | |- tame _ (readw _ _) => by apply tame_readw
    | _ => apply tame_readb
    end.
Qed.

#[local] Hint Resolve tame_get_var tame_cell_writew tame_cell_writeb tame_cell_readw tame_readb tame_inb
  tame_led tame_fmap : tame.
#[local] Hint Extern 1 (tame _ (outb _ _)) => apply tame_outb; reflexivity : tame.
#[local] Hint Extern 1 (tame _ (bda_write _ _)) => apply tame_bda_write; unfold field_ok; cbn; lia : tame.
#[local] Hint Extern 1 (tame _ (bda_read _)) => apply tame_bda_read; unfold field_ok; cbn; lia : tame.
#[local] Hint Extern 1 (tame _ (set_var _)) => apply tame_set_var; done : tame.

(** Through a function of the BIOS, by cases on its conditions. *)
Ltac tame_auto :=
  cbv zeta;
  repeat first
    [ solve [auto with tame]
    | apply tame_bind; [|intros ?]; cbv zeta
    | lazymatch goal with |- tame _ (match ?x with _ => _ end) => destruct x end ].

(** ** The serial port *)

Lemma uart_status_eq b :
  on_bus b -> exists v, inb UART_STATUS_PORT b = Ok v b /\ nz (v .& UART_TX_BUSY) = false.
Proof.
  intros Hb. rewrite inb_eq by done. change (port_device UART_STATUS_PORT) with (Some 1%nat).
  cbv iota beta. change (port_number UART_STATUS_PORT 1%nat) with 0. change (port_offset UART_STATUS_PORT) with 1.
  assert (exists v, ioport_read8 (D := devices) 1%nat 0 1 (devs_of b) = Ok (v, []) (devs_of b) /\ (v = 0 \/ v = 1))
    as (v & E & Hv).
  { exists (match UART.charbuf (uart (devs_of b)) with [] => 0 | _ => 1 end).
    split; [|destruct (UART.charbuf _); auto].
    change (ioport_read8 (D := devices) 1%nat 0 1) with (quietly (on_member uart set_uart (UART.read8 0 1))).
    unfold quietly, on_member, mbind, M_bind. rewrite UART.read_status.
    destruct (devs_of b). cbn. by destruct (UART.charbuf _). }
  destruct Hb as [Hio Hw _]. exists v. unfold devs_of in E.
  unfold on_hw, call_device, mbind, M_bind. rewrite E. cbn [fst snd foldl].
  split; [|by destruct Hv as [-> | ->]].
  assert (u8 v = v) as -> by (destruct Hv as [-> | ->]; reflexivity). f_equal. by destruct b as [[] ?].
Qed.

(** ** The cursor and the rows *)

Lemma tame_read_cursor P : tame P read_cursor.
Proof. unfold read_cursor, crtc_reg_read. tame_auto. Qed.
Lemma tame_write_cursor c : tame screen (write_cursor c).
Proof. unfold write_cursor, crtc_reg_write. tame_auto. Qed.
#[local] Hint Resolve tame_read_cursor tame_write_cursor : tame.

Lemma tame_byte_loop P fuel col last (f : Z -> sim_bios unit) :
  (forall c, tame P (f c)) -> 0 <= col -> last < 255 -> last - col < Z.of_nat fuel ->
  tame P (byte_loop fuel col last f).
Proof.
  intros Hf. revert col. induction fuel as [|fuel IH]; intros col Hc Hl Hn; cbn [byte_loop];
    destruct (Z.leb_spec col last); try (apply tame_ret || lia).
  apply tame_bind; [apply Hf|]. intros _. rewrite (cast_id uint8_t) by cpp_lia. apply IH; lia.
Qed.

Lemma tame_rows_up P fuel row last (f : Z -> sim_bios unit) :
  (forall r, tame P (f r)) -> -128 <= row -> last < 127 -> last - row < Z.of_nat fuel ->
  tame P (rows_up fuel row last f).
Proof.
  intros Hf. revert row. induction fuel as [|fuel IH]; intros row Hr Hl Hn; cbn [rows_up];
    destruct (Z.leb_spec row last); try (apply tame_ret || lia).
  apply tame_bind; [apply Hf|]. intros _. rewrite (cast_id int8_t) by cpp_lia. apply IH; lia.
Qed.

Lemma tame_clear_row row l r attr :
  0 <= u8 l -> u8 r < 255 -> tame screen (clear_row row l r attr).
Proof.
  intros Hl Hr. unfold clear_row. apply tame_byte_loop; [intros c; auto with tame|done|done|].
  change (Z.of_nat 256) with 256. lia.
Qed.
Lemma tame_copy_row dst src l r :
  0 <= u8 l -> u8 r < 255 -> tame screen (copy_row dst src l r).
Proof.
  intros Hl Hr. unfold copy_row. apply tame_byte_loop; [intros c; tame_auto|done|done|].
  change (Z.of_nat 256) with 256. lia.
Qed.

Lemma tame_scroll_up attr n : tame screen (__scroll_up 0 24 0 79 attr n).
Proof.
  unfold __scroll_up. apply tame_rows_up; [|done|done|].
  - intros r. case_match; [apply tame_clear_row|apply tame_copy_row]; done.
  - change (Z.of_nat 256) with 256. done.
Qed.
#[local] Hint Resolve tame_scroll_up : tame.

Lemma tame_emit_char c : tame screen (emit_char c).
Proof.
  unfold emit_char, do_backspace, backspace_one, scroll_up_one. tame_auto.
  apply tame_for_from. intros m _. auto with tame.
Qed.
#[local] Hint Resolve tame_emit_char : tame.

(** ** The mouse *)

Lemma tame_mouse_read P : tame P mouse_read.
Proof. unfold mouse_read. tame_auto. Qed.
#[local] Hint Resolve tame_mouse_read : tame.
Lemma tame_mouse_answer P n : tame P (mouse_answer n).
Proof. induction n; cbn [mouse_answer]; tame_auto. Qed.
#[local] Hint Resolve tame_mouse_answer : tame.
Lemma tame_mouse_cmd P c : tame P (mouse_cmd c).
Proof. unfold mouse_cmd. tame_auto. Qed.
#[local] Hint Resolve tame_mouse_cmd : tame.
Lemma tame_mouse_suspend P : tame P mouse_suspend.
Proof. unfold mouse_suspend. tame_auto. Qed.
Lemma tame_mouse_resume P : tame P mouse_resume.
Proof. unfold mouse_resume, mouse_init. tame_auto. Qed.

(** ** Characters and messages: the loop that waits for the serial port gets a turn *)

Context (Hpoll : (1 <= poll_bound)%nat).

Lemma tame_poll_uart P : tame P (poll_while (v ← inb UART_STATUS_PORT ; mret (nz (v .& UART_TX_BUSY)))).
Proof using Hpoll.
  intros b Hb _. exists tt, b. split; [|by apply frame_refl]. unfold poll_while.
  destruct poll_bound as [|n]; [lia|]. cbn [while_true].
  destruct (uart_status_eq b Hb) as (v & E & Hv). unfold mbind, M_bind. rewrite E. cbv iota beta.
  by rewrite Hv.
Qed.
#[local] Hint Resolve tame_poll_uart : tame.

Lemma tame_serial_one P c : tame P (serial_one c).
Proof using Hpoll. unfold serial_one. tame_auto. Qed.
#[local] Hint Resolve tame_serial_one : tame.

Lemma tame_putchar c : tame screen (putchar c).
Proof using Hpoll. unfold putchar, put_one, video_putchar. tame_auto. Qed.
#[local] Hint Resolve tame_putchar : tame.

Lemma tame_putstr l : tame screen (putstr l).
Proof using Hpoll. induction l; cbn [putstr]; tame_auto. Qed.
#[local] Hint Resolve tame_putstr : tame.

Lemma tame_printk fmt args s : string_format 128 (text fmt) args = Some s -> tame screen (printk fmt args).
Proof using Hpoll. intros E. unfold printk. rewrite E. apply tame_bind; [apply (tame_ret _ s)|auto with tame]. Qed.

End tame.

#[export] Hint Resolve tame_get_var tame_cell_writew tame_cell_writeb tame_cell_readw tame_readb tame_inb
  tame_led tame_fmap tame_putstr tame_mouse_cmd tame_mouse_suspend tame_mouse_resume tame_scroll_up
  tame_write_cursor tame_read_cursor : tame.
#[export] Hint Extern 1 (tame _ (outb _ _)) => apply tame_outb; reflexivity : tame.
#[export] Hint Extern 1 (tame _ (bda_write _ _)) => apply tame_bda_write; unfold field_ok; cbn; lia : tame.
#[export] Hint Extern 1 (tame _ (bda_read _)) => apply tame_bda_read; unfold field_ok; cbn; lia : tame.
#[export] Hint Extern 1 (tame _ (set_var _)) => apply tame_set_var; done : tame.
