(* ===== verification/BiosCard.v ===== *)
(** * The BIOS and the card: a transfer, a command *)
From S2P Require Import Prelude Config MainMemory Registers ErrorState IOPorts Machine ModRM Core StringProps.
From S2P Require Import SimCPU SoftwareCPU PIC PS2 Timer UART SPI SPIProps Display CGA Simulator SimulatorProps.
From S2P Require Import Bios BiosDisplay BiosPrintk BiosKeyboard BiosMouse BiosSD BiosMain BiosSim BiosTame.

(** What [spi_xfer] keeps of the bytes it receives: all, from the first that
    is not 0xff on. *)
Fixpoint received (non_ff : bool) (rs : list Z) : list Z :=
  match rs with
  | [] => []
  | r :: rs => if negb non_ff && (r =? 0xff) then received false rs else r :: received true rs
  end.

Lemma received_all rs : received true rs = rs.
Proof. induction rs as [|r rs IH]; [done|]. cbn. by rewrite IH. Qed.

Lemma received_after k r rs : r <> 0xff -> received false (replicate k 0xff ++ r :: rs) = r :: rs.
Proof.
  intros Hr. induction k as [|k IH]; [|exact IH]. cbn. apply Z.eqb_neq in Hr. rewrite Hr. cbn.
  by rewrite received_all.
Qed.

(** The byte that turn [src] of a transfer sends. *)
Definition sent (len : Z) (buf : list Z) (i : Z) : Z :=
  if i <? len then u8 (default 0 (buf !! Z.to_nat i)) else 0xff.

(** A word written a byte at a time over [c]. *)
Lemma control_bytes c v :
  0 <= v < 65536 ->
  u16 (u16 (u16 (u16 (c .& ~. 0xff) .| (u16 (u8 v) .<< (8 * 0))) .& ~. 0xff00) .| (u16 (u8 (v .>> 8)) .<< (8 * 1))) = v.
Proof.
  intros Hv. apply (bits_ext 16); [apply Z.mod_pos_bound; lia|exact Hv|]. intros i Hi.
  repeat first [rewrite Z.lor_spec | rewrite Z.land_spec | rewrite Z.lnot_spec by lia
    | rewrite cast_u_testbit by (done || lia) | rewrite Z.shiftl_spec by lia].
  change (width uint16_t) with 16. change (width uint8_t) with 8.
  enum_below i 16%nat;
    repeat match goal with
    | |- context [?x - ?y] => let z := eval vm_compute in (x - y) in change (x - y) with z
    | |- context [Z.testbit ?x (Z.neg ?p)] => rewrite (Z.testbit_neg_r x (Z.neg p)) by lia
    end;
    rewrite ?cast_u_testbit by (done || lia); rewrite ?Z.shiftr_spec by lia;
    repeat match goal with
    | |- context [Z.testbit v (?x + ?y)] => let z := eval vm_compute in (x + y) in change (x + y) with z
    | |- context [Z.testbit (Z.pos ?p) ?k] =>
        let x := eval vm_compute in (Z.testbit (Z.pos p) k) in change (Z.testbit (Z.pos p) k) with x
    end; zbits.
Qed.

(** Boards that agree in every member. *)
Ltac destruct_board b :=
  destruct b as [[] []]; try match goal with d : devices |- _ => destruct d end; reflexivity.

Section card.
Context {CFG : Config} {BC : BiosConfig}.

(** The board with this card and this buffer. *)
Definition with_card (s : SPI.t) (buf : list Z) (b : sim_board) : sim_board :=
  mk_board (set_devs (set_spi s (devs (hw b))) (hw b)) (put_spi_xfer_buf buf (vars b)).

Lemma with_card_same b : with_card (spi (devs_of b)) (spi_xfer_buf (vars b)) b = b.
Proof. destruct_board b. Qed.
Lemma with_card_twice s s' buf buf' b : with_card s buf (with_card s' buf' b) = with_card s buf b.
Proof. destruct_board b. Qed.

Lemma on_bus_card s buf b : on_bus b -> on_bus (with_card s buf b).
Proof. by intros [? ? ?]. Qed.

(** ** The ports of the card *)

Lemma call_spi {A} (f : M SPI.t A) a s s' buf b :
  f s = Ok a s' ->
  on_hw (call_device (quietly (on_member spi set_spi f)) snd) (with_card s buf b) =
    Ok (a, []) (with_card s' buf b).
Proof.
  intros E. unfold on_hw, call_device, quietly, on_member, mbind, M_bind.
  cbn [with_card hw devs set_devs spi set_spi]. rewrite E. destruct_board b.
Qed.

Lemma call_spi_write (f : M SPI.t unit) s s' buf b :
  f s = Ok tt s' ->
  on_hw (call_device (snd <$> quietly (on_member spi set_spi f)) id) (with_card s buf b) =
    Ok [] (with_card s' buf b).
Proof.
  intros E. unfold on_hw, call_device, quietly, on_member, mbind, M_bind, fmap, M_fmap.
  cbn [with_card hw devs set_devs spi set_spi]. rewrite E. destruct_board b.
Qed.

Lemma outw_transfer w s s' buf b :
  on_bus b -> SPI.write8 2 0 (u8 w) s = Ok tt s' ->
  outw SPI_TRANSFER_PORT w (with_card s buf b) = Ok tt (with_card s' buf b).
Proof.
  intros Hb E. rewrite outw_eq by by apply on_bus_card.
  change (port_device SPI_TRANSFER_PORT) with (Some 2%nat). cbv iota beta.
  change (ioport_write16 2%nat _ ?v) with (snd <$> quietly (on_member spi set_spi (SPI.write16 2 v))).
  unfold mbind, M_bind. rewrite (call_spi_write _ s s'); [done|].
  unfold SPI.write16, mbind, M_bind.
  assert (u8 (u16 (u16 w)) = u8 w) as -> by cpp_lia. by rewrite E.
Qed.

Lemma inw_transfer s buf b :
  on_bus b -> is_byte (SPI.rx_val s) ->
  inw SPI_TRANSFER_PORT (with_card s buf b) = Ok (SPI.rx_val s) (with_card s buf b).
Proof.
  intros Hb Hr. rewrite inw_eq by by apply on_bus_card.
  change (port_device SPI_TRANSFER_PORT) with (Some 2%nat). cbv iota beta.
  change (ioport_read16 2%nat _) with (quietly (on_member spi set_spi (SPI.read16 2))).
  unfold mbind, M_bind. rewrite (call_spi _ (SPI.rx_val s) s s); [cbn [fst]|].
  - unfold is_byte in Hr. by rewrite cast_id by cpp_lia.
  - unfold SPI.read16, mbind, M_bind.
    change (SPI.read8 2 0 s) with (Ok (SPI.rx_val s) s). cbv iota beta.
    change (SPI.read8 2 1 s) with (Ok 0 s). cbv iota beta. change (u16 0 .<< 8) with 0.
    rewrite Z.lor_0_r. unfold is_byte in Hr. by rewrite cast_id by cpp_lia.
Qed.

Lemma outw_control v s buf b :
  on_bus b -> in_range uint16_t v ->
  outw SPI_CONTROL_PORT v (with_card s buf b) = Ok tt (with_card (SPI.set_control_reg v s) buf b).
Proof.
  intros Hb Hv. rewrite outw_eq by by apply on_bus_card.
  change (port_device SPI_CONTROL_PORT) with (Some 2%nat). cbv iota beta.
  change (ioport_write16 2%nat _ ?v) with (snd <$> quietly (on_member spi set_spi (SPI.write16 0 v))).
  unfold mbind, M_bind. rewrite (call_spi_write _ s (SPI.set_control_reg v s)); [done|].
  rewrite (cast_idemp uint16_t), (cast_id uint16_t v) by done.
  unfold SPI.write16, SPI.write8, mbind, M_bind, modify. cbn -[Z.land Z.lor Z.shiftl Z.shiftr Z.lnot cast].
  unfold SPI.set_control_reg. cbn [SPI.control_reg SPI.rx_val SPI.state SPI.mosi_buf SPI.miso_buf
    SPI.disk_image SPI.do_write SPI.write_count]. do 2 f_equal.
  change (u16 (0xff .<< (8 * 0))) with 0xff. change (u16 (0xff .<< (8 * 1))) with 0xff00.
  rewrite (cast_id uint16_t v Hv). by apply control_bytes, in_u16.
Qed.

(** A byte out, a byte in, on the board. *)
Lemma exchange_inv v s r s' :
  exchange v s = Ok r s' -> SPI.write8 2 0 v s = Ok tt s' /\ SPI.rx_val s' = r.
Proof.
  unfold exchange, mbind, M_bind. destruct (SPI.write8 2 0 v s) as [[] s1|]; [|done].
  change (SPI.read8 2 0 s1) with (Ok (SPI.rx_val s1) s1). by intros [= <- <-].
Qed.

(** ** The buffer *)

Lemma xfer_char_eq i c s buf b :
  0 <= i < 1280 -> buf !! Z.to_nat i = Some c ->
  xfer_char i (with_card s buf b) = Ok c (with_card s buf b).
Proof.
  intros Hi E. unfold xfer_char, XFER_BUF_SIZE, get_var, mbind, M_bind, gets. cbn [with_card vars put_spi_xfer_buf spi_xfer_buf].
  rewrite (proj2 (Z.leb_le 0 i)), (proj2 (Z.ltb_lt i 1280)) by lia. cbn [andb]. by rewrite E.
Qed.

Lemma buf_get_eq i c s buf b :
  0 <= i < 1280 -> buf !! Z.to_nat i = Some c ->
  spi_xfer_buf_get i (with_card s buf b) = Ok (u8 c) (with_card s buf b).
Proof. intros Hi E. unfold spi_xfer_buf_get, mbind, M_bind. by rewrite (xfer_char_eq i c). Qed.

Lemma buf_set_eq i v s buf b :
  0 <= i < 1280 ->
  spi_xfer_buf_set i v (with_card s buf b) = Ok tt (with_card s (<[Z.to_nat i := s8 v]> buf) b).
Proof.
  intros Hi. unfold spi_xfer_buf_set, XFER_BUF_SIZE.
  rewrite (proj2 (Z.leb_le 0 i)), (proj2 (Z.ltb_lt i 1280)) by lia. cbn [andb]. destruct_board b.
Qed.

(** Filling a run of it with one byte. *)
Lemma buf_fill_eq n i v s buf b :
  0 <= i -> i + Z.of_nat n <= 1280 -> length buf = 1280%nat ->
  for_from n i (fun m => spi_xfer_buf_set m v) (with_card s buf b) =
    Ok tt (with_card s (take (Z.to_nat i) buf ++ replicate n (s8 v) ++ drop (Z.to_nat i + n) buf) b).
Proof.
  revert i buf. induction n as [|n IH]; intros i buf Hi Hn Hl; cbn [for_from].
  { rewrite Nat.add_0_r. by rewrite app_nil_l, take_drop. }
  unfold mbind, M_bind. rewrite buf_set_eq by lia. rewrite IH by (rewrite ?length_insert; lia).
  do 2 f_equal. replace (Z.to_nat (i + 1)) with (S (Z.to_nat i)) by lia.
  rewrite (take_S_r _ _ (s8 v)) by (apply list_lookup_insert_eq; lia).
  rewrite take_insert_ge by lia. rewrite drop_insert_lt by lia.
  rewrite <- app_assoc. cbn. by rewrite Nat.add_succ_r.
Qed.

(** ** A transfer *)

Lemma wait_idle_eq s buf b :
  (1 <= poll_bound)%nat -> on_bus b -> is_byte (SPI.rx_val s) ->
  spi_wait_idle (with_card s buf b) = Ok tt (with_card s buf b).
Proof.
  intros Hp Hb Hr. unfold spi_wait_idle, poll_while. destruct poll_bound as [|n]; [lia|]. cbn [while_true].
  unfold mbind, M_bind. rewrite inw_transfer by done. cbv iota beta.
  assert (nz (SPI.rx_val s .& SPI_XFER_BUSY) = false) as ->; [|done].
  unfold is_byte in Hr. unfold nz. rewrite Z.eqb_compare. change SPI_XFER_BUSY with (2 ^ 8).
  rewrite Z.land_comm. assert (2 ^ 8 .& SPI.rx_val s = 0) as ->; [|done].
  apply Z.bits_inj'. intros i Hi. rewrite Z.land_spec, Z.pow2_bits_eqb, Z.bits_0 by lia.
  destruct (Z.eqb_spec 8 i) as [<-|]; [|done]. by rewrite (testbit_high 8) by lia.
Qed.

Lemma byte_mask r : is_byte r -> u8 (r .& 0xff) = r.
Proof.
  unfold is_byte. intros Hr. change 0xff with (Z.ones 8). rewrite Z.land_ones by lia.
  rewrite Z.mod_small by lia. by rewrite cast_id by cpp_lia.
Qed.

(** The byte of the turn, and what is sent after it. *)
Lemma sent_char len src s buf b :
  0 <= src -> len <= 1280 -> length buf = 1280%nat ->
  exists c, (if src <? len then xfer_char src else mret 0xff) (with_card s buf b) = Ok c (with_card s buf b) /\
    u8 c = sent len buf src.
Proof.
  intros Hs Hl Hb. unfold sent. destruct (Z.ltb_spec src len) as [Hlt|Hge].
  - destruct (lookup_lt_is_Some_2 buf (Z.to_nat src)) as [c E]; [lia|].
    exists c. rewrite E. split; [by apply xfer_char_eq; [lia|]|done].
  - by exists 0xff.
Qed.

Lemma sent_next len src j buf :
  sent len buf (src + Z.of_nat (S j)) = sent len buf ((if src <? len then src + 1 else src) + Z.of_nat j).
Proof.
  destruct (Z.ltb_spec src len); [f_equal; lia|]. unfold sent.
  by rewrite !(proj2 (Z.ltb_ge _ _)) by lia.
Qed.

Lemma sent_insert len i dst v buf :
  0 <= dst < i -> sent len (<[Z.to_nat dst := v]> buf) i = sent len buf i.
Proof. intros Hd. unfold sent. rewrite list_lookup_insert_ne by lia. done. Qed.

(** What a list of bytes must be for the loop to send it from [src] on. *)
Definition sends (len : Z) (buf : list Z) (src : Z) (outs : list Z) : Prop :=
  forall j v, outs !! j = Some v -> v = sent len buf (src + Z.of_nat j).

(** The board after the loop, [dst] bytes having been stored before. *)
Definition stored (len dst : Z) (l buf : list Z) : list Z :=
  take (Z.to_nat dst) buf ++ map s8 l ++ drop (Z.to_nat len) buf.

Lemma stored_insert len dst r l buf :
  0 <= dst < len -> length buf = 1280%nat -> dst < 1280 ->
  stored len (dst + 1) l (<[Z.to_nat dst := s8 r]> buf) = stored len dst (r :: l) buf.
Proof.
  intros Hd Hl Hd'. unfold stored. replace (Z.to_nat (dst + 1)) with (S (Z.to_nat dst)) by lia.
  rewrite (take_S_r _ _ (s8 r)) by (apply list_lookup_insert_eq; lia).
  rewrite take_insert_ge, drop_insert_lt by lia. by rewrite <- app_assoc.
Qed.

Lemma xfer_loop_eq outs : forall fuel len src dst nf rs s s' buf b,
  (1 <= poll_bound)%nat -> on_bus b -> is_bytes rs ->
  exchanges outs s = Ok rs s' -> sends len buf src outs ->
  Z.of_nat (length (received nf rs)) = len - dst -> nf = true \/ dst = 0 ->
  0 <= dst <= src -> 0 < len <= 1280 -> length buf = 1280%nat -> (length outs <= fuel)%nat ->
  xfer_loop fuel len true src dst nf (with_card s buf b) =
    Ok tt (with_card s' (stored len dst (received nf rs) buf) b).
Proof.
  induction outs as [|v outs IH]; intros fuel len src dst nf rs s s' buf b Hp Hb Hrs E Hs Hn Hnf Hd Hl Hbuf Hf.
  - cbn in E. injection E as <- <-. cbn [received length] in Hn. assert (dst = len) as -> by lia.
    unfold stored. rewrite app_nil_l, take_drop.
    destruct fuel; cbn [xfer_loop]; by rewrite (proj2 (Z.ltb_ge _ _)) by lia.
  - cbn [exchanges] in E. unfold mbind, M_bind in E. destruct (exchange v s) as [r s1|] eqn:E1; [|done].
    destruct (exchanges outs s1) as [rs1 s2|] eqn:E2; [|done]. injection E as <- <-.
    apply Forall_cons_1 in Hrs as [Hr Hrs1]. destruct (exchange_inv _ _ _ _ E1) as [Ew Erx].
    assert (Hlt : dst < len).
    { destruct Hnf as [->| ->]; [|lia]. rewrite received_all in Hn. cbn in Hn. lia. }
    destruct fuel as [|fuel]; [cbn in Hf; lia|]. cbn [length] in Hf.
    cbn [xfer_loop]. rewrite (proj2 (Z.ltb_lt _ _)) by lia. cbv zeta.
    unfold mbind, M_bind. destruct (sent_char len src s buf b) as (c & Ec & Hc); [lia..|].
    rewrite Ec. pose proof (Hs 0%nat v eq_refl) as Hv. rewrite Z.add_0_r in Hv.
    rewrite (outw_transfer c s s1) by (done || by rewrite Hc, <- Hv).
    rewrite wait_idle_eq by (done || by rewrite Erx). cbn [negb andb].
    rewrite inw_transfer by (done || by rewrite Erx). rewrite Erx, byte_mask by done.
    assert (Hs1 : sends len buf (if src <? len then src + 1 else src) outs).
    { intros j w Ej. rewrite <- sent_next. by apply Hs. }
    assert (Hsrc : dst < (if src <? len then src + 1 else src)) by (destruct (Z.ltb_spec src len); lia).
    cbn [received] in Hn |- *. destruct (negb nf && (r =? 0xff)) eqn:Hskip.
    + apply andb_true_iff in Hskip as [Hnf' _]. destruct nf; [done|].
      apply (IH fuel len _ dst false rs1 s1); try done; try lia.
    + cbn [length] in Hn. rewrite buf_set_eq by lia. rewrite <- stored_insert by lia.
      apply (IH fuel len _ (dst + 1) true rs1); try done; try lia; [|by rewrite length_insert].
      intros j w Ej. rewrite (Hs1 j w Ej). symmetry. apply sent_insert. lia.
Qed.

(** [spi_xfer] with a response: [k] bytes more than the buffer's are sent. *)
Lemma spi_xfer_eq len k rs s s' buf b :
  on_bus b -> is_bytes rs -> 0 < len <= 1280 -> length buf = 1280%nat -> (Z.to_nat len + k <= poll_bound)%nat ->
  exchanges (map u8 (take (Z.to_nat len) buf) ++ replicate k 0xff) s = Ok rs s' ->
  Z.of_nat (length (received false rs)) = len ->
  spi_xfer len true (with_card s buf b) =
    Ok tt (with_card s' (map s8 (received false rs) ++ drop (Z.to_nat len) buf) b).
Proof.
  intros Hb Hrs Hl Hbuf Hp E Hn. unfold spi_xfer.
  erewrite xfer_loop_eq; [reflexivity| |done|exact Hrs|exact E| | |by right|lia|lia|done|].
  - lia.
  - intros j v Ej. unfold sent. rewrite Z.add_0_l, Nat2Z.id. rewrite lookup_app, list_lookup_fmap, lookup_take in Ej.
    destruct (Z.ltb_spec (Z.of_nat j) len).
    + rewrite decide_True in Ej by lia. destruct (lookup_lt_is_Some_2 buf j) as [c Ec]; [lia|].
      rewrite Ec in Ej |- *. cbn in *. congruence.
    + rewrite decide_False in Ej by lia. cbn in Ej. by apply lookup_replicate in Ej as [-> _].
  - lia.
  - rewrite length_app, length_map, length_take, length_replicate. lia.
Qed.

(** ** A command *)

Definition cmd_bytes (c : spi_cmd) : list Z :=
  [0xff; cmd c] ++ arg c ++ [crc c] ++ replicate (Z.to_nat (rx_datalen c + SD_NCR)) 0xff.

Record wf_cmd (c : spi_cmd) : Prop := {
  wc_cmd : is_byte (cmd c);
  wc_arg : is_bytes (arg c) /\ length (arg c) = 4%nat;
  wc_crc : is_byte (crc c);
  wc_len : 0 <= rx_datalen c <= 1265;
}.

Definition cmd_len (c : spi_cmd) : Z := 15 + rx_datalen c.

Lemma command_len_eq c : wf_cmd c -> spi_command_len c = cmd_len c.
Proof. intros [_ _ _ Hl]. unfold spi_command_len, cmd_len, SD_NCR. rewrite cast_id by cpp_lia. lia. Qed.

Lemma u8_s8 v : is_byte v -> u8 (s8 v) = v.
Proof. unfold is_byte. intros Hv. cpp_lia. Qed.

Lemma map_u8_s8 l : is_bytes l -> map u8 (map s8 l) = l.
Proof. induction 1 as [|v l Hv _ IH]; [done|]. cbn. by rewrite IH, u8_s8. Qed.

Lemma arg_loop_eq a3 a2 a1 a0 s buf b :
  for_loop 4 (fun m => a ← from_option BadIndex ([a3; a2; a1; a0] !! Z.to_nat m) ; spi_xfer_buf_set (2 + m) a)
    (with_card s buf b) =
  Ok tt (with_card s (<[5%nat := s8 a0]> (<[4%nat := s8 a1]> (<[3%nat := s8 a2]> (<[2%nat := s8 a3]> buf)))) b).
Proof.
  assert (step : forall m a f buf', 0 <= m < 4 -> [a3; a2; a1; a0] !! Z.to_nat m = Some a ->
    ((a ← from_option BadIndex ([a3; a2; a1; a0] !! Z.to_nat m) ; spi_xfer_buf_set (2 + m) a) ;; f)
      (with_card s buf' b) = f (with_card s (<[Z.to_nat (2 + m) := s8 a]> buf') b) :> outcome _ unit).
  { intros m a f buf' Hm E. rewrite E. unfold mbind, M_bind.
    change (from_option BadIndex (Some a) (with_card s buf' b)) with (Ok a (with_card s buf' b) : outcome sim_board Z).
    cbv iota beta. by rewrite buf_set_eq by lia. }
  unfold for_loop. change (Z.to_nat 4) with 4%nat. cbn [for_from].
  rewrite (step 0 a3), (step _ a2), (step _ a1), (step _ a0) by done. done.
Qed.

(** The buffer when the command is sent. *)
Lemma command_buffer c s buf b :
  on_bus b -> wf_cmd c -> length buf = 1280%nat -> exists buf',
    length buf' = 1280%nat /\ map u8 (take (Z.to_nat (cmd_len c)) buf') = cmd_bytes c /\
    spi_do_command c (with_card s buf b) = spi_xfer (cmd_len c) true (with_card (SPI.set_control_reg 1 s) buf' b).
Proof.
  intros Hb Hc Hl. pose proof (command_len_eq c Hc) as Ecl. destruct Hc as [Hcmd [Harg Halen] Hcrc Hlen].
  unfold spi_do_command. rewrite Ecl. unfold cmd_len in *.
  do 7 (destruct buf as [|? buf]; [done|]). cbn [length] in Hl.
  destruct c as [op args cr rx]. cbn [cmd arg crc rx_datalen] in *.
  destruct args as [|a3 [|a2 [|a1 [|a0 [|]]]]]; try done.
  unfold mbind at 1 2, M_bind at 1 2. rewrite !buf_set_eq by lia.
  unfold mbind at 1, M_bind at 1. rewrite arg_loop_eq.
  unfold mbind at 1, M_bind at 1. rewrite buf_set_eq by lia.
  unfold mbind at 1, M_bind at 1. rewrite buf_fill_eq by (rewrite ?length_insert; cbn [length]; lia).
  unfold mbind at 1, M_bind at 1. rewrite outw_control by done.
  eexists. split; [|split; [|reflexivity]].
  - rewrite !length_app, length_replicate, length_take, length_drop, !length_insert. cbn [length]. lia.
  - change (take (Z.to_nat 7) _) with (map s8 [255; op; a3; a2; a1; a0; cr]).
    rewrite app_assoc, take_app_length' by (rewrite length_app, length_replicate, length_map; cbn [length]; lia).
    change (replicate ?n (s8 ?v)) with (replicate n (s8 v)).
    rewrite map_app, map_u8_s8.
    + assert (map u8 (replicate (Z.to_nat (15 + rx - 7)) (s8 255)) = replicate (Z.to_nat (rx + SD_NCR)) 0xff) as ->.
      { change (map u8) with (fmap (M := list) u8). rewrite fmap_replicate. unfold SD_NCR. by replace (15 + rx - 7) with (rx + 8) by lia. }
      unfold cmd_bytes. cbn [cmd arg crc rx_datalen app]. done.
    + repeat (apply Forall_cons_2; [done|]). apply (Forall_app_2 _ [a3; a2; a1; a0] [cr]); [done|].
      by apply Forall_cons_2.
Qed.

(** A command on a card that answers with [rs]; [k] more bytes are sent than
    the command has. *)
Lemma do_command_eq c k rs s s' buf b :
  on_bus b -> wf_cmd c -> length buf = 1280%nat -> is_bytes rs -> (Z.to_nat (cmd_len c) + k <= poll_bound)%nat ->
  exchanges (cmd_bytes c ++ replicate k 0xff) (SPI.set_control_reg 1 s) = Ok rs s' ->
  Z.of_nat (length (received false rs)) = cmd_len c ->
  exists buf', length buf' = 1280%nat /\
    (forall i v, received false rs !! i = Some v -> buf' !! i = Some (s8 v)) /\
    spi_do_command c (with_card s buf b) = Ok tt (with_card s' buf' b).
Proof.
  intros Hb Hc Hl Hrs Hp E Hn. destruct (command_buffer c s buf b Hb Hc Hl) as (buf1 & Hl1 & Hbytes & ->).
  assert (0 < cmd_len c <= 1280) by (destruct Hc; unfold cmd_len in *; lia).
  exists (map s8 (received false rs) ++ drop (Z.to_nat (cmd_len c)) buf1). split; [|split].
  - rewrite length_app, length_map, length_drop. lia.
  - intros i v Ei. apply lookup_app_l_Some. by rewrite list_lookup_fmap, Ei.
  - apply (spi_xfer_eq _ k); try done. by rewrite Hbytes.
Qed.

(** ** The responses of the card at rest *)

Lemma idle_clocks n c rx d dw m :
  exists rx' dw', exchanges (replicate n 0xff) (idle c rx d dw m) =
    Ok (replicate n 0xff) (idle c rx' d dw' m).
Proof.
  revert rx dw. induction n as [|n IH]; intros rx dw; [by exists rx, dw|].
  destruct (IH 0xff false) as (rx' & dw' & E). exists rx', dw'. cbn [replicate exchanges].
  unfold mbind, M_bind. change (exchange 255 (idle c rx d dw m)) with (Ok 255 (idle c 255 d false m)).
  cbv iota beta. by rewrite E.
Qed.

(** The commands that carry no data, and the answers. *)
Definition simple_answer (op : Z) : option (list Z) :=
  match op with
  | 0x40 | 0x48 | 0x50 | 0x77 => Some [0x01]
  | 0x69 => Some [0x00]
  | 0x7a => Some [0x01; 0x00; 0x00; 0x00; 0x00]
  | _ => None
  end.

Lemma simple_exchanges op a3 a2 a1 a0 cr n ans rx d dw m :
  simple_answer op = Some ans -> (length ans < n)%nat ->
  exists rx' dw', exchanges ([0xff; op; a3; a2; a1; a0; cr; 0xff] ++ replicate n 0xff) (idle 1 rx d dw m) =
    Ok (replicate 8 0xff ++ ans ++ replicate (n - length ans) 0xff) (idle 1 rx' d dw' m).
Proof.
  intros Hop Hn.
  assert (E8 : exchanges [0xff; op; a3; a2; a1; a0; cr; 0xff] (idle 1 rx d dw m) =
    Ok (replicate 8 0xff) (SPI.mk 1 0xff SPI.STATE_TRANSMITTING [op; a3; a2; a1; a0; cr; 0xff] ans d false m)).
  { unfold simple_answer in Hop. repeat (case_match; try done); injection Hop as <-; reflexivity. }
  destruct (transmit_eq 1 0xff [op; a3; a2; a1; a0; cr; 0xff] ans d false m (replicate (length ans) 0xff)) as [rx1 E1];
    [by rewrite length_replicate|].
  assert (map u8 ans = ans) as Ha.
  { unfold simple_answer in Hop. by repeat (case_match; try done); injection Hop as <-. }
  rewrite Ha in E1.
  assert (exists k, n = length ans + (1 + k))%nat as [k ->] by (exists (n - length ans - 1)%nat; lia).
  destruct (idle_clocks k 1 0xff d false m) as (rx2 & dw2 & E2). exists rx2, dw2.
  replace (length ans + (1 + k) - length ans)%nat with (1 + k)%nat by lia. rewrite !replicate_add.
  eapply exchanges_app; [exact E8|]. eapply exchanges_app; [exact E1|].
  eapply exchanges_app; [|exact E2]. reflexivity.
Qed.

Lemma is_bytes_ff n : is_bytes (replicate n 0xff).
Proof. by apply Forall_replicate. Qed.

(** The card at rest, the board around it. *)
Record card_ready (d : Disk.t) (b : sim_board) : Prop := {
  cr_bus : on_bus b;
  cr_buf : length (spi_xfer_buf (vars b)) = 1280%nat;
  cr_idle : exists c rx dw m, spi (devs_of b) = idle c rx d dw m;
}.

(** A simple command: it answers, and nothing but the buffer changes. *)
Lemma simple_command op arg cr rx ans d b :
  card_ready d b -> simple_answer op = Some ans -> is_bytes arg -> length arg = 4%nat -> is_byte cr ->
  1 <= rx <= 5 -> (length ans <= Z.to_nat rx)%nat -> (64 <= poll_bound)%nat ->
  exists c rx' dw m buf',
    spi_do_command (mk_spi_cmd op arg cr rx) b = Ok tt (with_card (idle c rx' d dw m) buf' b) /\
    length buf' = 1280%nat /\ forall i v, (ans ++ replicate 5 0xff) !! i = Some v -> buf' !! i = Some (s8 v).
Proof.
  intros [Hb Hbuf (c & rx0 & dw & m & Hspi)] Hop Harg Hal Hcr Hrx Hans Hp.
  set (cm := mk_spi_cmd op arg cr rx).
  assert (Hwf : wf_cmd cm).
  { split; cbn; try done; try lia.
    unfold simple_answer in Hop. by repeat (case_match; try done). }
  destruct arg as [|a3 [|a2 [|a1 [|a0 [|]]]]]; try done.
  destruct (simple_exchanges op a3 a2 a1 a0 cr (Z.to_nat rx + 15) ans rx0 d dw m Hop) as (rx1 & dw1 & E); [lia|].
  assert (Hlen : 1 <= Z.of_nat (length ans)).
  { unfold simple_answer in Hop. repeat (case_match; try done); injection Hop as <-; cbn; lia. }
  assert (Hr : received false (replicate 8 0xff ++ ans ++ replicate (Z.to_nat rx + 15 - length ans) 0xff) =
    ans ++ replicate (Z.to_nat rx + 15 - length ans) 0xff).
  { unfold simple_answer in Hop. repeat (case_match; try done); injection Hop as <-; by apply received_after. }
  assert (Hab : is_bytes ans).
  { unfold simple_answer in Hop. repeat (case_match; try done); injection Hop as <-; bytes. }
  rewrite <- (with_card_same b), Hspi.
  destruct (do_command_eq cm 8 (replicate 8 0xff ++ ans ++ replicate (Z.to_nat rx + 15 - length ans) 0xff)
    (idle c rx0 d dw m) (idle 1 rx1 d dw1 m) (spi_xfer_buf (vars b)) b) as (buf' & Hl & Hget & Ec); try done.
  - apply Forall_app_2; [apply is_bytes_ff|]. apply Forall_app_2; [done|apply is_bytes_ff].
  - unfold cmd_len. cbn. lia.
  - rewrite <- E. change (SPI.set_control_reg 1 (idle c rx0 d dw m)) with (idle 1 rx0 d dw m).
    f_equal. unfold cmd_bytes, cm. cbn [BiosSD.cmd BiosSD.arg BiosSD.crc rx_datalen app]. unfold SD_NCR.
    do 7 f_equal. rewrite <- replicate_add. change (0xff :: replicate ?n 0xff) with (replicate (S n) 0xff).
    f_equal. lia.
  - rewrite Hr, length_app, length_replicate. unfold cmd_len, cm. cbn [rx_datalen]. lia.
  - exists 1, rx1, dw1, m, buf'. split; [exact Ec|]. split; [done|].
    intros i v Ei. apply Hget. rewrite Hr.
    apply lookup_app_Some in Ei as [Ei|[Hi Ei]]; [by apply lookup_app_l_Some|].
    rewrite lookup_app_r by done. apply lookup_replicate in Ei as [-> Hi']. apply lookup_replicate. split; [done|lia].
Qed.
End card.
