(* ===== verification/BiosDisk.v ===== *)
(** * The BIOS and the card: start-up, reading a sector, writing one *)
From S2P Require Import Prelude Config MainMemory Registers ErrorState IOPorts Machine ModRM Core StringProps.
From S2P Require Import SimCPU SoftwareCPU PIC PS2 Timer UART SPI SPIProps Display CGA Simulator SimulatorProps.
From S2P Require Import Bios BiosDisplay BiosPrintk BiosKeyboard BiosMouse BiosSD BiosMain BiosSim BiosTame BiosCard.
From Stdlib Require Import (notations) String.

Section disk.
Context {CFG : Config} {BC : BiosConfig}.

(** From [b] to [b'] the card stays ready, and nothing but it, the buffer and
    what [frame] leaves out changes. *)
Record card_step (P : Z -> Prop) (d d' : Disk.t) (b b' : sim_board) : Prop := {
  cs_ready : card_ready d' b';
  cs_ram : forall a, ~ P a -> Memory.byte_at (ram b') a = Memory.byte_at (ram b) a;
  cs_pic : PIC.state (pic (devs_of b')) = PIC.state (pic (devs_of b));
}.
Definition same_sdhc (b b' : sim_board) : Prop := sd_is_sdhc (vars b') = sd_is_sdhc (vars b).
Definition nowhere (a : Z) : Prop := False.

Lemma card_step_trans P d1 d2 d3 b1 b2 b3 :
  card_step P d1 d2 b1 b2 -> card_step P d2 d3 b2 b3 -> card_step P d1 d3 b1 b3.
Proof. intros [? H1 ?] [? H2 ?]. split; [done| |congruence]. intros a Ha. by rewrite H2, H1. Qed.

Lemma card_step_mono (P Q : Z -> Prop) d d' b b' :
  (forall a, P a -> Q a) -> card_step P d d' b b' -> card_step Q d d' b b'.
Proof. intros HPQ [? H ?]. split; try done. intros a Ha. apply H. auto. Qed.

Lemma frame_step P d b b' : frame P b b' -> card_ready d b -> card_step P d d b b'.
Proof.
  intros [Hb Hr Hs Hp Hbuf Hh] [_ Hl Hi]. split; [|done|done].
  split; [done|by rewrite Hbuf|by rewrite Hs].
Qed.

Lemma with_card_step c rx d d' dw m buf b :
  on_bus b -> length buf = 1280%nat -> card_step nowhere d d' b (with_card (idle c rx d' dw m) buf b).
Proof.
  intros Hb Hl. split; [|done|done]. split; [by apply on_bus_card|done|].
  by exists c, rx, dw, m.
Qed.

(** ** The first byte of a response *)

Lemma find_r1_eq r s buf b :
  buf !! 0%nat = Some (s8 r) -> is_byte r -> r <> 0xff ->
  find_r1_response (with_card s buf b) = Ok (0, r) (with_card s buf b).
Proof.
  intros E Hr Hne. unfold find_r1_response.
  assert (0 < Z.to_nat XFER_BUF_SIZE)%nat as Hn by (unfold XFER_BUF_SIZE; lia). revert Hn.
  generalize (Z.to_nat XFER_BUF_SIZE). intros [|n] Hn; [lia|]. cbn [find_r1_from].
  unfold mbind, M_bind. rewrite (buf_get_eq 0 (s8 r)) by (done || lia). rewrite u8_s8 by done.
  apply Z.eqb_neq in Hne. by rewrite Hne.
Qed.

Lemma result_eq r s buf b :
  buf !! 0%nat = Some (s8 r) -> is_byte r -> r <> 0xff ->
  command_result (with_card s buf b) = Ok (r .& R1_ERROR_MASK) (with_card s buf b).
Proof. intros. unfold command_result, mbind, M_bind. by rewrite (find_r1_eq r). Qed.

(** ** Start-up *)

Context (Hpoll : (2048 <= poll_bound)%nat).

(** A command whose answer is one byte without an error bit. *)
Lemma simple_result op arg cr r d b :
  card_ready d b -> simple_answer op = Some [r] -> is_bytes arg -> length arg = 4%nat -> is_byte cr ->
  is_byte r -> r <> 0xff ->
  exists b', (spi_do_command (mk_spi_cmd op arg cr 1) ;; find_r1_response) b = Ok (0, r) b' /\
    (spi_do_command (mk_spi_cmd op arg cr 1) ;; command_result) b = Ok (r .& R1_ERROR_MASK) b' /\
    card_step nowhere d d b b' /\ same_sdhc b b'.
Proof using Hpoll.
  intros Hb Hop Harg Hal Hcr Hr Hne.
  destruct (simple_command op arg cr 1 [r] d b) as (c & rx & dw & m & buf & E & Hl & Hget);
    try done; try lia.
  exists (with_card (idle c rx d dw m) buf b). unfold mbind, M_bind. rewrite E.
  pose proof (Hget 0%nat r eq_refl) as H0.
  rewrite (find_r1_eq r), (result_eq r) by done. split; [done|]. split; [done|].
  split; [|done]. apply with_card_step; [apply Hb|done].
Qed.

Lemma read_ocr_eq d b :
  card_ready d b -> exists b', sd_send_read_ocr b = Ok 0 b' /\ card_step nowhere d d b b' /\ sd_is_sdhc (vars b') = 0.
Proof using Hpoll.
  intros Hb.
  destruct (simple_command 0x7a no_arg 0 5 [0x01; 0x00; 0x00; 0x00; 0x00] d b)
    as (c & rx & dw & m & buf & E & Hl & Hget); try done; try lia. { bytes. }
  exists (mk_board (hw (with_card (idle c rx d dw m) buf b))
    (put_sd_is_sdhc 0 (vars (with_card (idle c rx d dw m) buf b)))).
  unfold sd_send_read_ocr, mbind, M_bind. rewrite E.
  rewrite (find_r1_eq 1) by (done || by apply (Hget 0%nat)). cbn [Z.ltb Z.compare Z.add].
  rewrite (buf_get_eq 4 (s8 0)), (buf_get_eq 3 (s8 0)), (buf_get_eq 2 (s8 0)), (buf_get_eq 1 (s8 0))
    by (lia || by apply Hget). split; [done|].
  split; [|done]. destruct (with_card_step c rx d d dw m buf b) as [[[? ? ?] ? ?] ? ?]; [apply Hb|done|].
  split; [|done|done]. split; [by split|done|done].
Qed.

(** The clocks that are sent without waiting for a response. *)
Lemma clock_loop_eq n fuel len src c rx d dw m buf b :
  on_bus b -> (S n <= fuel)%nat -> 0 <= src -> src + Z.of_nat (S n) = len -> len <= 1280 -> length buf = 1280%nat ->
  (forall j, (j < Z.to_nat len)%nat -> buf !! j = Some (s8 0xff)) ->
  exists rx' dw', xfer_loop fuel len false src 0 false (with_card (idle c rx d dw m) buf b) =
    Ok tt (with_card (idle c rx' d dw' m) buf b).
Proof using Hpoll.
  intros Hb. revert fuel src rx dw. induction n as [|n IH]; intros fuel src rx dw Hf Hs Hlen Hl Hbuf Hff;
    (destruct fuel as [|fuel]; [lia|]); cbn [xfer_loop]; cbv zeta;
    rewrite (proj2 (Z.ltb_lt 0 len)), (proj2 (Z.ltb_lt src len)) by lia;
    unfold mbind, M_bind; rewrite (xfer_char_eq src (s8 0xff)) by (lia || (apply Hff; lia));
    rewrite (outw_transfer _ _ (idle c 0xff d false m)) by (done || reflexivity);
    rewrite wait_idle_eq by (done || lia); cbn [negb andb].
  - rewrite (proj2 (Z.eqb_eq _ _)) by lia. by exists 0xff, false.
  - rewrite (proj2 (Z.eqb_neq _ _)) by lia. rewrite inw_transfer by done.
    change (SPI.rx_val (idle c 0xff d false m)) with 0xff. change (u8 (0xff .& 0xff)) with 0xff.
    cbn [Z.eqb Pos.eqb]. apply IH; done || lia.
Qed.

(** [n] bytes of the buffer set, the control word, eight clocks. *)
Lemma clocks_eq n v d b :
  card_ready d b -> 8 <= n <= 1280 -> in_range uint16_t v -> exists b',
    (for_loop n (fun i => spi_xfer_buf_set i 0xff) ;; outw SPI_CONTROL_PORT v ;; spi_xfer 8 false) b = Ok tt b' /\
    card_step nowhere d d b b'.
Proof using Hpoll.
  intros [Hb Hl (c & rx & dw & m & Hspi)] Hn Hv.
  assert (Hbb : b = with_card (idle c rx d dw m) (spi_xfer_buf (vars b)) b) by by rewrite <- Hspi, with_card_same.
  set (buf := replicate (Z.to_nat n) (s8 0xff) ++ drop (Z.to_nat 0 + Z.to_nat n) (spi_xfer_buf (vars b))).
  assert (Hlb : length buf = 1280%nat).
  { unfold buf. rewrite length_app, length_replicate, length_drop. lia. }
  destruct (clock_loop_eq 7 poll_bound 8 0 (u16 v) rx d dw m buf b) as (rx' & dw' & E); try done; try lia.
  { intros j Hj. unfold buf. rewrite lookup_app_l by (rewrite length_replicate; lia).
    apply lookup_replicate. split; [done|lia]. }
  exists (with_card (idle (u16 v) rx' d dw' m) buf b). split; [|by apply with_card_step].
  rewrite Hbb at 1. unfold for_loop, mbind, M_bind. rewrite buf_fill_eq by lia. cbv iota beta.
  rewrite outw_control by done. exact E.
Qed.

(** The next statement of a sequence. *)
Lemma bind_step {S A B} (f : M S A) (g : A -> M S B) s a s' : f s = Ok a s' -> (f ≫= g) s = g a s'.
Proof. intros E. unfold mbind, M_bind. by rewrite E. Qed.

Lemma or_panic_eq (f : sim_bios Z) p b b' : f b = Ok 0 b' -> or_panic f p b = Ok tt b'.
Proof. intros E. unfold or_panic, mbind, M_bind. by rewrite E. Qed.

Lemma reset_eq d b : card_ready d b -> exists b', sd_send_reset b = Ok 0 b' /\ card_step nowhere d d b b'.
Proof using Hpoll.
  intros Hb. destruct (simple_result 0x40 no_arg 0x95 1 d b) as (b' & _ & E & Hs & _); try done; [bytes|].
  by exists b'.
Qed.
Lemma if_cond_eq d b : card_ready d b -> exists b', sd_send_if_cond b = Ok 0 b' /\ card_step nowhere d d b b'.
Proof using Hpoll.
  intros Hb. destruct (simple_result 0x48 [0x00; 0x00; 0x01; 0xaa] 0x87 1 d b) as (b' & _ & E & Hs & _);
    try done; [bytes|]. by exists b'.
Qed.
Lemma set_blocklen_eq d b :
  card_ready d b -> exists b', sd_set_blocklen b = Ok 0 b' /\ card_step nowhere d d b b' /\ same_sdhc b b'.
Proof using Hpoll.
  intros Hb. destruct (simple_result 0x50 [0x00; 0x00; 0x02; 0x00] 0 1 d b) as (b' & _ & E & Hs & Hh);
    try done; [bytes|]. by exists b'.
Qed.
Lemma wait_ready_eq d b :
  card_ready d b -> exists b', sd_wait_ready b = Ok 0 b' /\ card_step nowhere d d b b'.
Proof using Hpoll.
  intros Hb. destruct (simple_result 0x77 no_arg 0 1 d b) as (b1 & _ & E1 & Hs1 & _); try done; [bytes|].
  destruct (simple_result 0x69 [0x40; 0x00; 0x00; 0x00] 0 0 d b1) as (b2 & E2 & _ & Hs2 & _); try done;
    [apply Hs1|bytes|].
  exists b2. split; [|by eapply card_step_trans].
  unfold sd_wait_ready. destruct poll_bound as [|n]; [lia|]. cbn [wait_ready]. unfold send_acmd.
  unfold mbind at 1, M_bind at 1. rewrite E1. change (nz (1 .& R1_ERROR_MASK)) with false. cbv iota beta.
  revert E2. unfold mbind, M_bind. destruct (spi_do_command _ b1) as [[] b1'|]; [|done].
  intros E2. by rewrite E2.
Qed.

(** Bringing the card up: it answers every command, and it is byte-addressed. *)
Lemma sd_init_eq d b :
  card_ready d b -> exists b', sd_init b = Ok tt b' /\ card_step screen d d b b' /\ sd_is_sdhc (vars b') = 0.
Proof using Hpoll.
  intros H0. destruct (clocks_eq 8 (SPI_CS_DEACTIVATE .| 0x1ff) d b H0) as (b1 & E1 & S1); [done|done|].
  destruct (clocks_eq 128 0x1ff d b1) as (b2 & E2 & S2); [apply S1|done|done|].
  destruct (reset_eq d b2) as (b3 & E3 & S3); [apply S2|].
  destruct (if_cond_eq d b3) as (b4 & E4 & S4); [apply S3|].
  destruct (read_ocr_eq d b4) as (b5 & E5 & S5 & _); [apply S4|].
  destruct (wait_ready_eq d b5) as (b6 & E6 & S6); [apply S5|].
  destruct (read_ocr_eq d b6) as (b7 & E7 & S7 & Hh7); [apply S6|].
  destruct (set_blocklen_eq d b7) as (b8 & E8 & S8 & Hh8); [apply S7|].
  assert (S : card_step nowhere d d b b8) by (do 7 (eapply card_step_trans; [eassumption|]); exact S8).
  destruct (tame_putstr (ltac:(lia)) (text "SD card ready
"%string) b8) as ([] & b9 & E9 & F9); [apply S8|done|].
  exists b9. split; [|split].
  - unfold sd_init. rewrite (bind_step sd_send_initial_clock _ _ _ _ E1), (bind_step sd_flush_fifo _ _ _ _ E2).
    rewrite (bind_step _ _ _ _ _ (or_panic_eq _ _ _ _ E3)), (bind_step _ _ _ _ _ (or_panic_eq _ _ _ _ E4)),
      (bind_step _ _ _ _ _ (or_panic_eq _ _ _ _ E5)), (bind_step _ _ _ _ _ (or_panic_eq _ _ _ _ E6)),
      (bind_step _ _ _ _ _ (or_panic_eq _ _ _ _ E7)), (bind_step _ _ _ _ _ (or_panic_eq _ _ _ _ E8)).
    exact E9.
  - eapply card_step_trans; [by eapply card_step_mono; [|exact S]|]. apply frame_step; [done|apply S8].
  - unfold same_sdhc in Hh8. by rewrite (fr_sdhc _ _ _ F9), Hh8.
Qed.
End disk.
