(* ===== verification/BiosSector.v ===== *)
(** * The BIOS and the card: reading a sector, and INT 13h *)
From S2P Require Import Prelude Config MainMemory Registers ErrorState IOPorts Machine ModRM Core StringProps.
From S2P Require Import SimCPU SoftwareCPU PIC PS2 Timer UART SPI SPIProps Display CGA Simulator SimulatorProps.
From S2P Require Import Bios BiosDisplay BiosPrintk BiosKeyboard BiosMouse BiosSD BiosMain BiosSim BiosTame BiosCard.
From S2P Require Import BiosDisk.
From Stdlib Require Import (notations) String.

(** ** The address in a command *)

Definition arg_byte (a : Z) (i : nat) : Z := a / 256 ^ Z.of_nat i mod 256.

Lemma address_arg_eq a : 0 <= a < 2 ^ 32 -> address_arg a = [arg_byte a 3; arg_byte a 2; arg_byte a 1; arg_byte a 0].
Proof.
  intros Ha. unfold address_arg, arg_byte.
  assert (H : forall k, 0 <= k -> u8 (a .>> k .& 0xff) = a / 2 ^ k mod 256).
  { intros k Hk. change 0xff with (Z.ones 8). rewrite Z.land_ones, Z.shiftr_div_pow2 by lia.
    change (2 ^ 8) with 256. cpp_lia. }
  by rewrite !H by lia.
Qed.

Lemma arg_byte_range a i : is_byte (arg_byte a i).
Proof. apply Z.mod_pos_bound. lia. Qed.

Lemma arg_address a :
  0 <= a < 2 ^ 32 -> address (arg_byte a 3) (arg_byte a 2) (arg_byte a 1) (arg_byte a 0) = a.
Proof. intros Ha. unfold address, arg_byte. cbn [Z.of_nat Pos.of_succ_nat Pos.succ]. cbn. zlia. Qed.

(** The 512 bytes of the image from [a] on. *)
Definition block (img : list Z) (a : Z) : list Z := take 512 (drop (Z.to_nat a) img).

Lemma length_block img a : 0 <= a -> a + 512 <= Z.of_nat (length img) -> length (block img a) = 512%nat.
Proof. intros. unfold block. rewrite length_take, length_drop. lia. Qed.

Section sector.
Context {CFG : Config} {BC : BiosConfig}.
(** ** The read command *)

Definition read_cmd (a : Z) : spi_cmd :=
  mk_spi_cmd 0x51 (address_arg a) 0 (1 + 1 + BLOCK_SIZE + 2 + MAX_DATA_START_OFFS).

(** What is in the buffer after it: the response, the gap, the token, the block. *)
Definition read_response (l : list Z) : list Z :=
  [0x00; 0xff; 0xfe] ++ l ++ [0x77; 0x77] ++ replicate 526 0xff.

Lemma read_exchanges a img p rx dw m :
  0 <= a < 2 ^ 32 -> a + 512 <= Z.of_nat (length img) -> is_bytes img ->
  exists rx' dw', exchanges (cmd_bytes (read_cmd a) ++ replicate 10 0xff) (idle 1 rx (Disk.mk img p false) dw m) =
    Ok (replicate 10 0xff ++ read_response (block img a)) (idle 1 rx' (Disk.mk img (a + 512) false) dw' m).
Proof.
  intros Ha Hl Hb.
  assert (Ebytes : cmd_bytes (read_cmd a) ++ replicate 10 0xff =
    [0xff] ++ (command 0x51 (arg_byte a 3) (arg_byte a 2) (arg_byte a 1) (arg_byte a 0) 0 0xff ++ replicate 520 0xff) ++
    replicate 525 0xff).
  { unfold cmd_bytes, read_cmd, command. rewrite address_arg_eq by done.
    cbn [cmd arg crc rx_datalen app]. reflexivity. }
  rewrite Ebytes. pose proof (arg_address a Ha) as Haddr.
  pose proof (read_transaction (arg_byte a 3) (arg_byte a 2) (arg_byte a 1) (arg_byte a 0) 0 0xff
    (replicate 520 0xff) 1 0xff img p false m) as E. rewrite Haddr in E.
  specialize (E ltac:(done) ltac:(lia) Hl Hb (length_replicate _ _)).
  destruct (idle_clocks 525 1 0xff (Disk.mk img (a + 512) false) false m) as (rx' & dw' & E').
  exists rx', dw'.
  replace (replicate 10 0xff ++ read_response (block img a)) with
    ([0xff] ++ (replicate 7 0xff ++ read_answer (block img a) ++ [0xff]) ++ replicate 525 0xff).
  - eapply exchanges_app; [|eapply exchanges_app; [exact E|exact E']]. reflexivity.
  - unfold read_answer, read_response. rewrite <- !app_assoc. reflexivity.
Qed.

Lemma is_bytes_read img a : is_bytes img -> is_bytes (read_response (block img a)).
Proof.
  intros Hb. unfold read_response. apply Forall_app_2; [bytes|]. apply Forall_app_2; [by apply is_bytes_block|].
  apply Forall_app_2; [bytes|apply is_bytes_ff].
Qed.

(** ** Into memory *)

(** The bytes of memory with [l] at [base]. *)
Definition overlay (base : Z) (l : list Z) (old : Z -> Z) (a : Z) : Z :=
  match (if base <=? a then l !! Z.to_nat (a - base) else None) with Some v => v | None => old a end.

Lemma overlay_nil base old a : overlay base [] old a = old a.
Proof. unfold overlay. destruct (base <=? a); by rewrite ?lookup_nil. Qed.

Lemma overlay_ext base l old old' a : (forall y, old y = old' y) -> overlay base l old a = overlay base l old' a.
Proof. intros H. unfold overlay. by rewrite H. Qed.

Lemma overlay_snoc base l v old a :
  overlay base (l ++ [v]) old a = if decide (a = base + Z.of_nat (length l)) then v else overlay base l old a.
Proof.
  unfold overlay. destruct (Z.leb_spec base a) as [Hle|Hgt]; [|case_decide; lia || done].
  rewrite lookup_app. case_decide as Ha.
  - subst a. replace (Z.to_nat (base + Z.of_nat (length l) - base)) with (length l) by lia.
    rewrite lookup_ge_None_2 by lia. by rewrite Nat.sub_diag.
  - destruct (l !! Z.to_nat (a - base)) eqn:E; [done|]. apply lookup_ge_None in E.
    by rewrite lookup_ge_None_2 by (cbn; lia).
Qed.

(** A run of memory that wraps neither round the segment nor round the RAM. *)
Definition linear (seg addr n : Z) : Prop :=
  in_range uint16_t seg /\ 0 <= addr /\ addr + n <= 65536 /\ seg * 16 + addr + n <= Memory.MEMORY_SIZE.

Lemma linear_phys seg addr n i : linear seg addr n -> 0 <= i < n -> phys seg (addr + i) = seg * 16 + addr + i.
Proof. intros (Hs & H0 & H1 & H2) Hi. rewrite phys_eq; [lia|done|cpp_lia|lia]. Qed.

Lemma copy_from_buf_eq dseg daddr offs l s buf b :
  on_bus b -> linear dseg daddr 512 -> 0 <= offs -> offs + 512 <= 1280 ->
  length l = 512%nat -> is_bytes l -> (forall i v, l !! i = Some v -> buf !! (Z.to_nat offs + i)%nat = Some (s8 v)) ->
  exists mm, copy_from_buf dseg daddr offs (with_card s buf b) = Ok tt (with_card s buf (with_ram mm b)) /\
    Memory.wf mm /\ forall a, Memory.byte_at mm a = overlay (dseg * 16 + daddr) l (Memory.byte_at (ram b)) a.
Proof.
  intros Hb Hlin Ho0 Ho1 Hl Hbytes Hget.
  destruct (for_loop_inv (fun i bb => exists mm, bb = with_card s buf (with_ram mm b) /\ Memory.wf mm /\
      forall a, Memory.byte_at mm a = overlay (dseg * 16 + daddr) (take (Z.to_nat i) l) (Memory.byte_at (ram b)) a)
    512 (fun i => v ← spi_xfer_buf_get (offs + i) ; writeb dseg (daddr + i) v) (with_card s buf b))
    as (b' & E & mm & -> & Hw & Hm); [lia| | |].
  - exists (ram b). split; [by destruct b as [[] []]|]. split; [apply Hb|]. intros a. by rewrite overlay_nil.
  - intros i bb Hi (mm & -> & Hw & Hm).
    destruct (lookup_lt_is_Some_2 l (Z.to_nat i)) as [v Ev]; [lia|].
    assert (Hv : is_byte v) by by eapply Forall_lookup_1.
    eexists. split.
    { unfold mbind, M_bind. rewrite (buf_get_eq _ (s8 v)); [|lia|].
      - cbv iota beta. rewrite writeb_eq. reflexivity.
      - rewrite Z2Nat.inj_add by lia. by apply Hget. }
    exists (put8 mm (phys dseg (daddr + i)) (u8 (s8 v))). split; [done|].
    split; [apply wf_put8; [done|apply phys_range]|]. intros a.
    rewrite byte_at_put8, Hm, (linear_phys dseg daddr 512 i) by done. rewrite u8_s8 by done.
    replace (Z.to_nat (i + 1)) with (S (Z.to_nat i)) by lia.
    rewrite (take_S_r _ _ v Ev), overlay_snoc, length_take, Nat.min_l by lia.
    rewrite Z2Nat.id by lia. unfold is_byte in Hv. repeat case_decide; try done; try lia. cpp_lia.
  - exists mm. split; [exact E|]. split; [done|]. intros a. rewrite Hm.
    by rewrite take_ge by lia.
Qed.

(** The data follow the token. *)
Lemma find_data_eq l s buf b :
  (forall i v, read_response l !! i = Some v -> buf !! i = Some (s8 v)) ->
  find_data_start 0 (with_card s buf b) = Ok 3 (with_card s buf b).
Proof.
  intros Hget. unfold find_data_start.
  assert (2 <= Z.to_nat (XFER_BUF_SIZE - (0 + 1)))%nat as Hn by (unfold XFER_BUF_SIZE; lia). revert Hn.
  generalize (Z.to_nat (XFER_BUF_SIZE - (0 + 1))). intros [|[|n]] Hn; [lia..|].
  change (0 + 1) with 1. cbn [find_data_from].
  unfold mbind, M_bind. rewrite (buf_get_eq 1 (s8 0xff)) by (lia || by apply (Hget 1%nat)).
  change (u8 (s8 0xff) =? DATA_START_TOKEN) with false. cbv iota beta. change (1 + 1) with 2.
  rewrite (buf_get_eq 2 (s8 0xfe)) by (lia || by apply (Hget 2%nat)). done.
Qed.

(** Where the card looks for a sector. *)
Definition card_address (sdhc sector : Z) : Z := if nz sdhc then u32 sector else u32 (u32 sector * 512).

Lemma card_address_range sdhc sector : 0 <= card_address sdhc sector < 2 ^ 32.
Proof. unfold card_address. case_match; cpp_lia. Qed.

(** The image of the card, the position aside. *)
Definition holds (img : list Z) (b : sim_board) : Prop := exists p, card_ready (Disk.mk img p false) b.

(** ** A sector *)

Context (Hpoll : (2048 <= poll_bound)%nat).

Lemma read_command a img p d b :
  d = Disk.mk img p false -> card_ready d b -> 0 <= a < 2 ^ 32 -> a + 512 <= Z.of_nat (length img) -> is_bytes img ->
  exists c rx dw m buf,
    spi_do_command (read_cmd a) b = Ok tt (with_card (idle c rx (Disk.mk img (a + 512) false) dw m) buf b) /\
    length buf = 1280%nat /\ forall i v, read_response (block img a) !! i = Some v -> buf !! i = Some (s8 v).
Proof using Hpoll.
  intros -> [Hb Hbuf (c & rx & dw & m & Hspi)] Ha Hl Hbytes.
  assert (Hbb : b = with_card (idle c rx (Disk.mk img p false) dw m) (spi_xfer_buf (vars b)) b)
    by by rewrite <- Hspi, with_card_same.
  assert (Hwf : wf_cmd (read_cmd a)).
  { split; cbn; [done| |done|unfold BLOCK_SIZE, MAX_DATA_START_OFFS; lia].
    rewrite address_arg_eq by done. split; [|done]. repeat (apply Forall_cons_2; [apply arg_byte_range|]). by constructor. }
  destruct (read_exchanges a img p rx dw m) as (rx1 & dw1 & E); [done..|].
  assert (Hr : received false (replicate 10 0xff ++ read_response (block img a)) = read_response (block img a))
    by by apply received_after.
  destruct (do_command_eq (read_cmd a) 10 (replicate 10 0xff ++ read_response (block img a))
    (idle c rx (Disk.mk img p false) dw m) (idle 1 rx1 (Disk.mk img (a + 512) false) dw1 m) (spi_xfer_buf (vars b)) b)
    as (buf & Hlb & Hget & Ec); [done|done|done| | |exact E| |].
  - apply Forall_app_2; [apply is_bytes_ff|by apply is_bytes_read].
  - unfold cmd_len, read_cmd. cbn [rx_datalen]. unfold BLOCK_SIZE, MAX_DATA_START_OFFS. lia.
  - rewrite Hr. unfold read_response. rewrite !length_app, length_replicate, length_block by lia.
    unfold cmd_len, read_cmd, BLOCK_SIZE, MAX_DATA_START_OFFS. cbn [rx_datalen length]. lia.
  - exists 1, rx1, dw1, m, buf. rewrite Hbb at 1. split; [exact Ec|]. split; [done|]. by rewrite Hr in Hget.
Qed.

Lemma read_sector_eq sector dseg daddr img b :
  let a := card_address (sd_is_sdhc (vars b)) sector in
  holds img b -> is_bytes img -> a + 512 <= Z.of_nat (length img) -> linear dseg daddr 512 ->
  exists b', read_sector sector dseg daddr b = Ok 0 b' /\ holds img b' /\ same_sdhc b b' /\
    PIC.state (pic (devs_of b')) = PIC.state (pic (devs_of b)) /\
    forall x, Memory.byte_at (ram b') x =
      overlay (dseg * 16 + daddr) (block img a) (Memory.byte_at (ram b)) x.
Proof using Hpoll.
  intros a [p Hp] Hb Hl Hlin. pose proof (card_address_range (sd_is_sdhc (vars b)) sector) as Ha. fold a in Ha.
  destruct (tame_mouse_suspend nowhere b (cr_bus _ _ Hp) I) as ([] & b1 & E1 & F1).
  pose proof (frame_step _ _ _ _ F1 Hp) as S1.
  destruct (read_command a img p _ b1 eq_refl (cs_ready _ _ _ _ _ S1) Ha Hl Hb)
    as (c & rx & dw & m & buf & E2 & Hlb & Hget).
  assert (Hbl : length (block img a) = 512%nat) by (apply length_block; lia).
  destruct (copy_from_buf_eq dseg daddr 3 (block img a) (idle c rx (Disk.mk img (a + 512) false) dw m) buf b1)
    as (mm & E3 & Hmm & Hm); [apply F1|done|lia|lia|done|by apply is_bytes_block| |].
  { intros i v Ei. apply Hget. unfold read_response. rewrite lookup_app_r by (cbn; lia).
    apply lookup_app_l_Some. rewrite <- Ei. f_equal. cbn. lia. }
  destruct (tame_mouse_resume nowhere (with_card (idle c rx (Disk.mk img (a + 512) false) dw m) buf (with_ram mm b1)))
    as ([] & b4 & E4 & F4); [by apply on_bus_card, on_bus_ram, F1|done|].
  set (s := idle c rx (Disk.mk img (a + 512) false) dw m) in *.
  assert (E5 : find_r1_response (with_card s buf b1) = Ok (0, 0) (with_card s buf b1))
    by (apply find_r1_eq; [exact (Hget 0%nat 0 eq_refl)|split; lia|lia]).
  pose proof (find_data_eq (block img a) s buf b1 Hget) as E6.
  assert (R : card_ready (Disk.mk img (a + 512) false) (with_card s buf (with_ram mm b1))).
  { split; [by apply on_bus_card, on_bus_ram, F1|done|by exists c, rx, dw, m]. }
  exists b4. split_and!.
  - unfold read_sector. assert (Ea : sector_address sector b = Ok a b).
    { unfold a, card_address, sector_address, get_var, mbind, M_bind, gets. by destruct (nz _). }
    rewrite (bind_step _ _ _ _ _ Ea), (bind_step _ _ _ _ _ E1).
    change (mk_spi_cmd 0x51 _ _ _) with (read_cmd a). rewrite (bind_step _ _ _ _ _ E2).
    rewrite (bind_step _ _ _ _ _ E5).
    cbv iota beta. change (0 <? 0) with false. change (nz (0 .& R1_ERROR_MASK)) with false. cbv iota.
    rewrite (bind_step _ _ _ _ _ E6). change (3 <? 0) with false. cbv iota.
    rewrite (bind_step _ _ _ _ _ E3), (bind_step _ _ _ _ _ E4). done.
  - exists (a + 512). apply (cs_ready _ _ _ _ _ (frame_step _ _ _ _ F4 R)).
  - unfold same_sdhc. rewrite (fr_sdhc _ _ _ F4). cbn. apply (fr_sdhc _ _ _ F1).
  - rewrite (fr_pic _ _ _ F4). cbn. apply (fr_pic _ _ _ F1).
  - intros x. rewrite (fr_ram _ _ _ F4) by (intros []). cbn. rewrite Hm.
    apply overlay_ext. intros y. apply (fr_ram _ _ _ F1). intros [].
Qed.
End sector.

Lemma bench_holds {CFG : Config} img : holds img (bench_board img).
Proof. exists 0. split; [apply bench_on_bus|done|by exists 0, 0, false, 0]. Qed.

Lemma is_bytes_replicate n v : is_byte v -> is_bytes (replicate n v).
Proof. intros Hv. by apply Forall_replicate. Qed.
