(* ===== verification/BiosInt13.v ===== *)
(** * The BIOS: INT 13h on the simulator's card *)
From S2P Require Import Prelude Config MainMemory Registers ErrorState IOPorts Machine ModRM Core StringProps.
From S2P Require Import SimCPU SoftwareCPU PIC PS2 Timer UART SPI SPIProps Display CGA Simulator SimulatorProps.
From S2P Require Import Bios BiosDisplay BiosPrintk BiosKeyboard BiosMouse BiosSD BiosMain BiosSim BiosTame BiosCard.
From S2P Require Import BiosDisk BiosSector.

(** ** The halves of a register *)

Lemma with_lo_eq x v : with_lo x v = u16 x / 256 * 256 + u8 v.
Proof.
  unfold with_lo. assert (u8 v = u8 v .& 0x00ff) as E.
  { rewrite (land_mask 8) by lia. symmetry. apply (cast_idemp uint8_t). }
  rewrite E at 1. rewrite replace_low_byte by (apply cast_in_range). f_equal. apply (cast_idemp uint8_t).
Qed.
Lemma with_hi_eq x v : u16 (with_hi x v) = u8 v * 256 + u16 x mod 256.
Proof.
  unfold with_hi. rewrite replace_high_byte; [cpp_lia|apply cast_in_range|cpp_lia].
Qed.

Lemma lo_eq x : lo x = x mod 256.
Proof. done. Qed.
Lemma hi_eq x : hi x = x / 256 mod 256.
Proof. unfold hi. rewrite Z.shiftr_div_pow2 by lia. done. Qed.

Lemma lo_put_al v r : lo (r_ax (put_al v r)) = u8 v.
Proof. unfold put_al, put_ax. cbn [r_ax]. rewrite with_lo_eq, lo_eq. cpp_lia. Qed.
Lemma lo_put_ah v r : lo (r_ax (put_ah v r)) = lo (r_ax r).
Proof. unfold put_ah, put_ax. cbn [r_ax]. rewrite with_hi_eq, !lo_eq. cpp_lia. Qed.
Lemma hi_put_ah v r : hi (r_ax (put_ah v r)) = u8 v.
Proof. unfold put_ah, put_ax. cbn [r_ax]. rewrite with_hi_eq, hi_eq. cpp_lia. Qed.

(** The carry flag that the caller sees. *)
Definition carry (r : callregs) : bool := Z.testbit (r_flags r) 0.

Lemma carry_lower r : carry (lower_flag CF r) = false.
Proof.
  unfold carry, lower_flag, put_flags. cbn [r_flags]. rewrite (cast_u_testbit uint16_t) by (done || lia).
  rewrite Z.land_spec. change (Z.testbit (~. CF) 0) with false. by rewrite !andb_false_r.
Qed.
Lemma carry_raise r : carry (raise_flag CF r) = true.
Proof.
  unfold carry, raise_flag, put_flags. cbn [r_flags]. rewrite (cast_u_testbit uint16_t) by (done || lia).
  rewrite Z.lor_spec. change (Z.testbit CF 0) with true. by rewrite orb_true_r.
Qed.

Section int13.
Context {CFG : Config} {BC : BiosConfig}.

(** ** Status and lamp *)

Definition status_address : Z := 0x441.

Lemma set_disk_status_eq err r b :
  on_bus b ->
  set_disk_status err r b =
    Ok (put_ah err (if nz err then raise_flag CF r else lower_flag CF r))
       (with_ram (put8 (ram b) status_address err) b).
Proof.
  intros Hb. unfold set_disk_status, bda_write. cbn [field_type].
  rewrite (bind_step _ _ _ _ _ (writeb_eq _ _ _ b)).
  change (phys 0x40 (offset_of diskette_status)) with status_address. done.
Qed.

Lemma holds_frame P img b b' : frame P b b' -> holds img b -> holds img b'.
Proof. intros F [p Hp]. exists p. apply (cs_ready _ _ _ _ _ (frame_step _ _ _ _ F Hp)). Qed.

Lemma with_ram_frame (P : Z -> Prop) a v b :
  on_bus b -> 0 <= a < Memory.MEMORY_SIZE -> P a -> frame P b (with_ram (put8 (ram b) a v) b).
Proof.
  intros Hb Ha HP. apply frame_ram; [done|apply wf_put8; [apply Hb|done]|].
  intros x Hx. rewrite byte_at_put8. case_decide; [by subst|done].
Qed.

(** Between the lamp's switching. *)
Lemma disk_services_eq (f : callregs -> sim_bios callregs) n r b r' b' :
  on_bus b -> hi (r_ax r) = n ->
  (forall r, match n with
             | 0x00 => disk_reset r | 0x01 => disk_status r | 0x02 => disk_read r | 0x03 => disk_write r
             | 0x08 => disk_parameters r | 0x15 => disk_get_type r | _ => mret r
             end = f r) ->
  f (raise_flag CF r) b = Ok r' b' -> on_bus b' -> disk_services r b = Ok r' b'.
Proof.
  intros Hb Hn Hf E Hb'. unfold disk_services, led_set, led_clear. cbv zeta.
  rewrite (bind_step _ _ _ _ _ (led_eq (fun v => v .| LED_DISK) b Hb)).
  change (r_ax (raise_flag CF r)) with (r_ax r). rewrite Hn, Hf, (bind_step _ _ _ _ _ E).
  by rewrite (bind_step _ _ _ _ _ (led_eq (fun v => v .& ~. LED_DISK) b' Hb')).
Qed.

(** ** Reading *)

Lemma overlay_app base l1 l2 old a :
  overlay base (l1 ++ l2) old a = overlay (base + Z.of_nat (length l1)) l2 (overlay base l1 old) a.
Proof.
  unfold overlay. destruct (Z.leb_spec base a), (Z.leb_spec (base + Z.of_nat (length l1)) a); try lia; try done.
  - rewrite lookup_app_r by lia.
    replace (Z.to_nat (a - base) - length l1)%nat with (Z.to_nat (a - (base + Z.of_nat (length l1)))) by lia.
    by rewrite (lookup_ge_None_2 l1) by lia.
  - by rewrite lookup_app_l by lia.
Qed.

(** [n] sectors from [lba] on. *)
Definition sectors (img : list Z) (lba : Z) (n : nat) : list Z := take (512 * n) (drop (Z.to_nat (512 * lba)) img).

Lemma sectors_succ img lba n :
  0 <= lba -> sectors img lba (S n) = block img (512 * lba) ++ sectors img (lba + 1) n.
Proof.
  intros Hl. unfold sectors, block. replace (512 * S n)%nat with (512 + 512 * n)%nat by lia.
  rewrite <- take_take_drop, drop_drop. do 3 f_equal. lia.
Qed.

(** The sector number of a cylinder, a head and a sector from 1. *)
Definition chs (cylinder head sector : Z) : Z := (cylinder * 32 + head) * 63 + (sector - 1).
Definition cylinder_of (r : callregs) : Z := hi (r_cx r) + 256 * (lo (r_cx r) / 64).
Definition head_of (r : callregs) : Z := hi (r_dx r).
Definition sector_of (r : callregs) : Z := lo (r_cx r) mod 64.

Lemma lba_of_eq r : 1 <= sector_of r -> lba_of r = chs (cylinder_of r) (head_of r) (sector_of r).
Proof.
  unfold sector_of, lba_of, chs, cylinder_of, head_of, NUM_HEADS, SECTORS_PER_TRACK. intros Hs.
  assert (0 <= hi (r_cx r) < 256) as Hh by (unfold hi; cpp_lia).
  assert (0 <= lo (r_cx r) < 256) as Hl by (unfold lo; cpp_lia).
  assert (0 <= hi (r_dx r) < 256) as Hd by (unfold hi; cpp_lia).
  rewrite (land_mask 6 (lo (r_cx r)) 0x3f) by lia. change (2 ^ 6) with 64.
  assert (hi (r_cx r) .| ((lo (r_cx r) .& 0xc0) .<< 2) = lo (r_cx r) / 64 * 2 ^ 8 + hi (r_cx r)) as ->.
  { revert Hh Hl. generalize (hi (r_cx r)) as h, (lo (r_cx r)) as l. intros h l Hh Hl.
    apply Z.bits_inj'. intros i Hi. rewrite testbit_concat by lia.
    rewrite Z.lor_spec, Z.shiftl_spec, Z.land_spec by lia.
    destruct (Z.ltb_spec i 8).
    - change 0xc0 with (2 ^ (6 + 2) - 2 ^ 6). destruct (Z.leb_spec 2 i).
      + rewrite testbit_field by lia. destruct (Z.leb_spec 6 (i - 2)); [lia|]. by rewrite andb_false_r, orb_false_r.
      + rewrite (Z.testbit_neg_r l (i - 2)) by lia. by rewrite orb_false_r.
    - rewrite (testbit_high 8 h) by lia. change 0xc0 with (2 ^ (6 + 2) - 2 ^ 6). rewrite testbit_field by lia.
      change 64 with (2 ^ 6). rewrite Z.div_pow2_bits by lia. replace (i - 8 + 6) with (i - 2) by lia.
      destruct (Z.leb_spec 6 (i - 2)); [|lia]. destruct (Z.ltb_spec (i - 2) (6 + 2)); [by rewrite andb_true_r|].
      by rewrite (testbit_high 8 l) by lia. }
  change (2 ^ 8) with 256. rewrite !(cast_id uint32_t) by cpp_lia. lia.
Qed.

Context (Hpoll : (2048 <= poll_bound)%nat).

Lemma read_sectors_eq n lba dst r img b :
  holds img b -> is_bytes img -> sd_is_sdhc (vars b) = 0 -> Z.of_nat (length img) <= 2 ^ 32 ->
  0 <= lba -> 512 * (lba + Z.of_nat n) <= Z.of_nat (length img) ->
  (0 < n -> linear (r_es r) dst (512 * Z.of_nat n))%nat ->
  exists r' b', read_sectors n lba dst r b = Ok r' b' /\ holds img b' /\ sd_is_sdhc (vars b') = 0 /\
    PIC.state (pic (devs_of b')) = PIC.state (pic (devs_of b)) /\
    lo (r_ax r') = u8 (lo (r_ax r) + Z.of_nat n) /\
    forall x, Memory.byte_at (ram b') x =
      overlay (r_es r * 16 + dst) (sectors img lba n) (Memory.byte_at (ram b)) x.
Proof using Hpoll.
  revert lba dst r b. induction n as [|n IH]; intros lba dst r b Hh Hb Hsd Hlen Hlba Hl Hlin.
  - exists r, b. split_and!; try done.
    + rewrite Z.add_0_r. unfold lo. by rewrite cast_idemp.
    + intros x. unfold sectors. by rewrite overlay_nil.
  - specialize (Hlin ltac:(lia)). destruct Hlin as (Hseg & H0 & H1 & H2).
    assert (Ha : card_address (sd_is_sdhc (vars b)) lba = 512 * lba).
    { rewrite Hsd. unfold card_address. cbn. rewrite !(cast_id uint32_t) by cpp_lia. lia. }
    destruct (read_sector_eq Hpoll lba (r_es r) dst img b Hh Hb) as (b1 & E1 & Hh1 & Hs1 & Hp1 & Hm1);
      [rewrite Ha; lia|unfold linear; split_and!; (exact Hseg || lia)|]. rewrite Ha in Hm1.
    cbn [read_sectors]. rewrite (bind_step _ _ _ _ _ E1).
    destruct (IH (u32 (lba + 1)) (u16 (dst + SECTOR_SIZE)) (put_al (lo (r_ax r) + 1) r) b1)
      as (r' & b' & E & Hh' & Hs' & Hp' & Hal & Hm'); try done.
    + unfold same_sdhc in Hs1. by rewrite Hs1.
    + cpp_lia.
    + rewrite cast_id by cpp_lia. lia.
    + intros Hn. unfold SECTOR_SIZE. rewrite cast_id by cpp_lia.
      change (r_es (put_al _ r)) with (r_es r). unfold linear. split_and!; (exact Hseg || lia).
    + exists r', b'. split; [exact E|]. split_and!; try done; [congruence| |].
      * rewrite Hal, lo_put_al. cpp_lia.
      * intros x. rewrite Hm'. change (r_es (put_al _ r)) with (r_es r).
        rewrite sectors_succ, overlay_app, length_block by lia.
        destruct n as [|n'].
        { unfold sectors at 1. rewrite overlay_nil. unfold sectors. by rewrite overlay_nil. }
        unfold SECTOR_SIZE. rewrite (cast_id uint32_t), (cast_id uint16_t) by cpp_lia.
        replace (r_es r * 16 + (dst + 512)) with (r_es r * 16 + dst + Z.of_nat 512) by lia.
        by apply overlay_ext.
Qed.

(** C3. INT 13h, function 2. With a card on the bus that holds the image, the
    BIOS having found it byte-addressed: reading [count] sectors from a
    cylinder, head and sector returns with the carry flag clear, AH zero and AL
    the count; the buffer at ES:BX holds the bytes of the image from sector
    [(cylinder * 32 + head) * 63 + sector - 1] on, and no other byte of memory
    has changed but the status in the BIOS data area. The mouse is suspended
    and resumed around every sector if there is one. *)
Theorem int13_reads r img b :
  let count := lo (r_ax r) in
  let lba := chs (cylinder_of r) (head_of r) (sector_of r) in
  holds img b -> is_bytes img -> Z.of_nat (length img) <= 2 ^ 32 -> sd_is_sdhc (vars b) = 0 ->
  hi (r_ax r) = 2 -> lo (r_dx r) = 0x80 -> 1 <= sector_of r ->
  512 * (lba + count) <= Z.of_nat (length img) -> linear (r_es r) (r_bx r) (512 * count) ->
  exists r' b', disk_services r b = Ok r' b' /\
    carry r' = false /\ hi (r_ax r') = 0 /\ lo (r_ax r') = count /\ holds img b' /\
    forall x, Memory.byte_at (ram b') x =
      if decide (x = status_address) then 0
      else overlay (r_es r * 16 + r_bx r) (sectors img lba (Z.to_nat count)) (Memory.byte_at (ram b)) x.
Proof using Hpoll.
  intros count lba Hh Hb Hlen Hsd Hfn Hdrive Hsec Hl Hlin.
  assert (0 <= count < 256) as Hcount by (unfold count, lo; cpp_lia).
  pose proof (lba_of_eq r Hsec) as Hlba. fold lba in Hlba.
  assert (0 <= lba) as Hpos by (rewrite <- Hlba; unfold lba_of; cpp_lia).
  set (r0 := raise_flag CF r). set (r1 := lower_flag CF (put_al 0 r0)).
  destruct (read_sectors_eq (Z.to_nat count) lba (r_bx r) r1 img b)
    as (r' & b1 & E & Hh1 & _ & _ & Hal & Hm); try done; [lia| |].
  { intros _. by rewrite Z2Nat.id by lia. }
  assert (lo (r_ax r') = count) as Hal'.
  { rewrite Hal. change (r_ax r1) with (r_ax (put_al 0 r0)). rewrite lo_put_al. cpp_lia. }
  pose proof Hh as [p0 [Hb0 _ _]]. pose proof Hh1 as [p1 [Hb1 Hbuf1 Hidle1]].
  exists (put_ah 0 (lower_flag CF r')), (with_ram (put8 (ram b1) status_address 0) b1).
  assert (Hf : frame (fun _ => True) b1 (with_ram (put8 (ram b1) status_address 0) b1))
    by by apply with_ram_frame.
  split; [|split_and!].
  - apply (disk_services_eq disk_read 2); [done|done|done| |apply Hf].
    unfold disk_read. change (r_dx (raise_flag CF r)) with (r_dx r). rewrite Hdrive. cbn [Z.eqb Pos.eqb negb].
    change (lba_of (raise_flag CF r)) with (lba_of r). change (r_ax (raise_flag CF r)) with (r_ax r).
    fold count. rewrite Hlba. rewrite (bind_step _ _ _ _ _ E), Hal', Z.eqb_refl. cbn [negb].
    by rewrite set_disk_status_eq.
  - apply carry_lower.
  - by rewrite hi_put_ah.
  - by rewrite lo_put_ah.
  - by eapply holds_frame.
  - intros x. change (ram (with_ram ?m b1)) with m. rewrite byte_at_put8, Hm.
    repeat case_decide; congruence || done.
Qed.
End int13.

#[local] Instance bench_config : Config := default_config.
#[local] Existing Instance bench_bios.

(** The registers of a call. *)
Definition bench_regs (ax bx cx dx es : Z) : callregs := mk_callregs 0 0 0 0 bx dx cx ax 0 es 0.

(** The second sector of a disk of two. *)
Lemma int13_reads_witness :
  exists r' b',
    disk_services (bench_regs 0x0201 0 0x0002 0x0080 0x1000)
      (bench_board (replicate 1024 0x5a)) = Ok r' b' /\
    carry r' = false /\ lo (r_ax r') = 1 /\ Memory.byte_at (ram b') 0x10000 = 0x5a.
Proof.
  assert (Hp : (2048 <= poll_bound)%nat) by (cbn [poll_bound bench_bios]; lia).
  set (img := replicate 1024 0x5a).
  assert (Hl : length img = 1024%nat) by apply length_replicate.
  destruct (int13_reads Hp (bench_regs 0x0201 0 0x0002 0x0080 0x1000) img
    (bench_board img)) as (r' & b' & E & Hc & _ & Hal & _ & Hm);
    [apply bench_holds|by apply is_bytes_replicate|rewrite Hl; done|done|done|done|done|rewrite Hl; done| |].
  { unfold linear. split_and!; done. }
  exists r', b'. split; [exact E|]. split; [exact Hc|]. split; [exact Hal|]. rewrite Hm. reflexivity.
Defined.
