(* ===== verification/BiosWrite.v ===== *)
(** * The BIOS and the card: writing a sector *)
From S2P Require Import Prelude Config MainMemory Registers ErrorState IOPorts Machine ModRM Core StringProps.
From S2P Require Import SimCPU SoftwareCPU PIC PS2 Timer UART SPI SPIProps Display CGA Simulator SimulatorProps.
From S2P Require Import Bios BiosDisplay BiosPrintk BiosKeyboard BiosMouse BiosSD BiosMain BiosSim BiosTame BiosCard.
From S2P Require Import BiosDisk BiosSector BiosInt13.

Section write.
Context {CFG : Config} {BC : BiosConfig}.

(** The bytes of memory from [base] on. *)
Definition ram_bytes (mm : Memory.t) (base : Z) (n : nat) : list Z :=
  map (fun i => Memory.byte_at mm (base + Z.of_nat i)) (seq 0 n).

Lemma length_ram_bytes mm base n : length (ram_bytes mm base n) = n.
Proof. unfold ram_bytes. by rewrite length_map, length_seq. Qed.

Lemma is_bytes_ram mm base n : Memory.wf mm -> is_bytes (ram_bytes mm base n).
Proof.
  intros Hw. unfold ram_bytes. generalize (seq 0 n) as l.
  induction l as [|i l IH]; cbn; constructor; [by apply Memory.byte_at_range|exact IH].
Qed.

Lemma ram_bytes_succ mm base n :
  ram_bytes mm base (S n) = ram_bytes mm base n ++ [Memory.byte_at mm (base + Z.of_nat n)].
Proof. unfold ram_bytes. by rewrite seq_S, map_app. Qed.

Lemma copy_to_buf_eq offs sseg saddr s buf b :
  on_bus b -> linear sseg saddr 512 -> 0 <= offs -> offs + 512 <= 1280 -> length buf = 1280%nat ->
  copy_to_buf offs sseg saddr (with_card s buf b) =
    Ok tt (with_card s (take (Z.to_nat offs) buf ++ map s8 (ram_bytes (ram b) (sseg * 16 + saddr) 512) ++
      drop (Z.to_nat offs + 512) buf) b).
Proof.
  intros Hb Hlin Ho0 Ho1 Hbuf.
  destruct (for_loop_inv (fun i bb => bb = with_card s (take (Z.to_nat offs) buf ++
      map s8 (ram_bytes (ram b) (sseg * 16 + saddr) (Z.to_nat i)) ++ drop (Z.to_nat offs + Z.to_nat i) buf) b)
    512 (fun i => v ← readb sseg (saddr + i) ; spi_xfer_buf_set (offs + i) v) (with_card s buf b))
    as (b' & E & ->); [lia| | |exact E].
  - rewrite Nat.add_0_r. cbn [map ram_bytes seq]. by rewrite app_nil_l, take_drop.
  - intros i bb Hi ->. eexists. split; [|reflexivity].
    unfold mbind, M_bind. rewrite readb_eq by by apply on_bus_card. cbv iota beta.
    rewrite (linear_phys sseg saddr 512 i) by done. rewrite buf_set_eq by lia. do 2 f_equal.
    change (ram (with_card s _ b)) with (ram b).
    replace (Z.to_nat (i + 1)) with (S (Z.to_nat i)) by lia. rewrite ram_bytes_succ, map_app.
    rewrite Z2Nat.inj_add by lia. rewrite Nat.add_succ_r. rewrite Z2Nat.id by lia.
    set (o := Z.to_nat offs). set (k := Z.to_nat i). set (l := ram_bytes _ _ k).
    destruct (lookup_lt_is_Some_2 buf (o + k)) as [x Ex]; [lia|].
    rewrite (drop_S buf x (o + k) Ex). rewrite insert_app_r_alt by (rewrite length_take; lia).
    rewrite length_take, Nat.min_l by lia.
    rewrite insert_app_r_alt by (rewrite length_map; unfold l; rewrite length_ram_bytes; lia).
    rewrite length_map. unfold l at 2. rewrite length_ram_bytes.
    replace (o + k - o - k)%nat with 0%nat by lia. cbn [insert list_insert map]. by rewrite <- app_assoc.
Qed.

(** ** The write command, and the block *)

Definition write_cmd (a : Z) : spi_cmd := mk_spi_cmd 0x58 (address_arg a) 0 1.

(** The card that waits for the block. *)
Definition waiting (c rx : Z) (d : Disk.t) : SPI.t := SPI.mk c rx SPI.STATE_WAIT_FOR_DATA [] [] d true 0.

Lemma waiting_clocks n c d :
  exchanges (replicate n 0xff) (waiting c 0xff d) = Ok (replicate n 0xff) (waiting c 0xff d).
Proof.
  induction n as [|n IH]; [done|]. cbn [replicate exchanges]. unfold mbind, M_bind.
  change (exchange 255 (waiting c 0xff d)) with (Ok 255 (waiting c 255 d)). cbv iota beta. by rewrite IH.
Qed.

Lemma request_exchanges a img p rx dw m :
  0 <= a < 2 ^ 32 ->
  exchanges (cmd_bytes (write_cmd a) ++ replicate 9 0xff) (idle 1 rx (Disk.mk img p false) dw m) =
    Ok (replicate 9 0xff ++ [0x00; 0xff; 0xff; 0x05] ++ replicate 12 0xff) (waiting 1 0xff (Disk.mk img a false)).
Proof.
  intros Ha. pose proof (arg_address a Ha) as Haddr.
  assert (Ebytes : cmd_bytes (write_cmd a) ++ replicate 9 0xff =
    [0xff] ++ command 0x58 (arg_byte a 3) (arg_byte a 2) (arg_byte a 1) (arg_byte a 0) 0 0xff ++
    replicate 6 0xff ++ replicate 11 0xff).
  { unfold cmd_bytes, write_cmd, command. by rewrite address_arg_eq. }
  rewrite Ebytes.
  change (replicate 9 0xff ++ [0x00; 0xff; 0xff; 0x05] ++ replicate 12 0xff)
    with ([0xff] ++ replicate 7 0xff ++ (write_answer ++ [0xff]) ++ replicate 11 0xff).
  eapply exchanges_app; [reflexivity|].
  eapply exchanges_app.
  { eapply command_eq; [done|by right|apply write_block_eq]. }
  rewrite Haddr. unfold SPI.set_rx_val, SPI.set_state.
  cbn [SPI.control_reg SPI.rx_val SPI.state SPI.mosi_buf SPI.miso_buf SPI.disk_image SPI.do_write SPI.write_count].
  eapply exchanges_app; [by apply answer_fill|]. apply waiting_clocks.
Qed.

(** The block, as [sd_write_block] sends it: the card answers the CRC bytes
    with 0xaa. *)
Lemma block_exchanges data a img :
  is_bytes data -> length data = 512%nat -> 0 <= a -> a + 512 <= Z.of_nat (length img) ->
  exists rx dw m, exchanges (([0xff; 0xfe] ++ data ++ [0; 0; 0xff]) ++ replicate 514 0xff)
      (waiting 1 0xff (Disk.mk img a false)) =
    Ok (replicate 514 0xff ++ [0xaa; 0xaa; 0x05] ++ replicate 514 0xff)
       (idle 1 rx (Disk.mk (overwrite (Z.to_nat a) data img) (a + 512) false) dw m).
Proof.
  intros Hd Hl Ha Hlen.
  destruct (wait_eq [0xff] 1 0xff (Disk.mk img a false) 0) as [rx1 E1]; [by repeat constructor|].
  destruct (write_data_eq data 1 rx1 img a 0 Hd) as [rx2 E2]; [lia..|].
  rewrite Hl in E2. change (0 + Z.of_nat 512) with 512 in E2. change (Z.of_nat 512) with 512 in E2.
  destruct (idle_clocks 514 1 0x05 (Disk.mk (overwrite (Z.to_nat a) data img) (a + 512) false) true 515)
    as (rx3 & dw3 & E3).
  exists rx3, dw3, 515. rewrite <- !app_assoc.
  change (replicate 514 0xff) with (replicate (2 + 512) 0xff) at 2. rewrite replicate_add, <- !app_assoc.
  eapply exchanges_app; [exact E1|]. eapply exchanges_app; [exact E2|].
  eapply exchanges_app; [apply write_tail|]. exact E3.
Qed.

(** The buffer that [sd_write_block] sends. *)
Lemma block_buffer data x y z0 z1 z2 l tl :
  length data = 512%nat -> drop 512 l = z0 :: z1 :: z2 :: tl ->
  let buf1 := <[1%nat := s8 0xfe]> (<[0%nat := s8 0xff]> (x :: y :: l)) in
  <[516%nat := s8 0xff]> (<[515%nat := s8 0]> (<[514%nat := s8 0]>
    (take 2 buf1 ++ map s8 data ++ drop (2 + 512) buf1))) =
  map s8 ([0xff; 0xfe] ++ data ++ [0; 0; 0xff]) ++ tl.
Proof.
  intros Hd Hl buf1. change (take 2 buf1) with [s8 0xff; s8 0xfe].
  change (drop (2 + 512) buf1) with (drop 512 l). rewrite Hl.
  rewrite !map_app, app_assoc. set (A := [s8 0xff; s8 0xfe] ++ map s8 data).
  assert (HA : length A = 514%nat) by (unfold A; rewrite length_app, length_map, Hd; done).
  change (map s8 [0xff; 0xfe] ++ map s8 data ++ map s8 [0; 0; 0xff])
    with ([s8 0xff; s8 0xfe] ++ map s8 data ++ [s8 0; s8 0; s8 0xff]).
  rewrite (app_assoc [_; _] _ [_; _; _]). fold A. rewrite <- app_assoc.
  replace 516%nat with (length A + 2)%nat by lia. replace 515%nat with (length A + 1)%nat by lia.
  replace 514%nat with (length A + 0)%nat by lia. by rewrite !insert_app_r.
Qed.

Lemma sd_write_block_eq sseg saddr a img buf b :
  (2048 <= poll_bound)%nat -> on_bus b -> linear sseg saddr 512 -> length buf = 1280%nat ->
  0 <= a -> a + 512 <= Z.of_nat (length img) ->
  exists rx dw m buf',
    sd_write_block sseg saddr (with_card (waiting 1 0xff (Disk.mk img a false)) buf b) =
      Ok tt (with_card (idle 1 rx (Disk.mk (overwrite (Z.to_nat a) (ram_bytes (ram b) (sseg * 16 + saddr) 512) img)
        (a + 512) false) dw m) buf' b) /\
    length buf' = 1280%nat /\ buf' !! 0%nat = Some (s8 0xaa).
Proof.
  intros Hp Hb Hlin Hbuf Ha Hl. set (data := ram_bytes (ram b) (sseg * 16 + saddr) 512).
  assert (Hd : length data = 512%nat) by apply length_ram_bytes.
  assert (Hbytes : is_bytes data) by apply is_bytes_ram, Hb.
  destruct buf as [|x [|y l]]; [done..|]. cbn [length] in Hbuf.
  destruct (drop 512 l) as [|z0 [|z1 [|z2 tl]]] eqn:Etl;
    try (apply (f_equal length) in Etl; rewrite length_drop in Etl; cbn [length] in Etl; lia).
  assert (Htl : length tl = 763%nat)
    by (apply (f_equal length) in Etl; rewrite length_drop in Etl; cbn [length] in Etl; lia).
  pose proof (block_buffer data x y z0 z1 z2 l tl Hd Etl) as Ebuf.
  set (sent_bytes := [0xff; 0xfe] ++ data ++ [0; 0; 0xff]) in *.
  assert (Hs : length sent_bytes = 517%nat) by (unfold sent_bytes; rewrite !length_app, Hd; done).
  assert (Hsb : is_bytes sent_bytes)
    by (apply Forall_app_2; [bytes|]; apply Forall_app_2; [done|bytes]).
  destruct (block_exchanges data a img Hbytes Hd Ha Hl) as (rx & dw & m & E). fold sent_bytes in E.
  set (rs := replicate 514 0xff ++ [0xaa; 0xaa; 0x05] ++ replicate 514 0xff) in *.
  assert (Hr : received false rs = [0xaa; 0xaa; 0x05] ++ replicate 514 0xff) by by apply received_after.
  set (card := waiting 1 0xff (Disk.mk img a false)) in *.
  assert (Elen : length (map s8 sent_bytes ++ tl) = 1280%nat) by (rewrite length_app, length_map; lia).
  assert (Ex : spi_xfer (5 + 512) true (with_card card (map s8 sent_bytes ++ tl) b) =
    Ok tt (with_card (idle 1 rx (Disk.mk (overwrite (Z.to_nat a) data img) (a + 512) false) dw m)
      (map s8 (received false rs) ++ drop 517 (map s8 sent_bytes ++ tl)) b)).
  { apply (spi_xfer_eq 517 514); [done| |lia|done|lia| |].
    - apply Forall_app_2; [apply is_bytes_ff|]. apply Forall_app_2; [bytes|apply is_bytes_ff].
    - change (Z.to_nat 517) with 517%nat. rewrite take_app_length' by (by rewrite length_map).
      by rewrite map_u8_s8.
    - rewrite Hr, length_app, length_replicate. done. }
  exists rx, dw, m, (map s8 (received false rs) ++ drop 517 (map s8 sent_bytes ++ tl)). split; [|split].
  - assert (Hbuf1 : length (<[Z.to_nat 1 := s8 0xfe]> (<[Z.to_nat 0 := s8 0xff]> (x :: y :: l))) = 1280%nat)
      by by rewrite !length_insert.
    assert (H02 : 0 <= 2) by lia. assert (H514 : 2 + 512 <= 1280) by lia.
    unfold sd_write_block.
    rewrite (bind_step _ _ _ _ _ (buf_set_eq 0 0xff card (x :: y :: l) b ltac:(lia))).
    rewrite (bind_step _ _ _ _ _ (buf_set_eq 1 0xfe card _ b ltac:(lia))).
    rewrite (bind_step _ _ _ _ _ (copy_to_buf_eq 2 sseg saddr card _ b Hb Hlin H02 H514 Hbuf1)).
    rewrite (bind_step _ _ _ _ _ (buf_set_eq (2 + 512) 0 card _ b ltac:(lia))).
    rewrite (bind_step _ _ _ _ _ (buf_set_eq (3 + 512) 0 card _ b ltac:(lia))).
    rewrite (bind_step _ _ _ _ _ (buf_set_eq (4 + 512) 0xff card _ b ltac:(lia))).
    fold data. change (Z.to_nat 0) with 0%nat. change (Z.to_nat 1) with 1%nat. change (Z.to_nat 2) with 2%nat.
    change (Z.to_nat (2 + 512)) with 514%nat. change (Z.to_nat (3 + 512)) with 515%nat.
    change (Z.to_nat (4 + 512)) with 516%nat. rewrite Ebuf. exact Ex.
  - rewrite length_app, length_map, length_drop, Elen, Hr, length_app, length_replicate. cbn [length]. lia.
  - by rewrite Hr.
Qed.

Lemma write_sector_eq sector sseg saddr img b :
  let a := card_address (sd_is_sdhc (vars b)) sector in
  let data := ram_bytes (ram b) (sseg * 16 + saddr) 512 in
  (2048 <= poll_bound)%nat -> holds img b -> a + 512 <= Z.of_nat (length img) -> linear sseg saddr 512 ->
  exists b', write_sector sector sseg saddr b = Ok (-1) b' /\ holds (overwrite (Z.to_nat a) data img) b' /\
    (forall x, Memory.byte_at (ram b') x = Memory.byte_at (ram b) x).
Proof.
  intros a data Hp [p Hcard] Hl Hlin.
  pose proof (card_address_range (sd_is_sdhc (vars b)) sector) as Ha. fold a in Ha.
  destruct (tame_mouse_suspend nowhere b (cr_bus _ _ Hcard) I) as ([] & b1 & E1 & F1).
  destruct (cs_ready _ _ _ _ _ (frame_step _ _ _ _ F1 Hcard)) as [Hb1 Hbuf1 (c & rx & dw & m & Hspi)].
  assert (Hbb : b1 = with_card (idle c rx (Disk.mk img p false) dw m) (spi_xfer_buf (vars b1)) b1)
    by by rewrite <- Hspi, with_card_same.
  assert (Hwf : wf_cmd (write_cmd a)).
  { split; cbn; [done| |done|lia].
    rewrite address_arg_eq by done. split; [|done]. repeat (apply Forall_cons_2; [apply arg_byte_range|]). by constructor. }
  pose proof (request_exchanges a img p rx dw m Ha) as E.
  set (rs := [0x00; 0xff; 0xff; 0x05] ++ replicate 12 0xff) in *.
  assert (Hr : received false (replicate 9 0xff ++ rs) = rs) by by apply received_after.
  set (card := waiting 1 0xff (Disk.mk img a false)) in *.
  destruct (do_command_eq (write_cmd a) 9 (replicate 9 0xff ++ rs) (idle c rx (Disk.mk img p false) dw m) card
    (spi_xfer_buf (vars b1)) b1) as (buf & Hbuf & Hget & E2);
    [done|done|done|apply Forall_app_2; [apply is_bytes_ff|apply Forall_app_2; [bytes|apply is_bytes_ff]]
    |unfold cmd_len; cbn; lia|exact E|by rewrite Hr|]. rewrite Hr in Hget. rewrite <- Hbb in E2.
  assert (E3 : command_result (with_card card buf b1) = Ok 0 (with_card card buf b1))
    by (apply (result_eq 0); [exact (Hget 0%nat 0 eq_refl)|split; lia|lia]).
  destruct (sd_write_block_eq sseg saddr a img buf b1 Hp Hb1 Hlin Hbuf) as (rx4 & dw4 & m4 & buf4 & E4 & Hbuf4 & H0);
    [lia|lia|].
  assert (Edata : ram_bytes (ram b1) (sseg * 16 + saddr) 512 = data).
  { unfold data, ram_bytes. apply map_ext. intros i. apply (fr_ram _ _ _ F1). intros []. }
  rewrite Edata in E4. fold card in E4.
  set (s4 := idle 1 rx4 (Disk.mk (overwrite (Z.to_nat a) data img) (a + 512) false) dw4 m4) in *.
  assert (E5 : spi_xfer_buf_get 0 (with_card s4 buf4 b1) = Ok (u8 (s8 0xaa)) (with_card s4 buf4 b1))
    by (apply buf_get_eq; [lia|exact H0]).
  assert (Hb4 : on_bus (with_card s4 buf4 b1)) by by apply on_bus_card.
  destruct (tame_mouse_resume nowhere (with_card s4 buf4 b1) Hb4 I) as ([] & b6 & E6 & F6).
  exists b6. split_and!.
  - unfold write_sector. assert (Ea : sector_address sector b = Ok a b).
    { unfold a, card_address, sector_address, get_var, mbind, M_bind, gets. by destruct (nz _). }
    rewrite (bind_step _ _ _ _ _ Ea), (bind_step _ _ _ _ _ E1).
    assert (Er : sd_make_write_request a b1 = Ok 0 (with_card card buf b1)).
    { unfold sd_make_write_request. change (mk_spi_cmd _ _ _ _) with (write_cmd a).
      by rewrite (bind_step _ _ _ _ _ E2). }
    rewrite (bind_step _ _ _ _ _ Er). change (nz 0) with false. cbv iota.
    rewrite (bind_step _ _ _ _ _ E4), (bind_step _ _ _ _ _ E5).
    change (negb (write_received (u8 (s8 0xaa)))) with true. cbv iota. by rewrite (bind_step _ _ _ _ _ E6).
  - exists (a + 512). eapply cs_ready, frame_step; [exact F6|]. split; [done|done|by exists 1, rx4, dw4, m4].
  - intros x. rewrite (fr_ram _ _ _ F6) by (intros []). apply (fr_ram _ _ _ F1). intros [].
Qed.

(** C36. INT 13h, function 3. Writing from a cylinder, head and sector: the 512
    bytes at ES:BX replace that sector of the image and nothing else of it, and
    no byte of memory changes but the status; yet the call returns with the
    carry flag set, status 0xff and no sector counted, whatever the count, because
    the model of the card answers the two CRC bytes with 0xaa, which the BIOS
    takes for the response to the packet. *)
Theorem int13_writes r img b :
  let lba := chs (cylinder_of r) (head_of r) (sector_of r) in
  let a := 512 * lba in
  let data := ram_bytes (ram b) (r_es r * 16 + r_bx r) 512 in
  let img' := overwrite (Z.to_nat a) data img in
  (2048 <= poll_bound)%nat -> holds img b -> Z.of_nat (length img) <= 2 ^ 32 -> sd_is_sdhc (vars b) = 0 ->
  hi (r_ax r) = 3 -> lo (r_dx r) = 0x80 -> 1 <= sector_of r -> 1 <= lo (r_ax r) ->
  a + 512 <= Z.of_nat (length img) -> linear (r_es r) (r_bx r) 512 ->
  exists r' b', disk_services r b = Ok r' b' /\
    carry r' = true /\ hi (r_ax r') = 0xff /\ lo (r_ax r') = 0 /\ holds img' b' /\ block img' a = data /\
    (forall j, (j < Z.to_nat a \/ Z.to_nat a + 512 <= j)%nat -> img' !! j = img !! j) /\
    forall x, Memory.byte_at (ram b') x = if decide (x = status_address) then 0xff else Memory.byte_at (ram b) x.
Proof.
  intros lba a data img' Hp Hh Hlen Hsd Hfn Hdrive Hsec Hcount Hl Hlin.
  assert (Hd : length data = 512%nat) by apply length_ram_bytes.
  pose proof (lba_of_eq r Hsec) as Hlba. fold lba in Hlba.
  assert (0 <= lba) as Hpos by (rewrite <- Hlba; unfold lba_of; cpp_lia).
  assert (Ha : card_address (sd_is_sdhc (vars b)) lba = a).
  { rewrite Hsd. unfold card_address, a in *. cbn. rewrite !(cast_id uint32_t) by cpp_lia. lia. }
  set (r1 := lower_flag CF (put_al 0 (raise_flag CF r))).
  destruct (write_sector_eq lba (r_es r) (r_bx r) img b Hp Hh) as (b1 & E1 & Hh1 & Hm1); [lia|done|].
  rewrite Ha in Hh1. pose proof Hh as [p0 [Hb0 _ _]]. pose proof Hh1 as [p1 [Hb1 _ _]].
  assert (Hf : frame (fun _ => True) b1 (with_ram (put8 (ram b1) status_address 0xff) b1))
    by by apply with_ram_frame.
  exists (put_ah 0xff (raise_flag CF (raise_flag CF r1))), (with_ram (put8 (ram b1) status_address 0xff) b1).
  destruct (overwrite_read (Z.to_nat a) data img) as [Hread _]; [lia|]. rewrite Hd in Hread.
  split; [|split_and!].
  - apply (disk_services_eq disk_write 3); [done|done|done| |apply Hf].
    unfold disk_write. change (r_dx (raise_flag CF r)) with (r_dx r). rewrite Hdrive. cbn [Z.eqb Pos.eqb negb].
    change (lba_of (raise_flag CF r)) with (lba_of r). change (r_ax (raise_flag CF r)) with (r_ax r).
    rewrite Hlba. change (lower_flag CF (put_al 0 (raise_flag CF r))) with r1.
    destruct (Z.to_nat (lo (r_ax r))) as [|n] eqn:En; [lia|].
    assert (Ew : write_sectors (S n) lba (r_bx (raise_flag CF r)) r1 b = Ok (raise_flag CF r1) b1).
    { cbn [write_sectors]. by rewrite (bind_step _ _ _ _ _ E1). }
    rewrite (bind_step _ _ _ _ _ Ew).
    assert (lo (r_ax (raise_flag CF r1)) = 0) as -> by (change (lo (r_ax (put_al 0 (raise_flag CF r))) = 0); by rewrite lo_put_al).
    rewrite (proj2 (Z.eqb_neq 0 _)) by lia. cbn [negb]. by rewrite set_disk_status_eq.
  - apply carry_raise.
  - by rewrite hi_put_ah.
  - rewrite lo_put_ah. change (lo (r_ax (put_al 0 (raise_flag CF r))) = 0). by rewrite lo_put_al.
  - by eapply holds_frame.
  - exact Hread.
  - intros j Hj. apply overwrite_other; rewrite ?Hd; lia.
  - intros x. change (ram (with_ram ?m b1)) with m. rewrite byte_at_put8, Hm1. repeat case_decide; congruence || done.
Qed.
End write.

#[local] Instance bench_config : Config := default_config.
#[local] Existing Instance bench_bios.

(** A block of zeros over the second sector of a disk of two. *)
Lemma int13_writes_witness :
  exists r' b',
    disk_services (bench_regs 0x0301 0 0x0002 0x0080 0x1000)
      (bench_board (replicate 1024 0x5a)) = Ok r' b' /\
    carry r' = true /\ lo (r_ax r') = 0.
Proof.
  assert (Hp : (2048 <= poll_bound)%nat) by (cbn [poll_bound bench_bios]; lia).
  set (img := replicate 1024 0x5a).
  assert (Hl : length img = 1024%nat) by apply length_replicate.
  destruct (int13_writes (bench_regs 0x0301 0 0x0002 0x0080 0x1000) img
    (bench_board img) Hp) as (r' & b' & E & Hc & _ & Hal & _);
    [apply bench_holds|rewrite Hl; done|done|done|done|done|done|rewrite Hl; done| |].
  { unfold linear. split_and!; done. }
  exists r', b'. split; [exact E|]. split; [exact Hc|exact Hal].
Defined.
