(* ===== verification/BiosBoot.v ===== *)
(** * The BIOS: from [root] to the boot sector *)
From S2P Require Import Prelude Config MainMemory Registers ErrorState IOPorts Machine ModRM Core StringProps.
From S2P Require Import SimCPU SoftwareCPU PIC PS2 Timer UART SPI SPIProps Display CGA Simulator SimulatorProps.
From S2P Require Import Bios BiosDisplay BiosPrintk BiosKeyboard BiosMouse BiosSD BiosMain BiosSim BiosTame BiosCard.
From S2P Require Import BiosDisk BiosSector.
From Stdlib Require Import (notations) String.

Definition anywhere (a : Z) : Prop := True.

Section boot.
Context {CFG : Config} {BC : BiosConfig}.

(** ** Memory and display *)

Lemma tame_anywhere {A} P (f : sim_bios A) : tame P f -> tame anywhere f.
Proof. apply tame_mono. done. Qed.

Lemma low_word_fits address : word_fits 0 address.
Proof.
  unfold word_fits, phys. rewrite get_phys_addr_eq by (apply cast_in_range || cpp_lia).
  unfold Memory.MEMORY_SIZE. change (u16 0 * 16) with 0. rewrite Z.add_0_l, Z.mod_small by cpp_lia. cpp_lia.
Qed.

Lemma tame_set_vector vector handler : tame anywhere (set_vector vector handler).
Proof.
  unfold set_vector. apply tame_bind; [|intros _]; (apply tame_writew; [exact I|exact I|apply low_word_fits]).
Qed.

Lemma tame_install_vectors : tame anywhere install_vectors.
Proof.
  unfold install_vectors. apply tame_bind; [|intros _; apply tame_bind; [|intros _]].
  - apply tame_for_loop. intros i _. apply tame_set_vector.
  - generalize vectors as l. induction l as [|[num handler] l IH]; cbn [set_vectors]; [apply tame_ret|].
    apply tame_bind; [apply tame_set_vector|intros _; exact IH].
  - apply tame_set_vector.
Qed.

Lemma tame_memset seg dst v len : tame anywhere (memset_seg seg dst v len).
Proof. unfold memset_seg. apply tame_for_loop. intros i _. apply tame_writeb. exact I. Qed.

Lemma tame_scrub_mem : tame anywhere scrub_mem.
Proof. unfold scrub_mem. apply tame_for_loop. intros i _. apply tame_memset. Qed.

Lemma tame_bda_init : tame anywhere bda_init.
Proof. unfold bda_init. apply tame_for_loop. intros i _. apply tame_writeb. exact I. Qed.

(** As [tame_auto] of the messages. *)
Ltac tame_steps :=
  cbv zeta;
  repeat first
    [ solve [auto with tame]
    | apply tame_bind; [|intros ?]; cbv zeta
    | apply tame_for_loop; intros ? _
    | lazymatch goal with |- tame _ (match ?x with _ => _ end) => destruct x end ].

Lemma tame_save_init_dac : tame screen save_init_dac.
Proof. unfold save_init_dac. tame_steps. Qed.
Lemma tame_cursor_shape first last : tame screen (__set_cursor_shape first last).
Proof.
  unfold __set_cursor_shape, set_cursor_scan_end, set_cursor_scan_start, set_cursor_bda, crtc_reg_write. tame_steps.
Qed.
Lemma tame_text_mode : tame screen (__set_video_mode 3).
Proof. unfold __set_video_mode. tame_steps. Qed.
Lemma tame_clear_screen :
  tame screen (for_loop 25 (fun r => for_loop 80 (fun c => writew frame_buffer_segment (cell_addr r c) 0x0720))).
Proof. do 2 (apply tame_for_loop; intros ? _). apply tame_cell_writew. Qed.
#[local] Hint Resolve tame_save_init_dac tame_cursor_shape tame_text_mode tame_clear_screen : tame.

Lemma tame_display_init : tame screen display_init.
Proof. unfold display_init. repeat (apply tame_bind; [auto with tame|intros _]). auto with tame. Qed.

(** ** The interrupt controller *)

Definition with_pic_of (p : PIC.t) (b : sim_board) : sim_board :=
  mk_board (set_devs (set_pic p (devs (hw b))) (hw b)) (vars b).

Lemma outb_pic port v p' (b : sim_board) :
  on_bus b -> port_device port = Some 6%nat ->
  PIC.write8 (port_number port 6%nat) (port_offset port) (u8 (u8 v)) (pic (devs_of b)) = Ok tt p' ->
  outb port v b = Ok tt (with_pic_of p' b).
Proof.
  intros Hb Hport E. rewrite outb_eq, Hport by done.
  change (ioport_write8 6%nat ?x ?y ?z) with (snd <$> quietly (on_member pic set_pic (PIC.write8 x y z))).
  unfold on_hw, call_device, quietly, on_member, mbind, M_bind, fmap, M_fmap. unfold devs_of in E. by rewrite E.
Qed.

Definition pic_idle (b : sim_board) : Prop := PIC.state (pic (devs_of b)) = PIC.STATE_IDLE.

Lemma on_bus_pic p b : on_bus b -> on_bus (with_pic_of p b).
Proof. by intros [? ? ?]. Qed.

Lemma eoi_keeps_state n i p : exists p', PIC.eoi_loop n i p = Ok tt p' /\ PIC.state p' = PIC.state p.
Proof.
  revert i. induction n as [|n IH]; intros i; cbn [PIC.eoi_loop]; [by exists p|].
  unfold mbind, M_bind, gets, id. destruct (nz _); [|apply IH]. by eexists.
Qed.

(** The initialisation leaves the controller idle, whatever it was doing. *)
Lemma irq_init_eq b :
  on_bus b -> exists p', irq_init b = Ok tt (with_pic_of p' b) /\ PIC.state p' = PIC.STATE_IDLE.
Proof.
  intros Hb. set (q := pic (devs_of b)).
  set (p1 := PIC.set_state PIC.STATE_ICW2 q).
  set (p2 := PIC.set_state PIC.STATE_ICW4 (PIC.set_vector_address (8 .& 0xf8) p1)).
  set (p3 := PIC.set_state PIC.STATE_IDLE p2). set (p4 := PIC.set_mask_reg 0xff p3).
  destruct (eoi_keeps_state 8 0 p4) as (p5 & E5 & H5). exists p5. split; [|by rewrite H5].
  unfold irq_init, irq_ack.
  rewrite (bind_step _ _ _ _ _ (outb_pic PIC_COMMAND (PIC_ICW1_INIT .| PIC_ICW1_SINGLE .| PIC_ICW1_ICW4) p1 b
    Hb eq_refl eq_refl)).
  pose proof (on_bus_pic p1 b Hb) as Hb1. set (b1 := with_pic_of p1 b) in *.
  rewrite (bind_step _ _ _ _ _ (outb_pic PIC_DATA 0x08 p2 b1 Hb1 eq_refl eq_refl)).
  pose proof (on_bus_pic p2 b1 Hb1) as Hb2. set (b2 := with_pic_of p2 b1) in *.
  rewrite (bind_step _ _ _ _ _ (outb_pic PIC_DATA PIC_ICW4_8086 p3 b2 Hb2 eq_refl eq_refl)).
  pose proof (on_bus_pic p3 b2 Hb2) as Hb3. set (b3 := with_pic_of p3 b2) in *.
  rewrite (bind_step _ _ _ _ _ (outb_pic PIC_DATA (~. 0) p4 b3 Hb3 eq_refl eq_refl)).
  pose proof (on_bus_pic p4 b3 Hb3) as Hb4. set (b4 := with_pic_of p4 b3) in *.
  by rewrite (outb_pic 0x20 0x20 p5 b4 Hb4 eq_refl E5).
Qed.

Lemma write_mask_eq m p :
  PIC.state p = PIC.STATE_IDLE -> PIC.write_data m p = Ok tt (PIC.set_mask_reg m p).
Proof. destruct p. cbn. by intros ->. Qed.

Lemma irq_enable_eq n b : on_bus b -> pic_idle b -> exists b', irq_enable n b = Ok tt b' /\ frame nowhere b b'.
Proof.
  intros Hb Hi. unfold irq_enable. destruct (tame_inb nowhere PIC_DATA b Hb I) as (v & b1 & E1 & F1).
  assert (Hi1 : PIC.state (pic (devs_of b1)) = PIC.STATE_IDLE) by (by rewrite (fr_pic _ _ _ F1)).
  set (m := u8 (u8 (v .& ~. (1 .<< n)))).
  exists (with_pic_of (PIC.set_mask_reg m (pic (devs_of b1))) b1). rewrite (bind_step _ _ _ _ _ E1).
  rewrite (outb_pic PIC_DATA _ (PIC.set_mask_reg m (pic (devs_of b1)))); [|apply F1|done|].
  - split; [done|]. eapply frame_trans; [exact F1|]. split; try done. by apply on_bus_pic, F1.
  - change (PIC.write8 (port_number PIC_DATA 6%nat) (port_offset PIC_DATA) m) with (PIC.write_data m).
    by apply write_mask_eq.
Qed.

(** ** The timer and the keyboard *)

Lemma tame_timer port v :
  port_device port = Some 3%nat ->
  steady no_view (TimerTick.write8 (port_number port 3%nat) (port_offset port) (u8 (u8 v))) -> tame nowhere (outb port v).
Proof.
  intros Hport Hs.
  assert (T : tame nowhere (on_hw (call_device (snd <$> quietly (on_member timer set_timer
    (TimerTick.write8 (port_number port 3%nat) (port_offset port) (u8 (u8 v))))) id) ;; mret ())).
  { apply tame_bind; [|intros _; apply tame_ret]. apply tame_call, steady_fmap.
    apply steady_bind; [by apply steady_member|intros ?; apply steady_ret]. }
  intros b Hb HI. rewrite outb_eq, Hport by done. by apply T.
Qed.

Lemma steady_reload v : steady no_view (TimerTick.write8 0 0 v).
Proof.
  intros s. unfold TimerTick.write8, TimerTick.write_reload, mbind, M_bind, gets, modify, id. cbn [Z.eqb andb].
  destruct (TimerTick.access_low s); by eexists _, _.
Qed.
Lemma steady_mode : steady no_view (TimerTick.write8 2 1 0x34).
Proof. intros s. by eexists _, _. Qed.

Lemma init_timer_eq b : on_bus b -> pic_idle b -> exists b', init_timer b = Ok tt b' /\ frame screen b b'.
Proof.
  intros Hb Hi. destruct (irq_enable_eq 0 b Hb Hi) as (b1 & E1 & F1).
  assert (T : tame screen (outb (TIMER_PORT + 0x3) 0x34 ;; outb (TIMER_PORT + 0x0) 0x00 ;;
    outb (TIMER_PORT + 0x0) 0x00 ;; bda_write timer_counter_low (INIT_TIME_COUNT_VAL .& 0xffff) ;;
    bda_write timer_counter_high (INIT_TIME_COUNT_VAL .>> 16 .& 0xffff))).
  { assert (H : forall port v, tame nowhere (outb port v) -> tame screen (outb port v))
      by (intros port v; by apply tame_mono).
    repeat (apply tame_bind; [|intros _]);
      try (apply H, tame_timer; [done|apply steady_mode || apply steady_reload]); auto with tame. }
  destruct (T b1 (fr_bus _ _ _ F1) I) as ([] & b2 & E2 & F2). exists b2. split.
  - unfold init_timer. by rewrite (bind_step _ _ _ _ _ E1).
  - eapply frame_trans; [|exact F2]. by eapply frame_mono; [|exact F1].
Qed.

Lemma keyboard_init_eq b : on_bus b -> pic_idle b -> exists b', keyboard_init b = Ok tt b' /\ frame screen b b'.
Proof.
  intros Hb Hi.
  assert (T : tame screen (bda_write (keyboard_flags 0) 0 ;; bda_write (keyboard_flags 1) 0 ;;
    bda_write kbd_buffer_tail buffer_start ;; bda_write kbd_buffer_head buffer_start ;; keyboard_reset)).
  { unfold keyboard_reset. repeat (apply tame_bind; [|intros ?]); auto with tame. }
  destruct (T b Hb I) as ([] & b1 & E1 & F1).
  destruct (irq_enable_eq 1 b1) as (b2 & E2 & F2); [apply F1|unfold pic_idle; by rewrite (fr_pic _ _ _ F1)|].
  exists b2. split.
  - unfold keyboard_init. revert E1. unfold mbind, M_bind. do 4 (case_match; [|done]). intros E1. by rewrite E1.
  - eapply frame_trans; [exact F1|]. by eapply frame_mono; [|exact F2].
Qed.

(** ** The mouse *)

(** The bytes that the mouse has queued. *)
Definition mouse_queue (b : sim_board) : list Z := PS2.pending (Mouse.ps2 (mouse (devs_of b))).

(** A call that is steady, and what it does to the queue. *)
Lemma call_queue {A} (f : M devices A) irqs q b :
  on_bus b -> (exists a d', f (devs_of b) = Ok a d' /\ card_view d' = card_view (devs_of b) /\
    PS2.pending (Mouse.ps2 (mouse d')) = q) ->
  exists a b' d', f (devs_of b) = Ok a d' /\ on_hw (call_device f irqs) b = Ok a b' /\ frame nowhere b b' /\
    mouse_queue b' = q.
Proof.
  intros Hb (a & d' & E & Hv & Hq). destruct (call_device_eq f irqs a d' b Hb E) as (b' & E' & Hb' & Hr & Hd & Hvars).
  exists a, b', d'. split; [done|]. split; [done|]. split; [apply frame_devs; [done..|by rewrite Hd|done]|].
  unfold mouse_queue. by rewrite Hd.
Qed.

Lemma add_byte_queue v p m :
  exists irqs p', Mouse.add_byte v (p, m) =
    Ok irqs (p', Mouse.set_ps2 (PS2.mk (PS2.pending (Mouse.ps2 m) ++ [u8 v])) m) /\ PIC.state p' = PIC.state p.
Proof.
  unfold Mouse.add_byte, Mouse.on_ps2, PS2.add_byte, mbind, M_bind. cbn [fst snd].
  destruct (steady_raise (B := PS2.t) Mouse.irq_num (p, Mouse.ps2 m)) as (irqs & [p' x] & E & Hp).
  assert (x = Mouse.ps2 m) as ->.
  { revert E. unfold on_pic. cbn. by destruct (PIC.raise_irq _ p); intros [= _ _ <-]. }
  rewrite E. exists irqs, p'. split; [reflexivity|exact Hp].
Qed.

(** What the mouse answers to a byte that is written to it. *)
Definition mouse_reply (v : Z) : list Z := 0xfa :: (if v =? 0xff then [0xaa; 0x55] else []).

Lemma mouse_write_queue v p m :
  exists irqs p' m', Mouse.write8 0 0 v (p, m) = Ok irqs (p', m') /\ PIC.state p' = PIC.state p /\
    PS2.pending (Mouse.ps2 m') = PS2.pending (Mouse.ps2 m) ++ mouse_reply v.
Proof.
  unfold Mouse.write8, mouse_reply. cbn [Z.eqb andb].
  destruct (add_byte_queue 0xfa p m) as (i1 & p1 & E1 & H1).
  set (m1 := Mouse.set_ps2 _ m) in E1.
  assert (Hend : forall irqs p2 m2, exists m3,
    (((if v =? 0xf4 then on_self (modify (Mouse.set_active true)) else mret ()) ;; mret irqs) ≫=
      fun irqs => Mouse.on_ps2 (P := PIC.t) (on_self (PS2.write8 0 0 v)) ;; mret irqs) (p2, m2) = Ok (irqs : list Z) (p2, m3) /\
    PS2.pending (Mouse.ps2 m3) = PS2.pending (Mouse.ps2 m2)).
  { intros irqs p2 m2. destruct (v =? 0xf4); eexists; split; reflexivity. }
  destruct (Z.eqb_spec v 0xff) as [->|Hv].
  - destruct (add_byte_queue 0xaa p1 m1) as (i2 & p2 & E2 & H2). set (m2 := Mouse.set_ps2 _ m1) in E2.
    destruct (add_byte_queue 0x55 p2 m2) as (i3 & p3 & E3 & H3). set (m3 := Mouse.set_ps2 _ m2) in E3.
    destruct (Hend (i1 ++ i2 ++ i3) p3 m3) as (m4 & E4 & H4). exists (i1 ++ i2 ++ i3), p3, m4.
    split; [|split; [congruence|rewrite H4; unfold m3, m2, m1; cbn; by rewrite <- !app_assoc]].
    revert E4. unfold mbind, M_bind. rewrite E1, E2, E3. done.
  - destruct (Hend (i1 ++ []) p1 m1) as (m4 & E4 & H4). exists (i1 ++ []), p1, m4.
    split; [|split; [congruence|by rewrite H4]].
    revert E4. unfold mbind, M_bind. rewrite E1. done.
Qed.

Lemma mouse_write_eq v b :
  on_bus b -> is_byte v -> exists b', outb MOUSE_DATA v b = Ok tt b' /\ frame nowhere b b' /\
    mouse_queue b' = mouse_queue b ++ mouse_reply v.
Proof.
  intros Hb Hv. rewrite outb_eq by done. change (port_device MOUSE_DATA) with (Some 7%nat). cbv iota beta.
  change (ioport_write8 7%nat _ _ ?z) with (with_pic mouse set_mouse (Mouse.write8 0 0 z)).
  unfold is_byte in Hv. rewrite !(cast_id uint8_t) by cpp_lia.
  destruct (call_queue (with_pic mouse set_mouse (Mouse.write8 0 0 v)) id (mouse_queue b ++ mouse_reply v) b Hb)
    as (a & b' & d' & _ & E & F & Hq).
  { destruct (mouse_write_queue v (pic (devs_of b)) (mouse (devs_of b))) as (irqs & p' & m' & E & Hp & Hq).
    exists irqs, (set_mouse m' (set_pic p' (devs_of b))). unfold with_pic. rewrite E. split; [done|]. split; [|done].
    unfold card_view. cbn. by rewrite Hp. }
  exists b'. unfold mbind, M_bind. rewrite E. done.
Qed.

Lemma mouse_read_eq x q b :
  on_bus b -> mouse_queue b = x :: q -> is_byte x ->
  exists b', mouse_read b = Ok (Some x) b' /\ frame nowhere b b' /\ mouse_queue b' = q.
Proof.
  intros Hb Hq Hx. unfold mouse_queue in Hq.
  set (m := mouse (devs_of b)) in *.
  assert (Estatus : exists a b', inb MOUSE_STATUS b = Ok a b' /\ nz (a .& (1 .<< 4)) = true /\
    frame nowhere b b' /\ mouse_queue b' = x :: q).
  { rewrite inb_eq by done. change (port_device MOUSE_STATUS) with (Some 7%nat). cbv iota beta.
    change (ioport_read8 7%nat _ _) with (quietly (with_pic mouse set_mouse (Mouse.read8 0 1))).
    assert (E0 : quietly (with_pic mouse set_mouse (Mouse.read8 0 1)) (devs_of b) =
      Ok (0x10, []) (set_mouse (Mouse.set_ps2 (Mouse.ps2 m) m) (set_pic (pic (devs_of b)) (devs_of b)))).
    { unfold quietly, with_pic, Mouse.read8, Mouse.on_ps2, on_self, PS2.read8, mbind, M_bind, gets. fold m. cbn.
      by rewrite Hq. }
    destruct (call_queue (quietly (with_pic mouse set_mouse (Mouse.read8 0 1))) snd (x :: q) b Hb)
      as (a & b' & d' & Ea & E & F & Hq'); [eexists _, _; split; [exact E0|split; [done|exact Hq]]|].
    exists 0x10, b'. rewrite E0 in Ea. injection Ea as <- _. unfold mbind, M_bind. by rewrite E. }
  destruct Estatus as (a & b1 & E1 & Ha & F1 & Hq1).
  assert (Edata : exists b', inb MOUSE_DATA b1 = Ok x b' /\ frame nowhere b1 b' /\ mouse_queue b' = q).
  { pose proof (fr_bus _ _ _ F1) as Hb1. clear Hq m. unfold mouse_queue in Hq1. set (m := mouse (devs_of b1)) in *.
    rewrite inb_eq by done. change (port_device MOUSE_DATA) with (Some 7%nat). cbv iota beta.
    change (ioport_read8 7%nat _ _) with (quietly (with_pic mouse set_mouse (Mouse.read8 0 0))).
    assert (E0 : quietly (with_pic mouse set_mouse (Mouse.read8 0 0)) (devs_of b1) =
      Ok (x, []) (set_mouse (Mouse.set_ps2 (PS2.mk q) m) (set_pic (pic (devs_of b1)) (devs_of b1)))).
    { unfold quietly, with_pic, Mouse.read8, Mouse.on_ps2, on_self, PS2.read8, mbind, M_bind, gets, id. fold m. cbn.
      by rewrite Hq1. }
    destruct (call_queue (quietly (with_pic mouse set_mouse (Mouse.read8 0 0))) snd q b1 Hb1)
      as (a' & b' & d' & Ea & E & F & Hq'); [eexists _, _; split; [exact E0|split; [done|reflexivity]]|].
    exists b'. rewrite E0 in Ea. injection Ea as <- _. unfold mbind, M_bind. rewrite E. cbn [fst].
    split; [|done]. unfold is_byte in Hx. by rewrite cast_id by cpp_lia. }
  destruct Edata as (b2 & E2 & F2 & Hq2). exists b2. split; [|split; [by eapply frame_trans|done]].
  unfold mouse_read. rewrite (bind_step _ _ _ _ _ E1), Ha. cbn [negb]. by rewrite (bind_step _ _ _ _ _ E2).
Qed.
End boot.
