(* ===== verification/BiosRoot.v ===== *)
(** * The BIOS: [root] reaches the boot sector *)
From S2P Require Import Prelude Config MainMemory Registers ErrorState IOPorts Machine ModRM Core StringProps.
From S2P Require Import SimCPU SoftwareCPU PIC PS2 Timer UART SPI SPIProps Display CGA Simulator SimulatorProps.
From S2P Require Import Bios BiosDisplay BiosPrintk BiosKeyboard BiosMouse BiosSD BiosMain BiosSim BiosTame BiosCard.
From S2P Require Import BiosDisk BiosSector BiosInt13 BiosBoot.
From Stdlib Require Import (notations) String.

(** ** Messages *)

(** The loop over plain characters, and what comes behind them. *)
Lemma format_prefix pre rest : forall fuel f,
  fmt f = pre ++ rest -> Forall (fun c => c <> 0x25) pre ->
  (forall fuel g, fmt g = rest -> ap g = ap f -> is_Some (format_loop fuel g)) ->
  is_Some (format_loop fuel f).
Proof.
  induction pre as [|c l IH]; intros fuel f Hf Hl Hrest; [by apply Hrest|].
  destruct fuel as [|fuel]; cbn [format_loop]; rewrite Hf; [by eexists|]. cbn [app].
  apply Forall_cons_1 in Hl as [Hc Hl]. destruct (len f <? _); [|by eexists].
  apply Z.eqb_neq in Hc. rewrite Hc. cbn [mbind option_bind].
  apply IH; [|done|]; unfold output_char; by destruct (_ <? _).
Qed.

Lemma format_plain l fuel f :
  fmt f = l -> Forall (fun c => c <> 0x25) l -> is_Some (format_loop fuel f).
Proof.
  intros Hf Hl. apply (format_prefix l []); [by rewrite app_nil_r|done|].
  intros fuel' g Hg _. destruct fuel'; cbn [format_loop]; rewrite Hg; by eexists.
Qed.

(** A specifier, and its argument. *)
Lemma format_step (fuel : nat) (f f' : string_formatter) l :
  fmt f = 0x25 :: l -> output_item (parse_specifier f) = Some f' ->
  (forall fuel, is_Some (format_loop fuel f')) -> is_Some (format_loop fuel f).
Proof.
  intros Hf E H. destruct fuel as [|fuel]; cbn [format_loop]; rewrite Hf; [by eexists|].
  destruct (len f <? _); [|by eexists]. cbn [Z.eqb Pos.eqb]. rewrite E. cbn [mbind option_bind]. apply H.
Qed.

Ltac plain := repeat (apply Forall_cons_2; [done|]); apply Forall_nil_2.

Section root.
Context {CFG : Config} {BC : BiosConfig}.

Lemma mouse_cmd_eq v x q b :
  on_bus b -> is_byte v -> is_byte x -> mouse_queue b = [] -> mouse_reply v = x :: q ->
  exists b', mouse_cmd v b = Ok (0, x) b' /\ frame nowhere b b' /\ mouse_queue b' = q.
Proof.
  intros Hb Hv Hx Hq Hr. destruct (mouse_write_eq v b Hb Hv) as (b1 & E1 & F1 & Hq1).
  rewrite Hq, Hr in Hq1. destruct (mouse_read_eq x q b1) as (b2 & E2 & F2 & Hq2); [apply F1|done|done|].
  exists b2. split; [|split; [by eapply frame_trans|done]].
  unfold mouse_cmd. rewrite (bind_step _ _ _ _ _ E1).
  assert (Ea : mouse_answer (Z.to_nat CMD_TIMEOUT) b1 = Ok (Some x) b2).
  { generalize (Z.to_nat CMD_TIMEOUT) as n. intros [|n]; cbn [mouse_answer]; by rewrite (bind_step _ _ _ _ _ E2). }
  by rewrite (bind_step _ _ _ _ _ Ea).
Qed.

Lemma wait_byte_eq x q b :
  (1 <= poll_bound)%nat -> on_bus b -> mouse_queue b = x :: q -> is_byte x ->
  exists b', wait_byte poll_bound b = Ok x b' /\ frame nowhere b b' /\ mouse_queue b' = q.
Proof.
  intros Hp Hb Hq Hx. destruct (mouse_read_eq x q b Hb Hq Hx) as (b1 & E1 & F1 & Hq1). exists b1.
  destruct poll_bound as [|n]; [lia|]. cbn [wait_byte]. by rewrite (bind_step _ _ _ _ _ E1).
Qed.

(** Clearing empties the queue. *)
Lemma mouse_clear_eq b :
  on_bus b -> exists b', outb MOUSE_STATUS MOUSE_PS2_CTRL_CLEAR b = Ok tt b' /\ frame nowhere b b' /\ mouse_queue b' = [].
Proof.
  intros Hb. rewrite outb_eq by done. change (port_device MOUSE_STATUS) with (Some 7%nat). cbv iota beta.
  change (ioport_write8 7%nat _ _ _) with (with_pic mouse set_mouse (Mouse.write8 0 1 0x80)).
  destruct (call_queue (with_pic mouse set_mouse (Mouse.write8 0 1 0x80)) id [] b Hb) as (a & b' & d' & _ & E & F & Hq).
  { eexists _, _. split; [reflexivity|]. split; [done|]. cbn.
    by destruct (PS2.pending (Mouse.ps2 (mouse (devs_of b)))) eqn:Eq. }
  exists b'. unfold mbind, M_bind. rewrite E. done.
Qed.

(** The mouse is found: it passes its test and reports are enabled. *)
Lemma mouse_hw_init_eq b :
  (1 <= poll_bound)%nat -> on_bus b -> exists b', mouse_hw_init b = Ok 0 b' /\ frame nowhere b b' /\
    have_mouse (vars b') = 1.
Proof.
  intros Hp Hb. destruct (mouse_clear_eq b Hb) as (b1 & E1 & F1 & Q1).
  destruct (mouse_cmd_eq 0xff 0xfa [0xaa; 0x55] b1) as (b2 & E2 & F2 & Q2); [apply F1|done..|].
  destruct (wait_byte_eq 0xaa [0x55] b2 Hp) as (b3 & E3 & F3 & Q3); [apply F2|done..|].
  destruct (wait_byte_eq 0x55 [] b3 Hp) as (b4 & E4 & F4 & Q4); [apply F3|done..|].
  destruct (mouse_cmd_eq CMD_ENABLE 0xfa [] b4) as (b5 & E5 & F5 & Q5); [apply F4|done..|].
  destruct (tame_mouse_cmd nowhere CMD_REFRESH b5) as ([? ?] & b6 & E6 & F6); [apply F5|done|].
  destruct (tame_mouse_cmd nowhere 40 b6) as ([? ?] & b7 & E7 & F7); [apply F6|done|].
  destruct (tame_set_var nowhere (put_have_mouse 1) ltac:(done) b7) as ([] & b8 & E8 & F8); [apply F7|done|].
  exists b8. split; [|split].
  - unfold mouse_hw_init. rewrite (bind_step _ _ _ _ _ E1), (bind_step _ _ _ _ _ E2). cbn [nz Z.eqb negb Pos.eqb orb].
    assert (Et : wait_self_test b2 = Ok 0 b4).
    { unfold wait_self_test. rewrite (bind_step _ _ _ _ _ E3). cbn [Z.eqb Pos.eqb negb].
      by rewrite (bind_step _ _ _ _ _ E4). }
    rewrite (bind_step _ _ _ _ _ Et). cbn [nz Z.eqb negb].
    rewrite (bind_step _ _ _ _ _ E5). cbn [nz Z.eqb negb Pos.eqb orb].
    rewrite (bind_step _ _ _ _ _ E6), (bind_step _ _ _ _ _ E7). by rewrite (bind_step _ _ _ _ _ E8).
  - do 7 (eapply frame_trans; [eassumption|]). exact F8.
  - unfold set_var, modify in E8. injection E8 as <-. done.
Qed.

(** ** The boot sector *)

Definition reg_of (b : sim_board) (r : GPR) : Z := RegisterFile.get (registers (hw b)) r.

Lemma set_reg_eq r v (b : sim_board) :
  on_hw (registers_set r v) b =
    Ok tt (mk_board (set_registers (RegisterFile.set (registers (hw b)) r v) (hw b)) (vars b)).
Proof. done. Qed.

Lemma on_bus_regs rf (b : sim_board) :
  RegisterFile.wf rf -> on_bus b -> on_bus (mk_board (set_registers rf (hw b)) (vars b)).
Proof. by intros ? [? ? ?]. Qed.

Lemma sd_boot_eq img b :
  (2048 <= poll_bound)%nat -> holds img b -> is_bytes img -> 512 <= Z.of_nat (length img) ->
  exists b', sd_boot b = Ok tt b' /\ reg_of b' CS = 0 /\ reg_of b' IP = 0x7c00 /\ reg_of b' DL = 0x80 /\
    holds img b' /\ forall i v, (i < 512)%nat -> img !! i = Some v -> Memory.byte_at (ram b') (0x7c00 + Z.of_nat i) = v.
Proof.
  intros Hp Hh Hb Hl.
  assert (Ha : card_address (sd_is_sdhc (vars b)) 0 = 0) by (unfold card_address; by case_match).
  destruct (read_sector_eq Hp 0 0 0x7c00 img b Hh Hb) as (b1 & E1 & Hh1 & _ & _ & Hm1);
    [rewrite Ha; lia|unfold linear, Memory.MEMORY_SIZE; split_and!; (done || lia)|]. rewrite Ha in Hm1.
  assert (Hp1 : (1 <= poll_bound)%nat) by lia. pose proof Hh1 as [p [Hb1 _ _]].
  destruct (tame_putstr Hp1 (text "Booting from SD card...
"%string) b1 Hb1 I) as ([] & b2 & E2 & F2).
  pose proof (fr_bus _ _ _ F2) as [Hio2 Hw2 Hrf2].
  set (r1 := RegisterFile.set (registers (hw b2)) DL 0x80).
  set (r2 := RegisterFile.set r1 CS 0x0000). set (r3 := RegisterFile.set r2 IP 0x7c00).
  assert (W1 : RegisterFile.wf r1) by by apply RegisterFile.wf_set.
  assert (W2 : RegisterFile.wf r2) by by apply RegisterFile.wf_set.
  exists (mk_board (set_registers r3 (hw b2)) (vars b2)). split_and!.
  - unfold sd_boot. rewrite (bind_step _ _ _ _ _ (or_panic_eq _ _ _ _ E1)), (bind_step _ _ _ _ _ E2). done.
  - change (RegisterFile.get r3 CS = 0). unfold r3, r2. rewrite RegisterFile.get_set_ne, RegisterFile.get_set_eq by done. done.
  - change (RegisterFile.get r3 IP = 0x7c00). unfold r3. by rewrite RegisterFile.get_set_eq.
  - change (RegisterFile.get r3 DL = 0x80). unfold r3, r2, r1. rewrite !RegisterFile.get_set_ne, RegisterFile.get_set_eq by done. done.
  - destruct (holds_frame _ _ _ _ F2 Hh1) as [q [Hb2 Hbuf Hidle]]. exists q.
    split; [apply on_bus_regs; [by apply RegisterFile.wf_set|done]|done|done].
  - intros i v Hi Ei. change (ram (mk_board _ _)) with (ram b2).
    rewrite (fr_ram _ _ _ F2), Hm1 by (unfold screen; lia).
    unfold overlay, block. rewrite (proj2 (Z.leb_le _ _)) by lia.
    replace (Z.to_nat (0x7c00 + Z.of_nat i - (0 * 16 + 0x7c00))) with i by lia.
    change (Z.to_nat 0) with 0%nat. rewrite drop_0, lookup_take, decide_True by lia. by rewrite Ei.
Qed.

(** ** The start-up messages *)

Lemma cache_message n : is_Some (string_format 128 (text "Cache: %uKB
"%string) [Num n]).
Proof.
  unfold string_format. apply fmap_is_Some. generalize (Datatypes.length (text "Cache: %uKB
"%string)) as fuel. intros fuel.
  apply (format_prefix (text "Cache: "%string) (text "%uKB
"%string)); [done|plain|].
  intros fuel' [bf mx fm pr zp arg] Hf Ha. cbn [fmt ap] in Hf, Ha. subst fm arg.
  eapply format_step; [reflexivity|reflexivity|]. intros fuel''. eapply format_plain; [reflexivity|plain].
Qed.

Lemma pseudo_message b : is_Some (string_format 128 (text "Pseudo-286: %s
"%string) [Str (text (if b : bool then "enabled" else "disabled")%string)]).
Proof. destruct b; vm_compute; by eexists. Qed.

(** ** The whole start-up *)

(** C2. Booting. On a board of the simulator, with the card selected or not
    but at rest, its image at least a sector long, and a pointing device,
    display, clock, keyboard and interrupt controller in any state: [root]
    returns. It has cleared memory, set the vectors, initialised the interrupt
    controller, the display, the timer and the keyboard, printed its messages,
    found the mouse (which is enabled), found the card byte-addressed, and read
    its first sector: the 512 bytes at 0000:7C00 are those of the image, CS:IP is
    0000:7C00 and DL the number of the disk. *)
Theorem root_boots img c rx p dw m b :
  (2048 <= poll_bound)%nat -> on_bus b -> spi (devs_of b) = idle c rx (Disk.mk img p false) dw m ->
  length (spi_xfer_buf (vars b)) = 1280%nat -> is_bytes img -> 512 <= Z.of_nat (length img) ->
  exists b', root b = Ok tt b' /\
    reg_of b' CS = 0 /\ reg_of b' IP = 0x7c00 /\ reg_of b' DL = 0x80 /\
    (forall i v, (i < 512)%nat -> img !! i = Some v -> Memory.byte_at (ram b') (0x7c00 + Z.of_nat i) = v) /\
    holds img b'.
Proof.
  intros Hp Hb Hspi Hbuf Hbytes Hl. assert (Hp1 : (1 <= poll_bound)%nat) by lia.
  assert (R0 : card_ready (Disk.mk img p false) b) by (split; [done|done|by exists c, rx, dw, m]).
  destruct (tame_scrub_mem b Hb I) as ([] & b1 & E1 & F1).
  destruct (tame_install_vectors b1 (fr_bus _ _ _ F1) I) as ([] & b2 & E2 & F2).
  destruct (irq_init_eq b2 (fr_bus _ _ _ F2)) as (pic3 & E3 & Hpic3). set (b3 := with_pic_of pic3 b2) in *.
  assert (Hb3 : on_bus b3) by apply on_bus_pic, F2.
  destruct (tame_bda_init b3 Hb3 I) as ([] & b4 & E4 & F4).
  destruct (tame_display_init b4 (fr_bus _ _ _ F4) I) as ([] & b5 & E5 & F5).
  destruct (tame_putstr Hp1 BANNER b5 (fr_bus _ _ _ F5) I) as ([] & b6 & E6 & F6).
  destruct (cache_message (Z.quot CACHE_SIZE 1024)) as [s7 Es7].
  destruct (tame_printk Hp1 _ _ _ Es7 b6 (fr_bus _ _ _ F6) I) as ([] & b7 & E7 & F7).
  destruct (pseudo_message S80X86_PSEUDO_286) as [s8' Es8].
  destruct (tame_printk Hp1 _ _ _ Es8 b7 (fr_bus _ _ _ F7) I) as ([] & b8 & E8 & F8).
  destruct (tame_putstr Hp1 [10] b8 (fr_bus _ _ _ F8) I) as ([] & b9 & E9 & F9).
  assert (F39 : frame anywhere b3 b9).
  { do 5 (eapply frame_trans; [eapply frame_mono; [|eassumption]; done|]).
    eapply frame_mono; [|exact F9]; done. }
  assert (Hi9 : pic_idle b9) by (unfold pic_idle; by rewrite (fr_pic _ _ _ F39)).
  destruct (init_timer_eq b9 (fr_bus _ _ _ F39) Hi9) as (b10 & E10 & F10).
  assert (Hi10 : pic_idle b10) by (unfold pic_idle; by rewrite (fr_pic _ _ _ F10)).
  destruct (keyboard_init_eq b10 (fr_bus _ _ _ F10) Hi10) as (b11 & E11 & F11).
  destruct (mouse_hw_init_eq b11 Hp1 (fr_bus _ _ _ F11)) as (b12 & E12 & F12 & _).
  assert (R12 : card_ready (Disk.mk img p false) b12).
  { assert (R3 : card_ready (Disk.mk img p false) b3).
    { pose proof (cs_ready _ _ _ _ _ (frame_step _ _ _ _ (frame_trans _ _ _ _ F1 F2) R0)) as [? ? ?]. by split. }
    eapply cs_ready, frame_step; [|exact R3]. eapply frame_trans; [exact F39|].
    eapply frame_trans; [eapply frame_mono; [|exact F10]; done|].
    eapply frame_trans; [eapply frame_mono; [|exact F11]; done|]. eapply frame_mono; [|exact F12]; done. }
  destruct (sd_init_eq Hp _ b12 R12) as (b13 & E13 & S13 & _).
  destruct (sd_boot_eq img b13 Hp) as (b14 & E14 & Hcs & Hip & Hdl & Hh & Hm);
    [exists p; apply S13|done|done|].
  exists b14. split; [|by split_and!]. unfold root.
  rewrite (bind_step _ _ _ _ _ E1), (bind_step _ _ _ _ _ E2), (bind_step _ _ _ _ _ E3), (bind_step _ _ _ _ _ E4),
    (bind_step _ _ _ _ _ E5), (bind_step _ _ _ _ _ E6), (bind_step _ _ _ _ _ E7), (bind_step _ _ _ _ _ E8),
    (bind_step _ _ _ _ _ E9), (bind_step _ _ _ _ _ E10), (bind_step _ _ _ _ _ E11), (bind_step _ _ _ _ _ E12),
    (bind_step _ _ _ _ _ E13).
  exact E14.
Qed.
End root.

#[local] Instance bench_config : Config := default_config.
#[local] Existing Instance bench_bios.

(** A disk of one sector, on the devices as the simulator makes them. *)
Lemma root_boots_witness :
  exists b',
    root
      (bench_board (replicate 512 0x5a)) = Ok tt b' /\
    reg_of b' CS = 0 /\ reg_of b' IP = 0x7c00 /\ Memory.byte_at (ram b') 0x7dff = 0x5a.
Proof.
  assert (Hp : (2048 <= poll_bound)%nat) by (cbn [poll_bound bench_bios]; lia).
  set (img := replicate 512 0x5a).
  assert (Hl : length img = 512%nat) by apply length_replicate.
  destruct (root_boots img 0 0 0 false 0
    (bench_board img) Hp) as (b' & E & Hcs & Hip & _ & Hm & _);
    [apply bench_on_bus|done|done|by apply is_bytes_replicate|rewrite Hl; done|].
  exists b'. split; [exact E|]. split; [exact Hcs|]. split; [exact Hip|].
  apply (Hm 511%nat 0x5a); [lia|]. apply lookup_replicate_2. lia.
Defined.
