(* ===== verification/BiosRing.v ===== *)
(** * The BIOS: the ring of keys is a queue of fifteen *)
From S2P Require Import Prelude Config MainMemory Registers ErrorState IOPorts Machine ModRM Core Decoder StringProps.
From S2P Require Import SimCPU SoftwareCPU PIC PICProps PS2 PS2Props Timer UART SPI SPIProps Display CGA Simulator SimulatorProps.
From S2P Require Import Bios BiosDisplay BiosPrintk BiosKeyboard BiosMouse BiosSD BiosMain BiosSim BiosTame BiosCard.
From S2P Require Import BiosDisk BiosSector BiosInt13 BiosBoot.

Section ring.
Context {CFG : Config} {BC : BiosConfig}.

(** ** Words of the data area *)

Definition word_at (mm : Memory.t) (a : Z) : Z := Memory.byte_at mm a + 256 * Memory.byte_at mm (a + 1).

Lemma readw_eq seg addr b :
  on_bus b -> word_fits seg addr -> readw seg addr b = Ok (word_at (ram b) (phys seg addr)) b.
Proof.
  intros [_ Hw _] Hf. pose proof (phys_range seg addr) as Hr. unfold word_fits in Hf.
  unfold readw, on_hw. fold (phys seg addr).
  rewrite (mem_read_Some uint16_t _ (word_at (ram b) (phys seg addr))); [by destruct b|].
  unfold phys in *. rewrite phys_u32, Memory.read_Some by exact Hf. f_equal.
  change (Z.to_nat (sizeof uint16_t)) with 2%nat. cbn [Memory.load]. unfold word_at.
  pose proof (Memory.byte_at_range (ram b) (get_phys_addr (u16 seg) (u16 addr)) Hw).
  pose proof (Memory.byte_at_range (ram b) (get_phys_addr (u16 seg) (u16 addr) + 1) Hw).
  unfold ram in *. rewrite cast_id by cpp_lia. lia.
Qed.

Definition word_field (f : bda_field) : Prop := field_type f = uint16_t /\ field_ok f.

Definition bda_word (b : sim_board) (f : bda_field) : Z := word_at (ram b) (0x400 + offset_of f).

Lemma bda_read_eq f b : on_bus b -> word_field f -> bda_read f b = Ok (bda_word b f) b.
Proof.
  intros Hb [Ht Hf]. unfold bda_read, bda_word. rewrite Ht, <- (bda_phys f Hf). apply readw_eq; [done|].
  unfold word_fits. rewrite (bda_phys f Hf). unfold field_ok in Hf. unfold Memory.MEMORY_SIZE. lia.
Qed.

Lemma bda_write_eq f v b :
  on_bus b -> word_field f -> exists mm,
    bda_write f v b = Ok tt (with_ram mm b) /\ Memory.wf mm /\
    word_at mm (0x400 + offset_of f) = u16 v /\
    forall a, a + 2 <= 0x400 + offset_of f \/ 0x402 + offset_of f <= a -> word_at mm a = word_at (ram b) a.
Proof.
  intros Hb [Ht Hf]. unfold bda_write. rewrite Ht. pose proof (bda_phys f Hf) as Ep.
  destruct (writew_eq 0x40 (offset_of f) v b Hb) as (mm & E & Hw & Hm).
  { unfold word_fits. rewrite Ep. unfold field_ok in Hf. unfold Memory.MEMORY_SIZE. lia. }
  rewrite Ep in Hm. exists mm. split; [exact E|]. split; [done|]. split.
  - unfold word_at. rewrite !Hm. repeat case_decide; try lia.
    rewrite Z.shiftr_div_pow2 by lia. change (2 ^ 8) with 256. cpp_lia.
  - intros a Ha. unfold word_at. rewrite !Hm. repeat case_decide; lia || done.
Qed.

(** ** The ring *)

Definition slot (i : Z) : Z := 0x1e + 2 * (i mod 16).

(** The data area [mm] holds the keys [ks], the first at slot [h]. *)
Record ring (mm : Memory.t) (h : Z) (ks : list Z) : Prop := {
  rg_head : 0 <= h < 16 /\ word_at mm 0x41a = slot h;
  rg_tail : word_at mm 0x41c = slot (h + Z.of_nat (length ks));
  rg_keys : forall i k, ks !! i = Some k -> word_at mm (0x400 + slot (h + Z.of_nat i)) = k;
  rg_room : (length ks <= 15)%nat;
}.

Definition board_ring (b : sim_board) (h : Z) (ks : list Z) : Prop := on_bus b /\ ring (ram b) h ks.

Lemma slot_range i : 0x1e <= slot i < 0x3e /\ slot i mod 2 = 0.
Proof. unfold slot. zlia. Qed.

Lemma slot_inj i j : slot i = slot j <-> i mod 16 = j mod 16.
Proof. unfold slot. lia. Qed.

Lemma slot_mod i : slot (i mod 16) = slot i.
Proof. unfold slot. by rewrite Z.mod_mod. Qed.

Lemma slot_next i : next_key (slot i) = slot (i + 1).
Proof.
  unfold next_key, slot. change buffer_end with 0x3e. change buffer_start with 0x1e.
  rewrite cast_id by cpp_lia. destruct (Z.leb_spec 0x3e (0x1e + 2 * (i mod 16) + 2)); zlia.
Qed.

Lemma slot_field i : offset_of (key_at (slot i)) = slot i.
Proof.
  unfold key_at. cbn [offset_of]. change buffer_start with 0x1e. pose proof (slot_range i) as [Hr Hm].
  rewrite cast_id by cpp_lia. zlia.
Qed.

Lemma key_field i : word_field (key_at (slot i)).
Proof. split; [done|]. unfold field_ok. rewrite slot_field. pose proof (slot_range i). lia. Qed.
Lemma head_field : word_field kbd_buffer_head.
Proof. split; [done|]. unfold field_ok. cbn. lia. Qed.
Lemma tail_field : word_field kbd_buffer_tail.
Proof. split; [done|]. unfold field_ok. cbn. lia. Qed.

(** The fullness test. *)
Lemma full_eq h ks b :
  board_ring b h ks -> kbd_buffer_full b = Ok (length ks =? 15)%nat b.
Proof.
  intros [Hb [[Hh Ehead] Etail _ Hroom]]. unfold kbd_buffer_full, mbind, M_bind.
  rewrite (bda_read_eq kbd_buffer_tail b Hb tail_field), (bda_read_eq kbd_buffer_head b Hb head_field).
  unfold bda_word. cbn [offset_of]. change (0x400 + 0x1c) with 0x41c. change (0x400 + 0x1a) with 0x41a.
  rewrite Ehead, Etail. unfold mret, M_ret. f_equal.
  change buffer_start with 0x1e. change buffer_end with 0x3e. pose proof (slot_range h) as [Hr _].
  rewrite (cast_id uint16_t) by cpp_lia. unfold slot.
  destruct (Nat.eqb_spec (length ks) 15) as [El|Hl].
  - rewrite El. change (Z.of_nat 15) with 15. destruct (Z.eqb_spec h 0) as [->|].
    + reflexivity.
    + apply orb_true_iff. left. apply Z.eqb_eq. zlia.
  - apply orb_false_iff. split; [apply Z.eqb_neq; zlia|].
    destruct (Z.eqb_spec (0x1e + 2 * (h mod 16)) 0x1e); [|done]. cbn [andb]. apply Z.eqb_neq. zlia.
Qed.

Lemma bind_led {A} f (g : unit -> sim_bios A) b :
  on_bus b -> ((v ← inw LED_PORT ; outw LED_PORT (f v)) ≫= g) b = g tt b.
Proof. intros Hb. by rewrite (bind_step _ _ _ _ _ (led_eq f b Hb)). Qed.

(** Adding: at the end, or not at all. *)
Lemma buffer_add_eq h ks key b :
  board_ring b h ks -> exists b', kbd_buffer_add key b = Ok tt b' /\
    board_ring b' h (if (length ks =? 15)%nat then ks else ks ++ [u16 key]) /\ devs_of b' = devs_of b.
Proof.
  intros Hring. pose proof (full_eq h ks b Hring) as Efull. pose proof Hring as [Hb [[Hh Ehead] Etail Hkeys Hroom]].
  unfold kbd_buffer_add. rewrite (bind_step _ _ _ _ _ Efull). destruct (Nat.eqb_spec (length ks) 15) as [El|Hl].
  { exists b. split; [by apply led_eq|by split]. }
  unfold led_clear, led_set. rewrite !bind_led by done.
  rewrite (bind_step _ _ _ _ _ (bda_read_eq kbd_buffer_tail b Hb tail_field)).
  change (bda_word b kbd_buffer_tail) with (word_at (ram b) 0x41c). rewrite Etail.
  set (t := h + Z.of_nat (length ks)).
  destruct (bda_write_eq (key_at (slot t)) key b Hb (key_field t)) as (mm1 & E1 & Hw1 & Hsame1 & Hother1).
  rewrite (bind_step _ _ _ _ _ E1). rewrite slot_field in Hsame1, Hother1.
  pose proof (on_bus_ram mm1 b Hw1 Hb) as Hb1.
  destruct (bda_write_eq kbd_buffer_tail (next_key (slot t)) (with_ram mm1 b) Hb1 tail_field)
    as (mm2 & E2 & Hw2 & Hsame2 & Hother2).
  cbn [offset_of] in Hsame2, Hother2. change (ram (with_ram mm1 b)) with mm1 in Hother2.
  change (0x400 + 0x1c) with 0x41c in Hsame2, Hother2. change (0x402 + 0x1c) with 0x41e in Hother2.
  pose proof (slot_range t) as [Ht _].
  exists (with_ram mm2 (with_ram mm1 b)). split; [exact E2|]. split; [|done].
  split; [by apply on_bus_ram|].
  change (ram (with_ram mm2 _)) with mm2.
  split; [split; [done|]| | |rewrite length_app; cbn; lia].
  - rewrite Hother2, Hother1 by lia. done.
  - rewrite Hsame2, slot_next, length_app. cbn [length]. pose proof (slot_range (t + 1)) as [Ht1 _].
    rewrite cast_id by cpp_lia. f_equal. lia.
  - intros i k Ei. pose proof (slot_range (h + Z.of_nat i)) as [Hi Hm]. pose proof (slot_range t) as [_ Hmt].
    apply lookup_lt_Some in Ei as Hlt. rewrite length_app in Hlt. cbn [length] in Hlt.
    rewrite Hother2 by lia. destruct (decide (i = length ks)) as [->|Hne].
    + rewrite lookup_app_r, Nat.sub_diag in Ei by lia. injection Ei as <-. exact Hsame1.
    + rewrite lookup_app_l in Ei by lia. rewrite Hother1; [by apply Hkeys|].
      assert (slot (h + Z.of_nat i) <> slot t) by (rewrite slot_inj; unfold t; zlia). zlia.
Qed.

(** Taking the first out. *)
Lemma buffer_pop_eq h k ks b :
  board_ring b h (k :: ks) -> exists b', kbd_buffer_pop b = Ok tt b' /\ board_ring b' ((h + 1) mod 16) ks /\
    devs_of b' = devs_of b.
Proof.
  intros [Hb [[Hh Ehead] Etail Hkeys Hroom]]. unfold kbd_buffer_pop.
  rewrite (bind_step _ _ _ _ _ (bda_read_eq kbd_buffer_head b Hb head_field)).
  change (bda_word b kbd_buffer_head) with (word_at (ram b) 0x41a). rewrite Ehead, slot_next. cbv zeta.
  destruct (bda_write_eq kbd_buffer_head (slot (h + 1)) b Hb head_field) as (mm & E & Hw & Hsame & Hother).
  cbn [offset_of] in Hsame, Hother. change (0x400 + 0x1a) with 0x41a in *. change (0x402 + 0x1a) with 0x41c in *.
  rewrite (bind_step _ _ _ _ _ E). pose proof (on_bus_ram mm b Hw Hb) as Hb1.
  rewrite (bind_step _ _ _ _ _ (bda_read_eq kbd_buffer_tail _ Hb1 tail_field)).
  exists (with_ram mm b). split.
  { unfold led_clear. case_match; [by apply led_eq|done]. }
  split; [|done]. split; [done|]. change (ram (with_ram mm b)) with mm. pose proof (slot_range (h + 1)) as [Hr _].
  cbn [length] in Etail, Hroom.
  split.
  - split; [zlia|]. rewrite Hsame, slot_mod, cast_id by cpp_lia. done.
  - rewrite Hother, Etail by lia. apply slot_inj. zlia.
  - intros i x Ei. assert (slot ((h + 1) mod 16 + Z.of_nat i) = slot (h + Z.of_nat (S i))) as ->
      by (apply slot_inj; zlia).
    pose proof (slot_range (h + Z.of_nat (S i))) as [Hi _]. rewrite Hother by lia. by apply Hkeys.
  - lia.
Qed.

(** Looking at the first without polling. *)
Lemma buffer_peek_eq h k ks b : board_ring b h (k :: ks) -> kbd_buffer_peek b = Ok k b.
Proof.
  intros [Hb [[Hh Ehead] Etail Hkeys Hroom]]. cbn [length] in *. unfold kbd_buffer_peek.
  rewrite (bind_step _ _ _ _ _ (bda_read_eq kbd_buffer_head b Hb head_field)).
  rewrite (bind_step _ _ _ _ _ (bda_read_eq kbd_buffer_tail b Hb tail_field)).
  change (bda_word b kbd_buffer_head) with (word_at (ram b) 0x41a).
  change (bda_word b kbd_buffer_tail) with (word_at (ram b) 0x41c). rewrite Ehead, Etail.
  assert (slot h <> slot (h + Z.of_nat (S (length ks)))) as Hne by (rewrite slot_inj; zlia).
  apply Z.eqb_neq in Hne. rewrite Hne. rewrite (bind_step (mret ()) _ b tt b eq_refl).
  rewrite bda_read_eq by (done || apply key_field). unfold bda_word. rewrite slot_field.
  specialize (Hkeys 0%nat k eq_refl). rewrite Z.add_0_r in Hkeys. by rewrite Hkeys.
Qed.

(** ** The calls of a program *)

Lemma status_eq_key h k ks r b :
  board_ring b h (k :: ks) -> k <> 0 ->
  keyboard_status r b = Ok (put_ax k (lower_flag ZF (lower_flag CF r))) b.
Proof.
  intros Hring Hk. pose proof (buffer_peek_eq h k ks b Hring) as E. unfold keyboard_status. cbv zeta.
  pose proof (proj2 (nz_true k) Hk) as Hnz.
  rewrite (bind_step _ _ _ _ _ E), Hnz. rewrite (bind_step (mret ()) _ b tt b eq_refl).
  cbn [negb andb]. rewrite (bind_step (mret ()) _ b tt b eq_refl).
  by rewrite (bind_step _ _ _ _ _ E), Hnz.
Qed.

(** What keeps the memory keeps the ring. *)
Lemma ring_frame P b b' h ks :
  frame P b b' -> (forall a, P a -> ~ 0x41a <= a < 0x43e) -> board_ring b h ks -> board_ring b' h ks.
Proof.
  intros F HP [Hb [[Hh Ehead] Etail Hkeys Hroom]]. split; [apply F|].
  assert (H : forall a, 0x41a <= a -> a + 2 <= 0x43e -> word_at (ram b') a = word_at (ram b) a).
  { intros a H0 H1. unfold word_at. rewrite !(fr_ram _ _ _ F); [done|..]; intros Ha; apply (HP _ Ha); lia. }
  split; [split; [done|by rewrite H]|by rewrite H| |done].
  intros i k Ei. pose proof (slot_range (h + Z.of_nat i)) as [Hr Hm]. rewrite H by zlia. by apply Hkeys.
Qed.

(** ** The start-up *)

Lemma bda_write_byte f v b :
  on_bus b -> field_type f = uint8_t -> field_ok f -> exists mm,
    bda_write f v b = Ok tt (with_ram mm b) /\ Memory.wf mm /\
    Memory.byte_at mm (0x400 + offset_of f) = u8 v /\
    forall a, a <> 0x400 + offset_of f -> Memory.byte_at mm a = Memory.byte_at (ram b) a.
Proof.
  intros Hb Ht Hf. unfold bda_write. rewrite Ht, writeb_eq, (bda_phys f Hf). eexists. split; [reflexivity|].
  split; [apply wf_put8; [apply Hb|rewrite <- (bda_phys f Hf); apply phys_range]|].
  split; [|intros a Ha]; rewrite byte_at_put8; by case_decide.
Qed.

Lemma flags_field i : 0 <= i < 2 -> field_type (keyboard_flags i) = uint8_t /\ field_ok (keyboard_flags i).
Proof. intros Hi. split; [done|]. unfold field_ok. cbn. lia. Qed.

Lemma tame_keyboard_reset : tame nowhere keyboard_reset.
Proof. unfold keyboard_reset. apply tame_bind; [apply tame_inb|intros v; by apply tame_outb]. Qed.

Lemma ring_empty mm h : 0 <= h < 16 -> word_at mm 0x41a = slot h -> word_at mm 0x41c = slot h -> ring mm h [].
Proof. intros Hh H1 H2. split; [done|by rewrite Z.add_0_r|done|cbn; lia]. Qed.

Lemma keyboard_init_ring b :
  on_bus b -> pic_idle b -> exists b', keyboard_init b = Ok tt b' /\ board_ring b' 0 [] /\ frame screen b b'.
Proof.
  intros Hb Hi. destruct (keyboard_init_eq b Hb Hi) as (b' & E & F). exists b'. split; [exact E|].
  split; [|exact F]. clear F.
  destruct (bda_write_byte (keyboard_flags 0) 0 b Hb) as (m1 & E1 & W1 & _ & _); [by apply flags_field..|].
  set (b1 := with_ram m1 b) in *. pose proof (on_bus_ram m1 b W1 Hb) as Hb1.
  destruct (bda_write_byte (keyboard_flags 1) 0 b1 Hb1) as (m2 & E2 & W2 & _ & _); [by apply flags_field..|].
  set (b2 := with_ram m2 b1) in *. pose proof (on_bus_ram m2 b1 W2 Hb1) as Hb2.
  destruct (bda_write_eq kbd_buffer_tail buffer_start b2 Hb2 tail_field) as (m3 & E3 & W3 & S3 & _).
  set (b3 := with_ram m3 b2) in *. pose proof (on_bus_ram m3 b2 W3 Hb2) as Hb3.
  destruct (bda_write_eq kbd_buffer_head buffer_start b3 Hb3 head_field) as (m4 & E4 & W4 & S4 & O4).
  set (b4 := with_ram m4 b3) in *. pose proof (on_bus_ram m4 b3 W4 Hb3) as Hb4.
  destruct (tame_keyboard_reset b4 Hb4 I) as ([] & b5 & E5 & F5).
  destruct (irq_enable_eq 1 b5) as (b6 & E6 & F6); [apply F5|unfold pic_idle; by rewrite (fr_pic _ _ _ F5)|].
  unfold keyboard_init in E. rewrite (bind_step _ _ _ _ _ E1), (bind_step _ _ _ _ _ E2),
    (bind_step _ _ _ _ _ E3), (bind_step _ _ _ _ _ E4), (bind_step _ _ _ _ _ E5), E6 in E. injection E as <-.
  apply (ring_frame nowhere b5 b6 0 [] F6); [done|]. apply (ring_frame nowhere b4 b5 0 [] F5); [done|].
  split; [exact Hb4|]. change (ram b4) with m4. apply ring_empty; [lia|exact S4|].
  rewrite O4 by (cbn; lia). change (ram b3) with m3. exact S3.
Qed.

(** ** The keyboard and the serial port *)

Definition kbd_queue (b : sim_board) : list Z := PS2.pending (kbd (devs_of b)).
Definition serial_queue (b : sim_board) : list Z := UART.charbuf (uart (devs_of b)).

(** From [b] to [b'], the devices of [b'] being [d], nothing else changes. *)
Definition only_devices (b b' : sim_board) (d : devices) : Prop :=
  on_bus b' /\ ram b' = ram b /\ devs_of b' = d /\ vars b' = vars b.

Lemma ring_devices b b' d h ks : only_devices b b' d -> board_ring b h ks -> board_ring b' h ks.
Proof. intros (Hb & Hr & _) [_ H]. split; [done|by rewrite Hr]. Qed.

Lemma devices_trans b b1 b2 d1 d2 : only_devices b b1 d1 -> only_devices b1 b2 d2 -> only_devices b b2 d2.
Proof. intros (_ & H1 & H2 & H3) (Hb & H4 & H5 & H6). split; [exact Hb|]. split_and!; congruence. Qed.

Lemma inb_device port p v d b :
  on_bus b -> port_device port = Some p ->
  ioport_read8 p (port_number port p) (port_offset port) (devs_of b) = Ok (v, []) d ->
  exists b', inb port b = Ok (u8 v) b' /\ only_devices b b' d.
Proof.
  intros Hb Hp E. rewrite inb_eq, Hp by done.
  destruct (call_device_eq _ snd _ _ b Hb E) as (b' & E' & H). exists b'. split; [|exact H].
  by rewrite (bind_step _ _ _ _ _ E').
Qed.

Lemma outb_device port p v d b :
  on_bus b -> port_device port = Some p ->
  ioport_write8 p (port_number port p) (port_offset port) (u8 (u8 v)) (devs_of b) = Ok [] d ->
  exists b', outb port v b = Ok tt b' /\ only_devices b b' d.
Proof.
  intros Hb Hp E. rewrite outb_eq, Hp by done.
  destruct (call_device_eq _ id _ _ b Hb E) as (b' & E' & H). exists b'. split; [|exact H].
  by rewrite (bind_step _ _ _ _ _ E').
Qed.

Lemma set_kbd_same d : set_kbd (kbd d) d = d.
Proof. by destruct d. Qed.
Lemma set_uart_same d : set_uart (uart d) d = d.
Proof. by destruct d. Qed.

(** The data port shows the first byte, and leaves it. *)
Lemma read_scancode b :
  on_bus b -> exists b', inb PS2_DATA_PORT b = Ok (u8 (hd 0 (kbd_queue b))) b' /\ only_devices b b' (devs_of b).
Proof.
  intros Hb. apply (inb_device _ 5%nat); [done..|].
  change (ioport_read8 5%nat _ _) with (quietly (on_member kbd set_kbd (PS2.read8 Keyboard.read_pops 0 0))).
  unfold quietly, on_member, PS2.read8, mbind, M_bind, gets, id, kbd_queue. cbn.
  destruct (PS2.pending (kbd (devs_of b))); cbn; by rewrite set_kbd_same.
Qed.

Lemma clear_scancodes b :
  on_bus b -> exists b', keyboard_reset b = Ok tt b' /\ only_devices b b' (set_kbd (PS2.mk []) (devs_of b)).
Proof.
  intros Hb. unfold keyboard_reset.
  destruct (inb_device PS2_CTRL_PORT 5%nat (match kbd_queue b with [] => 0 | _ => 16 end) (devs_of b) b)
    as (b1 & E1 & H1); [done..| |].
  { change (ioport_read8 5%nat _ _) with (quietly (on_member kbd set_kbd (PS2.read8 Keyboard.read_pops 0 1))).
    unfold quietly, on_member, PS2.read8, mbind, M_bind, gets, kbd_queue. cbn.
    destruct (PS2.pending _); cbn; by rewrite set_kbd_same. }
  rewrite (bind_step _ _ _ _ _ E1).
  set (v := _ .| KBD_PS2_CTRL_CLEAR).
  assert (Hv : nz (u8 (u8 v) .& PS2.ps2_ctrl_clear) = true) by (unfold v; by destruct (kbd_queue b)).
  destruct (outb_device PS2_CTRL_PORT 5%nat v (set_kbd (PS2.mk []) (devs_of b)) b1) as (b2 & E2 & H2);
    [apply H1|done| |exists b2; split; [exact E2|by eapply devices_trans]].
  destruct H1 as (_ & _ & -> & _).
  change (ioport_write8 5%nat _ _ ?z) with (snd <$> quietly (on_member kbd set_kbd (PS2.write8 0 1 z))).
  unfold fmap, M_fmap, quietly, on_member, PS2.write8, mbind, M_bind. rewrite Hv. cbn.
  by destruct (kbd (devs_of b)) as [[]].
Qed.

Lemma serial_idle b :
  on_bus b -> serial_queue b = [] -> exists b', serial_poll b = Ok false b' /\ only_devices b b' (devs_of b).
Proof.
  intros Hb Hs. unfold serial_poll.
  destruct (inb_device UART_STATUS_PORT 1%nat 0 (devs_of b) b) as (b1 & E1 & H1); [done..| |].
  { change (ioport_read8 1%nat _ _) with (quietly (on_member uart set_uart (UART.read8 0 1))).
    unfold quietly, on_member, UART.read8, mbind, M_bind, gets. cbn. unfold serial_queue in Hs. rewrite Hs.
    by rewrite set_uart_same. }
  exists b1. split; [|exact H1]. by rewrite (bind_step _ _ _ _ _ E1).
Qed.

(** ** A key pressed *)

Definition key_word (k : Z) : bool := (0 <=? k) && (k <? 0x10000).

Lemma keycode_words code :
  let def := keycode_map code in
  key_word (shifted def) && key_word (ctrl def) && key_word (alt def) && key_word (normal def) = true.
Proof.
  cbv zeta. unfold keycode_map. destruct (find _ _) as [e|] eqn:E; [|done]. apply find_some in E as [E _].
  assert (H : forallb (fun e => let def := snd e in
    key_word (shifted def) && key_word (ctrl def) && key_word (alt def) && key_word (normal def)) keycode_entries = true)
    by (vm_compute; reflexivity).
  rewrite forallb_forall in H. exact (H e E).
Qed.

(** The code that the table gives, by the shift flags of the data area. *)
Definition key_for (flags code : Z) : option Z :=
  let def := keycode_map code in
  if nz (flags .& KBD_FLAG_LSHIFT) && nz (shifted def) then Some (shifted def)
  else if nz (flags .& KBD_FLAG_LCTRL) && nz (ctrl def) then Some (ctrl def)
  else if nz (flags .& KBD_FLAG_LALT) && nz (alt def) then Some (alt def)
  else if nz (normal def) then Some (normal def) else None.

Lemma key_for_word flags code k : key_for flags code = Some k -> 0 < k < 0x10000.
Proof.
  unfold key_for. pose proof (keycode_words code) as H. cbv zeta in H. unfold key_word in H.
  rewrite !andb_true_iff, !Z.leb_le, !Z.ltb_lt in H. cbv zeta.
  repeat case_match; intros [= <-]; repeat match goal with
    | H : _ && _ = true |- _ => apply andb_true_iff in H as [_ H]
    | H : nz _ = true |- _ => apply nz_true in H end; lia.
Qed.

(** The ring with one more key, if there is room. *)
Definition add_key (ks : list Z) (key : Z) : list Z := if (length ks =? 15)%nat then ks else ks ++ [u16 key].

Definition shift_flags (b : sim_board) : Z := Memory.byte_at (ram b) 0x417.

(** The scan codes of keys that go down and are not shifts. *)
Definition plain_code (code : Z) : Prop :=
  0 < code < 0x80 /\ is_modifier code = false.

Lemma keypress_eq code h ks b :
  board_ring b h ks -> exists b', keypress code b = Ok tt b' /\
    board_ring b' h (match key_for (shift_flags b) code with Some k => add_key ks k | None => ks end) /\
    devs_of b' = devs_of b.
Proof.
  intros Hring. unfold keypress, get_kbd_flags. cbv zeta.
  assert (E : bda_read (keyboard_flags 0) b = Ok (shift_flags b) b) by (apply readb_eq, Hring).
  rewrite (bind_step _ _ _ _ _ E). unfold key_for, add_key.
  repeat (case_match; [by apply buffer_add_eq|]). by exists b.
Qed.

Lemma poll_key code q h ks b :
  board_ring b h ks -> kbd_queue b = code :: q -> plain_code code ->
  exists b', keyboard_poll b = Ok true b' /\
    board_ring b' h (match key_for (shift_flags b) code with Some k => add_key ks k | None => ks end) /\
    devs_of b' = set_kbd (PS2.mk []) (devs_of b).
Proof.
  intros Hring Hq [Hc Hmod]. destruct (read_scancode b) as (b1 & E1 & H1); [apply Hring|].
  destruct (clear_scancodes b1) as (b2 & E2 & H2); [apply H1|]. pose proof (devices_trans _ _ _ _ _ H1 H2) as H12.
  destruct (keypress_eq code h ks b2) as (b3 & E3 & Hr3 & Hd3); [by eapply ring_devices|].
  rewrite Hq in E1. cbn [hd] in E1. rewrite (cast_id uint8_t) in E1 by cpp_lia.
  assert (Hs : shift_flags b2 = shift_flags b) by (unfold shift_flags; f_equal; apply H12). rewrite Hs in Hr3.
  exists b3. split; [|split; [exact Hr3|rewrite Hd3; destruct H12 as (_ & _ & -> & _);
    destruct H1 as (_ & _ & -> & _); done]].
  unfold keyboard_poll. rewrite (bind_step _ _ _ _ _ E1). rewrite (proj2 (nz_true code)) by lia. cbn [negb].
  unfold keyboard_reset in E2. revert E2. unfold mbind at 1 2, M_bind at 1 2.
  destruct (inb PS2_CTRL_PORT b1) as [v b1'|]; [|done]. intros E2.
  rewrite (bind_step _ _ _ _ _ E2). cbv zeta. rewrite Hmod, (nz_land_bit code _ 7) by done.
  assert (Z.testbit code 7 = false) as ->.
  { apply (testbit_high 7); [change (2 ^ 7) with 128|]; lia. }
  cbn [negb andb]. assert ((code <? keycode_map_size) = true) as -> by (apply Z.ltb_lt; unfold keycode_map_size; lia).
  by rewrite (bind_step _ _ _ _ _ E3).
Qed.

Lemma poll_idle b :
  on_bus b -> kbd_queue b = [] -> exists b', keyboard_poll b = Ok false b' /\ only_devices b b' (devs_of b).
Proof.
  intros Hb Hq. destruct (read_scancode b Hb) as (b1 & E1 & H1). rewrite Hq in E1. exists b1.
  split; [|exact H1]. unfold keyboard_poll. by rewrite (bind_step _ _ _ _ _ E1).
Qed.

Lemma poll_while_idle n (f : sim_bios bool) b b' : (1 <= n)%nat -> f b = Ok false b' -> while_true n f b = Ok tt b'.
Proof. intros Hn E. destruct n; [lia|]. cbn [while_true]. by rewrite (bind_step _ _ _ _ _ E). Qed.

Lemma poll_while_once n (f : sim_bios bool) b b1 b2 :
  (2 <= n)%nat -> f b = Ok true b1 -> f b1 = Ok false b2 -> while_true n f b = Ok tt b2.
Proof.
  intros Hn E1 E2. destruct n; [lia|]. cbn [while_true]. rewrite (bind_step _ _ _ _ _ E1).
  apply poll_while_idle; [lia|exact E2].
Qed.

(** With no key in the ring, looking at it takes the one that waits in the
    controller, and still answers that there is none. *)
Lemma peek_poll code q h b :
  (2 <= poll_bound)%nat -> board_ring b h [] -> kbd_queue b = code :: q -> plain_code code ->
  exists b', kbd_buffer_peek b = Ok 0 b' /\
    board_ring b' h (match key_for (shift_flags b) code with Some k => add_key [] k | None => [] end) /\
    devs_of b' = set_kbd (PS2.mk []) (devs_of b).
Proof.
  intros Hp Hring Hq Hc. pose proof Hring as [Hb [[_ Ehead] Etail _ _]]. cbn in Etail. rewrite Z.add_0_r in Etail.
  destruct (poll_key code q h [] b Hring Hq Hc) as (b1 & E1 & Hr1 & Hd1).
  destruct (poll_idle b1) as (b2 & E2 & H2); [apply Hr1|unfold kbd_queue; by rewrite Hd1|].
  exists b2. split; [|split; [by eapply ring_devices|destruct H2 as (_ & _ & -> & _); exact Hd1]].
  unfold kbd_buffer_peek. rewrite (bind_step _ _ _ _ _ (bda_read_eq kbd_buffer_head b Hb head_field)).
  rewrite (bind_step _ _ _ _ _ (bda_read_eq kbd_buffer_tail b Hb tail_field)).
  change (bda_word b kbd_buffer_head) with (word_at (ram b) 0x41a).
  change (bda_word b kbd_buffer_tail) with (word_at (ram b) 0x41c). rewrite Ehead, Etail, Z.eqb_refl.
  by rewrite (bind_step _ _ _ _ _ (poll_while_once poll_bound keyboard_poll b b1 b2 Hp E1 E2)).
Qed.

Context (Hpoll : (2 <= poll_bound)%nat).

Lemma wait_eq_key h k ks r b :
  board_ring b h (k :: ks) -> k <> 0 -> exists b', keyboard_wait r b = Ok (put_ax k (lower_flag CF r)) b' /\
    board_ring b' ((h + 1) mod 16) ks /\ devs_of b' = devs_of b.
Proof using Hpoll.
  intros Hring Hk. destruct (buffer_pop_eq h k ks b Hring) as (b' & E & Hring'). exists b'. split; [|done].
  unfold keyboard_wait. cbv zeta.
  assert (Ew : wait_key poll_bound b = Ok k b).
  { destruct poll_bound as [|n]; [lia|]. cbn [wait_key].
    rewrite (bind_step _ _ _ _ _ (buffer_peek_eq h k ks b Hring)).
    rewrite (proj2 (nz_true k) Hk). done. }
  rewrite (bind_step _ _ _ _ _ Ew). by rewrite (bind_step _ _ _ _ _ E).
Qed.


(** A program that waits takes the key that waits in the controller. *)
Lemma wait_eq_poll code q h k r b :
  board_ring b h [] -> kbd_queue b = code :: q -> serial_queue b = [] -> plain_code code ->
  key_for (shift_flags b) code = Some k ->
  exists b', keyboard_wait r b = Ok (put_ax k (lower_flag CF r)) b' /\ board_ring b' ((h + 1) mod 16) [] /\
    kbd_queue b' = [].
Proof using Hpoll.
  intros Hring Hq Hs Hc Hk. pose proof (key_for_word _ _ _ Hk) as Hr.
  destruct (peek_poll code q h b Hpoll Hring Hq Hc) as (b1 & E1 & Hr1 & Hd1). rewrite Hk in Hr1.
  change (add_key [] k) with [u16 k] in Hr1. rewrite cast_id in Hr1 by cpp_lia.
  assert (exists b2, (if SERIAL_STDIO then serial_poll ;; mret () else mret ()) b1 = Ok tt b2 /\
    only_devices b1 b2 (devs_of b1)) as (b2 & E2 & H2).
  { destruct SERIAL_STDIO; [|exists b1; split; [done|split; [apply Hr1|done]]].
    destruct (serial_idle b1) as (b2 & E2 & H2); [apply Hr1|unfold serial_queue; by rewrite Hd1|].
    exists b2. split; [|exact H2]. by rewrite (bind_step _ _ _ _ _ E2). }
  destruct (poll_idle b2) as (b3 & E3 & H3);
    [apply H2|unfold kbd_queue; destruct H2 as (_ & _ & -> & _); by rewrite Hd1|].
  pose proof (devices_trans _ _ _ _ _ H2 H3) as H23. destruct H2 as (_ & _ & Hd2 & _).
  assert (Hr3 : board_ring b3 h [k]) by (by eapply ring_devices).
  destruct (buffer_pop_eq h k [] b3 Hr3) as (b4 & E4 & Hr4 & Hd4). exists b4. split; [|split; [exact Hr4|]].
  - unfold keyboard_wait. cbv zeta. assert (Ew : wait_key poll_bound b = Ok k b3).
    { destruct poll_bound as [|[|n]] eqn:Epoll; [lia..|]. cbn [wait_key].
      rewrite (bind_step _ _ _ _ _ E1). cbn [nz Z.eqb negb].
      assert (E23 : ((if SERIAL_STDIO then serial_poll ;; mret () else mret ()) ;; poll_while keyboard_poll) b1 = Ok tt b3).
      { rewrite (bind_step _ _ _ _ _ E2). unfold poll_while. apply poll_while_idle; [lia|exact E3]. }
      rewrite (bind_step _ _ _ _ _ E23).
      rewrite (bind_step _ _ _ _ _ (buffer_peek_eq h k [] b3 Hr3)). by rewrite (proj2 (nz_true k)) by lia. }
    rewrite (bind_step _ _ _ _ _ Ew). by rewrite (bind_step _ _ _ _ _ E4).
  - unfold kbd_queue. destruct H23 as (_ & _ & H23 & _). by rewrite Hd4, H23, Hd2, Hd1.
Qed.

(** An event of SDL, handed to the keyboard of the board. *)
Definition key_down (sym : Keyboard.keycode) : sim_bios (list Z) :=
  on_hw (call_device (process_event (Some (SDL_KEY false sym))) id).

Lemma key_down_eq sym b :
  on_bus b -> exists irqs b' p', key_down sym b = Ok irqs b' /\
    only_devices b b' (set_kbd (PS2.mk (kbd_queue b ++ map u8 (scancodes sym false))) (set_pic p' (devs_of b))).
Proof using.
  intros Hb. unfold key_down.
  destruct (edges_ok Keyboard.irq_num (length (scancodes sym false)) (pic (devs_of b))) as (irqs & p' & E).
  assert (Ev : process_event (Some (SDL_KEY false sym)) (devs_of b) =
    Ok irqs (set_kbd (PS2.mk (kbd_queue b ++ map u8 (scancodes sym false))) (set_pic p' (devs_of b)))).
  { unfold process_event, with_pic. by rewrite process_event_eq, add_bytes_eq, E. }
  destruct (call_device_eq _ id _ _ b Hb Ev) as (b' & E' & H). by exists irqs, b', p'.
Qed.
End ring.

(** ** The properties *)

Section properties.
Context {CFG : Config} {BC : BiosConfig}.

(** C33. The ring of keys in the data area is a queue that holds fifteen: it
    is empty after [keyboard_init], a key is added at its end or dropped when
    it is full, the first key is what [kbd_buffer_peek] sees, what INT 16h
    (AH = 0 and 1) hands to the program in AX, and what [kbd_buffer_pop] takes
    out. *)
Theorem keyboard_ring (Hpoll : (2 <= poll_bound)%nat) b h ks :
  board_ring b h ks ->
  (pic_idle b -> exists b', keyboard_init b = Ok tt b' /\ board_ring b' 0 []) /\
  kbd_buffer_full b = Ok (length ks =? 15)%nat b /\
  (forall key, exists b', kbd_buffer_add key b = Ok tt b' /\ board_ring b' h (add_key ks key)) /\
  forall k rest, ks = k :: rest ->
    kbd_buffer_peek b = Ok k b /\
    (exists b', kbd_buffer_pop b = Ok tt b' /\ board_ring b' ((h + 1) mod 16) rest) /\
    (k <> 0 -> forall es r,
      (hi (r_ax r) = 0 -> exists b', bios_interrupt 0x16 es r b = Ok (put_ax k (lower_flag CF (raise_flag CF r))) b' /\
        board_ring b' ((h + 1) mod 16) rest) /\
      (hi (r_ax r) = 1 ->
        bios_interrupt 0x16 es r b = Ok (put_ax k (lower_flag ZF (lower_flag CF (raise_flag CF r)))) b)).
Proof.
  intros H. split; [|split; [by apply (full_eq h)|split]].
  - intros Hi. destruct (keyboard_init_ring b) as (b' & E & Hr & _); [apply H|done|]. by exists b'.
  - intros key. destruct (buffer_add_eq h ks key b H) as (b' & E & Hr & _). by exists b'.
  - intros k rest ->. split; [by eapply buffer_peek_eq|]. split.
    + destruct (buffer_pop_eq h k rest b H) as (b' & E & Hr & _). by exists b'.
    + intros Hk es r. unfold bios_interrupt, keyboard_services. split; intros Hah;
        change (hi (r_ax (raise_flag CF r))) with (hi (r_ax r)); rewrite Hah.
      * destruct (wait_eq_key Hpoll h k rest (raise_flag CF r) b H Hk) as (b' & E & Hr & _). by exists b'.
      * by apply status_eq_key with (h := h) (ks := rest).
Qed.

(** C4. A key pressed on the host reaches the program. The scan code that the
    keyboard queues for the event is what INT 16h takes from the controller,
    turns into the word of [keycode_map] for the shift flags, and returns in
    AX; the queue and the ring are empty afterwards. *)
Theorem key_press_reaches_program (Hpoll : (2 <= poll_bound)%nat) sym code k es r b h :
  board_ring b h [] -> kbd_queue b = [] -> serial_queue b = [] ->
  scancodes sym false = [code] -> plain_code code -> key_for (shift_flags b) code = Some k ->
  hi (r_ax r) = 0 ->
  exists irqs b1 b2, key_down sym b = Ok irqs b1 /\
    bios_interrupt 0x16 es r b1 = Ok (put_ax k (lower_flag CF (raise_flag CF r))) b2 /\
    board_ring b2 ((h + 1) mod 16) [] /\ kbd_queue b2 = [].
Proof.
  intros Hring Hq Hs Hsym Hc Hk Hah. destruct (key_down_eq sym b) as (irqs & b1 & p' & E1 & H1); [apply Hring|].
  destruct (wait_eq_poll Hpoll code [] h k (raise_flag CF r) b1) as (b2 & E2 & Hr2 & Hq2); try done.
  - by eapply ring_devices.
  - destruct H1 as (_ & _ & H1 & _). unfold kbd_queue at 1. rewrite H1, Hq, Hsym. cbn.
    rewrite cast_id; [done|]. destruct Hc. cpp_lia.
  - destruct H1 as (_ & _ & H1 & _). unfold serial_queue. by rewrite H1.
  - unfold shift_flags. destruct H1 as (_ & -> & _). exact Hk.
  - exists irqs, b1, b2. split; [exact E1|]. split; [|done].
    unfold bios_interrupt, keyboard_services. change (hi (r_ax (raise_flag CF r))) with (hi (r_ax r)). by rewrite Hah.
Qed.

End properties.

(** A board whose ring holds the codes [codes] from its first slot. *)
Definition ring_bytes (codes : list Z) : list (Z * Z) :=
  [(0x41a, 0x1e); (0x41c, 0x1e + 2 * Z.of_nat (length codes))] ++
  concat (imap (fun i k => [(0x41e + 2 * Z.of_nat i, lo k); (0x41f + 2 * Z.of_nat i, hi k)]) codes).

Definition ring_board {CFG : Config} (codes : list Z) : sim_board :=
  with_ram (foldl (fun m e => put8 m (fst e) (snd e)) (ram (bench_board [])) (ring_bytes codes)) (bench_board []).

#[local] Instance bench_config : Config := default_config.
#[local] Existing Instance bench_bios.

Lemma wf_put_all l m :
  Memory.wf m -> (forall e, e ∈ l -> 0 <= fst e < Memory.MEMORY_SIZE) ->
  Memory.wf (foldl (fun m e => put8 m (fst e) (snd e)) m l).
Proof.
  revert m. induction l as [|e l IH]; intros m Hm Hl; [exact Hm|]. cbn [foldl]. apply IH.
  - apply wf_put8; [exact Hm|]. apply Hl. by left.
  - intros e' He. apply Hl. by right.
Qed.

Lemma ring_board_on_bus l : (length l <= 15)%nat -> on_bus (ring_board l).
Proof.
  intros Hl. apply on_bus_ram; [|apply bench_on_bus]. apply wf_put_all; [apply bench_on_bus|].
  unfold ring_bytes, Memory.MEMORY_SIZE. intros e He. apply elem_of_app in He as [He|He].
  { set_unfold in He. destruct_or! He; subst e; cbn; lia. }
  apply list_elem_of_In, in_concat in He as (x & Hx & He). apply list_elem_of_In, elem_of_lookup_imap in Hx as (i & y & -> & Hi).
  apply lookup_lt_Some in Hi. destruct He as [<-|[<-|[]]]; cbn; lia.
Qed.

(** A program that waits, with the letter a in the ring. *)
Lemma keyboard_ring_witness :
  board_ring (ring_board [0x1e61]) 0 [0x1e61] /\
  exists b', bios_interrupt 0x16 0 (bench_regs 0 0 0 0 0) (ring_board [0x1e61]) =
    Ok (bench_regs 0x1e61 0 0 0 0) b' /\ board_ring b' 1 [].
Proof.
  assert (Hp : (2 <= poll_bound)%nat) by (cbn [poll_bound bench_bios]; lia).
  assert (H : board_ring (ring_board [0x1e61]) 0 [0x1e61]).
  { split; [apply ring_board_on_bus; cbn; lia|]. split; [split; [lia|by vm_compute]|by vm_compute| |cbn; lia].
    intros [|[]] k [= <-]. by vm_compute. }
  split; [exact H|]. destruct (keyboard_ring Hp _ 0 [0x1e61] H) as (_ & _ & _ & Hkey).
  destruct (Hkey 0x1e61 [] eq_refl) as (_ & _ & Hcall).
  destruct (Hcall ltac:(done) 0 (bench_regs 0 0 0 0 0)) as [Hwait _].
  destruct (Hwait eq_refl) as (b' & E & Hr). exists b'. by split.
Defined.

(** The letter a, with the shift key down. *)
Lemma key_press_reaches_program_witness :
  let b := with_ram (put8 (ram (ring_board [])) 0x417 KBD_FLAG_LSHIFT) (ring_board []) in
  exists irqs b1 b2, key_down Keyboard.SDLK_a b = Ok irqs b1 /\
    bios_interrupt 0x16 0 (bench_regs 0 0 0 0 0) b1 = Ok (bench_regs 0x1e41 0 0 0 0) b2 /\ kbd_queue b2 = [].
Proof.
  cbv zeta. set (b := with_ram _ _).
  assert (Hp : (2 <= poll_bound)%nat) by (cbn [poll_bound bench_bios]; lia).
  assert (Hb : on_bus (ring_board [])) by (apply ring_board_on_bus; cbn; lia).
  assert (H : board_ring b 0 []).
  { split; [apply on_bus_ram; [apply wf_put8; [apply Hb|unfold Memory.MEMORY_SIZE; lia]|exact Hb]|].
    apply ring_empty; [lia|by vm_compute..]. }
  destruct (key_press_reaches_program Hp Keyboard.SDLK_a 0x1e 0x1e41 0 (bench_regs 0 0 0 0 0) b 0 H)
    as (irqs & b1 & b2 & E1 & E2 & _ & Hq); [by vm_compute..|].
  exists irqs, b1, b2. split; [exact E1|]. by split.
Defined.
